(** * pgdump-offline: a shallow embedding of the offline storage decoder

    The development follows the Go sources of the [pgdump] package.  Every
    definition below is a transcription of the Go function of the same name;
    the theorems further down state what the natural-language specification
    says about those functions.

    Conventions.
    - A Go [[]byte] is a [list byte]; a byte is read as a number with [byteZ].
    - Go's [int] is taken to be 64 bits wide; the fixed-width unsigned types
      are integers of [Z] kept in range by the decoders that produce them.
    - A slice expression [data[a:b]] that the source guards with a length
      test is [take (b - a) (drop a data)].
    - A Go function returning [(T, error)] returns a sum type here; a
      function whose loops need an iteration budget, or that can stop with a
      run-time panic, returns a [run] (see below). *)

From Stdlib Require Import ZArith List String Ascii Lia Bool Permutation Sorted.
From Stdlib Require Import Strings.Byte.
From stdpp Require Import base option list gmap strings.

Local Open Scope Z_scope.

(** ** Bytes and little-endian decoding *)

Abbreviation byte := Byte.byte.

Definition byteZ (b : byte) : Z := Z.of_N (Byte.to_N b).

(** [mkbyte] builds a byte from its number (numbers above 255 give 0); it is
    only used to write test buffers down. *)
Definition mkbyte (n : Z) : byte :=
  match Byte.of_N (Z.to_N n) with
  | Some b => b
  | None => Byte.x00
  end.

Definition mkbytes (l : list Z) : list byte := map mkbyte l.

Definition len {A} (l : list A) : Z := Z.of_nat (length l).

(** [binary.LittleEndian.UintN(b)] for a slice [b] of exactly N/8 bytes. *)
Fixpoint le_decode (bs : list byte) : Z :=
  match bs with
  | [] => 0
  | b :: rest => byteZ b + 256 * le_decode rest
  end.

(** [data[a : a+n]] followed by the little-endian read of the slice. *)
Definition le_at (data : list byte) (a n : nat) : Z :=
  le_decode (take n (drop a data)).

Definition Uint16_at (data : list byte) (a : nat) : Z := le_at data a 2.
Definition Uint32_at (data : list byte) (a : nat) : Z := le_at data a 4.
Definition Uint64_at (data : list byte) (a : nat) : Z := le_at data a 8.

(** Modelled from the spec: the byte primitives [u16] and [u64] of the package
    are not among the sources.  The specification gives their contract: "read
    little-endian at a given offset with bounds checking, returning zero if
    out of range". *)
Definition u_at (w : nat) (data : list byte) (off : Z) : Z :=
  if (off <? 0) || (len data <? off + Z.of_nat w) then 0
  else le_at data (Z.to_nat off) w.

Definition u16 := u_at 2.
Definition u64 := u_at 8.

(** Conversion [int32(x)] of a [uint32]. *)
Definition int32_of_uint32 (u : Z) : Z :=
  if u <? 2 ^ 31 then u else u - 2 ^ 32.

(** Modelled from the spec: [align] is not among the sources; the
    specification says "[align(offset, n)] rounds up to a multiple of [n]". *)
Definition align (offset n : Z) : Z := (offset + n - 1) / n * n.

(** Modelled from the spec: the constants [PageSize], [headerSize] and
    [itemIDSize] are declared in a file that is not among the sources; the
    specification fixes them (page 8192 bytes, page header 24 bytes, item
    pointer 4 bytes). *)
Definition PageSize : Z := 8192.
Definition headerSize : Z := 24.
Definition itemIDSize : Z := 4.

(** ** The OID <-> filenode map ([relmap.go]) *)

Module RelMap.

Definition RelMapMagic : Z := 0x592717.
Definition RelMapMaxMappings : Z := 62.

Record RelMapping := { OID : Z; Filenode : Z }.

Record RelMapFile := {
  Magic : Z;
  NumMappings : Z;
  Mappings : list RelMapping;
  CRC : Z;
  IsGlobal : bool;
  Path : string
}.

Inductive RelMapError :=
| ErrTooSmall (n : Z)
| ErrInvalidMagic (magic : Z)
| ErrInvalidCount (n : Z).

(** The loop [for i := int32(0); i < rm.NumMappings; i++] with its running
    [offset]; [n] counts the iterations that remain. *)
Fixpoint readMappings (data : list byte) (n : nat) (offset : nat) : list RelMapping :=
  match n with
  | O => []
  | S n' =>
      if len data <? Z.of_nat offset + 8 then []
      else {| OID := Uint32_at data offset; Filenode := Uint32_at data (offset + 4) |}
             :: readMappings data n' (offset + 8)
  end.

Definition ParseRelMapFile (data : list byte) : RelMapError + RelMapFile :=
  if len data <? 512 then inl (ErrTooSmall (len data))
  else
    let magic := Uint32_at data 0 in
    if negb (magic =? RelMapMagic) then inl (ErrInvalidMagic magic)
    else
      let num := int32_of_uint32 (Uint32_at data 4) in
      if (num <? 0) || (RelMapMaxMappings <? num) then inl (ErrInvalidCount num)
      else
        let crcOffset := 8 + RelMapMaxMappings * 8 in
        inr {| Magic := magic;
               NumMappings := num;
               Mappings := readMappings data (Z.to_nat num) 8;
               CRC := if crcOffset + 4 <=? len data
                      then Uint32_at data (Z.to_nat crcOffset) else 0;
               IsGlobal := false;
               Path := EmptyString |}.

Fixpoint lookupFilenode (ms : list RelMapping) (oid : Z) : Z :=
  match ms with
  | [] => 0
  | m :: rest => if OID m =? oid then Filenode m else lookupFilenode rest oid
  end.

Fixpoint lookupOID (ms : list RelMapping) (filenode : Z) : Z :=
  match ms with
  | [] => 0
  | m :: rest => if Filenode m =? filenode then OID m else lookupOID rest filenode
  end.

Definition GetFilenode (rm : RelMapFile) (oid : Z) : Z := lookupFilenode (Mappings rm) oid.
Definition GetOID (rm : RelMapFile) (filenode : Z) : Z := lookupOID (Mappings rm) filenode.

(** A 512-byte map file with the given count and pairs, zero-filled. *)
Definition le32 (v : Z) : list Z :=
  [v mod 256; (v / 256) mod 256; (v / 65536) mod 256; (v / 16777216) mod 256].

Definition mapFile (count : Z) (pairs : list (Z * Z)) : list byte :=
  let body := le32 RelMapMagic ++ le32 count
              ++ flat_map (fun p => le32 (fst p) ++ le32 (snd p)) pairs in
  mkbytes (body ++ repeat 0 (Z.to_nat (512 - len body))).

Definition parsedMap (pairs : list (Z * Z)) : RelMapFile :=
  {| Magic := 0x592717; NumMappings := len pairs;
     Mappings := map (fun p => {| OID := fst p; Filenode := snd p |}) pairs;
     CRC := 0; IsGlobal := false; Path := EmptyString |}.

(** The map of the specification's scenario, and one in which the oid 1262
    occurs twice. *)
Definition testPairs : list (Z * Z) := [(1262, 1262); (1259, 16384)].
Definition dupPairs : list (Z * Z) := [(1262, 1262); (1262, 16384)].

End RelMap.

(** ** Go library functions used by the package

    [strconv.Atoi], [strings.Contains]/[strings.SplitN] and the [%X] verb of
    [fmt.Sprintf] belong to the Go standard library; they are written out here
    as far as the package uses them. *)

Module GoLib.

Definition maxInt : Z := 2 ^ 63 - 1.
Definition minInt : Z := - 2 ^ 63.

Definition digitVal (c : ascii) : option Z :=
  let n := Z.of_nat (nat_of_ascii c) in
  if (48 <=? n) && (n <=? 57) then Some (n - 48) else None.

Fixpoint parseDigits (s : string) (acc : Z) : option Z :=
  match s with
  | EmptyString => Some acc
  | String c rest =>
      match digitVal c with
      | Some d => parseDigits rest (acc * 10 + d)
      | None => None
      end
  end.

(** [strconv.Atoi]: an optional sign, then at least one decimal digit, the
    value within the range of [int]; anything else is an error ([None]). *)
Definition Atoi (s : string) : option Z :=
  match s with
  | EmptyString => None
  | String c rest =>
      let neg := Ascii.eqb c "-" in
      let body := if neg || Ascii.eqb c "+" then rest else s in
      match body with
      | EmptyString => None
      | _ =>
          match parseDigits body 0 with
          | Some n =>
              let v := if neg then - n else n in
              if (minInt <=? v) && (v <=? maxInt) then Some v else None
          | None => None
          end
      end
  end.

(** [strings.Contains(s, ":")] and [strings.SplitN(s, ":", 2)] in one: [None]
    when [s] has no colon, otherwise the text before and after the first one
    ([parts[0]] and [parts[1]]). *)
Fixpoint SplitColon (s : string) : option (string * string) :=
  match s with
  | EmptyString => None
  | String c rest =>
      if Ascii.eqb c ":" then Some (EmptyString, rest)
      else match SplitColon rest with
           | Some (a, b) => Some (String c a, b)
           | None => None
           end
  end.

Definition hexChar (d : Z) : ascii :=
  ascii_of_nat (Z.to_nat (if d <? 10 then 48 + d else 55 + d)).

Fixpoint hexDigits (fuel : nat) (n : Z) (acc : string) : string :=
  match fuel with
  | O => acc
  | S fuel' =>
      let acc' := String (hexChar (n mod 16)) acc in
      if n / 16 =? 0 then acc' else hexDigits fuel' (n / 16) acc'
  end.

(** [fmt.Sprintf("%X", n)] for an unsigned number of at most 64 bits. *)
Definition FormatHex (n : Z) : string := hexDigits 16 n EmptyString.

(** [fmt.Sprintf("%d", n)] for a number between 0 and 255. *)
Definition FormatDec8 (n : Z) : string :=
  let d := fun k => String (ascii_of_nat (Z.to_nat (48 + k))) EmptyString in
  if n <? 10 then d n
  else if n <? 100 then (d (n / 10) ++ d (n mod 10))%string
  else (d (n / 100) ++ d ((n / 10) mod 10) ++ d (n mod 10))%string.

End GoLib.

(** [FormatLSN] of [wal.go]: the two halves of the position in hexadecimal. *)
Definition FormatLSN (lsn : Z) : string :=
  (GoLib.FormatHex (Z.shiftr lsn 32) ++ "/" ++ GoLib.FormatHex (Z.land lsn 0xFFFFFFFF))%string.

(** ** Block ranges and block information ([segment.go]) *)

Module Segment.

Record BlockRange := { Start : Z; End_ : Z }.

Inductive BlockRangeError :=
| InvalidStart (part : string)
| NegativeStart
| InvalidEnd (part : string)
| NegativeEnd
| InvalidBlock (s : string)
| NegativeBlock
| StartAfterEnd (start end_ : Z).

(** One side of a ["start:end"] range: an empty part leaves the bound at -1. *)
Definition parseBound (part : string) (invalid : string -> BlockRangeError)
    (negative : BlockRangeError) : BlockRangeError + Z :=
  if String.eqb part EmptyString then inr (-1)
  else match GoLib.Atoi part with
       | None => inl (invalid part)
       | Some v => if v <? 0 then inl negative else inr v
       end.

Definition ParseBlockRange (s : string) : BlockRangeError + option BlockRange :=
  if String.eqb s EmptyString then inr None
  else
    let parsed : BlockRangeError + BlockRange :=
      match GoLib.SplitColon s with
      | Some (p0, p1) =>
          match parseBound p0 InvalidStart NegativeStart with
          | inl e => inl e
          | inr start =>
              match parseBound p1 InvalidEnd NegativeEnd with
              | inl e => inl e
              | inr end_ => inr {| Start := start; End_ := end_ |}
              end
          end
      | None =>
          match GoLib.Atoi s with
          | None => inl (InvalidBlock s)
          | Some block =>
              if block <? 0 then inl NegativeBlock
              else inr {| Start := block; End_ := block |}
          end
      end in
    match parsed with
    | inl e => inl e
    | inr br =>
        if (0 <=? Start br) && (0 <=? End_ br) && (End_ br <? Start br)
        then inl (StartAfterEnd (Start br) (End_ br))
        else inr (Some br)
    end.

Record BlockInfo := {
  BlockNumber : Z;
  LSN : string;
  Checksum : Z;
  Flags : Z;
  Lower : Z;
  Upper : Z;
  Special : Z;
  PageSize_ : Z;
  Version : Z;
  ItemCount : Z;
  FreeSpace : Z;
  IsEmpty : bool
}.

(** The zero value of [BlockInfo] with the block number filled in. *)
Definition emptyInfo (blockNumber : Z) (isEmpty : bool) : BlockInfo :=
  {| BlockNumber := blockNumber; LSN := EmptyString; Checksum := 0; Flags := 0;
     Lower := 0; Upper := 0; Special := 0; PageSize_ := 0; Version := 0;
     ItemCount := 0; FreeSpace := 0; IsEmpty := isEmpty |}.

Definition allZero (data : list byte) : bool :=
  forallb (fun b => byteZ b =? 0) data.

Definition ParseBlockInfo (data : list byte) (blockNumber : Z) : option BlockInfo :=
  if len data <? PageSize then None
  else if allZero (take (Z.to_nat PageSize) data) then Some (emptyInfo blockNumber true)
  else
    let lower := u16 data 12 in
    let upper := u16 data 14 in
    let psv := u16 data 18 in
    Some {| BlockNumber := blockNumber;
            LSN := FormatLSN (u64 data 0);
            Checksum := u16 data 8;
            Flags := u16 data 10;
            Lower := lower;
            Upper := upper;
            Special := u16 data 16;
            PageSize_ := Z.land psv 0xFF00;
            Version := Z.land psv 0x00FF;
            ItemCount := if headerSize <=? lower
                         then Z.quot (lower - headerSize) itemIDSize else 0;
            FreeSpace := if lower <? upper then upper - lower else 0;
            IsEmpty := false |}.

(** A page of 8192 bytes: the given header bytes, then zeros. *)
Definition pageOf (header : list Z) : list byte :=
  mkbytes (header ++ repeat 0 (Z.to_nat (8192 - len header))).

(** The page of [TestParseBlockInfo]: lower 28, upper 8000, special 8192. *)
Definition testPage : list byte :=
  pageOf [1;0;0;0;0;0;0;0; 0x12;0x34; 0;0; 28;0; 0x40;0x1F; 0x00;0x20; 0x04;0x20].

(** A page whose [upper] (50) lies below its [lower] (100). *)
Definition crossedPage : list byte :=
  pageOf [1;0;0;0;0;0;0;0; 0;0; 0;0; 100;0; 50;0; 0x00;0x20; 0x04;0x20].

End Segment.

(** ** Outcomes of loops

    A Go loop whose model is bounded by an iteration budget ends in [Ret] when
    the loop finished, in [Crash] when the program would have stopped with a
    run-time panic, and in [Timeout] when the budget ran out first. *)

Inductive panic := IndexOutOfRange | MakesliceCapOutOfRange.

Inductive run (A : Type) : Type :=
| Ret (a : A)
| Crash (p : panic)
| Timeout.

Arguments Ret {A} a.
Arguments Crash {A} p.
Arguments Timeout {A}.

Definition bindRun {A B} (r : run A) (k : A -> run B) : run B :=
  match r with
  | Ret a => k a
  | Crash p => Crash p
  | Timeout => Timeout
  end.

#[global] Instance run_ret : MRet run := @Ret.
#[global] Instance run_bind : MBind run := fun A B k r => bindRun r k.

(** [data[i]] with Go's bounds check. *)
Definition index (data : list byte) (i : Z) : run byte :=
  if i <? 0 then Crash IndexOutOfRange
  else match data !! Z.to_nat i with
       | Some b => Ret b
       | None => Crash IndexOutOfRange
       end.

(** [data[i]] as a number where the source has already checked [i < len(data)]. *)
Definition byteAt (data : list byte) (i : Z) : Z :=
  match data !! Z.to_nat i with
  | Some b => byteZ b
  | None => 0
  end.

Definition wrap64 (x : Z) : Z := x mod 2 ^ 64.

(** ** The write-ahead-log decoder ([wal.go]) *)

Module Wal.

Definition WAL_MAGIC_16 : Z := 0xD113.
Definition WAL_MAGIC_15 : Z := 0xD110.
Definition WAL_MAGIC_14 : Z := 0xD10F.
Definition WAL_MAGIC_13 : Z := 0xD10D.
Definition WAL_MAGIC_12 : Z := 0xD109.

Definition WALPageSize : Z := 8192.
Definition XLogRecordSize : Z := 24.
Definition ShortHeaderSize : Z := 24.
Definition LongHeaderSize : Z := 40.

Definition XLP_FIRST_IS_CONTRECORD : Z := 0x0001.
Definition XLP_LONG_HEADER : Z := 0x0002.

Definition RM_XLOG_ID : Z := 0.
Definition RM_XACT_ID : Z := 1.
Definition RM_SMGR_ID : Z := 2.
Definition RM_DBASE_ID : Z := 4.
Definition RM_HEAP2_ID : Z := 9.
Definition RM_HEAP_ID : Z := 10.
Definition RM_BTREE_ID : Z := 11.

Record WALPageHeader := {
  Magic : Z;
  Info : Z;
  TimelineID : Z;
  PageAddr : Z;
  RemLen : Z;
  SystemID : Z;
  SegSize : Z;
  BlockSize : Z
}.

Record RelFileNode := { SpcOID : Z; DbOID : Z; RelOID : Z }.

Record WALBlockRef := {
  ID : Z;
  ForkNum : Z;
  Flags : Z;
  RelFileNode_ : option RelFileNode;
  BlockNum : Z
}.

Record WALRecord := {
  TotalLen : Z;
  TransactionID : Z;
  PrevLSN : Z;
  RecInfo : Z;
  ResourceMgr : Z;
  CRC : Z;
  LSN : Z;
  RMName : string;
  Operation : string;
  Blocks : list WALBlockRef
}.

Inductive WALError := PageTooSmall | InvalidMagic (magic : Z) | FileTooSmall.

Definition isValidMagic (magic : Z) : bool :=
  (magic =? WAL_MAGIC_16) || (magic =? WAL_MAGIC_15) || (magic =? WAL_MAGIC_14)
  || (magic =? WAL_MAGIC_13) || (magic =? WAL_MAGIC_12).

(** [(n + 7) &^ 7] *)
Definition align8 (n : Z) : Z := Z.ldiff (n + 7) 7.

Definition isZeroPadding (data : list byte) : bool :=
  forallb (fun b => byteZ b =? 0) (take 8 data).

Definition rmgrNames : list (Z * string) :=
  [ (0, "XLOG"); (1, "Transaction"); (2, "Storage"); (3, "CLOG"); (4, "Database");
    (5, "Tablespace"); (6, "MultiXact"); (7, "RelMap"); (8, "Standby"); (9, "Heap2");
    (10, "Heap"); (11, "BTree"); (12, "Hash"); (13, "GIN"); (14, "GiST");
    (15, "Sequence"); (16, "SP-GiST"); (17, "BRIN"); (18, "CommitTS");
    (19, "ReplOrigin"); (20, "Generic"); (21, "LogicalMsg") ]%string.

Fixpoint assocZ (k : Z) (l : list (Z * string)) : option string :=
  match l with
  | [] => None
  | (k', v) :: rest => if k' =? k then Some v else assocZ k rest
  end.

Definition rmgrName (rmid : Z) : string :=
  match assocZ rmid rmgrNames with
  | Some name => name
  | None => ("RM_" ++ GoLib.FormatDec8 rmid)%string
  end.

(** [fmt.Sprintf("op_0x%02X", info)] *)
Definition opFallback (info : Z) : string :=
  String "o" (String "p" (String "_" (String "0" (String "x"
    (String (GoLib.hexChar (info / 16)) (String (GoLib.hexChar (info mod 16)) EmptyString)))))).

Definition opTable (rmid : Z) : option (Z * list (Z * string)) :=
  if rmid =? RM_HEAP_ID then
    Some (0x70, [ (0x00, "INSERT"); (0x10, "DELETE"); (0x20, "UPDATE"); (0x30, "TRUNCATE");
                  (0x40, "HOT_UPDATE"); (0x50, "CONFIRM"); (0x60, "LOCK"); (0x70, "INPLACE") ]%string)
  else if rmid =? RM_HEAP2_ID then
    Some (0x70, [ (0x00, "PRUNE"); (0x10, "VACUUM"); (0x20, "FREEZE_PAGE"); (0x30, "VISIBLE");
                  (0x40, "MULTI_INSERT"); (0x50, "LOCK_UPDATED"); (0x60, "NEW_CID") ]%string)
  else if rmid =? RM_XACT_ID then
    Some (0x70, [ (0x00, "COMMIT"); (0x10, "PREPARE"); (0x20, "ABORT");
                  (0x30, "COMMIT_PREPARED"); (0x40, "ABORT_PREPARED"); (0x50, "ASSIGNMENT") ]%string)
  else if rmid =? RM_XLOG_ID then
    Some (0xF0, [ (0x00, "CHECKPOINT_SHUTDOWN"); (0x10, "CHECKPOINT_ONLINE"); (0x20, "NOOP");
                  (0x30, "NEXTOID"); (0x40, "SWITCH"); (0x50, "BACKUP_END");
                  (0x60, "PARAMETER_CHANGE"); (0x70, "RESTORE_POINT"); (0x80, "FPW_CHANGE");
                  (0x90, "END_OF_RECOVERY"); (0xA0, "OVERWRITE_CONTRECORD") ]%string)
  else if rmid =? RM_SMGR_ID then
    Some (0x70, [ (0x10, "CREATE"); (0x20, "TRUNCATE") ]%string)
  else if rmid =? RM_DBASE_ID then
    Some (0x70, [ (0x00, "CREATE"); (0x10, "DROP") ]%string)
  else if rmid =? RM_BTREE_ID then
    Some (0x70, [ (0x00, "INSERT_LEAF"); (0x10, "INSERT_UPPER"); (0x20, "INSERT_META");
                  (0x30, "SPLIT_L"); (0x40, "SPLIT_R"); (0x60, "DELETE"); (0x70, "UNLINK_PAGE") ]%string)
  else None.

Definition operationName (rmid info : Z) : string :=
  match opTable rmid with
  | Some (mask, names) =>
      match assocZ (Z.land info mask) names with
      | Some name => name
      | None => opFallback info
      end
  | None => opFallback info
  end.

Definition parsePageHeader (data : list byte) : WALPageHeader :=
  let info := Uint16_at data 2 in
  let long := negb (Z.land info XLP_LONG_HEADER =? 0) && (LongHeaderSize <=? len data) in
  {| Magic := Uint16_at data 0;
     Info := info;
     TimelineID := Uint32_at data 4;
     PageAddr := Uint64_at data 8;
     RemLen := Uint32_at data 16;
     SystemID := if long then Uint64_at data 24 else 0;
     SegSize := if long then Uint32_at data 32 else 0;
     BlockSize := if long then Uint32_at data 36 else 0 |}.

(** The loop of [parseBlockRefs]; every iteration reads at least one byte, so
    [length data] iterations are a sufficient budget. *)
Fixpoint blockRefsLoop (fuel : nat) (data : list byte) (pos : Z) : list WALBlockRef :=
  match fuel with
  | O => []
  | S fuel' =>
      if negb (pos <? len data) then []
      else if len data <? pos + 1 then []
      else
        let blockID := byteAt data pos in
        let pos := pos + 1 in
        if (blockID =? 0xFF) || (blockID =? 0xFE) then []
        else if 32 <? blockID then []
        else if len data <? pos + 1 then []
        else
          let forkFlags := byteAt data pos in
          let pos := pos + 1 in
          let hasImage := negb (Z.land forkFlags 0x10 =? 0) in
          let hasData := negb (Z.land forkFlags 0x20 =? 0) in
          let hasSameRel := negb (Z.land forkFlags 0x40 =? 0) in
          let withRel := negb hasSameRel && (pos + 12 <=? len data) in
          let rel := if withRel
                     then Some {| SpcOID := Uint32_at data (Z.to_nat pos);
                                  DbOID := Uint32_at data (Z.to_nat (pos + 4));
                                  RelOID := Uint32_at data (Z.to_nat (pos + 8)) |}
                     else None in
          let pos := if withRel then pos + 12 else pos in
          let withNum := pos + 4 <=? len data in
          let num := if withNum then Uint32_at data (Z.to_nat pos) else 0 in
          let pos := if withNum then pos + 4 else pos in
          let pos := if hasImage && (pos + 2 <=? len data)
                     then pos + 2 + Uint16_at data (Z.to_nat pos) else pos in
          let pos := if hasData && (pos + 2 <=? len data)
                     then pos + 2 + Uint16_at data (Z.to_nat pos) else pos in
          {| ID := blockID; ForkNum := Z.land forkFlags 0x0F; Flags := forkFlags;
             RelFileNode_ := rel; BlockNum := num |}
            :: blockRefsLoop fuel' data pos
  end.

Definition parseBlockRefs (data : list byte) : list WALBlockRef :=
  blockRefsLoop (length data) data 0.

Definition parseXLogRecord (data : list byte) (lsn : Z) : option WALRecord * Z :=
  if len data <? XLogRecordSize then (None, 0)
  else
    let totalLen := Uint32_at data 0 in
    if (totalLen <? XLogRecordSize) || (WALPageSize * 2 <? totalLen) then (None, 0)
    else
      let info := byteAt data 16 in
      let rmid := byteAt data 17 in
      (Some {| TotalLen := totalLen;
               TransactionID := Uint32_at data 4;
               PrevLSN := Uint64_at data 8;
               RecInfo := info;
               ResourceMgr := rmid;
               CRC := Uint32_at data 20;
               LSN := lsn;
               RMName := rmgrName rmid;
               Operation := operationName rmid info;
               Blocks := if (XLogRecordSize <? totalLen) && (totalLen <=? len data)
                         then parseBlockRefs
                                (take (Z.to_nat (totalLen - XLogRecordSize))
                                      (drop (Z.to_nat XLogRecordSize) data))
                         else [] |},
       totalLen).

(** The record loop of [parseWALPage], entered at position [pos]. *)
Fixpoint recordsLoop (fuel : nat) (data : list byte) (baseOffset pos : Z) : run (list WALRecord) :=
  match fuel with
  | O => Timeout
  | S fuel' =>
      if len data <? pos + XLogRecordSize then Ret []
      else if isZeroPadding (drop (Z.to_nat pos) data) then Ret []
      else
        let '(rec, consumed) :=
          parseXLogRecord (drop (Z.to_nat pos) data) (wrap64 (baseOffset + pos)) in
        if consumed =? 0 then Ret []
        else
          rest ← recordsLoop fuel' data baseOffset (align8 (pos + consumed));
          Ret (match rec with Some r => r :: rest | None => rest end)
  end.

Definition headerSizeOf (header : WALPageHeader) : Z :=
  if negb (Z.land (Info header) XLP_LONG_HEADER =? 0) then LongHeaderSize else ShortHeaderSize.

(** Where the record loop of [parseWALPage] starts. *)
Definition firstRecordPos (header : WALPageHeader) : Z :=
  let pos := headerSizeOf header in
  if negb (Z.land (Info header) XLP_FIRST_IS_CONTRECORD =? 0) && (0 <? RemLen header)
  then align8 (pos + RemLen header)
  else pos.

Definition parseWALPage (data : list byte) (baseOffset : Z) (pageNum : Z)
  : run (WALError + list WALRecord) :=
  if len data <? ShortHeaderSize then Ret (inl PageTooSmall)
  else
    let header := parsePageHeader data in
    if negb (isValidMagic (Magic header)) then Ret (inl (InvalidMagic (Magic header)))
    else
      records ← recordsLoop (S (length data)) data baseOffset (firstRecordPos header);
      Ret (inr records).

(** The page loop of [ParseWALFile]: [n] pages remain, the next one starts at
    [offset]. *)
Fixpoint pagesLoop (n : nat) (data : list byte) (offset pageNum : Z) : run (list WALRecord) :=
  match n with
  | O => Ret []
  | S n' =>
      let pageData := take (Z.to_nat WALPageSize) (drop (Z.to_nat offset) data) in
      r ← parseWALPage pageData (wrap64 offset) pageNum;
      match r with
      | inl _ => pagesLoop n' data (offset + WALPageSize) pageNum
      | inr pageRecords =>
          rest ← pagesLoop n' data (offset + WALPageSize) (pageNum + 1);
          Ret (pageRecords ++ rest)
      end
  end.

Definition ParseWALFile (data : list byte) : run (WALError + list WALRecord) :=
  if len data <? LongHeaderSize then Ret (inl FileTooSmall)
  else
    records ← pagesLoop (Z.to_nat (len data / WALPageSize)) data 0 0;
    Ret (inr records).

(** A short-header page of 56 bytes: magic of version 16, the continuation
    flag, four bytes of continuation, and one 24-byte heap record at offset
    32. *)
Definition contPage : list byte :=
  mkbytes ([0x13;0xD1; 0x01;0x00; 1;0;0;0; 0;0;0;0;0;0;0;0; 4;0;0;0; 0;0;0;0]
           ++ [0xAA;0xBB;0xCC;0xDD; 0;0;0;0]
           ++ [24;0;0;0; 7;0;0;0; 0;0;0;0;0;0;0;0; 0x00; 10; 0;0; 1;2;3;4]).

(** The record of [contPage] as it is parsed when the page starts at 8192. *)
Definition contRecord : WALRecord :=
  {| TotalLen := 24; TransactionID := 7; PrevLSN := 0; RecInfo := 0; ResourceMgr := 10;
     CRC := 67305985; LSN := 8224; RMName := "Heap"; Operation := "INSERT"; Blocks := [] |}.

(** The same bytes with a magic number outside the known set. *)
Definition badMagicPage : list byte :=
  mkbytes [0x00;0xD1; 0x01;0x00] ++ drop 4 contPage.

End Wal.

(** ** The large-object (TOAST) layer ([toast.go]) *)

Module Toast.

Record TOASTPointer := {
  RawSize : Z;
  ExtSize : Z;
  ValueID : Z;
  ToastRelID : Z;
  IsCompressed : bool;
  CompressionMethod : Z
}.

Record TOASTChunk := {
  ChunkID : Z;
  ChunkSeq : Z;
  Data : list byte
}.

Definition ToastCompressionPGLZ : Z := 0.
Definition ToastCompressionLZ4 : Z := 1.

Inductive CodecError := DataTooShort | InvalidOffset | OffsetTooLarge.

(** [make([]byte, 0, rawSize)]: a negative capacity is a run-time panic.  (How
    much memory the runtime can hand out is not part of the model.) *)
Definition makeResult (rawSize : Z) : run (list byte) :=
  if rawSize <? 0 then Crash MakesliceCapOutOfRange else Ret [].

(** The copy loop shared by both codecs:
    [for i := 0; i < length && len(result) < rawSize; i++
       { result = append(result, result[start+i%offset]) }];
    [n] iterations remain and the next one has index [i]. *)
Fixpoint copyBack (n : nat) (i start offset rawSize : Z) (result : list byte) : run (list byte) :=
  match n with
  | O => Ret result
  | S n' =>
      if len result <? rawSize then
        b ← index result (start + Z.rem i offset);
        copyBack n' (i + 1) start offset rawSize (result ++ [b])
      else Ret result
  end.

(** The loop over the eight bits of one control byte; [n] bits remain and the
    next one is [bit]. *)
Fixpoint pglzBits (n : nat) (bit ctrl : Z) (data : list byte) (rawSize pos : Z)
    (result : list byte) : run (Z * list byte) :=
  match n with
  | O => Ret (pos, result)
  | S n' =>
      if (pos <? len data) && (len result <? rawSize) then
        if negb (Z.land ctrl (Z.shiftl 1 bit) =? 0) then
          if len data <=? pos + 1 then Ret (pos, result)
          else
            b1 ← index data pos;
            b2 ← index data (pos + 1);
            let pos := pos + 2 in
            let offset := Z.lor (byteZ b1) (Z.shiftl (Z.land (byteZ b2) 0xF0) 4) in
            let length := Z.land (byteZ b2) 0x0F + 3 in
            if (offset =? 0) || (len result <? offset)
            then pglzBits n' (bit + 1) ctrl data rawSize pos result
            else
              result' ← copyBack (Z.to_nat length) 0 (len result - offset) offset rawSize result;
              pglzBits n' (bit + 1) ctrl data rawSize pos result'
        else
          b ← index data pos;
          pglzBits n' (bit + 1) ctrl data rawSize (pos + 1) (result ++ [b])
      else Ret (pos, result)
  end.

(** The outer loop [for pos < len(data) && len(result) < rawSize]. *)
Fixpoint pglzLoop (fuel : nat) (data : list byte) (rawSize pos : Z) (result : list byte)
  : run (list byte) :=
  match fuel with
  | O => Timeout
  | S fuel' =>
      if (pos <? len data) && (len result <? rawSize) then
        ctrl ← index data pos;
        '(pos', result') ← pglzBits 8 0 (byteZ ctrl) data rawSize (pos + 1) result;
        pglzLoop fuel' data rawSize pos' result'
      else Ret result
  end.

(** [decompressPGLZ] as the package has it now: inputs under four bytes are
    an error. *)
Definition decompressPGLZ (data : list byte) (rawSize : Z) : run (CodecError + list byte) :=
  if len data <? 4 then Ret (inl DataTooShort)
  else
    result ← makeResult rawSize;
    out ← pglzLoop (S (length data)) data rawSize 0 result;
    Ret (inr out).

(** The length-extension loop of the LZ4 decoder,
    [for pos < len(data) { extra := int(data[pos]); pos++; n += extra;
                           if extra != 255 { break } }],
    run over the bytes from [pos] on. *)
Fixpoint lz4Extend (rest : list byte) (pos n : Z) : Z * Z :=
  match rest with
  | [] => (pos, n)
  | b :: rest' =>
      if byteZ b =? 255 then lz4Extend rest' (pos + 1) (n + byteZ b)
      else (pos + 1, n + byteZ b)
  end.

Fixpoint lz4Loop (fuel : nat) (data : list byte) (rawSize pos : Z) (result : list byte)
  : run (CodecError + list byte) :=
  match fuel with
  | O => Timeout
  | S fuel' =>
      if (pos <? len data) && (len result <? rawSize) then
        token ← index data pos;
        let pos := pos + 1 in
        let literalLen := Z.shiftr (byteZ token) 4 in
        let '(pos, literalLen) :=
          if literalLen =? 15 then lz4Extend (drop (Z.to_nat pos) data) pos literalLen
          else (pos, literalLen) in
        let literalLen := if len data <? pos + literalLen then len data - pos else literalLen in
        let result := result ++ take (Z.to_nat literalLen) (drop (Z.to_nat pos) data) in
        let pos := pos + literalLen in
        if (len data <=? pos) || (rawSize <=? len result) then Ret (inr result)
        else if len data <? pos + 2 then Ret (inr result)
        else
          lo ← index data pos;
          hi ← index data (pos + 1);
          let offset := Z.lor (byteZ lo) (Z.shiftl (byteZ hi) 8) in
          let pos := pos + 2 in
          if offset =? 0 then Ret (inl InvalidOffset)
          else
            let matchLen := Z.land (byteZ token) 0x0F + 4 in
            let '(pos, matchLen) :=
              if matchLen =? 19 then lz4Extend (drop (Z.to_nat pos) data) pos matchLen
              else (pos, matchLen) in
            if len result <? offset then Ret (inl OffsetTooLarge)
            else
              result' ← copyBack (Z.to_nat matchLen) 0 (len result - offset) offset rawSize result;
              lz4Loop fuel' data rawSize pos result'
      else Ret (inr result)
  end.

Definition decompressLZ4 (data : list byte) (rawSize : Z) : run (CodecError + list byte) :=
  if len data <? 1 then Ret (inl DataTooShort)
  else
    result ← makeResult rawSize;
    lz4Loop (S (length data)) data rawSize 0 result.

(** Insertion sort by [chunk_seq]. *)
Fixpoint insertBySeq (c : TOASTChunk) (l : list TOASTChunk) : list TOASTChunk :=
  match l with
  | [] => [c]
  | d :: rest => if ChunkSeq d <=? ChunkSeq c then d :: insertBySeq c rest else c :: d :: rest
  end.

Definition sortBySeq (l : list TOASTChunk) : list TOASTChunk :=
  foldr insertBySeq [] l.

(** What [sort.Slice] with the comparison [ChunkSeq[i] < ChunkSeq[j]] promises:
    the same chunks, in an order ascending by [chunk_seq].  The order among
    chunks with equal sequence numbers is left open. *)
Definition SortsBySeq (sortSlice : list TOASTChunk -> list TOASTChunk) : Prop :=
  forall l, Permutation (sortSlice l) l
            /\ StronglySorted (fun a b => ChunkSeq a <= ChunkSeq b) (sortSlice l).

Section Reassemble.

(** [sort.Slice] at the chunk comparison, and the pair [zlib.NewReader] /
    [io.ReadAll] ([None] when either reports an error). *)
Variable sortSlice : list TOASTChunk -> list TOASTChunk.
Variable zlibReadAll : list byte -> option (list byte).

(** The chunks of one value, in sequence order. *)
Definition valueChunksOf (chunks : list TOASTChunk) (valueID : Z) : list TOASTChunk :=
  sortSlice (filter (fun c => ChunkID c = valueID) chunks).

Definition concatChunks (l : list TOASTChunk) : list byte :=
  concat (map Data l).

Definition zlibOrRaw (data : list byte) : list byte :=
  match zlibReadAll data with
  | Some decompressed => decompressed
  | None => data
  end.

Definition tryPGLZ (data : list byte) (rawSize : Z) : run (list byte) :=
  r ← decompressPGLZ data rawSize;
  match r with
  | inr decompressed =>
      if 0 <? len decompressed then Ret decompressed else Ret (zlibOrRaw data)
  | inl _ => Ret (zlibOrRaw data)
  end.

Definition ReassembleTOAST (chunks : list TOASTChunk) (valueID : Z)
    (ptr : option TOASTPointer) : run (list byte) :=
  let valueChunks := filter (fun c => ChunkID c = valueID) chunks in
  if len valueChunks =? 0 then Ret []
  else
    let data := concatChunks (sortSlice valueChunks) in
    match ptr with
    | Some p =>
        if IsCompressed p && (0 <? len data) then
          let rawSize := RawSize p in
          if CompressionMethod p =? ToastCompressionLZ4 then
            r ← decompressLZ4 data rawSize;
            match r with
            | inr decompressed => Ret decompressed
            | inl _ => tryPGLZ data rawSize
            end
          else tryPGLZ data rawSize
        else Ret data
    | None => Ret data
    end.

End Reassemble.

(** The earlier revision of the file, [pgdump/toast.go]: no LZ4, the
    compression flag and raw size passed directly, and short inputs returned
    by the native decoder as they are. *)
Module V1.

Definition decompressPGLZ (data : list byte) (rawSize : Z) : run (CodecError + list byte) :=
  if len data <? 4 then Ret (inr data)
  else
    result ← makeResult rawSize;
    out ← pglzLoop (S (length data)) data rawSize 0 result;
    Ret (inr out).

Definition ReassembleTOAST (sortSlice : list TOASTChunk -> list TOASTChunk)
    (zlibReadAll : list byte -> option (list byte))
    (chunks : list TOASTChunk) (valueID : Z) (compressed : bool) (rawSize : Z)
  : run (list byte) :=
  let valueChunks := filter (fun c => ChunkID c = valueID) chunks in
  if len valueChunks =? 0 then Ret []
  else
    let data := concatChunks (sortSlice valueChunks) in
    if compressed && (0 <? len data) then
      r ← decompressPGLZ data rawSize;
      match r with
      | inr decompressed => Ret decompressed
      | inl _ => Ret (zlibOrRaw zlibReadAll data)
      end
    else Ret data.

End V1.

(** Test data: the two chunks of the value 42 (given out of order), a chunk
    of another value, and a pointer with raw size 12. *)
Definition asciiBytes (s : string) : list byte :=
  map (fun c => mkbyte (Z.of_nat (nat_of_ascii c))) (list_ascii_of_string s).

Definition helloChunks : list TOASTChunk :=
  [ {| ChunkID := 42; ChunkSeq := 1; Data := asciiBytes "World!" |};
    {| ChunkID := 7;  ChunkSeq := 0; Data := asciiBytes "other" |};
    {| ChunkID := 42; ChunkSeq := 0; Data := asciiBytes "Hello, " |} ].

Definition helloPtr : TOASTPointer :=
  {| RawSize := 12; ExtSize := 12; ValueID := 42; ToastRelID := 16500;
     IsCompressed := false; CompressionMethod := 0 |}.

Definition noZlib (data : list byte) : option (list byte) := None.

(** A compressed stream: control byte 0b00000100, literals "a" and "b", then
    a back-reference (offset 2, length 3 + 3). *)
Definition pglzSample : list byte := mkbytes [0x04; 97; 98; 0x02; 0x03].

End Toast.

(** ** Tuples, rows and visibility (the tuple decoder and the deleted-row reader) *)

Module Heap.

(** Names of the type identifiers that [typeAlign] switches on. *)
Inductive TypeOid :=
| OidInt8 | OidFloat8 | OidTimestamp | OidTimestampTZ | OidTime | OidMoney | OidPgLsn
| OidPoint | OidLseg | OidBox | OidLine | OidCircle
| OidInterval | OidTimeTZ
| OidInt4 | OidOid | OidFloat4 | OidDate | OidXid | OidCid
| OidText | OidVarchar | OidBpchar | OidBytea | OidJSON | OidJSONB | OidXML
| OidNumeric | OidInet | OidCidr | OidPath | OidPolygon
| OidBit | OidVarbit | OidTsvector | OidTsquery | OidJSONPath
| OidInt4Range | OidInt8Range | OidNumRange | OidDateRange | OidTsRange | OidTsTzRange
| OidInt2 | OidTid
| OidBool | OidChar | OidName | OidUUID | OidMacaddr | OidMacaddr8.

(** Modelled from the spec: the declarations of the tuple types are not among
    the sources.  The records carry the fields the sources read
    ([tuple.Header.XmaxCommitted], [tuple.Bitmap], [tuple.Data],
    [entry.PageOffset], ...) and the visibility bits the specification names. *)
Record HeapTupleHeader := {
  XminCommitted : bool;
  XmaxCommitted : bool;
  XmaxInvalid : bool
}.

Record HeapTupleData := {
  Header : HeapTupleHeader;
  Bitmap : option (list byte);
  Data : list byte
}.

Record TupleEntry := {
  PageOffset : Z;
  ItemOffset : Z;
  Tuple : option HeapTupleData
}.

Record Column := {
  Name : string;
  TypID : Z;
  Len : Z;
  Num : Z;
  Align : Z
}.

(** A decoded value, Go's [interface{}]: [nil], a Go string, or whatever the
    type decoder produces. *)
Inductive value (T : Type) : Type :=
| VNil
| VStr (s : list byte)
| VTyped (t : T).

Arguments VNil {T}.
Arguments VStr {T} s.
Arguments VTyped {T} t.

(** The functions of the package that the tuple decoder calls but that are
    not among the sources: the page parser, the two tuple methods, the
    varlena reader (a [nil] payload is [None]), the type decoder and the
    table of type identifiers. *)
Class Collaborators := {
  Typed : Type;
  ParsePage : list byte -> list TupleEntry;
  IsVisible : HeapTupleData -> bool;
  IsNull : HeapTupleData -> Z -> bool;
  ReadVarlena : list byte -> option (list byte) * Z;
  DecodeType : list byte -> Z -> value Typed;
  oidOf : TypeOid -> Z
}.

Definition alignFromChar (c : Z) : Z :=
  if c =? 99 then 1        (* 'c' *)
  else if c =? 115 then 2  (* 's' *)
  else if c =? 105 then 4  (* 'i' *)
  else if c =? 100 then 8  (* 'd' *)
  else 0.

(** [isShortVarlena]: bit 0 of the first byte is set and the byte is not 1. *)
Definition isShortVarlena (data : list byte) : bool :=
  match data with
  | [] => false
  | first :: _ => (Z.land (byteZ first) 1 =? 1) && negb (byteZ first =? 1)
  end.

Definition max (a b : Z) : Z := if b <? a then a else b.

Section Decode.

Context `{C : Collaborators}.

Definition isOneOf (typID : Z) (names : list TypeOid) : bool :=
  existsb (fun n => oidOf n =? typID) names.

Definition typeAlign (typID length : Z) : Z :=
  if isOneOf typID [OidInt8; OidFloat8; OidTimestamp; OidTimestampTZ; OidTime; OidMoney; OidPgLsn]
  then 8
  else if isOneOf typID [OidPoint; OidLseg; OidBox; OidLine; OidCircle] then 8
  else if isOneOf typID [OidInterval; OidTimeTZ] then 8
  else if isOneOf typID [OidInt4; OidOid; OidFloat4; OidDate; OidXid; OidCid] then 4
  else if isOneOf typID [OidText; OidVarchar; OidBpchar; OidBytea; OidJSON; OidJSONB; OidXML]
  then 4
  else if isOneOf typID [OidNumeric; OidInet; OidCidr; OidPath; OidPolygon] then 4
  else if isOneOf typID [OidBit; OidVarbit; OidTsvector; OidTsquery; OidJSONPath] then 4
  else if isOneOf typID [OidInt4Range; OidInt8Range; OidNumRange; OidDateRange; OidTsRange;
                         OidTsTzRange]
  then 4
  else if isOneOf typID [OidInt2; OidTid] then 2
  else if isOneOf typID [OidBool; OidChar; OidName; OidUUID; OidMacaddr; OidMacaddr8] then 1
  else if length =? -1 then 4
  else if 8 <=? length then 8
  else if 4 <=? length then 4
  else if 2 <=? length then 2
  else 1.

(** The C-string branch of [readValue]: the bytes before the first zero byte
    and the count of bytes read. *)
Fixpoint readCString (remaining : list byte) : list byte * Z :=
  match remaining with
  | [] => ([], 0)
  | b :: rest =>
      if byteZ b =? 0 then ([], 1)
      else let '(s, n) := readCString rest in (b :: s, n + 1)
  end.

Definition readValue (data : list byte) (offset typID length : Z) : value Typed * Z :=
  if len data <=? offset then (VNil, 0)
  else
    let remaining := drop (Z.to_nat offset) data in
    if 0 <? length then
      if len remaining <? length then (VNil, 0)
      else (DecodeType (take (Z.to_nat length) remaining) typID, length)
    else if length =? -1 then
      match ReadVarlena remaining with
      | (None, consumed) => (VNil, max consumed 1)
      | (Some val, consumed) => (DecodeType val typID, consumed)
      end
    else
      let '(s, n) := readCString remaining in (VStr s, n).

(** The alignment the decoder settles on for a column when the running
    offset is [offset]: the schema's, else the type's, and 1 for a
    short-header varlena. *)
Definition declaredAlign (col : Column) : Z :=
  let colAlign := alignFromChar (Align col) in
  if colAlign =? 0 then typeAlign (TypID col) (Len col) else colAlign.

Definition shortVarlenaAhead (col : Column) (data : list byte) (offset : Z) : bool :=
  (Len col =? -1) && (offset <? len data) && isShortVarlena (drop (Z.to_nat offset) data).

Definition columnAlign (col : Column) (data : list byte) (offset : Z) : Z :=
  if shortVarlenaAhead col data offset then 1 else declaredAlign col.

(** One turn of the column loop of [DecodeTuple]. *)
Record ColumnStep := {
  stepBefore : Z;        (* the running offset on entry *)
  stepAlign : Z;         (* [colAlign] *)
  stepOffset : Z;        (* the offset after [align], where the value is read *)
  stepNull : bool;       (* the bitmap reports the column null *)
  stepValue : value Typed;
  stepNext : Z           (* the running offset on exit *)
}.

Definition decodeColumn (tuple : HeapTupleData) (idx : Z) (col : Column) (offset : Z)
  : ColumnStep :=
  let num := if Num col =? 0 then idx + 1 else Num col in
  let colAlign := columnAlign col (Data tuple) offset in
  let aligned := align offset colAlign in
  if IsNull tuple num then
    {| stepBefore := offset; stepAlign := colAlign; stepOffset := aligned;
       stepNull := true; stepValue := VNil; stepNext := aligned |}
  else
    let '(val, consumed) := readValue (Data tuple) aligned (TypID col) (Len col) in
    {| stepBefore := offset; stepAlign := colAlign; stepOffset := aligned;
       stepNull := false; stepValue := val; stepNext := aligned + consumed |}.

Fixpoint decodeColumns (tuple : HeapTupleData) (idx : Z) (columns : list Column) (offset : Z)
  : list (Column * ColumnStep) :=
  match columns with
  | [] => []
  | col :: rest =>
      let st := decodeColumn tuple idx col offset in
      (col, st) :: decodeColumns tuple (idx + 1) rest (stepNext st)
  end.

Definition rowOf (steps : list (Column * ColumnStep)) : gmap string (value Typed) :=
  foldl (fun result cs => <[Name (fst cs) := stepValue (snd cs)]> result) ∅ steps.

(** [DecodeTuple]; [None] is Go's [nil] map. *)
Definition DecodeTuple (tuple : option HeapTupleData) (columns : list Column)
  : option (gmap string (value Typed)) :=
  match tuple with
  | None => None
  | Some t =>
      if len (Data t) =? 0 then None
      else Some (rowOf (decodeColumns t 0 columns 0))
  end.

(** [e.Tuple.IsVisible()]; the call on a [nil] tuple is taken to answer
    false. *)
Definition entryVisible (e : TupleEntry) : bool :=
  match Tuple e with
  | Some t => IsVisible t
  | None => false
  end.

(** The page loop of [ReadTuples]: [n] whole pages remain from [off] on. *)
Fixpoint readPages (n : nat) (data : list byte) (off : Z) (visibleOnly : bool)
  : list TupleEntry :=
  match n with
  | O => []
  | S n' =>
      let page := take (Z.to_nat PageSize) (drop (Z.to_nat off) data) in
      let kept := List.filter (fun e => negb visibleOnly || entryVisible e) (ParsePage page) in
      map (fun e => {| PageOffset := off; ItemOffset := ItemOffset e; Tuple := Tuple e |}) kept
        ++ readPages n' data (off + PageSize) visibleOnly
  end.

Definition ReadTuples (data : list byte) (visibleOnly : bool) : list TupleEntry :=
  readPages (Z.to_nat (len data / PageSize)) data 0 visibleOnly.

Definition ReadRows (data : list byte) (columns : list Column) (visibleOnly : bool)
  : list (gmap string (value Typed)) :=
  omap (fun t => DecodeTuple (Tuple t) columns) (ReadTuples data visibleOnly).

Record DeletedRow := {
  delPageOffset : Z;
  delItemOffset : Z;
  delData : option (gmap string (value Typed));
  delRawSize : Z
}.

(** The test [tuple.Header.XmaxCommitted && !tuple.Header.XmaxInvalid]. *)
Definition isDeleted (t : HeapTupleData) : bool :=
  XmaxCommitted (Header t) && negb (XmaxInvalid (Header t)).

Definition ReadDeletedRows (data : list byte) (columns : list Column) : list DeletedRow :=
  omap (fun entry =>
          match Tuple entry with
          | None => None
          | Some tuple =>
              if isDeleted tuple then
                Some {| delPageOffset := PageOffset entry;
                        delItemOffset := 0;
                        delData := if 0 <? len columns
                                   then DecodeTuple (Some tuple) columns else None;
                        delRawSize := len (Data tuple) |}
              else None
          end)
       (ReadTuples data false).

(** The loop of [ReadRowsWithDeleted] over the entries, the two result lists
    threaded through. *)
Fixpoint splitRows (entries : list TupleEntry) (columns : list Column)
  : list (gmap string (value Typed)) * list (gmap string (value Typed)) :=
  match entries with
  | [] => ([], [])
  | entry :: rest =>
      let '(visible, deleted) := splitRows rest columns in
      match Tuple entry with
      | None => (visible, deleted)
      | Some tuple =>
          match DecodeTuple (Some tuple) columns with
          | None => (visible, deleted)
          | Some row =>
              if IsVisible tuple then (row :: visible, deleted)
              else if isDeleted tuple then (visible, row :: deleted)
              else (visible, deleted)
          end
      end
  end.

Definition ReadRowsWithDeleted (data : list byte) (columns : list Column)
  : list (gmap string (value Typed)) * list (gmap string (value Typed)) :=
  splitRows (ReadTuples data false) columns.

(** The tuples that [ReadRowsWithDeleted] gets to decode, each with its row:
    the entries with a tuple and a non-nil row. *)
Definition decodableOf (entries : list TupleEntry) (columns : list Column)
  : list (HeapTupleData * gmap string (value Typed)) :=
  omap (fun entry =>
          match Tuple entry with
          | None => None
          | Some tuple =>
              match DecodeTuple (Some tuple) columns with
              | None => None
              | Some row => Some (tuple, row)
              end
          end)
       entries.

Definition decodable (data : list byte) (columns : list Column)
  : list (HeapTupleData * gmap string (value Typed)) :=
  decodableOf (ReadTuples data false) columns.

End Decode.

(** Modelled from the spec: [IsVisible] is not among the sources.  "A tuple
    is visible iff xmin is committed AND xmax is invalid (or uncommitted)." *)
Definition IsVisibleSpec (t : HeapTupleData) : bool :=
  XminCommitted (Header t) && (XmaxInvalid (Header t) || negb (XmaxCommitted (Header t))).

(** Modelled from the spec: [IsNull] is not among the sources.  The bitmap
    has one bit per column, bit [attnum - 1]; "exactly those columns whose
    bit is 0 in the bitmap appear as null"; a tuple without bitmap has no
    null column. *)
Definition IsNullSpec (t : HeapTupleData) (num : Z) : bool :=
  match Bitmap t with
  | None => false
  | Some bitmap =>
      let byteIdx := (num - 1) / 8 in
      let bitIdx := (num - 1) mod 8 in
      (0 <? num) && (byteIdx <? len bitmap)
      && negb (Z.testbit (byteAt bitmap byteIdx) bitIdx)
  end.

(** Modelled from the spec: [ReadVarlena] is not among the sources.  Section
    4.1 of the specification: the external-pointer tags 0x01, 0x02 and 0x12
    carry an 18-byte record and no payload; otherwise a set low bit means a
    one-byte header whose upper seven bits are the total length; otherwise
    a four-byte header with the total length in the upper 30 bits. *)
Definition ReadVarlenaSpec (buf : list byte) : option (list byte) * Z :=
  match buf with
  | [] => (None, 0)
  | first :: _ =>
      let f := byteZ first in
      if (f =? 0x01) || (f =? 0x02) || (f =? 0x12) then (None, 18)
      else if Z.land f 1 =? 1 then
        let total := Z.shiftr f 1 in
        if (total <? 1) || (len buf <? total) then (None, 0)
        else (Some (take (Z.to_nat (total - 1)) (drop 1 buf)), total)
      else
        let total := Z.shiftr (Uint32_at buf 0) 2 in
        if (total <? 4) || (len buf <? total) then (None, 0)
        else (Some (take (Z.to_nat (total - 4)) (drop 4 buf)), total)
  end.

(** The type identifiers of the engine's catalog. *)
Definition pgOid (n : TypeOid) : Z :=
  match n with
  | OidBool => 16 | OidBytea => 17 | OidChar => 18 | OidName => 19 | OidInt8 => 20
  | OidInt2 => 21 | OidInt4 => 23 | OidText => 25 | OidOid => 26 | OidTid => 27
  | OidXid => 28 | OidCid => 29 | OidJSON => 114 | OidXML => 142 | OidPoint => 600
  | OidLseg => 601 | OidPath => 602 | OidBox => 603 | OidPolygon => 604 | OidLine => 628
  | OidCidr => 650 | OidFloat4 => 700 | OidFloat8 => 701 | OidCircle => 718
  | OidMacaddr8 => 774 | OidMoney => 790 | OidMacaddr => 829 | OidInet => 869
  | OidBpchar => 1042 | OidVarchar => 1043 | OidDate => 1082 | OidTime => 1083
  | OidTimestamp => 1114 | OidTimestampTZ => 1184 | OidInterval => 1186
  | OidTimeTZ => 1266 | OidBit => 1560 | OidVarbit => 1562 | OidNumeric => 1700
  | OidUUID => 2950 | OidPgLsn => 3220 | OidTsvector => 3614 | OidTsquery => 3615
  | OidJSONB => 3802 | OidJSONPath => 4072 | OidInt4Range => 3904 | OidNumRange => 3906
  | OidTsRange => 3908 | OidTsTzRange => 3910 | OidDateRange => 3912 | OidInt8Range => 3926
  end.

(** A small type decoder for the examples: 4-byte integers, and raw bytes
    for everything else ("unknown type identifiers return the raw bytes
    unchanged"). *)
Inductive sample := SInt (n : Z) | SBytes (bs : list byte).

Definition decodeSample (bs : list byte) (typID : Z) : value sample :=
  if (typID =? 23) && (len bs =? 4) then VTyped (SInt (int32_of_uint32 (le_decode bs)))
  else VTyped (SBytes bs).

Definition mkTuple (xminC xmaxC xmaxI : bool) (bitmap : option (list byte))
    (data : list byte) : HeapTupleData :=
  {| Header := {| XminCommitted := xminC; XmaxCommitted := xmaxC; XmaxInvalid := xmaxI |};
     Bitmap := bitmap; Data := data |}.

(** Example tuples: a live one, a deleted one, one whose insertion never
    committed, and one with an empty payload. *)
Definition liveTuple : HeapTupleData :=
  mkTuple true false true None (mkbytes [0x39;0x05;0;0; 0x0D; 104;101;108;108;111]).
Definition deadTuple : HeapTupleData :=
  mkTuple true true false None (mkbytes [0xD2;0x04;0;0; 0x05; 104]).
Definition abortedTuple : HeapTupleData :=
  mkTuple false false true None (mkbytes [1;0;0;0; 0x03]).
Definition emptyTuple : HeapTupleData :=
  mkTuple true false true None [].

(** A stand-in page parser for the examples: every page holds the four
    example tuples. *)
Definition samplePage (page : list byte) : list TupleEntry :=
  map (fun t => {| PageOffset := 0; ItemOffset := 0; Tuple := Some t |})
      [liveTuple; deadTuple; abortedTuple; emptyTuple].

Definition sampleCollaborators : Collaborators :=
  {| Typed := sample;
     ParsePage := samplePage;
     IsVisible := IsVisibleSpec;
     IsNull := IsNullSpec;
     ReadVarlena := ReadVarlenaSpec;
     DecodeType := decodeSample;
     oidOf := pgOid |}.

(** The schema [(id int4, name text)] with no alignment recorded, as the dump
    orchestrator builds it. *)
Definition sampleColumns : list Column :=
  [ {| Name := "id"; TypID := 23; Len := 4; Num := 1; Align := 0 |};
    {| Name := "name"; TypID := 25; Len := -1; Num := 2; Align := 0 |} ].

Definition onePage : list byte := repeat Byte.x00 (Z.to_nat 8192).

End Heap.

(** ** The dump orchestrator *)

Module Dump.

Record Options := {
  DatabaseFilter : string;
  TableFilter : string;
  ListOnly : bool;
  SkipSystemTables : bool;
  PostgresVersion : Z
}.

(** [&Options{SkipSystemTables: true}], used when the caller passes [nil]. *)
Definition defaultOptions : Options :=
  {| DatabaseFilter := EmptyString; TableFilter := EmptyString; ListOnly := false;
     SkipSystemTables := true; PostgresVersion := 0 |}.

(** Modelled from the spec: the catalog records are declared in a file that
    is not among the sources; they carry the fields the orchestrator reads. *)
Record DatabaseInfo := { dbOID : Z; dbName : string }.
Record TableInfo := { tiOID : Z; tiName : string; tiKind : string }.
Record AttrInfo := { atName : string; atTypID : Z; atLen : Z; atNum : Z }.

Record ColumnInfo := { ciName : string; ciType : string; ciTypID : Z }.

Record TableDump (Row : Type) := {
  tdOID : Z;
  tdName : string;
  tdFilenode : Z;
  tdKind : string;
  tdColumns : list ColumnInfo;
  tdRows : list Row;
  tdRowCount : Z
}.

Arguments tdOID {Row}.
Arguments tdName {Row}.
Arguments tdFilenode {Row}.
Arguments tdKind {Row}.
Arguments tdColumns {Row}.
Arguments tdRows {Row}.
Arguments tdRowCount {Row}.

Record DatabaseDump (Row : Type) := {
  ddOID : Z;
  ddName : string;
  ddTables : list (TableDump Row)
}.

Arguments ddOID {Row}.
Arguments ddName {Row}.
Arguments ddTables {Row}.

Record DumpResult (Row : Type) := { Databases : list (DatabaseDump Row) }.

Arguments Databases {Row}.

(** The error of [os.ReadFile]. *)
Inductive IOError := NotExist (path : list string).

(** What the orchestrator calls outside the sources at hand: the three
    catalog parsers (a Go map is the list of its entries in the order the
    [range] loop meets them), the type-name table, [strings.ToLower], and the
    file system.  [ReadFile parts] is [os.ReadFile(filepath.Join(parts...))]. *)
Class Environment := {
  ParsePGDatabase : list byte -> list DatabaseInfo;
  ParsePGClass : list byte -> list (Z * TableInfo);
  ParsePGAttribute : list byte -> Z -> gmap Z (list AttrInfo);
  TypeName : Z -> string;
  ToLower : string -> string;
  ReadFile : list string -> IOError + list byte
}.

(** [strings.HasPrefix] *)
Definition HasPrefix (s p : string) : bool := String.prefix p s.

(** [strings.Contains] *)
Fixpoint Contains (s sub : string) : bool :=
  String.prefix sub s
  || match s with
     | EmptyString => false
     | String _ rest => Contains rest sub
     end.

Fixpoint decDigits (fuel : nat) (n : Z) (acc : string) : string :=
  match fuel with
  | O => acc
  | S fuel' =>
      let acc' := String (ascii_of_nat (Z.to_nat (48 + n mod 10))) acc in
      if n / 10 =? 0 then acc' else decDigits fuel' (n / 10) acc'
  end.

(** [strconv.FormatUint(n, 10)] for a 64-bit number. *)
Definition FormatUint (n : Z) : string := decDigits 20 n EmptyString.

Section Orchestrator.

Context `{C : Heap.Collaborators} `{E : Environment}.

Abbreviation Row := (gmap string (Heap.value Heap.Typed)).

Definition dumpTableFromReader (filenode : Z) (tableInfo : TableInfo)
    (attributes : gmap Z (list AttrInfo)) (tableReader : Z -> IOError + list byte)
    (opts : Options) : TableDump Row :=
  let attrs := default [] (attributes !! tiOID tableInfo) in
  let columnInfo :=
    map (fun attr => {| ciName := atName attr; ciType := TypeName (atTypID attr);
                        ciTypID := atTypID attr |}) attrs in
  let result rows count :=
    {| tdOID := tiOID tableInfo; tdName := tiName tableInfo; tdFilenode := filenode;
       tdKind := tiKind tableInfo; tdColumns := columnInfo;
       tdRows := rows; tdRowCount := count |} in
  if ListOnly opts then result [] 0
  else
    match tableReader filenode with
    | inl _ => result [] 0
    | inr tableData =>
        let columns :=
          map (fun attr => {| Heap.Name := atName attr; Heap.TypID := atTypID attr;
                              Heap.Len := atLen attr; Heap.Num := atNum attr;
                              Heap.Align := 0 |}) attrs in
        let rows := Heap.ReadRows tableData columns true in
        result rows (len rows)
    end.

(** The three filters of [DumpDatabaseFromFiles]; a relation that passes
    them is handed to [dumpTableFromReader]. *)
Definition survives (opts : Options) (tableInfo : TableInfo) : bool :=
  negb (negb (String.eqb (tiKind tableInfo) "r") && negb (String.eqb (tiKind tableInfo) ""))
  && negb (SkipSystemTables opts && HasPrefix (tiName tableInfo) "pg_")
  && negb (negb (String.eqb (TableFilter opts) "")
           && negb (Contains (ToLower (tiName tableInfo)) (ToLower (TableFilter opts)))).

Definition DumpDatabaseFromFiles (classData attrData : list byte)
    (tableReader : Z -> IOError + list byte) (opts : option Options) : DatabaseDump Row :=
  let opts := default defaultOptions opts in
  let tables := ParsePGClass classData in
  let attributes := ParsePGAttribute attrData (PostgresVersion opts) in
  {| ddOID := 0; ddName := EmptyString;
     ddTables :=
       map (fun ft => dumpTableFromReader (fst ft) (snd ft) attributes tableReader opts)
           (List.filter (fun ft => survives opts (snd ft)) tables) |}.

Definition dumpDatabase (dataDir : string) (db : DatabaseInfo) (opts : Options)
  : option (DatabaseDump Row) :=
  let basePath := [dataDir; "base"; FormatUint (dbOID db)]%string in
  match ReadFile (basePath ++ ["1259"%string]) with
  | inl _ => None
  | inr classData =>
      match ReadFile (basePath ++ ["1249"%string]) with
      | inl _ => None
      | inr attrData =>
          let tableReader := fun filenode => ReadFile (basePath ++ [FormatUint filenode]) in
          let result := DumpDatabaseFromFiles classData attrData tableReader (Some opts) in
          Some {| ddOID := dbOID db; ddName := dbName db; ddTables := ddTables result |}
      end
  end.

(** The databases that [DumpDataDir] goes on to dump. *)
Definition selected (opts : Options) (db : DatabaseInfo) : bool :=
  negb (HasPrefix (dbName db) "template")
  && negb (negb (String.eqb (DatabaseFilter opts) "")
           && negb (String.eqb (dbName db) (DatabaseFilter opts))).

Definition DumpDataDir (dataDir : string) (opts : option Options)
  : IOError + DumpResult Row :=
  let opts := default defaultOptions opts in
  match ReadFile [dataDir; "global"; "1262"]%string with
  | inl err => inl err
  | inr dbData =>
      let databases := ParsePGDatabase dbData in
      inr {| Databases :=
               omap (fun db => dumpDatabase dataDir db opts)
                    (List.filter (selected opts) databases) |}
  end.

End Orchestrator.

(** An example cluster under ["/data"]: the database "testdb" (16384) with the
    table "users" (oid and filenode 16385), and a template database.  [files]
    lists the paths that exist. *)
Definition sampleDatabases : list DatabaseInfo :=
  [ {| dbOID := 16384; dbName := "testdb" |}; {| dbOID := 1; dbName := "template1" |} ].

Definition sampleTables : list (Z * TableInfo) :=
  [ (16385, {| tiOID := 16385; tiName := "users"; tiKind := "r" |}) ].

Definition sampleAttributes : gmap Z (list AttrInfo) :=
  {[ 16385 := [ {| atName := "id"; atTypID := 23; atLen := 4; atNum := 1 |};
                {| atName := "name"; atTypID := 25; atLen := -1; atNum := 2 |} ] ]}.

Definition sampleTypeName (typID : Z) : string :=
  if typID =? 23 then "int4" else if typID =? 25 then "text" else "unknown".

Definition pathEqb (p q : list string) : bool :=
  bool_decide (p = q).

Definition sampleEnvironment (files : list (list string)) : Environment :=
  {| ParsePGDatabase := fun _ => sampleDatabases;
     ParsePGClass := fun _ => sampleTables;
     ParsePGAttribute := fun _ _ => sampleAttributes;
     TypeName := sampleTypeName;
     ToLower := fun s => s;
     ReadFile := fun path =>
       if existsb (pathEqb path) files then inr Heap.onePage else inl (NotExist path) |}.

Definition globalCatalog : list string := ["/data"; "global"; "1262"]%string.
Definition classCatalog : list string := ["/data"; "base"; "16384"; "1259"]%string.
Definition attrCatalog : list string := ["/data"; "base"; "16384"; "1249"]%string.
Definition usersHeap : list string := ["/data"; "base"; "16384"; "16385"]%string.

End Dump.

(** ** Segments and block ranges, continued ([segment.go]) *)

Module SegmentIO.

Definition DefaultSegmentSize : Z := 1024 * 1024 * 1024.

(** A run-time panic of an arithmetic or slicing expression. *)
Inductive fault := IntegerDivideByZero | SliceBoundsOutOfRange | IndexOutOfRange.

(** [GlobalBlockToSegment]; the quotient and remainder are Go's, which round
    toward zero, and a divisor of zero stops the program. *)
Definition GlobalBlockToSegment (globalBlock segmentSize : Z) : fault + Z * Z :=
  let segmentSize := if segmentSize <=? 0 then DefaultSegmentSize else segmentSize in
  let blocksPerSegment := Z.quot segmentSize PageSize in
  if blocksPerSegment =? 0 then inl IntegerDivideByZero
  else inr (Z.quot globalBlock blocksPerSegment, Z.rem globalBlock blocksPerSegment).

(** [strings.Contains(s, c)] / [strings.LastIndex(s, c) != -1] for a
    one-character [c]. *)
Fixpoint hasChar (c : ascii) (s : string) : bool :=
  match s with
  | EmptyString => false
  | String x rest => Ascii.eqb x c || hasChar c rest
  end.

(** [s[strings.LastIndex(s, c)+1:]] when [c] occurs in [s]; [s] itself
    otherwise. *)
Fixpoint afterLast (c : ascii) (s : string) : string :=
  match s with
  | EmptyString => EmptyString
  | String x rest =>
      if hasChar c rest then afterLast c rest
      else if Ascii.eqb x c then rest
      else String x rest
  end.

(** The loop of [filepath.Base] that drops trailing separators. *)
Fixpoint stripTrailingSlashes (s : string) : string :=
  match s with
  | EmptyString => EmptyString
  | String x rest =>
      let rest' := stripTrailingSlashes rest in
      if Ascii.eqb x "/" && String.eqb rest' EmptyString then EmptyString
      else String x rest'
  end.

(** [filepath.Base] where the separator is the slash and there are no volume
    names. *)
Definition Base (path : string) : string :=
  if String.eqb path EmptyString then "."%string
  else
    let path := stripTrailingSlashes path in
    let path := afterLast "/" path in
    if String.eqb path EmptyString then "/"%string else path.

Definition GetSegmentNumberFromPath (path : string) : Z :=
  let base := Base path in
  if negb (hasChar "." base) then 0
  else
    match GoLib.Atoi (afterLast "." base) with
    | Some num => num
    | None => 0
    end.

(** Whether a string consists of decimal digits only. *)
Fixpoint digitsOnly (s : string) : bool :=
  match s with
  | EmptyString => true
  | String c rest =>
      match GoLib.digitVal c with
      | Some _ => digitsOnly rest
      | None => false
      end
  end.

(** The name [ListSegments] gives to segment [i] of a relation,
    [fmt.Sprintf("%s.%d", basePath, i)], for [i >= 0]. *)
Definition segmentPath (basePath : string) (i : Z) : string :=
  (basePath ++ String "." (Dump.FormatUint i))%string.

Inductive RangeError :=
| OpenError
| StartBeyondFile (start totalBlocks : Z)
| InvalidRange (start end_ : Z).

(** [ReadBlockRange] against a regular file: [file] is [None] when the path
    cannot be opened, otherwise the contents of the file; seeking and reading
    inside the file deliver the bytes asked for. *)
Definition ReadBlockRange (file : option (list byte)) (blockRange : option Segment.BlockRange)
  : RangeError + list byte :=
  match file with
  | None => inl OpenError
  | Some content =>
      let totalBlocks := Z.quot (len content) PageSize in
      let start :=
        match blockRange with
        | Some br => if 0 <=? Segment.Start br then Segment.Start br else 0
        | None => 0
        end in
      let end_ :=
        match blockRange with
        | Some br => if 0 <=? Segment.End_ br then Segment.End_ br else totalBlocks - 1
        | None => totalBlocks - 1
        end in
      if totalBlocks <=? start then inl (StartBeyondFile start totalBlocks)
      else
        let end_ := if totalBlocks <=? end_ then totalBlocks - 1 else end_ in
        if end_ <? start then inl (InvalidRange start end_)
        else
          let startOffset := start * PageSize in
          let numBlocks := end_ - start + 1 in
          let bytesToRead := numBlocks * PageSize in
          inr (take (Z.to_nat bytesToRead) (drop (Z.to_nat startOffset) content))
  end.

(** [uint32(x)] of an [int]. *)
Definition wrap32 (x : Z) : Z := x mod 2 ^ 32.

(** The loop of [DumpBlockRange]: [n] pages remain, the next one is page [i]
    of [data]. *)
Fixpoint blockInfos (n : nat) (data : list byte) (startBlock i : Z) : list Segment.BlockInfo :=
  match n with
  | O => []
  | S n' =>
      let offset := i * PageSize in
      let block := take (Z.to_nat PageSize) (drop (Z.to_nat offset) data) in
      match Segment.ParseBlockInfo block (wrap32 (startBlock + i)) with
      | Some info => info :: blockInfos n' data startBlock (i + 1)
      | None => blockInfos n' data startBlock (i + 1)
      end
  end.

Definition DumpBlockRange (file : option (list byte)) (blockRange : option Segment.BlockRange)
  : RangeError + list Segment.BlockInfo :=
  match ReadBlockRange file blockRange with
  | inl err => inl err
  | inr data =>
      let startBlock :=
        match blockRange with
        | Some br => if 0 <=? Segment.Start br then Segment.Start br else 0
        | None => 0
        end in
      inr (blockInfos (Z.to_nat (Z.quot (len data) PageSize)) data startBlock 0)
  end.

(** [BlockRangeStats].  The field [AvgFillPct] is a floating-point number,
    [float64(totalUsed) / float64(totalCapacity) * 100]; the record keeps the
    two integers it is computed from ([FillCapacity] is 0 when the field is
    left at 0). *)
Record BlockRangeStats := {
  Path : string;
  TotalBlocks : Z;
  StartBlock : Z;
  EndBlock : Z;
  EmptyBlocks : Z;
  UsedBlocks : Z;
  TotalItems : Z;
  TotalFree : Z;
  FillUsed : Z;
  FillCapacity : Z
}.

(** The counting loop of [GetBlockRangeStats]: empty blocks, used blocks,
    items, free space, and [totalUsed]. *)
Fixpoint countBlocks (blocks : list Segment.BlockInfo) (acc : Z * Z * Z * Z * Z)
  : Z * Z * Z * Z * Z :=
  match blocks with
  | [] => acc
  | b :: rest =>
      let '(empty, used, items, free, totalUsed) := acc in
      if Segment.IsEmpty b then countBlocks rest (empty + 1, used, items, free, totalUsed)
      else
        let totalUsed' :=
          if 0 <? Segment.PageSize_ b
          then totalUsed + (Segment.PageSize_ b - Segment.FreeSpace b)
          else totalUsed in
        countBlocks rest (empty, used + 1, items + Segment.ItemCount b,
                          free + Segment.FreeSpace b, totalUsed')
  end.

Definition statsOf (path : string) (blocks : list Segment.BlockInfo) : BlockRangeStats :=
  match blocks with
  | [] =>
      {| Path := path; TotalBlocks := 0; StartBlock := 0; EndBlock := 0; EmptyBlocks := 0;
         UsedBlocks := 0; TotalItems := 0; TotalFree := 0; FillUsed := 0; FillCapacity := 0 |}
  | first :: _ =>
      let '(empty, used, items, free, totalUsed) := countBlocks blocks (0, 0, 0, 0, 0) in
      let capacity := used * PageSize in
      let filled := (0 <? used) && (0 <? capacity) in
      {| Path := path; TotalBlocks := len blocks;
         StartBlock := Segment.BlockNumber first;
         EndBlock := Segment.BlockNumber (List.last blocks first);
         EmptyBlocks := empty; UsedBlocks := used; TotalItems := items; TotalFree := free;
         FillUsed := if filled then totalUsed else 0;
         FillCapacity := if filled then capacity else 0 |}
  end.

Definition GetBlockRangeStats (path : string) (file : option (list byte))
    (blockRange : option Segment.BlockRange) : RangeError + BlockRangeStats :=
  match DumpBlockRange file blockRange with
  | inl err => inl err
  | inr blocks => inr (statsOf path blocks)
  end.

(** Page [j] of a file. *)
Definition pageAt (content : list byte) (j : Z) : list byte :=
  take (Z.to_nat PageSize) (drop (Z.to_nat (j * PageSize)) content).

(** The first and last block that [ReadBlockRange] settles on for a file of
    [totalBlocks] whole pages. *)
Definition firstBlock (blockRange : option Segment.BlockRange) : Z :=
  match blockRange with
  | Some br => if 0 <=? Segment.Start br then Segment.Start br else 0
  | None => 0
  end.

Definition lastBlock (blockRange : option Segment.BlockRange) (totalBlocks : Z) : Z :=
  match blockRange with
  | Some br =>
      if (0 <=? Segment.End_ br) && (Segment.End_ br <? totalBlocks)
      then Segment.End_ br else totalBlocks - 1
  | None => totalBlocks - 1
  end.

(** A file of three pages: the page of the block-information test, an
    all-zero page, and the page with crossed bounds. *)
Definition threePages : list byte :=
  Segment.testPage ++ repeat Byte.x00 (Z.to_nat 8192) ++ Segment.crossedPage.

End SegmentIO.

(** ** The write-ahead log: version names and the most recent records *)

Module WalDir.

Definition pgVersionFromMagic (magic : Z) : string :=
  if magic =? Wal.WAL_MAGIC_16 then "16"
  else if magic =? Wal.WAL_MAGIC_15 then "15"
  else if magic =? Wal.WAL_MAGIC_14 then "14"
  else if magic =? Wal.WAL_MAGIC_13 then "13"
  else if magic =? Wal.WAL_MAGIC_12 then "12"
  else "unknown".

(** The loop of [GetRecentWALRecords],
    [for i := len(walFiles) - 1; i >= 0 && len(allRecords) < limit; i--],
    over the files still to visit, newest first.  A file is its contents, or
    [None] when [os.ReadFile] fails. *)
Fixpoint recentLoop (newestFirst : list (option (list byte))) (limit : Z)
    (allRecords : list Wal.WALRecord) : run (list Wal.WALRecord) :=
  match newestFirst with
  | [] => Ret allRecords
  | file :: older =>
      if len allRecords <? limit then
        match file with
        | None => recentLoop older limit allRecords
        | Some data =>
            r ← Wal.ParseWALFile data;
            match r with
            | inl _ => recentLoop older limit allRecords
            | inr records => recentLoop older limit (records ++ allRecords)
            end
        end
      else Ret allRecords
  end.

(** [GetRecentWALRecords] once the directory has been listed: [walFiles] are
    the segment files of [pg_wal] in the order of their names.  The final
    slice expression [allRecords[len(allRecords)-limit:]] panics when its low
    bound exceeds the length. *)
Definition GetRecentWALRecords (walFiles : list (option (list byte))) (limit : Z)
  : run (SegmentIO.fault + list Wal.WALRecord) :=
  allRecords ← recentLoop (rev walFiles) limit [];
  if limit <? len allRecords then
    if len allRecords <? len allRecords - limit
    then Ret (inl SegmentIO.SliceBoundsOutOfRange)
    else Ret (inr (drop (Z.to_nat (len allRecords - limit)) allRecords))
  else Ret (inr allRecords).

(** The records a segment file contributes: none when it cannot be read or
    parsed. *)
Definition fileRecords (file : option (list byte)) : list Wal.WALRecord :=
  match file with
  | Some data =>
      match Wal.ParseWALFile data with
      | Ret (inr records) => records
      | _ => []
      end
  | None => []
  end.

(** A segment of two pages: [Wal.contPage] filled up to a page with zeros,
    twice. *)
Definition twoPages : list byte :=
  let page := Wal.contPage ++ mkbytes (repeat 0 (Z.to_nat (Wal.WALPageSize - len Wal.contPage))) in
  page ++ page.

End WalDir.

(** ** Large-object pointers and the large-object reader *)

Module ToastRead.

Definition ParseTOASTPointer (data : list byte) : option Toast.TOASTPointer :=
  if len data <? 18 then None
  else
    let tag := byteAt data 0 in
    if negb (tag =? 0x01) && negb (tag =? 0x02) && negb (tag =? 0x12) then None
    else
      let offset := 1 in
      if len data <? offset + 16 then None
      else
        let rawSizeField := Uint32_at data 1 in
        Some {| Toast.RawSize := Z.land rawSizeField 0x3FFFFFFF;
                Toast.ExtSize := Uint32_at data 5;
                Toast.ValueID := Uint32_at data 9;
                Toast.ToastRelID := Uint32_at data 13;
                Toast.IsCompressed := (tag =? 0x02) || (tag =? 0x12);
                Toast.CompressionMethod := Z.shiftr rawSizeField 30 |}.

Definition IsTOASTPointer (data : list byte) : bool :=
  if len data <? 2 then false
  else
    let first := byteAt data 0 in
    (first =? 0x01) || (first =? 0x02) || (first =? 0x12).

(** Modelled from the spec: [u32] and [i32] are not among the sources; they
    "read little-endian at a given offset with bounds checking, returning
    zero if out of range". *)
Definition u32 := u_at 4.
Definition i32 (data : list byte) (off : Z) : Z := int32_of_uint32 (u_at 4 data off).

(** [TOASTReader]; the field [chunks] is a Go map keyed by the identifier of
    the large-object table. *)
Record TOASTReader := {
  chunks : gmap Z (list Toast.TOASTChunk);
  dataDir : string;
  dbOID : Z
}.

Definition NewTOASTReader : TOASTReader :=
  {| chunks := ∅; dataDir := EmptyString; dbOID := 0 |}.

Definition NewTOASTReaderForDB (dir : string) (db : Z) : TOASTReader :=
  {| chunks := ∅; dataDir := dir; dbOID := db |}.

Section Reader.

Context `{C : Heap.Collaborators} `{E : Dump.Environment}.
Variable sortSlice : list Toast.TOASTChunk -> list Toast.TOASTChunk.
Variable zlibReadAll : list byte -> option (list byte).

(** The body of the loop of [ReadTOASTTable] for one tuple: the chunk it
    appends, if any. *)
Definition chunkOfTuple (tuple : Heap.HeapTupleData) : option Toast.TOASTChunk :=
  if len (Heap.Data tuple) <? 8 then None
  else
    let chunkID := u32 (Heap.Data tuple) 0 in
    let chunkSeq := i32 (Heap.Data tuple) 4 in
    let offset := align 8 4 in
    let chunkData :=
      if offset <? len (Heap.Data tuple)
      then default [] (fst (Heap.ReadVarlena (drop (Z.to_nat offset) (Heap.Data tuple))))
      else [] in
    if 0 <? len chunkData
    then Some {| Toast.ChunkID := chunkID; Toast.ChunkSeq := chunkSeq; Toast.Data := chunkData |}
    else None.

Definition ReadTOASTTable (data : list byte) : list Toast.TOASTChunk :=
  omap (fun entry => tuple ← Heap.Tuple entry; chunkOfTuple tuple)
       (Heap.ReadTuples data true).

Definition LoadTOASTTable (r : TOASTReader) (toastRelID : Z) (data : list byte) : TOASTReader :=
  {| chunks := <[toastRelID := ReadTOASTTable data]> (chunks r);
     dataDir := dataDir r; dbOID := dbOID r |}.

(** [LoadTOASTTableFromFile]: the reader afterwards, and whether an error is
    returned. *)
Definition LoadTOASTTableFromFile (r : TOASTReader) (toastRelID : Z) : TOASTReader * bool :=
  if String.eqb (dataDir r) "" then (r, true)
  else
    match Dump.ReadFile [dataDir r; "base"; Dump.FormatUint (dbOID r);
                         Dump.FormatUint toastRelID]%string with
    | inl _ => (r, true)
    | inr data => (LoadTOASTTable r toastRelID data, false)
    end.

(** [ReadValue]: the reader afterwards and the value returned ([nil] is the
    empty slice). *)
Definition ReadValue (r : TOASTReader) (data : list byte) : TOASTReader * run (list byte) :=
  match ParseTOASTPointer data with
  | None => (r, Ret data)
  | Some ptr =>
      let r' :=
        match chunks r !! Toast.ToastRelID ptr with
        | Some _ => r
        | None =>
            if negb (String.eqb (dataDir r) "")
            then fst (LoadTOASTTableFromFile r (Toast.ToastRelID ptr))
            else r
        end in
      match chunks r' !! Toast.ToastRelID ptr with
      | None => (r', Ret [])
      | Some loaded =>
          (r', Toast.ReassembleTOAST sortSlice zlibReadAll loaded (Toast.ValueID ptr) (Some ptr))
      end
  end.

End Reader.

(** An 18-byte pointer to the value 42 of the table 16500, uncompressed, with
    raw size 12. *)
Definition helloPointerBytes : list byte :=
  mkbytes [0x01; 12;0;0;0; 12;0;0;0; 42;0;0;0; 0x74;0x40;0;0; 0].

(** A reader that has the table 16500 loaded with [Toast.helloChunks]. *)
Definition helloReader : TOASTReader :=
  {| chunks := {[ 16500 := Toast.helloChunks ]}; dataDir := EmptyString; dbOID := 0 |}.

End ToastRead.

(** ** Further example data *)

Module HeapExamples.

(** A schema of two 4-byte integers and a live tuple that holds only the
    first of them. *)
Definition colA : Heap.Column :=
  {| Heap.Name := "a"; Heap.TypID := 23; Heap.Len := 4; Heap.Num := 1; Heap.Align := 0 |}.
Definition colB : Heap.Column :=
  {| Heap.Name := "b"; Heap.TypID := 23; Heap.Len := 4; Heap.Num := 2; Heap.Align := 0 |}.
Definition twoInts : list Heap.Column := [colA; colB].

Definition shortTuple : Heap.HeapTupleData :=
  Heap.mkTuple true false true None (mkbytes [7; 0; 0; 0]).



End HeapExamples.

(** ** Dumping one database by its identifier *)

Module DumpOne.

Section ByOID.

Context `{C : Heap.Collaborators} `{E : Dump.Environment}.

(** [DumpDatabase]; the result [inr None] is Go's [(nil, nil)]. *)
Definition DumpDatabase (dataDir : string) (dbOID : Z) (opts : option Dump.Options)
  : Dump.IOError + option (Dump.DatabaseDump (gmap string (Heap.value Heap.Typed))) :=
  let opts := default Dump.defaultOptions opts in
  match Dump.ReadFile [dataDir; "global"; "1262"]%string with
  | inl err => inl err
  | inr dbData =>
      match List.find (fun db => Dump.dbOID db =? dbOID) (Dump.ParsePGDatabase dbData) with
      | None => inr None
      | Some dbInfo => inr (Dump.dumpDatabase dataDir dbInfo opts)
      end
  end.

Definition ParseFile (data : list byte) : list Heap.TupleEntry :=
  Heap.ReadTuples data true.

Definition ParseFileWithSchema (data : list byte) (columns : list Heap.Column)
  : list (gmap string (Heap.value Heap.Typed)) :=
  Heap.ReadRows data columns true.

End ByOID.

(** The options [o] with another database filter. *)
Definition withDatabaseFilter (filter : string) (o : Dump.Options) : Dump.Options :=
  {| Dump.DatabaseFilter := filter;
     Dump.TableFilter := Dump.TableFilter o;
     Dump.ListOnly := Dump.ListOnly o;
     Dump.SkipSystemTables := Dump.SkipSystemTables o;
     Dump.PostgresVersion := Dump.PostgresVersion o |}.

End DumpOne.

(** ** Sequence files *)

Module Sequence.

Definition SequenceMagic : Z := 0x1717.

Record SequenceData := {
  Name : string;
  OID : Z;
  Filenode : Z;
  LastValue : Z;
  StartValue : Z;
  IncrementBy : Z;
  MaxValue : Z;
  MinValue : Z;
  CacheValue : Z;
  IsCycled : bool;
  IsCalled : bool
}.

Inductive SeqError :=
| FileTooSmall (n : Z)
| InvalidSpecial
| NotSequence (magic : Z)
| NoItems
| InvalidItemPointer
| TupleTooSmall
| DataTooShort
| DataTooShortModern.

(** A computation that may stop with a run-time panic. *)
Definition checked (A : Type) : Type := SegmentIO.fault + A.

Definition andThen {A B} (r : checked A) (k : A -> checked B) : checked B :=
  match r with
  | inl f => inl f
  | inr a => k a
  end.

#[global] Instance checked_ret : MRet checked := fun A a => inr a.
#[global] Instance checked_bind : MBind checked := fun A B k r => andThen r k.

(** [data[a:]] and [data[a:b]] *)
Definition sliceFrom (data : list byte) (a : Z) : checked (list byte) :=
  if (a <? 0) || (len data <? a) then inl SegmentIO.SliceBoundsOutOfRange
  else inr (drop (Z.to_nat a) data).

Definition slice (data : list byte) (a b : Z) : checked (list byte) :=
  if (a <? 0) || (b <? a) || (len data <? b) then inl SegmentIO.SliceBoundsOutOfRange
  else inr (take (Z.to_nat (b - a)) (drop (Z.to_nat a) data)).

(** [data[i]] *)
Definition at_ (data : list byte) (i : Z) : checked Z :=
  if (i <? 0) || (len data <=? i) then inl SegmentIO.IndexOutOfRange
  else inr (byteAt data i).

(** [binary.LittleEndian.UintN(b)]: the first N/8 bytes of [b], which must be
    there. *)
Definition uintN (n : nat) (b : list byte) : checked Z :=
  if len b <? Z.of_nat n then inl SegmentIO.IndexOutOfRange
  else inr (le_decode (take n b)).

Definition uint16 := uintN 2.
Definition uint32 := uintN 4.
Definition uint64 := uintN 8.

(** Conversion [int64(x)] of a [uint64]. *)
Definition int64_of_uint64 (u : Z) : Z :=
  if u <? 2 ^ 63 then u else u - 2 ^ 64.

(** [int64(binary.LittleEndian.Uint64(data[offset:]))] *)
Definition int64From (data : list byte) (offset : Z) : checked Z :=
  b ← sliceFrom data offset;
  u ← uint64 b;
  mret (int64_of_uint64 u).

Definition emptySequence : SequenceData :=
  {| Name := EmptyString; OID := 0; Filenode := 0; LastValue := 0; StartValue := 0;
     IncrementBy := 0; MaxValue := 0; MinValue := 0; CacheValue := 0;
     IsCycled := false; IsCalled := false |}.

(** The test [firstVal == 20 || firstVal == 21 || firstVal == 23] of
    [parseSequenceTuple], on the first four bytes of the data. *)
Definition modernMarker (data : list byte) : bool :=
  (Uint32_at data 0 =? 20) || (Uint32_at data 0 =? 21) || (Uint32_at data 0 =? 23).

Definition failWith {A} (e : SeqError) : checked (SeqError + A) := inr (inl e).
Definition done {A} (a : A) : checked (SeqError + A) := inr (inr a).

Definition parseSequenceTuple (data : list byte) : checked (SeqError + SequenceData) :=
  if len data <? 8 then failWith DataTooShort
  else
    b ← slice data 0 4;
    firstVal ← uint32 b;
    if (firstVal =? 20) || (firstVal =? 21) || (firstVal =? 23) then
      let offset := 4 in
      if len data <? offset + 48 then failWith DataTooShortModern
      else
        start ← int64From data offset;
        let offset := offset + 8 in
        increment ← int64From data offset;
        let offset := offset + 8 in
        maxValue ← int64From data offset;
        let offset := offset + 8 in
        minValue ← int64From data offset;
        let offset := offset + 8 in
        cache ← int64From data offset;
        let offset := offset + 8 in
        cycled ← at_ data offset;
        let offset := offset + 1 in
        let offset := Wal.align8 offset in
        let seq last called :=
          {| Name := EmptyString; OID := 0; Filenode := 0; LastValue := last;
             StartValue := start; IncrementBy := increment; MaxValue := maxValue;
             MinValue := minValue; CacheValue := cache;
             IsCycled := negb (cycled =? 0); IsCalled := called |} in
        if offset + 9 <=? len data then
          last ← int64From data offset;
          let offset := offset + 8 in
          if offset <? len data then
            called ← at_ data offset;
            done (seq last (negb (called =? 0)))
          else done (seq last false)
        else done (seq 0 false)
    else
      let offset := 0 in
      if len data <? 57 then
        if 8 <=? len data then
          b8 ← slice data 0 8;
          u ← uint64 b8;
          done {| Name := EmptyString; OID := 0; Filenode := 0;
                  LastValue := int64_of_uint64 u; StartValue := 0; IncrementBy := 0;
                  MaxValue := 0; MinValue := 0; CacheValue := 0;
                  IsCycled := false; IsCalled := false |}
        else done emptySequence
      else
        last ← int64From data offset;
        let offset := offset + 8 in
        start ← int64From data offset;
        let offset := offset + 8 in
        increment ← int64From data offset;
        let offset := offset + 8 in
        maxValue ← int64From data offset;
        let offset := offset + 8 in
        minValue ← int64From data offset;
        let offset := offset + 8 in
        cache ← int64From data offset;
        let offset := offset + 8 in
        let offset := offset + 8 in
        let seq cycled called :=
          {| Name := EmptyString; OID := 0; Filenode := 0; LastValue := last;
             StartValue := start; IncrementBy := increment; MaxValue := maxValue;
             MinValue := minValue; CacheValue := cache;
             IsCycled := cycled; IsCalled := called |} in
        if offset <? len data then
          cycled ← at_ data offset;
          let offset := offset + 1 in
          if offset <? len data then
            called ← at_ data offset;
            done (seq (negb (cycled =? 0)) (negb (called =? 0)))
          else done (seq (negb (cycled =? 0)) false)
        else done (seq false false).

Definition ParseSequenceFile (data : list byte) : checked (SeqError + SequenceData) :=
  if len data <? PageSize then failWith (FileTooSmall (len data))
  else
    b ← slice data 16 18;
    special ← uint16 b;
    if (special =? 0) || (PageSize - 2 <=? special) then failWith InvalidSpecial
    else
      b ← sliceFrom data special;
      magic ← uint16 b;
      if negb (magic =? SequenceMagic) then failWith (NotSequence magic)
      else
        b ← slice data 12 14;
        lower ← uint16 b;
        if lower <? headerSize + itemIDSize then failWith NoItems
        else
          b ← slice data headerSize (headerSize + 4);
          itemPtr ← uint32 b;
          let itemOffset := Z.land itemPtr 0x7FFF in
          let itemLen := Z.land (Z.shiftr itemPtr 17) 0x7FFF in
          if (itemOffset =? 0) || (itemLen =? 0) || (PageSize <? itemOffset + itemLen)
          then failWith InvalidItemPointer
          else
            tupleData ← slice data itemOffset (itemOffset + itemLen);
            if len tupleData <? 23 then failWith TupleTooSmall
            else
              hoff ← at_ tupleData 22;
              let hoff := if (hoff <? 23) || (len tupleData <? hoff) then 24 else hoff in
              seqData ← sliceFrom tupleData hoff;
              parseSequenceTuple seqData.

Definition IsSequenceFile (data : list byte) : checked bool :=
  if len data <? PageSize then mret false
  else
    b ← slice data 16 18;
    special ← uint16 b;
    if (special =? 0) || (PageSize - 2 <=? special) then mret false
    else
      b ← sliceFrom data special;
      magic ← uint16 b;
      mret (magic =? SequenceMagic).

(** The page of the package's test: all zero, except the special pointer
    8188 and the magic number there. *)
Definition magicPage : list byte :=
  mkbytes (repeat 0 16 ++ [0xFC; 0x1F] ++ repeat 0 (Z.to_nat 8170) ++ [0x17; 0x17; 0; 0]).

(** The same page with one item of 23 bytes at offset 100 (item pointer
    [100 | 23 << 17]) and a lower bound of 28. *)
Definition shortItemPage : list byte :=
  mkbytes (repeat 0 12 ++ [28; 0] ++ repeat 0 2 ++ [0xFC; 0x1F] ++ repeat 0 6
           ++ [100; 0; 0x2E; 0] ++ repeat 0 (Z.to_nat 8160) ++ [0x17; 0x17; 0; 0]).

End Sequence.

(** ** Searching a dump ([search.go]) *)

Module Search.

Record SearchOptions := {
  Pattern : string;
  CaseSensitive : bool;
  IncludeRow : bool;
  MaxResults : Z
}.

Inductive SearchError :=
| OptionsRequired
| InvalidPattern
| DumpFailed (err : Dump.IOError).

Section Searching.

Context `{C : Heap.Collaborators} `{E : Dump.Environment}.

Abbreviation Value := (Heap.value Heap.Typed).
Abbreviation Row := (gmap string (Heap.value Heap.Typed)).

Record SearchResult := {
  Database : string;
  Table : string;
  Column : string;
  RowNum : Z;
  Value_ : Value;
  Row_ : option Row
}.

(** The regular expressions of Go's [regexp] package: [Compile] ([None] is an
    error) and [MatchString]; how a decoded value that is neither [nil] nor a
    string is matched ([matchValue] goes by the dynamic type of the value);
    and the order in which a [range] loop meets the entries of a row. *)
Variable Regexp : Type.
Variable Compile : string -> option Regexp.
Variable MatchString : Regexp -> list byte -> bool.
Variable matchTyped : Heap.Typed -> Regexp -> bool.
Variable rangeRow : Row -> list (string * Value).

Definition matchValue (value : Value) (re : Regexp) : bool :=
  match value with
  | Heap.VNil => false
  | Heap.VStr s => MatchString re s
  | Heap.VTyped t => matchTyped t re
  end.

(** A loop with an early [return]: [inl] is the value returned from inside
    the loop, [inr] the accumulator after the last element. *)
Fixpoint loop {A R} (body : A -> R -> R + R) (l : list A) (acc : R) : R + R :=
  match l with
  | [] => inr acc
  | a :: rest =>
      match body a acc with
      | inl returned => inl returned
      | inr acc' => loop body rest acc'
      end
  end.

(** Appending matches one at a time under the limit, as the innermost loop
    body does. *)
Definition collect {R} (limit : Z) (found : list R) (acc : list R) : list R + list R :=
  loop (fun x acc =>
          let acc := acc ++ [x] in
          if (0 <? limit) && (limit <=? len acc) then inl acc else inr acc)
       found acc.

(** The rows of a table with their indices, as [for rowNum, row := range]
    meets them. *)
Definition indexed {A} (l : list A) : list (Z * A) :=
  imap (fun i a => (Z.of_nat i, a)) l.

Definition columnBody (opts : SearchOptions) (re : Regexp) (db : string) (table : string)
    (rowNum : Z) (row : Row) (entry : string * Value) (matches : list SearchResult)
  : list SearchResult + list SearchResult :=
  let '(colName, value) := entry in
  if matchValue value re then
    let found := {| Database := db; Table := table; Column := colName; RowNum := rowNum;
                    Value_ := value;
                    Row_ := if IncludeRow opts then Some row else None |} in
    let matches := matches ++ [found] in
    if (0 <? MaxResults opts) && (MaxResults opts <=? len matches) then inl matches
    else inr matches
  else inr matches.

Definition searchLoops (opts : SearchOptions) (re : Regexp)
    (result : Dump.DumpResult Row) : list SearchResult :=
  let found :=
    loop (fun db =>
      loop (fun table =>
        loop (fun numbered =>
          loop (columnBody opts re (Dump.ddName db) (Dump.tdName table)
                  (fst numbered) (snd numbered))
               (rangeRow (snd numbered)))
          (indexed (Dump.tdRows table)))
        (Dump.ddTables db))
      (Dump.Databases result) [] in
  match found with
  | inl matches => matches
  | inr matches => matches
  end.

(** The pattern handed to [regexp.Compile]. *)
Definition patternOf (opts : SearchOptions) : string :=
  if CaseSensitive opts then Pattern opts else ("(?i)" ++ Pattern opts)%string.

Definition SearchInDump (result : Dump.DumpResult Row) (opts : option SearchOptions)
  : SearchError + list SearchResult :=
  match opts with
  | None => inl OptionsRequired
  | Some opts =>
      match Compile (patternOf opts) with
      | None => inl InvalidPattern
      | Some re => inr (searchLoops opts re result)
      end
  end.

(** [&Options{SkipSystemTables: true}] *)
Definition dumpOptions : Dump.Options :=
  {| Dump.DatabaseFilter := EmptyString; Dump.TableFilter := EmptyString;
     Dump.ListOnly := false; Dump.SkipSystemTables := true; Dump.PostgresVersion := 0 |}.

Definition Search (dataDir : string) (opts : option SearchOptions)
  : SearchError + list SearchResult :=
  match opts with
  | None => inl OptionsRequired
  | Some opts =>
      match Compile (patternOf opts) with
      | None => inl InvalidPattern
      | Some re =>
          match Dump.DumpDataDir dataDir (Some dumpOptions) with
          | inl err => inl (DumpFailed err)
          | inr result => inr (searchLoops opts re result)
          end
      end
  end.

(** Every match of a dump, in the order of the loops, without a limit. *)
Definition matchesOfRow (opts : SearchOptions) (re : Regexp) (db table : string)
    (numbered : Z * Row) : list SearchResult :=
  omap (fun entry =>
          if matchValue (snd entry) re
          then Some {| Database := db; Table := table; Column := fst entry;
                       RowNum := fst numbered; Value_ := snd entry;
                       Row_ := if IncludeRow opts then Some (snd numbered) else None |}
          else None)
       (rangeRow (snd numbered)).

Definition allMatches (opts : SearchOptions) (re : Regexp) (result : Dump.DumpResult Row)
  : list SearchResult :=
  concat (map (fun db =>
    concat (map (fun table =>
      concat (map (matchesOfRow opts re (Dump.ddName db) (Dump.tdName table))
                  (indexed (Dump.tdRows table))))
      (Dump.ddTables db)))
    (Dump.Databases result)).

End Searching.

Arguments Database {C}.
Arguments Table {C}.
Arguments Column {C}.
Arguments RowNum {C}.
Arguments Value_ {C}.
Arguments Row_ {C}.

(** A stand-in for the regular expressions in the examples: a pattern is the
    byte string to find at the start of the value. *)
Definition prefixMatch (re : list byte) (s : list byte) : bool :=
  bool_decide (map byteZ (take (length re) s) = map byteZ re).

Definition sampleRow : gmap string (Heap.value Heap.sample) :=
  {[ "name"%string := Heap.VStr (Toast.asciiBytes "alice");
     "note"%string := Heap.VStr (Toast.asciiBytes "alpha") ]}.

Definition sampleDump : Dump.DumpResult (gmap string (Heap.value Heap.sample)) :=
  {| Dump.Databases :=
       [ {| Dump.ddOID := 16384; Dump.ddName := "testdb";
            Dump.ddTables :=
              [ {| Dump.tdOID := 16385; Dump.tdName := "users"; Dump.tdFilenode := 16385;
                   Dump.tdKind := "r"; Dump.tdColumns := [];
                   Dump.tdRows := [sampleRow; sampleRow]; Dump.tdRowCount := 2 |} ] |} ] |}.

Definition sampleOptions (limit : Z) : SearchOptions :=
  {| Pattern := "al"; CaseSensitive := true; IncludeRow := false; MaxResults := limit |}.

End Search.

(** ** Statistics of a large-object table *)

Module ToastInfo.

(** [TOASTValueInfo] *)
Record TOASTValueInfo := {
  ChunkID : Z;
  NumChunks : Z;
  TotalSize : Z;
  IsCompressed : bool;
  RawSize : Z;
  ExtSize : Z
}.

(** [TOASTVerboseInfo].  [AverageChunkSize] is the floating-point quotient
    [float64(TotalSize) / float64(TotalChunks)]; the record keeps the two
    integers it is computed from.  [CompressionStats] is left at its zero
    value by [GetTOASTVerboseInfo] and is not repeated here. *)
Record TOASTVerboseInfo := {
  ToastRelID : Z;
  TotalChunks : Z;
  UniqueValues : Z;
  TotalSize_ : Z;
  AverageChunkSize : Z * Z;
  MaxChunksPerValue : Z;
  ChunkDistribution : gmap Z Z;
  Values : list TOASTValueInfo
}.

Definition sum (l : list Z) : Z := foldr Z.add 0 l.

(** [for _, c := range chunks { valueSize += int64(len(c.Data)) }] *)
Definition sizeOf (chunks : list Toast.TOASTChunk) : Z :=
  foldl (fun size c => size + len (Toast.Data c)) 0 chunks.

(** The first loop of [GetTOASTVerboseInfo]: the chunks grouped by value and
    the running total size. *)
Definition groupStep (acc : gmap Z (list Toast.TOASTChunk) * Z) (c : Toast.TOASTChunk)
  : gmap Z (list Toast.TOASTChunk) * Z :=
  (<[Toast.ChunkID c := default [] (fst acc !! Toast.ChunkID c) ++ [c]]> (fst acc),
   snd acc + len (Toast.Data c)).

Definition groupChunks (chunks : list Toast.TOASTChunk)
  : gmap Z (list Toast.TOASTChunk) * Z :=
  foldl groupStep (∅, 0) chunks.

Definition valueInfo (entry : Z * list Toast.TOASTChunk) : TOASTValueInfo :=
  {| ChunkID := fst entry; NumChunks := len (snd entry); TotalSize := sizeOf (snd entry);
     IsCompressed := false; RawSize := 0; ExtSize := 0 |}.

(** The second loop: the largest group, the distribution of group sizes and
    the per-value entries. *)
Definition analyseStep (acc : Z * gmap Z Z * list TOASTValueInfo)
    (entry : Z * list Toast.TOASTChunk) : Z * gmap Z Z * list TOASTValueInfo :=
  let '(maxChunks, distribution, values) := acc in
  let numChunks := len (snd entry) in
  (if maxChunks <? numChunks then numChunks else maxChunks,
   <[numChunks := default 0 (distribution !! numChunks) + 1]> distribution,
   values ++ [valueInfo entry]).

Section Info.

Context `{C : Heap.Collaborators}.

(** The order in which [range] meets the entries of the map of groups. *)
Variable rangeValues : gmap Z (list Toast.TOASTChunk) -> list (Z * list Toast.TOASTChunk).

Definition GetTOASTVerboseInfo (toastRelID : Z) (data : list byte)
  : option TOASTVerboseInfo :=
  let chunks := ToastRead.ReadTOASTTable data in
  if len chunks =? 0 then None
  else
    let '(valueChunks, totalSize) := groupChunks chunks in
    let '(maxChunks, distribution, values) :=
      foldl analyseStep (0, ∅, []) (rangeValues valueChunks) in
    Some {| ToastRelID := toastRelID;
            TotalChunks := len chunks;
            UniqueValues := Z.of_nat (size valueChunks);
            TotalSize_ := totalSize;
            AverageChunkSize := (totalSize, len chunks);
            MaxChunksPerValue := maxChunks;
            ChunkDistribution := distribution;
            Values := values |}.

End Info.

(** Example: a page of a large-object table with two chunks of the value 42
    and one chunk of the value 7, each a chunk id, a sequence number and a
    short varlena. *)
Definition chunkTuples : list Heap.HeapTupleData :=
  [ Heap.mkTuple true false true None (mkbytes [42;0;0;0; 0;0;0;0; 0x07; 104;101]);
    Heap.mkTuple true false true None (mkbytes [7;0;0;0; 0;0;0;0; 0x05; 120]);
    Heap.mkTuple true false true None (mkbytes [42;0;0;0; 1;0;0;0; 0x09; 108;108;111]) ].

Definition chunkCollaborators : Heap.Collaborators :=
  {| Heap.Typed := Heap.sample;
     Heap.ParsePage := fun _ =>
       map (fun t => {| Heap.PageOffset := 0; Heap.ItemOffset := 0; Heap.Tuple := Some t |})
           chunkTuples;
     Heap.IsVisible := Heap.IsVisibleSpec;
     Heap.IsNull := Heap.IsNullSpec;
     Heap.ReadVarlena := Heap.ReadVarlenaSpec;
     Heap.DecodeType := Heap.decodeSample;
     Heap.oidOf := Heap.pgOid |}.

End ToastInfo.

(** ** Relations stored in several segment files ([segment.go]) *)

Module MultiSegment.

(** [SegmentOptions] *)
Record SegmentOptions := { OptSegmentNumber : Z; OptSegmentSize : Z }.

(** [SegmentInfo] *)
Record SegmentInfo := {
  BasePath : string;
  SegmentNumber : Z;
  SegmentSize : Z;
  FileSize : Z;
  TotalBlocks : Z;
  GlobalOffset : Z
}.

(** A product or conversion that is kept in 64 bits, two's complement. *)
Definition int64 (x : Z) : Z := Sequence.int64_of_uint64 (wrap64 x).

(** The entry for a file of the given contents. *)
Definition infoOf (path : string) (segNum segSize : Z) (content : list byte) : SegmentInfo :=
  {| BasePath := path; SegmentNumber := segNum; SegmentSize := segSize;
     FileSize := len content;
     TotalBlocks := Z.quot (len content) PageSize;
     GlobalOffset := int64 (segNum * segSize) |}.

(** [segSize := DefaultSegmentSize; if opts != nil && opts.SegmentSize > 0 {...}] *)
Definition segmentSizeOf (opts : option SegmentOptions) : Z :=
  match opts with
  | Some o => if 0 <? OptSegmentSize o then OptSegmentSize o else SegmentIO.DefaultSegmentSize
  | None => SegmentIO.DefaultSegmentSize
  end.

Definition blocksPerSegment (opts : option SegmentOptions) : Z :=
  Z.quot (segmentSizeOf opts) PageSize.

Inductive BlockError :=
| StatError
| BeyondSegment (blockNum totalBlocks : Z)
| OpenError
| SeekError
| ReadError.

Inductive MultiError := NoSegments (basePath : string).

Section Files.

(** The files: a path names a regular file that [os.Stat] and [os.Open]
    accept, with the contents given, or it names nothing.  Reading at an
    offset inside a file delivers the bytes asked for, as many as the file
    has left; reading at or after its end is [io.EOF]; seeking to a negative
    offset is refused. *)
Variable files : string -> option (list byte).

Definition GetSegmentInfo (path : string) (opts : option SegmentOptions)
  : option SegmentInfo :=
  content ← files path;
  let segNum :=
    match opts with
    | Some o =>
        if 0 <? OptSegmentNumber o then OptSegmentNumber o
        else SegmentIO.GetSegmentNumberFromPath path
    | None => SegmentIO.GetSegmentNumberFromPath path
    end in
  Some (infoOf path segNum (segmentSizeOf opts) content).

(** The loop of [ListSegments] over the segments [.1], [.2], ...: [n] names
    remain to be tried, the next one is segment [i]. *)
Fixpoint moreSegments (n : nat) (basePath : string) (i : Z) : list SegmentInfo :=
  match n with
  | O => []
  | S n' =>
      match files (SegmentIO.segmentPath basePath i) with
      | None => []
      | Some content =>
          infoOf (SegmentIO.segmentPath basePath i) i SegmentIO.DefaultSegmentSize content
          :: moreSegments n' basePath (i + 1)
      end
  end.

(** [ListSegments]; it has no failing path. *)
Definition ListSegments (basePath : string) : list SegmentInfo :=
  match files basePath with
  | Some content => [infoOf basePath 0 SegmentIO.DefaultSegmentSize content]
  | None => []
  end ++ moreSegments 999 basePath 1.

Definition ReadSegmentBlock (path : string) (blockNum : Z) (opts : option SegmentOptions)
  : BlockError + list byte :=
  match GetSegmentInfo path opts with
  | None => inl StatError
  | Some segInfo =>
      if TotalBlocks segInfo <=? blockNum
      then inl (BeyondSegment blockNum (TotalBlocks segInfo))
      else
        match files path with
        | None => inl OpenError
        | Some content =>
            let offset := int64 (blockNum * PageSize) in
            if offset <? 0 then inl SeekError
            else
              let data := take (Z.to_nat PageSize) (drop (Z.to_nat offset) content) in
              if len data =? 0 then inl ReadError else inr data
        end
  end.

(** The loop of [ReadMultiSegmentFile] with [n] block numbers left, the next
    one being [blockNum]. *)
Fixpoint blocksLoop (n : nat) (segments : list SegmentInfo) (perSegment : Z)
    (opts : option SegmentOptions) (blockNum : Z) (result : list byte)
  : SegmentIO.fault + list byte :=
  match n with
  | O => inr result
  | S n' =>
      if perSegment =? 0 then inl SegmentIO.IntegerDivideByZero
      else
        let segIdx := Z.quot blockNum perSegment in
        let localBlock := Z.rem blockNum perSegment in
        if len segments <=? segIdx then inr result
        else if segIdx <? 0 then inl SegmentIO.IndexOutOfRange
        else
          match segments !! Z.to_nat segIdx with
          | None => inl SegmentIO.IndexOutOfRange
          | Some seg =>
              match ReadSegmentBlock (BasePath seg) localBlock opts with
              | inl _ => inr result
              | inr block => blocksLoop n' segments perSegment opts (blockNum + 1) (result ++ block)
              end
          end
  end.

(** [ReadMultiSegmentFile].  The loop runs over the block numbers
    [globalBlockStart .. globalBlockEnd]; it is left at the latest at the
    first block whose segment index reaches the number of segments (at most
    1000), long before the counter could wrap. *)
Definition ReadMultiSegmentFile (basePath : string) (globalBlockStart globalBlockEnd : Z)
    (opts : option SegmentOptions) : SegmentIO.fault + (MultiError + list byte) :=
  let segments := ListSegments basePath in
  if len segments =? 0 then inr (inl (NoSegments basePath))
  else
    match blocksLoop (Z.to_nat (globalBlockEnd - globalBlockStart + 1)) segments
                     (blocksPerSegment opts) opts globalBlockStart [] with
    | inl f => inl f
    | inr result => inr (inr result)
    end.

End Files.

(** Example: a relation of three pages kept in segments of two pages. *)
Definition pageOf (b : byte) : list byte := repeat b (Z.to_nat PageSize).

Definition threePagesInTwoFiles (path : string) : option (list byte) :=
  if String.eqb path "16384" then Some (pageOf Byte.x01 ++ pageOf Byte.x02)
  else if String.eqb path "16384.1" then Some (pageOf Byte.x03)
  else None.

Definition twoPageSegments : option SegmentOptions :=
  Some {| OptSegmentNumber := 0; OptSegmentSize := 16384 |}.

End MultiSegment.

(** * Properties *)

(** ** Shared arithmetic facts *)

Lemma byteZ_range (b : byte) : 0 <= byteZ b < 256.
Proof. destruct b; vm_compute; split; congruence. Qed.

Lemma len_nonneg {A} (l : list A) : 0 <= len l.
Proof. unfold len. lia. Qed.

Lemma len_app {A} (l1 l2 : list A) : len (l1 ++ l2) = len l1 + len l2.
Proof. unfold len. rewrite length_app. lia. Qed.

Lemma len_cons {A} (x : A) (l : list A) : len (x :: l) = 1 + len l.
Proof. unfold len. simpl. lia. Qed.

Lemma le_decode_nonneg (bs : list byte) : 0 <= le_decode bs.
Proof.
  induction bs as [|b bs IH]; simpl; [lia|].
  pose proof (byteZ_range b). lia.
Qed.

(** [align8] rounds up to the next multiple of eight. *)
Lemma align8_spec (n : Z) : Wal.align8 n = 8 * ((n + 7) / 8).
Proof.
  unfold Wal.align8. change 7 with (Z.ones 3) at 2.
  rewrite Z.ldiff_ones_r by lia.
  rewrite Z.shiftl_mul_pow2, Z.shiftr_div_pow2 by lia.
  change (2 ^ 3) with 8. lia.
Qed.

Lemma align8_bounds (n : Z) : n <= Wal.align8 n < n + 8 /\ Wal.align8 n mod 8 = 0.
Proof.
  rewrite align8_spec. split.
  - pose proof (Z.div_mod (n + 7) 8 ltac:(lia)).
    pose proof (Z.mod_pos_bound (n + 7) 8 ltac:(lia)). lia.
  - rewrite Z.mul_comm. apply Z_mod_mult.
Qed.

(** ** The OID <-> filenode map *)

Lemma readMappings_length (data : list byte) (n offset : nat) :
  Z.of_nat offset + 8 * Z.of_nat n <= len data ->
  length (RelMap.readMappings data n offset) = n.
Proof.
  revert offset. induction n as [|n IH]; intros offset H; simpl; [reflexivity|].
  destruct (Z.ltb_spec (len data) (Z.of_nat offset + 8)) as [Hlt|Hge]; [lia|].
  simpl. f_equal. apply IH. lia.
Qed.

Lemma lookupFilenode_first (ms : list RelMap.RelMapping) (i : nat) (m : RelMap.RelMapping) :
  ms !! i = Some m ->
  (forall j m', (j < i)%nat -> ms !! j = Some m' -> RelMap.OID m' <> RelMap.OID m) ->
  RelMap.lookupFilenode ms (RelMap.OID m) = RelMap.Filenode m.
Proof.
  revert i. induction ms as [|m0 ms IH]; intros i Hi Hfirst; [discriminate|].
  destruct i as [|i]; simpl in *.
  - injection Hi as ->. now rewrite Z.eqb_refl.
  - destruct (Z.eqb_spec (RelMap.OID m0) (RelMap.OID m)) as [Heq|Hne].
    + exfalso. apply (Hfirst 0%nat m0); [lia|reflexivity|exact Heq].
    + apply (IH i Hi). intros j m' Hj Hm'. apply (Hfirst (S j) m'); [lia|exact Hm'].
Qed.

Lemma lookupOID_first (ms : list RelMap.RelMapping) (i : nat) (m : RelMap.RelMapping) :
  ms !! i = Some m ->
  (forall j m', (j < i)%nat -> ms !! j = Some m' -> RelMap.Filenode m' <> RelMap.Filenode m) ->
  RelMap.lookupOID ms (RelMap.Filenode m) = RelMap.OID m.
Proof.
  revert i. induction ms as [|m0 ms IH]; intros i Hi Hfirst; [discriminate|].
  destruct i as [|i]; simpl in *.
  - injection Hi as ->. now rewrite Z.eqb_refl.
  - destruct (Z.eqb_spec (RelMap.Filenode m0) (RelMap.Filenode m)) as [Heq|Hne].
    + exfalso. apply (Hfirst 0%nat m0); [lia|reflexivity|exact Heq].
    + apply (IH i Hi). intros j m' Hj Hm'. apply (Hfirst (S j) m'); [lia|exact Hm'].
Qed.

(** C6, as the code has it.  A buffer that parses as a map file has the magic
    0x592717 and a mapping count between 0 and 62 that is the number of parsed
    mappings; [GetFilenode] and [GetOID] answer with the first mapping that
    matches, so a parsed mapping [(oid, filenode)] is returned by
    [GetFilenode oid] when no earlier mapping has the same oid, and by
    [GetOID filenode] when no earlier mapping has the same filenode. *)
Theorem relmap_parse_and_lookup (data : list byte) (rm : RelMap.RelMapFile) :
  RelMap.ParseRelMapFile data = inr rm ->
  RelMap.Magic rm = 0x592717
  /\ 0 <= RelMap.NumMappings rm <= 62
  /\ len (RelMap.Mappings rm) = RelMap.NumMappings rm
  /\ forall (i : nat) (m : RelMap.RelMapping),
       RelMap.Mappings rm !! i = Some m ->
       ((forall j m', (j < i)%nat -> RelMap.Mappings rm !! j = Some m' ->
                      RelMap.OID m' <> RelMap.OID m) ->
        RelMap.GetFilenode rm (RelMap.OID m) = RelMap.Filenode m)
       /\ ((forall j m', (j < i)%nat -> RelMap.Mappings rm !! j = Some m' ->
                         RelMap.Filenode m' <> RelMap.Filenode m) ->
           RelMap.GetOID rm (RelMap.Filenode m) = RelMap.OID m).
Proof.
  unfold RelMap.ParseRelMapFile.
  destruct (Z.ltb_spec (len data) 512) as [|Hlen]; [discriminate|].
  destruct (Z.eqb_spec (Uint32_at data 0) RelMap.RelMapMagic) as [Hmagic|]; [|discriminate].
  simpl negb. cbv iota.
  set (num := int32_of_uint32 (Uint32_at data 4)).
  destruct (Z.ltb_spec num 0) as [|Hlo]; [discriminate|].
  destruct (Z.ltb_spec RelMap.RelMapMaxMappings num) as [|Hhi]; [discriminate|].
  simpl orb. cbv iota. intros [= <-]. simpl.
  unfold RelMap.RelMapMaxMappings in Hhi.
  repeat split; try lia.
  - exact Hmagic.
  - unfold len. rewrite readMappings_length; lia.
  - intros Hfirst. eapply lookupFilenode_first; eauto.
  - intros Hfirst. eapply lookupOID_first; eauto.
Qed.

Lemma relmap_parse_and_lookup_witness :
  RelMap.ParseRelMapFile (RelMap.mapFile 2 RelMap.testPairs)
    = inr (RelMap.parsedMap RelMap.testPairs)
  /\ RelMap.GetFilenode (RelMap.parsedMap RelMap.testPairs) 1259 = 16384
  /\ RelMap.GetOID (RelMap.parsedMap RelMap.testPairs) 16384 = 1259.
Proof.
  assert (H : RelMap.ParseRelMapFile (RelMap.mapFile 2 RelMap.testPairs)
              = inr (RelMap.parsedMap RelMap.testPairs)) by (vm_compute; reflexivity).
  split; [exact H|].
  destruct (relmap_parse_and_lookup _ _ H) as (_ & _ & _ & Hl).
  destruct (Hl 1%nat {| RelMap.OID := 1259; RelMap.Filenode := 16384 |} eq_refl) as [Hf Ho].
  split; [apply Hf|apply Ho]; intros j m' Hj Hm';
    (destruct j as [|j]; [|lia]); injection Hm' as <-; simpl; lia.
Defined.

(** C6 as stated fails on a map with a repeated oid: the 512-byte buffer with
    the pairs (1262, 1262) and (1262, 16384) parses, the second pair is among
    the parsed mappings, and [GetFilenode 1262] answers 1262, not 16384. *)
Lemma relmap_repeated_oid :
  len (RelMap.mapFile 2 RelMap.dupPairs) = 512
  /\ RelMap.ParseRelMapFile (RelMap.mapFile 2 RelMap.dupPairs)
       = inr (RelMap.parsedMap RelMap.dupPairs)
  /\ In {| RelMap.OID := 1262; RelMap.Filenode := 16384 |}
        (RelMap.Mappings (RelMap.parsedMap RelMap.dupPairs))
  /\ RelMap.GetFilenode (RelMap.parsedMap RelMap.dupPairs) 1262 = 1262
  /\ RelMap.GetFilenode (RelMap.parsedMap RelMap.dupPairs) 1262 <> 16384.
Proof.
  repeat split; try (vm_compute; reflexivity).
  - simpl. right. left. reflexivity.
  - vm_compute. discriminate.
Qed.

(** ** Block ranges *)

Lemma digitVal_not_colon (c : ascii) (d : Z) :
  GoLib.digitVal c = Some d -> Ascii.eqb c ":" = false.
Proof.
  unfold GoLib.digitVal. intros H.
  destruct (Ascii.eqb_spec c ":") as [->|]; [|reflexivity].
  vm_compute in H. discriminate.
Qed.

Lemma parseDigits_no_colon (s : string) (acc v : Z) :
  GoLib.parseDigits s acc = Some v -> GoLib.SplitColon s = None.
Proof.
  revert acc. induction s as [|c s IH]; intros acc H; simpl in *; [reflexivity|].
  destruct (GoLib.digitVal c) as [d|] eqn:Hd; [|discriminate].
  rewrite (digitVal_not_colon _ _ Hd), (IH _ H). reflexivity.
Qed.

Lemma SplitColon_cons (c : ascii) (s : string) :
  Ascii.eqb c ":" = false -> GoLib.SplitColon s = None ->
  GoLib.SplitColon (String c s) = None.
Proof. intros Hc Hs. simpl. now rewrite Hc, Hs. Qed.

(** A string that [Atoi] accepts is not empty and has no colon. *)
Lemma Atoi_no_colon (s : string) (v : Z) :
  GoLib.Atoi s = Some v -> GoLib.SplitColon s = None /\ s <> EmptyString.
Proof.
  unfold GoLib.Atoi. destruct s as [|c s]; [discriminate|]. intros H.
  split; [|discriminate].
  destruct (Ascii.eqb c "-" || Ascii.eqb c "+") eqn:Hsign.
  - destruct s as [|c' s']; [discriminate|].
    destruct (GoLib.parseDigits (String c' s') 0) as [n|] eqn:Hn; [|discriminate].
    assert (Hc : Ascii.eqb c ":" = false).
    { destruct (Ascii.eqb_spec c ":") as [->|]; [|reflexivity]. vm_compute in Hsign. discriminate. }
    apply SplitColon_cons; [exact Hc|exact (parseDigits_no_colon _ _ _ Hn)].
  - destruct (GoLib.parseDigits (String c s) 0) as [n|] eqn:Hn; [|discriminate].
    exact (parseDigits_no_colon _ _ _ Hn).
Qed.

Lemma SplitColon_app (a b : string) :
  GoLib.SplitColon a = None ->
  GoLib.SplitColon (a ++ String ":" b) = Some (a, b).
Proof.
  induction a as [|c a IH]; simpl; intros H; [reflexivity|].
  destruct (Ascii.eqb c ":"); [discriminate|].
  destruct (GoLib.SplitColon a) as [[? ?]|]; [discriminate|].
  now rewrite IH.
Qed.

Lemma app_colon_nonempty (a b : string) : String.eqb (a ++ String ":" b) EmptyString = false.
Proof. destruct a; reflexivity. Qed.

Lemma eqb_nonempty (s : string) : s <> EmptyString -> String.eqb s EmptyString = false.
Proof. destruct s; [congruence|reflexivity]. Qed.

Lemma parseBound_range (part : string) inv neg (v : Z) :
  Segment.parseBound part inv neg = inr v -> -1 <= v.
Proof.
  unfold Segment.parseBound. destruct (String.eqb part EmptyString); [intros [= <-]; lia|].
  destruct (GoLib.Atoi part) as [x|]; [|discriminate].
  destruct (Z.ltb_spec x 0); [discriminate|]. intros [= <-]. lia.
Qed.

(** C7.  The eight input shapes of the specification, and the general rule:
    an accepted range has bounds of at least -1 (-1 standing for an absent
    bound) and, when both bounds are present, start at most end; a start, an
    end or a single block number that reads as a negative number is rejected,
    and so is a start greater than the end. *)
Theorem ParseBlockRange_shapes :
  Segment.ParseBlockRange "" = inr None
  /\ Segment.ParseBlockRange "5" = inr (Some {| Segment.Start := 5; Segment.End_ := 5 |})
  /\ Segment.ParseBlockRange "0:10" = inr (Some {| Segment.Start := 0; Segment.End_ := 10 |})
  /\ Segment.ParseBlockRange "5:" = inr (Some {| Segment.Start := 5; Segment.End_ := -1 |})
  /\ Segment.ParseBlockRange ":20" = inr (Some {| Segment.Start := -1; Segment.End_ := 20 |})
  /\ Segment.ParseBlockRange "10:5" = inl (Segment.StartAfterEnd 10 5)
  /\ Segment.ParseBlockRange "-1:5" = inl Segment.NegativeStart
  /\ Segment.ParseBlockRange "abc" = inl (Segment.InvalidBlock "abc")
  /\ (forall s br, Segment.ParseBlockRange s = inr (Some br) ->
        -1 <= Segment.Start br /\ -1 <= Segment.End_ br
        /\ (0 <= Segment.Start br -> 0 <= Segment.End_ br -> Segment.Start br <= Segment.End_ br))
  /\ (forall a b x, GoLib.Atoi a = Some x -> x < 0 ->
        Segment.ParseBlockRange (a ++ String ":" b) = inl Segment.NegativeStart)
  /\ (forall a b y, a = EmptyString \/ (exists x, GoLib.Atoi a = Some x /\ 0 <= x) ->
        GoLib.Atoi b = Some y -> y < 0 ->
        Segment.ParseBlockRange (a ++ String ":" b) = inl Segment.NegativeEnd)
  /\ (forall a b x y, GoLib.Atoi a = Some x -> GoLib.Atoi b = Some y -> 0 <= y -> y < x ->
        Segment.ParseBlockRange (a ++ String ":" b) = inl (Segment.StartAfterEnd x y))
  /\ (forall s x, GoLib.Atoi s = Some x -> x < 0 ->
        Segment.ParseBlockRange s = inl Segment.NegativeBlock).
Proof.
  repeat match goal with |- _ = _ /\ _ => split; [vm_compute; reflexivity|] end.
  split; [|split; [|split; [|split]]].
  - intros s br. unfold Segment.ParseBlockRange.
    destruct (String.eqb s EmptyString); [discriminate|].
    destruct (GoLib.SplitColon s) as [[p0 p1]|].
    + destruct (Segment.parseBound p0 _ _) as [|start] eqn:H0; [discriminate|].
      destruct (Segment.parseBound p1 _ _) as [|end_] eqn:H1; [discriminate|].
      apply parseBound_range in H0, H1. cbn [Segment.Start Segment.End_].
      destruct (Z.leb_spec 0 start), (Z.leb_spec 0 end_), (Z.ltb_spec end_ start);
        cbn [andb]; try discriminate; intros [= <-]; cbn; lia.
    + destruct (GoLib.Atoi s) as [block|]; [|discriminate].
      destruct (Z.ltb_spec block 0); [discriminate|]. cbn [Segment.Start Segment.End_].
      destruct (Z.leb_spec 0 block), (Z.ltb_spec block block);
        cbn [andb]; try discriminate; try lia; intros [= <-]; cbn; lia.
  - intros a b x Ha Hx. destruct (Atoi_no_colon _ _ Ha) as [Hc Hne].
    unfold Segment.ParseBlockRange.
    rewrite app_colon_nonempty, (SplitColon_app _ _ Hc).
    unfold Segment.parseBound at 1. rewrite (eqb_nonempty _ Hne), Ha.
    destruct (Z.ltb_spec x 0); [reflexivity|lia].
  - intros a b y Ha Hb Hy. destruct (Atoi_no_colon _ _ Hb) as [_ Hne].
    unfold Segment.ParseBlockRange. rewrite app_colon_nonempty.
    assert (Hc : GoLib.SplitColon a = None).
    { destruct Ha as [->|(x & Hx & _)]; [reflexivity|exact (proj1 (Atoi_no_colon _ _ Hx))]. }
    rewrite (SplitColon_app _ _ Hc).
    assert (H0 : exists start, Segment.parseBound a Segment.InvalidStart Segment.NegativeStart
                               = inr start).
    { unfold Segment.parseBound. destruct Ha as [->|(x & Hx & Hpos)]; [now exists (-1)|].
      rewrite (eqb_nonempty _ (proj2 (Atoi_no_colon _ _ Hx))), Hx.
      destruct (Z.ltb_spec x 0); [lia|now exists x]. }
    destruct H0 as [start ->].
    unfold Segment.parseBound. rewrite (eqb_nonempty _ Hne), Hb.
    destruct (Z.ltb_spec y 0); [reflexivity|lia].
  - intros a b x y Ha Hb Hy Hxy.
    destruct (Atoi_no_colon _ _ Ha) as [Hc Hna]. destruct (Atoi_no_colon _ _ Hb) as [_ Hnb].
    unfold Segment.ParseBlockRange.
    rewrite app_colon_nonempty, (SplitColon_app _ _ Hc).
    unfold Segment.parseBound. rewrite (eqb_nonempty _ Hna), (eqb_nonempty _ Hnb), Ha, Hb.
    destruct (Z.ltb_spec x 0); [lia|]. destruct (Z.ltb_spec y 0); [lia|].
    cbn [Segment.Start Segment.End_].
    destruct (Z.leb_spec 0 x); [|lia]. destruct (Z.leb_spec 0 y); [|lia].
    destruct (Z.ltb_spec y x); [reflexivity|lia].
  - intros s x Hs Hx. destruct (Atoi_no_colon _ _ Hs) as [Hc Hne].
    unfold Segment.ParseBlockRange. rewrite (eqb_nonempty _ Hne), Hc, Hs.
    destruct (Z.ltb_spec x 0); [reflexivity|lia].
Qed.

Lemma ParseBlockRange_shapes_witness :
  GoLib.Atoi "-7" = Some (-7)
  /\ Segment.ParseBlockRange "-7:3" = inl Segment.NegativeStart
  /\ Segment.ParseBlockRange "2:-3" = inl Segment.NegativeEnd
  /\ Segment.ParseBlockRange "30:4" = inl (Segment.StartAfterEnd 30 4)
  /\ Segment.ParseBlockRange "-7" = inl Segment.NegativeBlock.
Proof.
  destruct ParseBlockRange_shapes
    as (_ & _ & _ & _ & _ & _ & _ & _ & _ & Hstart & Hend & Hcross & Hblock).
  split; [reflexivity|].
  split; [exact (Hstart "-7" "3" (-7) eq_refl ltac:(lia))|].
  split.
  { refine (Hend "2" "-3" (-3) _ eq_refl _); [|lia].
    right. exists 2. split; [reflexivity|lia]. }
  split; [exact (Hcross "30" "4" 30 4 eq_refl eq_refl ltac:(lia) ltac:(lia))|].
  exact (Hblock "-7" (-7) eq_refl ltac:(lia)).
Defined.

(** ** Block information *)

(** C9, as the code has it.  For a page that is not all zero, with
    [lower >= 24] and [upper <= 8192], the block information reports
    [item_count = (lower - 24) / 4]; it reports [free_space = upper - lower]
    when [lower <= upper], and 0 when [upper] lies below [lower]. *)
Theorem ParseBlockInfo_counts (data : list byte) (blockNumber : Z) :
  PageSize <= len data ->
  Segment.allZero (take (Z.to_nat PageSize) data) = false ->
  headerSize <= u16 data 12 ->
  u16 data 14 <= PageSize ->
  exists info,
    Segment.ParseBlockInfo data blockNumber = Some info
    /\ Segment.IsEmpty info = false
    /\ Segment.Lower info = u16 data 12
    /\ Segment.Upper info = u16 data 14
    /\ Segment.ItemCount info = (u16 data 12 - 24) / 4
    /\ Segment.FreeSpace info
       = (if u16 data 12 <=? u16 data 14 then u16 data 14 - u16 data 12 else 0).
Proof.
  intros Hlen Hnz Hlower Hupper. unfold Segment.ParseBlockInfo.
  destruct (Z.ltb_spec (len data) PageSize) as [|_]; [lia|].
  rewrite Hnz. eexists. split; [reflexivity|]. cbn.
  repeat split.
  - destruct (Z.leb_spec headerSize (u16 data 12)) as [_|]; [|lia].
    unfold headerSize, itemIDSize in *. apply Z.quot_div_nonneg; lia.
  - destruct (Z.ltb_spec (u16 data 12) (u16 data 14)), (Z.leb_spec (u16 data 12) (u16 data 14));
      lia.
Qed.

Lemma ParseBlockInfo_counts_witness :
  PageSize <= len Segment.testPage
  /\ Segment.allZero (take (Z.to_nat PageSize) Segment.testPage) = false
  /\ headerSize <= u16 Segment.testPage 12
  /\ u16 Segment.testPage 14 <= PageSize
  /\ exists info,
       Segment.ParseBlockInfo Segment.testPage 0 = Some info
       /\ Segment.ItemCount info = 1
       /\ Segment.FreeSpace info = 7972.
Proof.
  assert (H1 : PageSize <= len Segment.testPage) by (vm_compute; discriminate).
  assert (H2 : Segment.allZero (take (Z.to_nat PageSize) Segment.testPage) = false)
    by (vm_compute; reflexivity).
  assert (H3 : headerSize <= u16 Segment.testPage 12) by (vm_compute; discriminate).
  assert (H4 : u16 Segment.testPage 14 <= PageSize) by (vm_compute; discriminate).
  repeat (split; [assumption|]).
  destruct (ParseBlockInfo_counts Segment.testPage 0 H1 H2 H3 H4)
    as (info & Hinfo & _ & _ & _ & Hitems & Hfree).
  exists info. split; [exact Hinfo|].
  split; [rewrite Hitems|rewrite Hfree]; vm_compute; reflexivity.
Defined.

(** C9 as stated fails on a page whose [upper] lies below its [lower]: with
    [lower = 100] and [upper = 50] both conditions on the header hold, and the
    reported free space is 0, not [50 - 100]. *)
Lemma ParseBlockInfo_crossed_bounds :
  Segment.allZero (take (Z.to_nat PageSize) Segment.crossedPage) = false
  /\ headerSize <= u16 Segment.crossedPage 12
  /\ u16 Segment.crossedPage 14 <= PageSize
  /\ exists info,
       Segment.ParseBlockInfo Segment.crossedPage 0 = Some info
       /\ Segment.FreeSpace info = 0
       /\ Segment.FreeSpace info <> u16 Segment.crossedPage 14 - u16 Segment.crossedPage 12.
Proof.
  split; [vm_compute; reflexivity|].
  split; [vm_compute; discriminate|].
  split; [vm_compute; discriminate|].
  eexists. split; [vm_compute; reflexivity|].
  split; [reflexivity|]. vm_compute. discriminate.
Qed.

(** ** The write-ahead log *)

(** The budget of [parseBlockRefs] is never the reason the loop stops: any two
    budgets that cover the bytes left give the same block references. *)
Lemma blockRefsLoop_budget (data : list byte) (fuel1 fuel2 : nat) (pos : Z) :
  0 <= pos ->
  len data <= pos + Z.of_nat fuel1 -> len data <= pos + Z.of_nat fuel2 ->
  Wal.blockRefsLoop fuel1 data pos = Wal.blockRefsLoop fuel2 data pos.
Proof.
  assert (H16 : forall a, 0 <= Uint16_at data a) by (intros; apply le_decode_nonneg).
  revert fuel2 pos. induction fuel1 as [|fuel1 IH]; intros fuel2 pos Hpos H1 H2.
  - destruct fuel2 as [|fuel2]; [reflexivity|]. cbn [Wal.blockRefsLoop].
    destruct (Z.ltb_spec pos (len data)); [lia|reflexivity].
  - destruct fuel2 as [|fuel2]; cbn [Wal.blockRefsLoop].
    + destruct (Z.ltb_spec pos (len data)); [lia|reflexivity].
    + destruct (negb (pos <? len data)); [reflexivity|].
      destruct (len data <? pos + 1); [reflexivity|].
      destruct ((byteAt data pos =? 255) || (byteAt data pos =? 254)); [reflexivity|].
      destruct (32 <? byteAt data pos); [reflexivity|].
      destruct (len data <? pos + 1 + 1); [reflexivity|].
      cbv zeta. f_equal.
      set (p1 := if negb _ && (pos + 1 + 1 + 12 <=? len data) then _ else pos + 1 + 1).
      assert (Hp1 : pos + 2 <= p1) by (unfold p1; destruct (_ && _); lia).
      clearbody p1.
      set (p2 := if p1 + 4 <=? len data then p1 + 4 else p1).
      assert (Hp2 : p1 <= p2) by (unfold p2; destruct (_ <=? _); lia).
      clearbody p2.
      set (p3 := if _ && (p2 + 2 <=? len data) then _ else p2).
      assert (Hp3 : p2 <= p3).
      { unfold p3. destruct (_ && _); [|lia]. pose proof (H16 (Z.to_nat p2)). lia. }
      clearbody p3.
      set (p4 := if _ && (p3 + 2 <=? len data) then _ else p3).
      assert (Hp4 : p3 <= p4).
      { unfold p4. destruct (_ && _); [|lia]. pose proof (H16 (Z.to_nat p3)). lia. }
      clearbody p4.
      apply IH; lia.
Qed.

Lemma parseXLogRecord_consumed (data : list byte) (lsn : Z) :
  (Wal.parseXLogRecord data lsn = (None, 0))
  \/ (exists r, Wal.parseXLogRecord data lsn = (Some r, Wal.TotalLen r)
                /\ 24 <= Wal.TotalLen r /\ Wal.LSN r = lsn).
Proof.
  unfold Wal.parseXLogRecord.
  destruct (len data <? Wal.XLogRecordSize); [now left|].
  destruct (Z.ltb_spec (Uint32_at data 0) Wal.XLogRecordSize); [now left|].
  destruct (Wal.WALPageSize * 2 <? Uint32_at data 0); [now left|].
  cbn [orb]. cbv iota. right.
  match goal with |- exists r, (Some ?x, _) = _ /\ _ => exists x end.
  split; [reflexivity|]. cbn. unfold Wal.XLogRecordSize in *. lia.
Qed.

(** The record loop never exhausts a budget above the bytes that remain. *)
Lemma recordsLoop_terminates (data : list byte) (baseOffset : Z) (fuel : nat) (pos : Z) :
  len data < pos + Z.of_nat fuel ->
  exists records, Wal.recordsLoop (S fuel) data baseOffset pos = Ret records.
Proof.
  revert pos. induction fuel as [|fuel IH]; intros pos Hfuel.
  - cbn [Wal.recordsLoop].
    destruct (Z.ltb_spec (len data) (pos + Wal.XLogRecordSize)) as [|Hge]; [now eexists|].
    unfold Wal.XLogRecordSize in *. lia.
  - remember (S fuel) as fuel' eqn:Hf. cbn [Wal.recordsLoop].
    destruct (Z.ltb_spec (len data) (pos + Wal.XLogRecordSize)); [now eexists|].
    destruct (Wal.isZeroPadding _); [now eexists|].
    destruct (parseXLogRecord_consumed (drop (Z.to_nat pos) data) (wrap64 (baseOffset + pos)))
      as [->|(r & -> & Hr & _)]; [now eexists|].
    destruct (Z.eqb_spec (Wal.TotalLen r) 0); [now eexists|].
    pose proof (align8_bounds (pos + Wal.TotalLen r)) as [Hal _].
    subst fuel'.
    destruct (IH (Wal.align8 (pos + Wal.TotalLen r)) ltac:(lia)) as [rest ->].
    now eexists.
Qed.

(** The first record the loop returns is the one read where the loop was
    entered. *)
Lemma recordsLoop_first (data : list byte) (baseOffset : Z) (fuel : nat) (pos : Z)
    (r : Wal.WALRecord) (rest : list Wal.WALRecord) :
  Wal.recordsLoop fuel data baseOffset pos = Ret (r :: rest) ->
  Wal.LSN r = wrap64 (baseOffset + pos)
  /\ fst (Wal.parseXLogRecord (drop (Z.to_nat pos) data) (wrap64 (baseOffset + pos))) = Some r.
Proof.
  destruct fuel as [|fuel]; [discriminate|]. simpl.
  destruct (len data <? pos + Wal.XLogRecordSize); [discriminate|].
  destruct (Wal.isZeroPadding _); [discriminate|].
  destruct (parseXLogRecord_consumed (drop (Z.to_nat pos) data) (wrap64 (baseOffset + pos)))
    as [->|(r' & -> & Hr & Hlsn)]; [discriminate|].
  destruct (Z.eqb_spec (Wal.TotalLen r') 0); [discriminate|].
  destruct (Wal.recordsLoop fuel data baseOffset _) as [rs| |]; try discriminate.
  cbn. intros [= <- _]. split; [exact Hlsn|reflexivity].
Qed.

Lemma firstRecordPos_continuation (header : Wal.WALPageHeader) :
  0 <= Wal.RemLen header ->
  Z.land (Wal.Info header) Wal.XLP_FIRST_IS_CONTRECORD <> 0 ->
  Wal.firstRecordPos header = Wal.align8 (Wal.headerSizeOf header + Wal.RemLen header).
Proof.
  intros Hrem Hflag. unfold Wal.firstRecordPos.
  destruct (Z.eqb_spec (Z.land (Wal.Info header) Wal.XLP_FIRST_IS_CONTRECORD) 0); [contradiction|].
  cbn [negb andb].
  destruct (Z.ltb_spec 0 (Wal.RemLen header)); [reflexivity|].
  replace (Wal.RemLen header) with 0 by lia. rewrite Z.add_0_r.
  unfold Wal.headerSizeOf. now destruct (negb _).
Qed.

(** C8.  On a page whose header has a known magic and the
    first-record-is-continuation flag, with [remaining_length = k], parsing
    ends normally and the first record returned, if there is one, is the
    record read at offset [align8(header_size + k)] (its position is the
    page's base offset plus that), [header_size] being 40 with the
    long-header flag and 24 without.  A page whose magic is not in the known
    set is refused with an error, and [ParseWALFile] passes over it without
    taking any record from it. *)
Theorem parseWALPage_continuation (data : list byte) (baseOffset pageNum : Z) :
  Wal.ShortHeaderSize <= len data ->
  let header := Wal.parsePageHeader data in
  let header_size := if Z.land (Wal.Info header) Wal.XLP_LONG_HEADER =? 0 then 24 else 40 in
  let first := Wal.align8 (header_size + Wal.RemLen header) in
  (Wal.isValidMagic (Wal.Magic header) = true ->
   Z.land (Wal.Info header) Wal.XLP_FIRST_IS_CONTRECORD <> 0 ->
   first mod 8 = 0
   /\ exists records,
        Wal.parseWALPage data baseOffset pageNum = Ret (inr records)
        /\ forall r rest, records = r :: rest ->
             Wal.LSN r = wrap64 (baseOffset + first)
             /\ fst (Wal.parseXLogRecord (drop (Z.to_nat first) data)
                                         (wrap64 (baseOffset + first))) = Some r)
  /\ (Wal.isValidMagic (Wal.Magic header) = false ->
      Wal.parseWALPage data baseOffset pageNum = Ret (inl (Wal.InvalidMagic (Wal.Magic header)))
      /\ forall file n offset,
           take (Z.to_nat Wal.WALPageSize) (drop (Z.to_nat offset) file) = data ->
           Wal.pagesLoop (S n) file offset pageNum
           = Wal.pagesLoop n file (offset + Wal.WALPageSize) pageNum).
Proof.
  intros Hlen header header_size first. split.
  - intros Hmagic Hflag.
    assert (Hpos : Wal.firstRecordPos header = first).
    { rewrite firstRecordPos_continuation; [|apply le_decode_nonneg|exact Hflag].
      unfold first, header_size, Wal.headerSizeOf.
      now destruct (Z.land (Wal.Info header) Wal.XLP_LONG_HEADER =? 0). }
    split; [apply align8_bounds|].
    unfold Wal.parseWALPage.
    destruct (Z.ltb_spec (len data) Wal.ShortHeaderSize); [lia|].
    fold header. rewrite Hmagic. cbn [negb]. rewrite Hpos.
    assert (Hfirst : 0 < first).
    { pose proof (align8_bounds (header_size + Wal.RemLen header)) as [Hb _].
      pose proof (le_decode_nonneg (take 4 (drop 16 data))) as Hrem.
      change (le_decode (take 4 (drop 16 data))) with (Wal.RemLen header) in Hrem.
      unfold first, header_size in *.
      destruct (Z.land (Wal.Info header) Wal.XLP_LONG_HEADER =? 0); lia. }
    destruct (recordsLoop_terminates data baseOffset (length data) first) as [records Hrec].
    { unfold len. lia. }
    exists records. rewrite Hrec. split; [reflexivity|].
    intros r rest ->. exact (recordsLoop_first _ _ _ _ _ _ Hrec).
  - intros Hmagic.
    assert (Hpage : Wal.parseWALPage data baseOffset pageNum
                    = Ret (inl (Wal.InvalidMagic (Wal.Magic header)))).
    { unfold Wal.parseWALPage.
      destruct (Z.ltb_spec (len data) Wal.ShortHeaderSize); [lia|].
      fold header. now rewrite Hmagic. }
    split; [exact Hpage|].
    intros file n offset Hslice. cbn [Wal.pagesLoop]. rewrite Hslice.
    unfold Wal.parseWALPage in *.
    destruct (Z.ltb_spec (len data) Wal.ShortHeaderSize); [lia|].
    fold header. rewrite Hmagic. reflexivity.
Qed.

Lemma parseWALPage_continuation_witness :
  Wal.ShortHeaderSize <= len Wal.contPage
  /\ Wal.isValidMagic (Wal.Magic (Wal.parsePageHeader Wal.contPage)) = true
  /\ Z.land (Wal.Info (Wal.parsePageHeader Wal.contPage)) Wal.XLP_FIRST_IS_CONTRECORD <> 0
  /\ Wal.RemLen (Wal.parsePageHeader Wal.contPage) = 4
  /\ Wal.parseWALPage Wal.contPage 8192 1 = Ret (inr [Wal.contRecord])
  /\ Wal.LSN Wal.contRecord = wrap64 (8192 + Wal.align8 (24 + 4)).
Proof.
  assert (H1 : Wal.ShortHeaderSize <= len Wal.contPage) by (vm_compute; discriminate).
  assert (H2 : Wal.isValidMagic (Wal.Magic (Wal.parsePageHeader Wal.contPage)) = true)
    by (vm_compute; reflexivity).
  assert (H3 : Z.land (Wal.Info (Wal.parsePageHeader Wal.contPage)) Wal.XLP_FIRST_IS_CONTRECORD
               <> 0) by (vm_compute; discriminate).
  assert (H4 : Wal.parseWALPage Wal.contPage 8192 1 = Ret (inr [Wal.contRecord]))
    by (vm_compute; reflexivity).
  repeat (split; [assumption|]).
  split; [vm_compute; reflexivity|].
  split; [exact H4|].
  destruct (parseWALPage_continuation Wal.contPage 8192 1 H1) as [Hcont _].
  destruct (Hcont H2 H3) as (_ & records & Hparse & Hfirst).
  assert (Hrecords : records = [Wal.contRecord]) by congruence.
  exact (proj1 (Hfirst Wal.contRecord [] Hrecords)).
Defined.

(** ** The native decompressor *)

Lemma bind_Ret {A B} (a : A) (k : A -> run B) : mbind k (Ret a) = k a.
Proof. reflexivity. Qed.

Lemma index_in_range (data : list byte) (i : Z) :
  0 <= i < len data -> exists b, index data i = Ret b.
Proof.
  intros [Hlo Hhi]. unfold index.
  destruct (Z.ltb_spec i 0); [lia|].
  destruct (data !! Z.to_nat i) as [b|] eqn:Hb; [now exists b|].
  apply lookup_ge_None in Hb. unfold len in Hhi. lia.
Qed.

(** The copy loop neither reads outside [result] nor grows it beyond
    [rawSize]. *)
Lemma copyBack_ok (n : nat) (i start offset rawSize : Z) (result : list byte) :
  0 <= i -> 0 <= start -> 0 < offset -> start + offset <= len result ->
  len result <= rawSize ->
  exists result', Toast.copyBack n i start offset rawSize result = Ret result'
                  /\ len result' <= rawSize.
Proof.
  revert i result. induction n as [|n IH]; intros i result Hi Hstart Hoff Hsrc Hbound; simpl.
  - now exists result.
  - destruct (Z.ltb_spec (len result) rawSize) as [Hroom|]; [|now exists result].
    pose proof (Z.rem_bound_pos i offset Hi Hoff) as Hrem.
    destruct (index_in_range result (start + Z.rem i offset) ltac:(lia)) as [b ->].
    rewrite bind_Ret.
    apply IH; rewrite ?len_app; change (len [b]) with 1; lia.
Qed.

Lemma backref_offset_nonneg (b1 b2 : byte) :
  0 <= Z.lor (byteZ b1) (Z.shiftl (Z.land (byteZ b2) 0xF0) 4).
Proof.
  apply Z.lor_nonneg. split; [apply byteZ_range|].
  apply Z.shiftl_nonneg, Z.land_nonneg. right. lia.
Qed.

(** One control byte: no read outside [data], the position does not go back,
    the output stays within [rawSize]. *)
Lemma pglzBits_ok (n : nat) (bit ctrl : Z) (data : list byte) (rawSize pos : Z)
    (result : list byte) :
  0 <= pos -> len result <= rawSize ->
  exists pos' result',
    Toast.pglzBits n bit ctrl data rawSize pos result = Ret (pos', result')
    /\ pos <= pos' /\ len result' <= rawSize.
Proof.
  revert bit pos result. induction n as [|n IH]; intros bit pos result Hpos Hbound.
  - exists pos, result. repeat split; [lia|exact Hbound].
  - cbn [Toast.pglzBits].
    destruct (Z.ltb_spec pos (len data)) as [Hin|];
      [|exists pos, result; repeat split; [lia|exact Hbound]].
    destruct (Z.ltb_spec (len result) rawSize) as [Hroom|];
      [|exists pos, result; repeat split; [lia|exact Hbound]].
    cbn [andb].
    destruct (negb (Z.land ctrl (Z.shiftl 1 bit) =? 0)).
    + destruct (Z.leb_spec (len data) (pos + 1)) as [|Htwo];
        [exists pos, result; repeat split; [lia|exact Hbound]|].
      destruct (index_in_range data pos ltac:(lia)) as [b1 ->].
      destruct (index_in_range data (pos + 1) ltac:(lia)) as [b2 ->].
      rewrite !bind_Ret.
      pose proof (backref_offset_nonneg b1 b2) as Hoff.
      set (offset := Z.lor (byteZ b1) (Z.shiftl (Z.land (byteZ b2) 240) 4)) in *.
      destruct (Z.eqb_spec offset 0) as [|Hnz].
      * destruct (IH (bit + 1) (pos + 2) result ltac:(lia) Hbound) as (p & r & -> & Hp & Hr).
        exists p, r. repeat split; [lia|exact Hr].
      * destruct (Z.ltb_spec (len result) offset) as [|Hfit]; cbn [orb].
        -- destruct (IH (bit + 1) (pos + 2) result ltac:(lia) Hbound) as (p & r & -> & Hp & Hr).
           exists p, r. repeat split; [lia|exact Hr].
        -- destruct (copyBack_ok (Z.to_nat (Z.land (byteZ b2) 15 + 3)) 0
                       (len result - offset) offset rawSize result)
             as (r1 & -> & Hr1); try lia.
           rewrite bind_Ret.
           destruct (IH (bit + 1) (pos + 2) r1 ltac:(lia) Hr1) as (p & r & -> & Hp & Hr).
           exists p, r. repeat split; [lia|exact Hr].
    + destruct (index_in_range data pos ltac:(lia)) as [b ->]. rewrite bind_Ret.
      destruct (IH (bit + 1) (pos + 1) (result ++ [b]) ltac:(lia)) as (p & r & -> & Hp & Hr).
      { rewrite len_app. change (len [b]) with 1. lia. }
      exists p, r. repeat split; [lia|exact Hr].
Qed.

(** The outer loop ends within a budget above the bytes that remain. *)
Lemma pglzLoop_ok (data : list byte) (rawSize : Z) (fuel : nat) (pos : Z) (result : list byte) :
  len data < pos + Z.of_nat fuel + 1 -> 0 <= pos -> len result <= rawSize ->
  exists out, Toast.pglzLoop (S fuel) data rawSize pos result = Ret out
              /\ len out <= rawSize.
Proof.
  revert pos result. induction fuel as [|fuel IH]; intros pos result Hfuel Hpos Hbound.
  - cbn [Toast.pglzLoop].
    destruct (Z.ltb_spec pos (len data)); [lia|]. now exists result.
  - remember (S fuel) as fuel' eqn:Hf. cbn [Toast.pglzLoop].
    destruct (Z.ltb_spec pos (len data)) as [Hin|]; [|now exists result].
    destruct (Z.ltb_spec (len result) rawSize) as [Hroom|]; [|now exists result].
    cbn [andb].
    destruct (index_in_range data pos ltac:(lia)) as [ctrl ->]. rewrite bind_Ret.
    destruct (pglzBits_ok 8 0 (byteZ ctrl) data rawSize (pos + 1) result ltac:(lia) Hbound)
      as (p & r & -> & Hp & Hr).
    rewrite bind_Ret. subst fuel'. apply IH; [lia|lia|exact Hr].
Qed.

(** Both revisions of the decoder on an input of four bytes or more. *)
Lemma pglz_long_input (data : list byte) (rawSize : Z) :
  0 <= rawSize -> 4 <= len data ->
  exists out,
    Toast.decompressPGLZ data rawSize = Ret (inr out)
    /\ Toast.V1.decompressPGLZ data rawSize = Ret (inr out)
    /\ len out <= rawSize.
Proof.
  intros Hraw Hlen. unfold Toast.decompressPGLZ, Toast.V1.decompressPGLZ, Toast.makeResult.
  destruct (Z.ltb_spec (len data) 4); [lia|].
  destruct (Z.ltb_spec rawSize 0); [lia|]. rewrite !bind_Ret.
  destruct (pglzLoop_ok data rawSize (length data) 0 []) as (out & -> & Hout).
  - unfold len. lia.
  - lia.
  - exact Hraw.
  - exists out. now rewrite !bind_Ret.
Qed.

(** Both revisions of the decoder on an input under four bytes. *)
Lemma decompressPGLZ_short (data : list byte) (rawSize : Z) :
  len data < 4 ->
  Toast.decompressPGLZ data rawSize = Ret (inl Toast.DataTooShort)
  /\ Toast.V1.decompressPGLZ data rawSize = Ret (inr data).
Proof.
  unfold Toast.decompressPGLZ, Toast.V1.decompressPGLZ.
  intros Hlen. destruct (Z.ltb_spec (len data) 4); [now split|lia].
Qed.

(** C10, as the code has it.  For every input and every [rawSize >= 0] the
    native decompressor ends without a run-time panic: inputs under four bytes
    are refused with an error (the earlier revision of the file returns them
    unchanged), and for longer inputs it returns an output of at most
    [rawSize] bytes. *)
Theorem decompressPGLZ_total (data : list byte) (rawSize : Z) :
  0 <= rawSize ->
  (len data < 4 ->
   Toast.decompressPGLZ data rawSize = Ret (inl Toast.DataTooShort)
   /\ Toast.V1.decompressPGLZ data rawSize = Ret (inr data))
  /\ (4 <= len data ->
      exists out,
        Toast.decompressPGLZ data rawSize = Ret (inr out)
        /\ Toast.V1.decompressPGLZ data rawSize = Ret (inr out)
        /\ len out <= rawSize).
Proof.
  intros Hraw. unfold Toast.decompressPGLZ, Toast.V1.decompressPGLZ, Toast.makeResult.
  split; intros Hlen.
  - destruct (Z.ltb_spec (len data) 4); [now split|lia].
  - destruct (Z.ltb_spec (len data) 4); [lia|].
    destruct (Z.ltb_spec rawSize 0); [lia|]. rewrite !bind_Ret.
    (* the loop starts at position 0 with an empty output and a budget of
       [length data + 1] turns *)
    destruct (pglzLoop_ok data rawSize (length data) 0 []) as (out & Hloop & Hout).
    + unfold len. lia.
    + lia.
    + exact Hraw.
    + exists out. rewrite Hloop, !bind_Ret. now repeat split.
Qed.

Lemma decompressPGLZ_total_witness :
  0 <= 5
  /\ 4 <= len Toast.pglzSample
  /\ exists out, Toast.decompressPGLZ Toast.pglzSample 5 = Ret (inr out)
                 /\ len out <= 5.
Proof.
  split; [lia|]. split; [vm_compute; discriminate|].
  destruct (decompressPGLZ_total Toast.pglzSample 5 ltac:(lia)) as [_ H].
  destruct (H ltac:(vm_compute; discriminate)) as (out & Hout & _ & Hlen).
  exists out. split; assumption.
Defined.

(** C10 as stated fails for a negative [rawSize]: with four input bytes the
    allocation [make([]byte, 0, rawSize)] stops the program, so the function
    does not return.  (In the earlier revision of the file, moreover, an input
    under four bytes comes back unchanged whatever [rawSize] is: three bytes
    for [rawSize = 0].) *)
Lemma decompressPGLZ_negative_rawSize :
  Toast.decompressPGLZ (mkbytes [0; 0; 0; 0]) (-1) = Crash MakesliceCapOutOfRange
  /\ Toast.V1.decompressPGLZ (mkbytes [0; 0; 0; 0]) (-1) = Crash MakesliceCapOutOfRange
  /\ Toast.V1.decompressPGLZ (mkbytes [1; 2; 3]) 0 = Ret (inr (mkbytes [1; 2; 3]))
  /\ ~ len (mkbytes [1; 2; 3]) <= Z.max 0 0.
Proof.
  repeat split; try (vm_compute; reflexivity).
  vm_compute. intros H. apply H. reflexivity.
Qed.

(** ** The LZ4 decoder *)

Lemma lz4Extend_bounds (rest : list byte) (pos n : Z) :
  pos <= fst (Toast.lz4Extend rest pos n) <= pos + len rest
  /\ n <= snd (Toast.lz4Extend rest pos n).
Proof.
  revert pos n. induction rest as [|b rest IH]; intros pos n; simpl.
  - change (len (@nil byte)) with 0. lia.
  - rewrite len_cons. pose proof (byteZ_range b). pose proof (len_nonneg rest).
    destruct (byteZ b =? 255); cbn [fst snd]; [|lia].
    specialize (IH (pos + 1) (n + byteZ b)). lia.
Qed.

Lemma len_drop (data : list byte) (pos : Z) :
  0 <= pos <= len data -> len (drop (Z.to_nat pos) data) = len data - pos.
Proof. intros H. unfold len in *. rewrite length_drop. lia. Qed.

(** The LZ4 loop reads inside [data], copies from inside [result], and ends
    within a budget above the bytes that remain. *)
Lemma lz4Loop_ok (data : list byte) (rawSize : Z) (fuel : nat) (pos : Z) (result : list byte) :
  len data < pos + Z.of_nat fuel + 1 -> 0 <= pos ->
  exists r, Toast.lz4Loop (S fuel) data rawSize pos result = Ret r.
Proof.
  revert pos result. induction fuel as [|fuel IH]; intros pos result Hfuel Hpos.
  - cbn [Toast.lz4Loop]. destruct (Z.ltb_spec pos (len data)); [lia|]. now eexists.
  - remember (S fuel) as fuel' eqn:Hf. cbn [Toast.lz4Loop].
    destruct (Z.ltb_spec pos (len data)) as [Hin|]; [|now eexists].
    destruct (Z.ltb_spec (len result) rawSize) as [Hroom|]; [|now eexists].
    cbn [andb].
    destruct (index_in_range data pos ltac:(lia)) as [token ->]. rewrite bind_Ret.
    set (lit0 := Z.shiftr (byteZ token) 4).
    assert (Hlit0 : 0 <= lit0) by (apply Z.shiftr_nonneg, byteZ_range).
    set (ext1 := if lit0 =? 15
                 then Toast.lz4Extend (drop (Z.to_nat (pos + 1)) data) (pos + 1) lit0
                 else (pos + 1, lit0)).
    assert (Hext1 : pos + 1 <= fst ext1 <= len data /\ 0 <= snd ext1).
    { unfold ext1. destruct (lit0 =? 15); cbn [fst snd]; [|lia].
      pose proof (lz4Extend_bounds (drop (Z.to_nat (pos + 1)) data) (pos + 1) lit0) as Hb.
      rewrite len_drop in Hb by lia. lia. }
    destruct ext1 as [pos1 lit1]. cbn [fst snd] in Hext1.
    set (lit2 := if len data <? pos1 + lit1 then len data - pos1 else lit1).
    assert (Hlit2 : 0 <= lit2 /\ pos1 + lit2 <= len data).
    { unfold lit2. destruct (Z.ltb_spec (len data) (pos1 + lit1)); lia. }
    set (result1 := result ++ take (Z.to_nat lit2) (drop (Z.to_nat pos1) data)).
    destruct (Z.leb_spec (len data) (pos1 + lit2)) as [|Hmore]; [now eexists|].
    destruct (Z.leb_spec rawSize (len result1)) as [|Hroom1]; [now eexists|].
    cbn [orb].
    destruct (Z.ltb_spec (len data) (pos1 + lit2 + 2)) as [|Htwo]; [now eexists|].
    destruct (index_in_range data (pos1 + lit2) ltac:(lia)) as [lo ->].
    destruct (index_in_range data (pos1 + lit2 + 1) ltac:(lia)) as [hi ->].
    rewrite !bind_Ret.
    set (offset := Z.lor (byteZ lo) (Z.shiftl (byteZ hi) 8)).
    assert (Hoff : 0 <= offset).
    { apply Z.lor_nonneg. split; [apply byteZ_range|]. apply Z.shiftl_nonneg, byteZ_range. }
    destruct (Z.eqb_spec offset 0); [now eexists|].
    set (ml0 := Z.land (byteZ token) 15 + 4).
    set (ext2 := if ml0 =? 19
                 then Toast.lz4Extend (drop (Z.to_nat (pos1 + lit2 + 2)) data)
                                      (pos1 + lit2 + 2) ml0
                 else (pos1 + lit2 + 2, ml0)).
    assert (Hext2 : pos1 + lit2 + 2 <= fst ext2 <= len data).
    { unfold ext2. destruct (ml0 =? 19); cbn [fst]; [|lia].
      pose proof (lz4Extend_bounds (drop (Z.to_nat (pos1 + lit2 + 2)) data)
                    (pos1 + lit2 + 2) ml0) as Hb.
      rewrite len_drop in Hb by lia. lia. }
    destruct ext2 as [pos2 ml]. cbn [fst] in Hext2.
    destruct (Z.ltb_spec (len result1) offset); [now eexists|].
    destruct (copyBack_ok (Z.to_nat ml) 0 (len result1 - offset) offset rawSize result1)
      as (r1 & -> & _); try lia.
    rewrite bind_Ret. subst fuel'. apply IH; lia.
Qed.

Lemma decompressLZ4_total (data : list byte) (rawSize : Z) :
  0 <= rawSize -> exists r, Toast.decompressLZ4 data rawSize = Ret r.
Proof.
  intros Hraw. unfold Toast.decompressLZ4, Toast.makeResult.
  destruct (len data <? 1); [now eexists|].
  destruct (Z.ltb_spec rawSize 0); [lia|]. rewrite bind_Ret.
  apply lz4Loop_ok; unfold len; lia.
Qed.

(** ** Reassembly of large values *)

Lemma insertBySeq_perm (c : Toast.TOASTChunk) (l : list Toast.TOASTChunk) :
  Permutation (Toast.insertBySeq c l) (c :: l).
Proof.
  induction l as [|d l IH]; simpl; [reflexivity|].
  destruct (Toast.ChunkSeq d <=? Toast.ChunkSeq c); [|reflexivity].
  rewrite IH. apply perm_swap.
Qed.

Lemma insertBySeq_sorted (c : Toast.TOASTChunk) (l : list Toast.TOASTChunk) :
  StronglySorted (fun a b => Toast.ChunkSeq a <= Toast.ChunkSeq b) l ->
  StronglySorted (fun a b => Toast.ChunkSeq a <= Toast.ChunkSeq b) (Toast.insertBySeq c l).
Proof.
  induction 1 as [|d l Hsorted IH Hall]; simpl.
  - constructor; constructor.
  - destruct (Z.leb_spec (Toast.ChunkSeq d) (Toast.ChunkSeq c)) as [Hle|Hgt].
    + constructor; [exact IH|].
      rewrite List.Forall_forall. intros x Hx.
      apply (Permutation_in _ (insertBySeq_perm c l)) in Hx. destruct Hx as [<-|Hx]; [exact Hle|].
      rewrite List.Forall_forall in Hall. now apply Hall.
    + constructor; [now constructor|].
      constructor; [lia|].
      rewrite List.Forall_forall in *. intros x Hx. specialize (Hall x Hx). lia.
Qed.

(** Insertion sort is one of the orders [sort.Slice] may produce. *)
Lemma sortBySeq_sorts : Toast.SortsBySeq Toast.sortBySeq.
Proof.
  intros l. induction l as [|c l [IHp IHs]]; simpl.
  - split; [reflexivity|constructor].
  - split.
    + rewrite insertBySeq_perm. now constructor.
    + now apply insertBySeq_sorted.
Qed.

(** On the example chunks every order that [sort.Slice] may produce gives the
    same value: the two sequence numbers differ. *)
Lemma helloChunks_any_sort (sortSlice : list Toast.TOASTChunk -> list Toast.TOASTChunk)
    (zlibReadAll : list byte -> option (list byte)) :
  Toast.SortsBySeq sortSlice ->
  Toast.ReassembleTOAST sortSlice zlibReadAll Toast.helloChunks 42 (Some Toast.helloPtr)
  = Ret (Toast.asciiBytes "Hello, World!").
Proof.
  intros Hsort. unfold Toast.ReassembleTOAST.
  set (world := {| Toast.ChunkID := 42; Toast.ChunkSeq := 1;
                   Toast.Data := Toast.asciiBytes "World!" |}).
  set (hello := {| Toast.ChunkID := 42; Toast.ChunkSeq := 0;
                   Toast.Data := Toast.asciiBytes "Hello, " |}).
  assert (Hfilter : filter (fun c => Toast.ChunkID c = 42) Toast.helloChunks = [world; hello])
    by (vm_compute; reflexivity).
  rewrite Hfilter. destruct (Hsort [world; hello]) as [Hperm Hsorted].
  apply Permutation_sym, Permutation_length_2_inv in Hperm.
  destruct Hperm as [Heq|Heq]; rewrite Heq in *.
  - exfalso. inversion Hsorted as [|? ? _ Hall]; subst.
    inversion Hall as [|? ? Hle _]; subst. cbn in Hle. lia.
  - vm_compute. reflexivity.
Qed.

(** C1, as the code has it.  The chunks used are exactly those whose
    [chunk_id] is the value id, in ascending [chunk_seq] order.  For a pointer
    that is absent or not compressed the result is the whole concatenation of
    their payloads: nothing is cut to [raw_size].  For a compressed pointer
    whose method is the native one, with at least four bytes of payload, the
    native decoder answers with at most [raw_size] bytes and that answer is the
    result unless it is empty, in which case the generic fallback, or failing
    that the concatenation itself, is returned.  Whatever the pointer, as long
    as its raw size is not negative, the reassembly ends with a value. *)
Theorem ReassembleTOAST_result
    (sortSlice : list Toast.TOASTChunk -> list Toast.TOASTChunk)
    (zlibReadAll : list byte -> option (list byte))
    (chunks : list Toast.TOASTChunk) (valueID : Z) (ptr : option Toast.TOASTPointer) :
  Toast.SortsBySeq sortSlice ->
  let valueChunks := Toast.valueChunksOf sortSlice chunks valueID in
  let data := Toast.concatChunks valueChunks in
  Permutation valueChunks (filter (fun c => Toast.ChunkID c = valueID) chunks)
  /\ StronglySorted (fun a b => Toast.ChunkSeq a <= Toast.ChunkSeq b) valueChunks
  /\ (ptr = None \/ (exists p, ptr = Some p /\ Toast.IsCompressed p = false) ->
      Toast.ReassembleTOAST sortSlice zlibReadAll chunks valueID ptr = Ret data)
  /\ (forall rawSize,
        Toast.V1.ReassembleTOAST sortSlice zlibReadAll chunks valueID false rawSize = Ret data)
  /\ (forall p, ptr = Some p -> Toast.IsCompressed p = true ->
        Toast.CompressionMethod p <> Toast.ToastCompressionLZ4 ->
        0 <= Toast.RawSize p -> 4 <= len data ->
        exists out,
          Toast.decompressPGLZ data (Toast.RawSize p) = Ret (inr out)
          /\ len out <= Toast.RawSize p
          /\ Toast.ReassembleTOAST sortSlice zlibReadAll chunks valueID ptr
             = Ret (if 0 <? len out then out else Toast.zlibOrRaw zlibReadAll data))
  /\ ((forall p, ptr = Some p -> 0 <= Toast.RawSize p) ->
      exists value, Toast.ReassembleTOAST sortSlice zlibReadAll chunks valueID ptr = Ret value).
Proof.
  intros Hsort valueChunks data.
  destruct (Hsort (filter (fun c => Toast.ChunkID c = valueID) chunks)) as [Hperm Hsorted].
  assert (Hempty : len (filter (fun c => Toast.ChunkID c = valueID) chunks) = 0 -> data = []).
  { intros H0. unfold data, valueChunks, Toast.valueChunksOf.
    destruct (filter _ chunks) as [|c l]; [|rewrite len_cons in H0; pose proof (len_nonneg l); lia].
    now rewrite (Permutation_nil (Permutation_sym (proj1 (Hsort [])))). }
  split; [exact Hperm|]. split; [exact Hsorted|].
  split; [|split; [|split]].
  - intros Hplain. unfold Toast.ReassembleTOAST.
    destruct (Z.eqb_spec (len (filter (fun c => Toast.ChunkID c = valueID) chunks)) 0) as [H0|_].
    + now rewrite Hempty.
    + destruct Hplain as [->|(p & -> & Hp)]; [reflexivity|]. now rewrite Hp.
  - intros rawSize. unfold Toast.V1.ReassembleTOAST.
    destruct (Z.eqb_spec (len (filter (fun c => Toast.ChunkID c = valueID) chunks)) 0) as [H0|_].
    + now rewrite Hempty.
    + reflexivity.
  - intros p -> Hcomp Hmethod Hraw Hlen.
    destruct (pglz_long_input data (Toast.RawSize p) Hraw Hlen) as (out & Hout & _ & Hbound).
    exists out. split; [exact Hout|]. split; [exact Hbound|].
    unfold Toast.ReassembleTOAST.
    destruct (Z.eqb_spec (len (filter (fun c => Toast.ChunkID c = valueID) chunks)) 0) as [H0|_].
    { rewrite (Hempty H0) in Hlen. change (len (@nil byte)) with 0 in Hlen. lia. }
    fold valueChunks in data. change (Toast.concatChunks
      (sortSlice (filter (fun c => Toast.ChunkID c = valueID) chunks))) with data.
    rewrite Hcomp. destruct (Z.ltb_spec 0 (len data)); [|lia]. cbn [andb].
    destruct (Z.eqb_spec (Toast.CompressionMethod p) Toast.ToastCompressionLZ4); [contradiction|].
    unfold Toast.tryPGLZ. rewrite Hout, bind_Ret.
    now destruct (0 <? len out).
  - intros Hraw. unfold Toast.ReassembleTOAST.
    destruct (len (filter (fun c => Toast.ChunkID c = valueID) chunks) =? 0); [now eexists|].
    destruct ptr as [p|]; [|now eexists]. specialize (Hraw p eq_refl).
    destruct (Toast.IsCompressed p && _); [|now eexists].
    assert (Hpglz : forall d, exists value, Toast.tryPGLZ zlibReadAll d (Toast.RawSize p)
                                            = Ret value).
    { intros d. unfold Toast.tryPGLZ.
      destruct (Z.lt_ge_cases (len d) 4) as [Hshort|Hlong].
      - rewrite (proj1 (decompressPGLZ_short d (Toast.RawSize p) Hshort)), bind_Ret.
        now eexists.
      - destruct (pglz_long_input d (Toast.RawSize p) Hraw Hlong) as (out & -> & _).
        rewrite bind_Ret. destruct (0 <? len out); now eexists. }
    destruct (Toast.CompressionMethod p =? Toast.ToastCompressionLZ4); [|apply Hpglz].
    destruct (decompressLZ4_total (Toast.concatChunks
                (sortSlice (filter (fun c => Toast.ChunkID c = valueID) chunks)))
                (Toast.RawSize p) Hraw) as [r ->].
    rewrite bind_Ret. destruct r; [apply Hpglz|now eexists].
Qed.

Lemma ReassembleTOAST_result_witness :
  Toast.SortsBySeq Toast.sortBySeq
  /\ Toast.ReassembleTOAST Toast.sortBySeq Toast.noZlib Toast.helloChunks 42
       (Some Toast.helloPtr)
     = Ret (Toast.asciiBytes "Hello, World!").
Proof.
  split; [exact sortBySeq_sorts|].
  destruct (ReassembleTOAST_result Toast.sortBySeq Toast.noZlib Toast.helloChunks 42
              (Some Toast.helloPtr) sortBySeq_sorts) as (_ & _ & Hplain & _).
  rewrite Hplain; [vm_compute; reflexivity|].
  right. exists Toast.helloPtr. split; reflexivity.
Defined.

(** C1 as stated fails on the specification's own scenario: the pointer has
    raw size 12 and is not compressed, the two chunks of the value 42 hold
    "Hello, " and "World!", and the result is all 13 bytes of
    "Hello, World!", not the first 12. *)
Lemma ReassembleTOAST_not_truncated :
  Toast.ReassembleTOAST Toast.sortBySeq Toast.noZlib Toast.helloChunks
    (Toast.ValueID Toast.helloPtr) (Some Toast.helloPtr)
  = Ret (Toast.asciiBytes "Hello, World!")
  /\ len (Toast.asciiBytes "Hello, World!") = 13
  /\ Toast.RawSize Toast.helloPtr = 12
  /\ Toast.asciiBytes "Hello, World!"
     <> take (Z.to_nat (Toast.RawSize Toast.helloPtr)) (Toast.asciiBytes "Hello, World!").
Proof.
  repeat split; try (vm_compute; reflexivity).
  vm_compute. discriminate.
Qed.

(** ** The tuple decoder *)

Section DecoderFacts.

Context `{C : Heap.Collaborators}.

(** C2, as the code has it.  A tuple with an empty payload decodes to no row
    at all (Go's [nil] map), whatever the schema; the row readers pass over
    it, so it shows up in neither list of [ReadRowsWithDeleted]. *)
Theorem DecodeTuple_empty_payload (tuple : Heap.HeapTupleData) (columns : list Heap.Column) :
  Heap.Data tuple = [] ->
  Heap.DecodeTuple (Some tuple) columns = None
  /\ forall entry rest,
       Heap.Tuple entry = Some tuple ->
       Heap.splitRows (entry :: rest) columns = Heap.splitRows rest columns
       /\ Heap.decodableOf (entry :: rest) columns = Heap.decodableOf rest columns.
Proof.
  intros Hdata.
  assert (Hnil : Heap.DecodeTuple (Some tuple) columns = None).
  { unfold Heap.DecodeTuple. now rewrite Hdata. }
  split; [exact Hnil|]. intros entry rest Hentry. split.
  - cbn [Heap.splitRows]. rewrite Hentry, Hnil. now destruct (Heap.splitRows rest columns).
  - unfold Heap.decodableOf. cbn [omap list_omap]. now rewrite Hentry, Hnil.
Qed.

Lemma typeAlign_values (typID length : Z) :
  Heap.typeAlign typID length = 1 \/ Heap.typeAlign typID length = 2
  \/ Heap.typeAlign typID length = 4 \/ Heap.typeAlign typID length = 8.
Proof.
  unfold Heap.typeAlign.
  repeat match goal with
         | |- context [if ?b then _ else _] => destruct b
         end; auto.
Qed.

Lemma declaredAlign_values (col : Heap.Column) :
  Heap.declaredAlign col = 1 \/ Heap.declaredAlign col = 2
  \/ Heap.declaredAlign col = 4 \/ Heap.declaredAlign col = 8.
Proof.
  unfold Heap.declaredAlign, Heap.alignFromChar.
  destruct (Heap.Align col =? 99); [cbn; auto|].
  destruct (Heap.Align col =? 115); [cbn; auto|].
  destruct (Heap.Align col =? 105); [cbn; auto|].
  destruct (Heap.Align col =? 100); [cbn; auto|].
  cbn. apply typeAlign_values.
Qed.


(** [align] rounds up: for a positive [n] the result is the least multiple of
    [n] that is not below [offset]. *)
Lemma align_rounds_up (offset n : Z) :
  0 < n -> offset <= align offset n < offset + n.
Proof.
  intros Hn. unfold align.
  pose proof (Z.div_mod (offset + n - 1) n ltac:(lia)).
  pose proof (Z.mod_pos_bound (offset + n - 1) n Hn). nia.
Qed.


Lemma decodeColumn_aligned (tuple : Heap.HeapTupleData) (idx : Z) (col : Heap.Column)
    (offset : Z) :
  let st := Heap.decodeColumn tuple idx col offset in
  Heap.stepBefore st = offset
  /\ Heap.stepAlign st = Heap.columnAlign col (Heap.Data tuple) offset
  /\ Heap.stepOffset st = align offset (Heap.stepAlign st).
Proof.
  unfold Heap.decodeColumn.
  destruct (Heap.IsNull tuple _); [cbn; auto|].
  destruct (Heap.readValue _ _ _ _). cbn. auto.
Qed.

Lemma decodeColumns_steps (tuple : Heap.HeapTupleData) (columns : list Heap.Column)
    (idx offset : Z) (col : Heap.Column) (st : Heap.ColumnStep) :
  In (col, st) (Heap.decodeColumns tuple idx columns offset) ->
  exists idx' offset', st = Heap.decodeColumn tuple idx' col offset' /\ In col columns.
Proof.
  revert idx offset. induction columns as [|c columns IH]; intros idx offset; simpl; [tauto|].
  intros [[= <- <-]|Hin].
  - exists idx, offset. auto.
  - destruct (IH _ _ Hin) as (idx' & offset' & -> & Hcol). exists idx', offset'. auto.
Qed.

Lemma readCString_nonneg (remaining : list byte) : 0 <= snd (Heap.readCString remaining).
Proof.
  induction remaining as [|b rest IH]; simpl; [lia|].
  destruct (byteZ b =? 0); [cbn; lia|].
  destruct (Heap.readCString rest) as [s n]. cbn in *. lia.
Qed.

Lemma readValue_consumed_nonneg (data : list byte) (offset typID length : Z) :
  (forall d, 0 <= snd (Heap.ReadVarlena d)) ->
  0 <= snd (Heap.readValue data offset typID length).
Proof.
  intros Hvar. unfold Heap.readValue.
  destruct (len data <=? offset); [cbn; lia|].
  destruct (Z.ltb_spec 0 length).
  - destruct (_ <? length); cbn; lia.
  - destruct (length =? -1).
    + specialize (Hvar (drop (Z.to_nat offset) data)).
      destruct (Heap.ReadVarlena _) as [[val|] consumed]; cbn in *; [lia|].
      unfold Heap.max. destruct (Z.ltb_spec 1 consumed); lia.
    + pose proof (readCString_nonneg (drop (Z.to_nat offset) data)).
      destruct (Heap.readCString _). cbn in *. lia.
Qed.

(** When the varlena reader never reports a negative count, the running
    offset of the column loop never goes back, so it is never negative and
    the slices [tuple.Data[offset:]] are the ones the model takes. *)
Lemma decodeColumns_offsets_nonneg (tuple : Heap.HeapTupleData) (columns : list Heap.Column)
    (idx offset : Z) (col : Heap.Column) (st : Heap.ColumnStep) :
  (forall d, 0 <= snd (Heap.ReadVarlena d)) ->
  0 <= offset ->
  In (col, st) (Heap.decodeColumns tuple idx columns offset) ->
  0 <= Heap.stepBefore st <= Heap.stepOffset st
  /\ Heap.stepOffset st <= Heap.stepNext st.
Proof.
  intros Hvar. revert idx offset.
  assert (Hstep : forall idx c offset, 0 <= offset ->
            offset = Heap.stepBefore (Heap.decodeColumn tuple idx c offset)
            /\ offset <= Heap.stepOffset (Heap.decodeColumn tuple idx c offset)
            /\ Heap.stepOffset (Heap.decodeColumn tuple idx c offset)
               <= Heap.stepNext (Heap.decodeColumn tuple idx c offset)).
  { intros idx c offset Hoff.
    assert (Hal : offset <= align offset (Heap.columnAlign c (Heap.Data tuple) offset)).
    { apply align_rounds_up. unfold Heap.columnAlign.
      destruct (Heap.shortVarlenaAhead _ _ _); [lia|].
      destruct (declaredAlign_values c) as [->|[->|[->| ->]]]; lia. }
    unfold Heap.decodeColumn. destruct (Heap.IsNull tuple _); [cbn; lia|].
    pose proof (readValue_consumed_nonneg (Heap.Data tuple)
                  (align offset (Heap.columnAlign c (Heap.Data tuple) offset))
                  (Heap.TypID c) (Heap.Len c) Hvar) as Hc.
    destruct (Heap.readValue _ _ _ _). cbn in *. lia. }
  induction columns as [|c columns IH]; intros idx offset Hoff; simpl; [tauto|].
  destruct (Hstep idx c offset Hoff) as (Hb & Ho & Hn).
  intros [[= <- <-]|Hin]; [lia|].
  apply (IH (idx + 1) (Heap.stepNext (Heap.decodeColumn tuple idx c offset))); [lia|exact Hin].
Qed.

Lemma splitRows_decodable (entries : list Heap.TupleEntry) (columns : list Heap.Column) :
  Heap.splitRows entries columns
  = (map snd (List.filter (fun tr => Heap.IsVisible (fst tr))
                          (Heap.decodableOf entries columns)),
     map snd (List.filter (fun tr => negb (Heap.IsVisible (fst tr)) && Heap.isDeleted (fst tr))
                          (Heap.decodableOf entries columns))).
Proof.
  induction entries as [|entry rest IH]; [reflexivity|].
  cbn [Heap.splitRows]. rewrite IH. unfold Heap.decodableOf. cbn [omap list_omap].
  destruct (Heap.Tuple entry) as [tuple|]; [|reflexivity].
  destruct (Heap.DecodeTuple (Some tuple) columns) as [row|]; [|reflexivity].
  cbn [List.filter fst]. destruct (Heap.IsVisible tuple); cbn [negb andb]; [reflexivity|].
  now destruct (Heap.isDeleted tuple).
Qed.

Lemma deleted_not_visible (t : Heap.HeapTupleData) :
  Heap.isDeleted t = true -> Heap.IsVisibleSpec t = false.
Proof.
  unfold Heap.isDeleted, Heap.IsVisibleSpec.
  destruct (Heap.XminCommitted _), (Heap.XmaxCommitted _), (Heap.XmaxInvalid _);
    cbn; congruence.
Qed.

Lemma ReadDeletedRows_rows (entries : list Heap.TupleEntry) (columns : list Heap.Column) :
  columns <> [] ->
  omap Heap.delData
       (omap (fun entry =>
                match Heap.Tuple entry with
                | None => None
                | Some tuple =>
                    if Heap.isDeleted tuple then
                      Some {| Heap.delPageOffset := Heap.PageOffset entry;
                              Heap.delItemOffset := 0;
                              Heap.delData := if 0 <? len columns
                                              then Heap.DecodeTuple (Some tuple) columns
                                              else None;
                              Heap.delRawSize := len (Heap.Data tuple) |}
                    else None
                end) entries)
  = map snd (List.filter (fun tr => Heap.isDeleted (fst tr))
                         (Heap.decodableOf entries columns)).
Proof.
  intros Hcols.
  assert (Hlen : (0 <? len columns) = true).
  { destruct columns; [congruence|]. rewrite len_cons. pose proof (len_nonneg columns).
    apply Z.ltb_lt. lia. }
  rewrite Hlen. unfold Heap.decodableOf.
  induction entries as [|entry rest IH]; [reflexivity|].
  cbn [omap list_omap]. destruct (Heap.Tuple entry) as [tuple|]; [|exact IH].
  destruct (Heap.isDeleted tuple) eqn:Hdel.
  - cbn [omap list_omap Heap.delData].
    destruct (Heap.DecodeTuple (Some tuple) columns) as [row|]; [|exact IH].
    cbn [List.filter fst]. rewrite Hdel. cbn [map snd]. f_equal. exact IH.
  - destruct (Heap.DecodeTuple (Some tuple) columns) as [row|]; [|exact IH].
    cbn [List.filter fst]. rewrite Hdel. exact IH.
Qed.

(** C5.  With the visibility test of the specification (xmin committed, and
    xmax invalid or not committed), [ReadRowsWithDeleted] sorts the decodable
    tuples of the buffer by predicate: the visible list holds, in file order,
    the rows of exactly the visible tuples, the deleted list the rows of
    exactly the tuples with xmax committed and the xmax-invalid bit clear.
    Both lists are drawn from the one list of decoded tuples, and the deleted
    list is also what [ReadDeletedRows] decodes. *)
Theorem ReadRowsWithDeleted_partition (data : list byte) (columns : list Heap.Column) :
  (forall t, Heap.IsVisible t = Heap.IsVisibleSpec t) ->
  let rows := Heap.decodable data columns in
  fst (Heap.ReadRowsWithDeleted data columns)
    = map snd (List.filter (fun tr => Heap.IsVisibleSpec (fst tr)) rows)
  /\ snd (Heap.ReadRowsWithDeleted data columns)
     = map snd (List.filter (fun tr => Heap.isDeleted (fst tr)) rows)
  /\ (forall t, Heap.IsVisibleSpec t = true
                <-> Heap.XminCommitted (Heap.Header t) = true
                    /\ (Heap.XmaxInvalid (Heap.Header t) = true
                        \/ Heap.XmaxCommitted (Heap.Header t) = false))
  /\ (forall t, Heap.isDeleted t = true
                <-> Heap.XmaxCommitted (Heap.Header t) = true
                    /\ Heap.XmaxInvalid (Heap.Header t) = false)
  /\ (columns <> [] ->
      omap Heap.delData (Heap.ReadDeletedRows data columns)
      = snd (Heap.ReadRowsWithDeleted data columns)).
Proof.
  intros Hvis rows.
  assert (Hsnd : snd (Heap.ReadRowsWithDeleted data columns)
                 = map snd (List.filter (fun tr => Heap.isDeleted (fst tr)) rows)).
  { unfold Heap.ReadRowsWithDeleted. rewrite splitRows_decodable. cbn [snd].
    f_equal. apply List.filter_ext. intros [t row]. cbn [fst]. rewrite Hvis.
    destruct (Heap.isDeleted t) eqn:Hdel; [|now rewrite andb_false_r].
    now rewrite (deleted_not_visible _ Hdel). }
  split; [|split; [exact Hsnd|split; [|split]]].
  - unfold Heap.ReadRowsWithDeleted. rewrite splitRows_decodable. cbn [fst].
    f_equal. apply List.filter_ext. intros [t row]. apply Hvis.
  - intros t. unfold Heap.IsVisibleSpec.
    destruct (Heap.XminCommitted _), (Heap.XmaxCommitted _), (Heap.XmaxInvalid _);
      cbn; intuition congruence.
  - intros t. unfold Heap.isDeleted.
    destruct (Heap.XmaxCommitted _), (Heap.XmaxInvalid _); cbn; intuition congruence.
  - intros Hcols. rewrite Hsnd. unfold Heap.ReadDeletedRows.
    now rewrite ReadDeletedRows_rows.
Qed.

End DecoderFacts.

Lemma DecodeTuple_empty_payload_witness :
  Heap.Data Heap.emptyTuple = []
  /\ @Heap.DecodeTuple Heap.sampleCollaborators (Some Heap.emptyTuple) Heap.sampleColumns = None.
Proof.
  split; [reflexivity|].
  exact (proj1 (@DecodeTuple_empty_payload Heap.sampleCollaborators Heap.emptyTuple
                  Heap.sampleColumns eq_refl)).
Defined.

(** C2 as stated fails: for the tuple with an empty payload the decoder
    returns Go's [nil] map, which is not the empty row, and [ReadRows] leaves
    the tuple out (the example page holds four tuples, three with a payload). *)
Lemma DecodeTuple_empty_payload_is_nil :
  Heap.Data Heap.emptyTuple = []
  /\ @Heap.DecodeTuple Heap.sampleCollaborators (Some Heap.emptyTuple) Heap.sampleColumns = None
  /\ @Heap.DecodeTuple Heap.sampleCollaborators (Some Heap.emptyTuple) Heap.sampleColumns
     <> Some ∅
  /\ length (@Heap.ReadTuples Heap.sampleCollaborators Heap.onePage false) = 4%nat
  /\ length (@Heap.ReadRows Heap.sampleCollaborators Heap.onePage Heap.sampleColumns false)
     = 3%nat.
Proof.
  split; [reflexivity|]. split; [reflexivity|]. split; [discriminate|].
  split; vm_compute; reflexivity.
Qed.

Lemma ReadRowsWithDeleted_partition_witness :
  (forall t, @Heap.IsVisible Heap.sampleCollaborators t = Heap.IsVisibleSpec t)
  /\ length (fst (@Heap.ReadRowsWithDeleted Heap.sampleCollaborators Heap.onePage
                    Heap.sampleColumns)) = 1%nat
  /\ length (snd (@Heap.ReadRowsWithDeleted Heap.sampleCollaborators Heap.onePage
                    Heap.sampleColumns)) = 1%nat.
Proof.
  split; [reflexivity|].
  destruct (@ReadRowsWithDeleted_partition Heap.sampleCollaborators Heap.onePage
              Heap.sampleColumns (fun t => eq_refl)) as (Hfst & Hsnd & _).
  rewrite Hfst, Hsnd. split; vm_compute; reflexivity.
Defined.

(** ** The dump orchestrator *)

Section OrchestratorFacts.

Context `{C : Heap.Collaborators} `{E : Dump.Environment}.


End OrchestratorFacts.



(** * Further properties of the code *)

(** ** Segment arithmetic *)

(** [GlobalBlockToSegment] splits a block number into segment and local
    block so that [segment * blocksPerSegment + local] is the block number
    again, with [0 <= local < blocksPerSegment] for a block number that is
    not negative; a segment size of 0 or less stands for 1 GiB (131072
    blocks), and a positive segment size under one page divides by zero. *)
Theorem GlobalBlockToSegment_decompose (globalBlock segmentSize : Z) :
  let blocksPerSegment := if segmentSize <=? 0 then 131072 else Z.quot segmentSize 8192 in
  (0 < segmentSize < PageSize ->
   SegmentIO.GlobalBlockToSegment globalBlock segmentSize = inl SegmentIO.IntegerDivideByZero)
  /\ (segmentSize <= 0 \/ PageSize <= segmentSize ->
      exists segmentNum localBlock,
        SegmentIO.GlobalBlockToSegment globalBlock segmentSize = inr (segmentNum, localBlock)
        /\ segmentNum * blocksPerSegment + localBlock = globalBlock
        /\ (0 <= globalBlock -> 0 <= segmentNum /\ 0 <= localBlock < blocksPerSegment)).
Proof.
  intros bps. unfold SegmentIO.GlobalBlockToSegment, PageSize. split.
  - intros Hsmall. destruct (Z.leb_spec segmentSize 0); [lia|].
    rewrite Z.quot_small by lia. reflexivity.
  - intros Hsize.
    assert (Hbps : (if segmentSize <=? 0 then SegmentIO.DefaultSegmentSize else segmentSize)
                   ÷ 8192 = bps /\ 0 < bps).
    { unfold bps. destruct (Z.leb_spec segmentSize 0); [split; [reflexivity|lia]|].
      split; [reflexivity|]. apply Z.quot_str_pos. lia. }
    destruct Hbps as [-> Hpos].
    destruct (Z.eqb_spec bps 0); [lia|].
    eexists _, _. split; [reflexivity|]. split.
    + pose proof (Z.quot_rem' globalBlock bps). lia.
    + intros Hg. pose proof (Z.rem_bound_pos globalBlock bps Hg Hpos).
      pose proof (Z.quot_pos globalBlock bps Hg Hpos). lia.
Qed.

Lemma GlobalBlockToSegment_decompose_witness :
  (16384 <= 0 \/ PageSize <= 16384)
  /\ exists segmentNum localBlock,
       SegmentIO.GlobalBlockToSegment 7 16384 = inr (segmentNum, localBlock)
       /\ segmentNum * 2 + localBlock = 7.
Proof.
  assert (H : 16384 <= 0 \/ PageSize <= 16384) by (right; vm_compute; discriminate).
  split; [exact H|].
  destruct (proj2 (GlobalBlockToSegment_decompose 7 16384) H) as (seg & loc & Heq & Hsum & _).
  exists seg, loc. split; [exact Heq|exact Hsum].
Defined.

(** ** Segment file names *)

Lemma hasChar_app (c : ascii) (a b : string) :
  SegmentIO.hasChar c (a ++ b) = SegmentIO.hasChar c a || SegmentIO.hasChar c b.
Proof.
  induction a as [|x a IH]; simpl; [reflexivity|]. rewrite IH. now rewrite orb_assoc.
Qed.

Lemma afterLast_app (c : ascii) (p t : string) :
  SegmentIO.hasChar c t = false ->
  SegmentIO.afterLast c (p ++ t) = (SegmentIO.afterLast c p ++ t)%string.
Proof.
  intros Ht. induction p as [|x p IH]; simpl.
  - induction t as [|y t IHt]; simpl in *; [reflexivity|].
    apply orb_false_elim in Ht as [Hy Ht']. now rewrite Ht', Hy.
  - rewrite hasChar_app, Ht, orb_false_r.
    destruct (SegmentIO.hasChar c p); [exact IH|].
    now destruct (Ascii.eqb x c).
Qed.

Lemma afterLast_separator (c : ascii) (q t : string) :
  SegmentIO.hasChar c t = false ->
  SegmentIO.afterLast c (q ++ String c t) = t.
Proof.
  intros Ht. induction q as [|x q IH]; simpl.
  - now rewrite Ht, Ascii.eqb_refl.
  - rewrite hasChar_app. simpl. rewrite Ascii.eqb_refl, orb_true_r. exact IH.
Qed.

Lemma digitsOnly_hasChar (c : ascii) (t : string) :
  GoLib.digitVal c = None -> SegmentIO.digitsOnly t = true -> SegmentIO.hasChar c t = false.
Proof.
  intros Hc. induction t as [|y t IH]; simpl; [reflexivity|].
  destruct (GoLib.digitVal y) as [d|] eqn:Hy; [|discriminate]. intros Ht.
  rewrite (IH Ht), orb_false_r.
  destruct (Ascii.eqb_spec y c) as [->|]; [congruence|reflexivity].
Qed.

Lemma stripTrailingSlashes_digits (t : string) :
  SegmentIO.digitsOnly t = true -> SegmentIO.stripTrailingSlashes t = t.
Proof.
  induction t as [|y t IH]; simpl; [reflexivity|].
  destruct (GoLib.digitVal y) as [d|] eqn:Hy; [|discriminate]. intros Ht. rewrite (IH Ht).
  destruct (Ascii.eqb_spec y "/") as [->|]; [vm_compute in Hy; discriminate|reflexivity].
Qed.

Lemma stripTrailingSlashes_app (p t : string) :
  SegmentIO.stripTrailingSlashes t = t -> t <> EmptyString ->
  SegmentIO.stripTrailingSlashes (p ++ t) = (p ++ t)%string.
Proof.
  intros Ht Hne. induction p as [|x p IH]; simpl; [exact Ht|].
  rewrite IH.
  assert (Hnonempty : String.eqb (p ++ t) EmptyString = false).
  { destruct p; simpl; [now apply eqb_nonempty|reflexivity]. }
  now rewrite Hnonempty, andb_false_r.
Qed.

Lemma string_app_assoc (a b c : string) : ((a ++ b) ++ c = a ++ (b ++ c))%string.
Proof.
  induction a as [|x a IH]; [reflexivity|].
  change (String x ((a ++ b) ++ c) = String x (a ++ (b ++ c)))%string. now rewrite IH.
Qed.

Lemma string_app_nil_r (a : string) : (a ++ EmptyString)%string = a.
Proof.
  induction a as [|x a IH]; [reflexivity|].
  change (String x (a ++ EmptyString)%string = String x a). now rewrite IH.
Qed.

Lemma digitVal_digit (d : Z) :
  0 <= d < 10 -> GoLib.digitVal (ascii_of_nat (Z.to_nat (48 + d))) = Some d.
Proof.
  intros Hd. rewrite <- (Z2Nat.id d) by lia.
  assert (Hm : (Z.to_nat d < 10)%nat) by lia. revert Hm.
  generalize (Z.to_nat d) as m. intros m Hm.
  do 10 (destruct m as [|m]; [reflexivity|]). lia.
Qed.

(** The decimal digits of a number, as [strconv.FormatUint] writes them: the
    result is a non-empty string of digits in front of [acc] that reads back
    as the number. *)
Lemma decDigits_digits (fuel : nat) (n : Z) (acc : string) :
  0 <= n < 10 ^ Z.of_nat (S fuel) ->
  exists ds,
    Dump.decDigits (S fuel) n acc = (ds ++ acc)%string
    /\ ds <> EmptyString
    /\ SegmentIO.digitsOnly ds = true
    /\ forall k rest, GoLib.parseDigits (ds ++ rest) k
                      = GoLib.parseDigits rest (k * 10 ^ Z.of_nat (String.length ds) + n).
Proof.
  revert n acc. induction fuel as [|fuel IH]; intros n acc Hn.
  - change (10 ^ Z.of_nat 1) with 10 in Hn.
    cbn [Dump.decDigits]. rewrite Z.mod_small, Z.div_small by lia. cbn [Z.eqb].
    exists (String (ascii_of_nat (Z.to_nat (48 + n))) EmptyString).
    assert (Hd : GoLib.digitVal (ascii_of_nat (Z.to_nat (48 + n))) = Some n).
    { apply digitVal_digit. lia. }
    split; [reflexivity|]. split; [discriminate|]. split; [simpl; now rewrite Hd|].
    intros k rest. simpl. rewrite Hd. first [reflexivity|f_equal; lia].
  - remember (S fuel) as fuel' eqn:Hf. cbn [Dump.decDigits].
    set (d := n mod 10). assert (Hdr : 0 <= d < 10) by (apply Z.mod_pos_bound; lia).
    assert (Hd : GoLib.digitVal (ascii_of_nat (Z.to_nat (48 + d))) = Some d).
    { apply digitVal_digit. exact Hdr. }
    pose proof (Z.div_mod n 10 ltac:(lia)) as Hdm. fold d in Hdm.
    destruct (Z.eqb_spec (n / 10) 0) as [Hsmall|Hbig].
    + exists (String (ascii_of_nat (Z.to_nat (48 + d))) EmptyString).
      split; [reflexivity|]. split; [discriminate|]. split; [simpl; now rewrite Hd|].
      intros k rest. simpl. rewrite Hd. first [reflexivity|f_equal; lia].
    + assert (Hq : 0 <= n / 10 < 10 ^ Z.of_nat fuel').
      { split; [apply Z.div_pos; lia|].
        apply Z.div_lt_upper_bound; [lia|].
        replace (10 * 10 ^ Z.of_nat fuel') with (10 ^ Z.of_nat (S fuel')); [lia|].
        rewrite Nat2Z.inj_succ, Z.pow_succ_r by lia. reflexivity. }
      subst fuel'.
      destruct (IH (n / 10) (String (ascii_of_nat (Z.to_nat (48 + d))) acc) Hq)
        as (ds & Heq & Hne & Hdig & Hparse).
      exists (ds ++ String (ascii_of_nat (Z.to_nat (48 + d))) EmptyString)%string.
      split; [rewrite Heq; now rewrite string_app_assoc|].
      split; [destruct ds; [congruence|discriminate]|].
      split.
      * clear -Hdig Hd. induction ds as [|y ds IHds]; simpl in *; [now rewrite Hd|].
        destruct (GoLib.digitVal y); [auto|discriminate].
      * intros k rest. rewrite string_app_assoc, Hparse. simpl. rewrite Hd. f_equal.
        assert (Hlen : String.length (ds ++ String (ascii_of_nat (Z.to_nat (48 + d))) "")
                       = S (String.length ds)).
        { clear. induction ds; simpl; [reflexivity|now rewrite IHds]. }
        rewrite Hlen, Nat2Z.inj_succ, Z.pow_succ_r by lia. lia.
Qed.

Lemma digitsOnly_first (ds : string) :
  SegmentIO.digitsOnly ds = true -> ds <> EmptyString ->
  exists c rest d, ds = String c rest /\ GoLib.digitVal c = Some d.
Proof.
  destruct ds as [|c rest]; [congruence|]. simpl.
  destruct (GoLib.digitVal c) as [d|] eqn:Hc; [|discriminate]. intros _ _. now exists c, rest, d.
Qed.

(** [strconv.Atoi] reads back what [strconv.FormatUint] writes. *)
Lemma Atoi_FormatUint (i : Z) :
  0 <= i <= GoLib.maxInt ->
  GoLib.Atoi (Dump.FormatUint i) = Some i
  /\ SegmentIO.digitsOnly (Dump.FormatUint i) = true
  /\ Dump.FormatUint i <> EmptyString.
Proof.
  intros Hi. unfold Dump.FormatUint.
  destruct (decDigits_digits 19 i EmptyString) as (ds & Heq & Hne & Hdig & Hparse).
  { unfold GoLib.maxInt in Hi. change (10 ^ Z.of_nat 20) with 100000000000000000000. lia. }
  rewrite Heq, string_app_nil_r. split; [|split; assumption].
  destruct (digitsOnly_first ds Hdig Hne) as (c & rest & d & -> & Hc).
  unfold GoLib.Atoi.
  assert (Hminus : Ascii.eqb c "-" = false).
  { destruct (Ascii.eqb_spec c "-") as [->|]; [vm_compute in Hc; discriminate|reflexivity]. }
  assert (Hplus : Ascii.eqb c "+" = false).
  { destruct (Ascii.eqb_spec c "+") as [->|]; [vm_compute in Hc; discriminate|reflexivity]. }
  rewrite Hminus, Hplus. cbn [orb].
  specialize (Hparse 0 EmptyString). rewrite string_app_nil_r in Hparse. rewrite Hparse.
  cbn [GoLib.parseDigits]. rewrite Z.mul_0_l, Z.add_0_l.
  unfold GoLib.minInt, GoLib.maxInt in *.
  destruct (Z.leb_spec (- 2 ^ 63) i); [|lia]. destruct (Z.leb_spec i (2 ^ 63 - 1)); [|lia].
  reflexivity.
Qed.

(** The names under which [ListSegments] looks for the segments of a relation
    lead back to their segment numbers: for every base path and every segment
    number [i] from 0 up to the largest [int],
    [GetSegmentNumberFromPath(basePath + "." + i)] is [i]. *)
Theorem GetSegmentNumberFromPath_segmentPath (basePath : string) (i : Z) :
  0 <= i <= GoLib.maxInt ->
  SegmentIO.GetSegmentNumberFromPath (SegmentIO.segmentPath basePath i) = i.
Proof.
  intros Hi. destruct (Atoi_FormatUint i Hi) as (Hatoi & Hdig & Hne).
  set (ds := Dump.FormatUint i) in *.
  assert (Hdot : GoLib.digitVal "." = None) by reflexivity.
  assert (Hslash : GoLib.digitVal "/" = None) by reflexivity.
  assert (Hstrip : SegmentIO.stripTrailingSlashes (String "." ds) = String "." ds).
  { simpl. now rewrite (stripTrailingSlashes_digits ds Hdig). }
  assert (Hnoslash : SegmentIO.hasChar "/" (String "." ds) = false).
  { simpl. exact (digitsOnly_hasChar "/" ds Hslash Hdig). }
  unfold SegmentIO.GetSegmentNumberFromPath, SegmentIO.segmentPath, SegmentIO.Base.
  fold ds.
  assert (Hp : String.eqb (basePath ++ String "." ds) EmptyString = false)
    by (destruct basePath; reflexivity).
  rewrite Hp, (stripTrailingSlashes_app basePath _ Hstrip) by discriminate.
  rewrite (afterLast_app "/" basePath _ Hnoslash).
  set (b := SegmentIO.afterLast "/" basePath).
  assert (Hb : String.eqb (b ++ String "." ds) EmptyString = false) by (destruct b; reflexivity).
  rewrite Hb, hasChar_app. simpl SegmentIO.hasChar. rewrite orb_true_r. cbn [negb].
  rewrite (afterLast_separator "." b ds (digitsOnly_hasChar "." ds Hdot Hdig)).
  now rewrite Hatoi.
Qed.

Lemma GetSegmentNumberFromPath_segmentPath_witness :
  0 <= 10 <= GoLib.maxInt
  /\ SegmentIO.segmentPath "/path/to/16384" 10 = "/path/to/16384.10"%string
  /\ SegmentIO.GetSegmentNumberFromPath "/path/to/16384.10" = 10.
Proof.
  assert (H : 0 <= 10 <= GoLib.maxInt) by (vm_compute; split; discriminate).
  split; [exact H|]. split; [reflexivity|].
  exact (GetSegmentNumberFromPath_segmentPath "/path/to/16384" 10 H).
Defined.

(** ** Reading block ranges *)

Lemma take_drop_take {A} (l : list A) (a b c : nat) :
  (b + a <= c)%nat -> take a (drop b (take c l)) = take a (drop b l).
Proof.
  intros H. rewrite !take_drop_commute, take_take. f_equal. f_equal. lia.
Qed.

Lemma len_take_drop (content : list byte) (a b : Z) :
  0 <= a -> 0 <= b -> b + a <= len content ->
  len (take (Z.to_nat a) (drop (Z.to_nat b) content)) = a.
Proof.
  intros Ha Hb Hfit. unfold len in *. rewrite length_take, length_drop. lia.
Qed.

(** Inside a slice of whole pages of a file, page [k] is page [first + k] of
    the file. *)
Lemma pageAt_slice (content : list byte) (first count k : Z) :
  0 <= first -> 0 <= k < count ->
  SegmentIO.pageAt (take (Z.to_nat (count * PageSize))
                         (drop (Z.to_nat (first * PageSize)) content)) k
  = SegmentIO.pageAt content (first + k).
Proof.
  intros Hfirst Hk. unfold SegmentIO.pageAt, PageSize.
  rewrite take_drop_take by lia. rewrite drop_drop. f_equal. f_equal. lia.
Qed.

Lemma pageAt_full (content : list byte) (j : Z) :
  0 <= j < len content / PageSize -> len (SegmentIO.pageAt content j) = PageSize.
Proof.
  intros Hj. unfold SegmentIO.pageAt.
  pose proof (Z.mul_div_le (len content) PageSize ltac:(unfold PageSize; lia)) as Hle.
  apply len_take_drop; unfold PageSize in *; lia.
Qed.

Lemma lastBlock_spec (blockRange : option Segment.BlockRange) (total : Z) :
  SegmentIO.lastBlock blockRange total
  = (let requested :=
       match blockRange with
       | Some br => if 0 <=? Segment.End_ br then Segment.End_ br else total - 1
       | None => total - 1
       end in
     if total <=? requested then total - 1 else requested).
Proof.
  unfold SegmentIO.lastBlock. destruct blockRange as [br|]; cbn zeta.
  - destruct (Z.leb_spec 0 (Segment.End_ br)); cbn [andb].
    + destruct (Z.ltb_spec (Segment.End_ br) total), (Z.leb_spec total (Segment.End_ br));
        try lia; reflexivity.
    + destruct (Z.leb_spec total (total - 1)); [lia|reflexivity].
  - destruct (Z.leb_spec total (total - 1)); [lia|reflexivity].
Qed.

(** The three outcomes of [ReadBlockRange] on an existing file, by the first
    block asked for and the last block after clamping to the file. *)
Lemma ReadBlockRange_cases (content : list byte) (blockRange : option Segment.BlockRange) :
  let total := len content / PageSize in
  let first := SegmentIO.firstBlock blockRange in
  let last := SegmentIO.lastBlock blockRange total in
  SegmentIO.ReadBlockRange (Some content) blockRange
  = if total <=? first then inl (SegmentIO.StartBeyondFile first total)
    else if last <? first then inl (SegmentIO.InvalidRange first last)
    else inr (take (Z.to_nat ((last - first + 1) * PageSize))
                   (drop (Z.to_nat (first * PageSize)) content)).
Proof.
  intros total first last. unfold SegmentIO.ReadBlockRange.
  rewrite Z.quot_div_nonneg by (unfold PageSize; first [apply len_nonneg|lia]).
  fold total. unfold last. rewrite lastBlock_spec. reflexivity.
Qed.

(** [ReadBlockRange] returns whole pages of the file and nothing else: when
    the first block lies inside the file and does not exceed the (clamped)
    last block, the result is pages [first .. last] of the file, a positive
    multiple of 8192 bytes; a first block at or beyond the number of whole
    pages is an error (so a file under one page always is), and so is a last
    block below the first. *)
Theorem ReadBlockRange_pages (content : list byte) (blockRange : option Segment.BlockRange) :
  let total := len content / PageSize in
  let first := SegmentIO.firstBlock blockRange in
  let last := SegmentIO.lastBlock blockRange total in
  0 <= first
  /\ (first < total -> first <= last ->
      exists data,
        SegmentIO.ReadBlockRange (Some content) blockRange = inr data
        /\ len data = (last - first + 1) * PageSize
        /\ last < total
        /\ forall k, 0 <= k <= last - first ->
             SegmentIO.pageAt data k = SegmentIO.pageAt content (first + k))
  /\ (total <= first ->
      SegmentIO.ReadBlockRange (Some content) blockRange
      = inl (SegmentIO.StartBeyondFile first total))
  /\ (first < total -> last < first ->
      SegmentIO.ReadBlockRange (Some content) blockRange
      = inl (SegmentIO.InvalidRange first last)).
Proof.
  intros total first last.
  assert (Hfirst : 0 <= first).
  { unfold first, SegmentIO.firstBlock. destruct blockRange as [br|]; [|lia].
    destruct (Z.leb_spec 0 (Segment.Start br)); lia. }
  assert (Hlast : last < total \/ total <= 0).
  { unfold last, SegmentIO.lastBlock. destruct blockRange as [br|]; [|lia].
    destruct (Z.leb_spec 0 (Segment.End_ br)), (Z.ltb_spec (Segment.End_ br) total);
      cbn [andb]; lia. }
  pose proof (ReadBlockRange_cases content blockRange) as Hcases.
  cbv zeta in Hcases. fold total first last in Hcases.
  split; [exact Hfirst|]. split; [|split].
  - intros Hin Hle. rewrite Hcases.
    destruct (Z.leb_spec total first); [lia|]. destruct (Z.ltb_spec last first); [lia|].
    eexists. split; [reflexivity|].
    pose proof (Z.mul_div_le (len content) PageSize ltac:(unfold PageSize; lia)) as Hfit.
    fold total in Hfit.
    split; [|split; [lia|]].
    + apply len_take_drop; unfold PageSize in *; lia.
    + intros k Hk. apply pageAt_slice; lia.
  - intros Hout. rewrite Hcases. destruct (Z.leb_spec total first); [reflexivity|lia].
  - intros Hin Hcross. rewrite Hcases.
    destruct (Z.leb_spec total first); [lia|]. destruct (Z.ltb_spec last first); [reflexivity|lia].
Qed.

Lemma ReadBlockRange_pages_witness :
  SegmentIO.firstBlock (Some {| Segment.Start := 1; Segment.End_ := 7 |}) < len SegmentIO.threePages / PageSize
  /\ exists data,
       SegmentIO.ReadBlockRange (Some SegmentIO.threePages)
         (Some {| Segment.Start := 1; Segment.End_ := 7 |}) = inr data
       /\ len data = 2 * PageSize.
Proof.
  assert (H1 : SegmentIO.firstBlock (Some {| Segment.Start := 1; Segment.End_ := 7 |})
               < len SegmentIO.threePages / PageSize) by (vm_compute; reflexivity).
  split; [exact H1|].
  destruct (ReadBlockRange_pages SegmentIO.threePages
              (Some {| Segment.Start := 1; Segment.End_ := 7 |})) as (_ & Hok & _).
  destruct (Hok H1 ltac:(vm_compute; discriminate)) as (data & Hdata & Hlen & _).
  exists data. split; [exact Hdata|]. rewrite Hlen. vm_compute. reflexivity.
Defined.

Lemma ParseBlockInfo_full_page (block : list byte) (blockNumber : Z) :
  PageSize <= len block ->
  exists info,
    Segment.ParseBlockInfo block blockNumber = Some info
    /\ Segment.BlockNumber info = blockNumber
    /\ 0 <= Segment.ItemCount info
    /\ 0 <= Segment.FreeSpace info.
Proof.
  intros Hlen. unfold Segment.ParseBlockInfo.
  destruct (Z.ltb_spec (len block) PageSize); [lia|].
  destruct (Segment.allZero _).
  - eexists. split; [reflexivity|]. cbn. lia.
  - eexists. split; [reflexivity|]. cbn. split; [reflexivity|]. split.
    + destruct (Z.leb_spec headerSize (u16 block 12)); [|lia].
      apply Z.quot_pos; unfold headerSize, itemIDSize in *; lia.
    + destruct (Z.ltb_spec (u16 block 12) (u16 block 14)); lia.
Qed.

Lemma blockInfos_step (n : nat) (data : list byte) (startBlock i : Z) :
  SegmentIO.blockInfos (S n) data startBlock i
  = match Segment.ParseBlockInfo (SegmentIO.pageAt data i) (SegmentIO.wrap32 (startBlock + i)) with
    | Some info => info :: SegmentIO.blockInfos n data startBlock (i + 1)
    | None => SegmentIO.blockInfos n data startBlock (i + 1)
    end.
Proof. unfold SegmentIO.pageAt. cbn [SegmentIO.blockInfos]. exact eq_refl. Qed.

(** The loop of [DumpBlockRange] over full pages: one entry per page, entry
    [k] being the information of page [i + k]. *)
Lemma blockInfos_pages (n : nat) (data : list byte) (startBlock i : Z) :
  0 <= i ->
  (forall k, 0 <= k < Z.of_nat n -> PageSize <= len (SegmentIO.pageAt data (i + k))) ->
  length (SegmentIO.blockInfos n data startBlock i) = n
  /\ forall k, 0 <= k < Z.of_nat n ->
       SegmentIO.blockInfos n data startBlock i !! Z.to_nat k
       = Segment.ParseBlockInfo (SegmentIO.pageAt data (i + k))
                                (SegmentIO.wrap32 (startBlock + (i + k))).
Proof.
  revert i. induction n as [|n IH]; intros i Hi Hfull.
  - split; [reflexivity|]. intros k Hk. lia.
  - rewrite blockInfos_step.
    destruct (ParseBlockInfo_full_page (SegmentIO.pageAt data i)
                (SegmentIO.wrap32 (startBlock + i))) as (info & Hinfo & _).
    { specialize (Hfull 0 ltac:(lia)). now rewrite Z.add_0_r in Hfull. }
    rewrite Hinfo.
    destruct (IH (i + 1) ltac:(lia)) as [Hlen Hnth].
    { intros k Hk. replace (i + 1 + k) with (i + (k + 1)) by lia. apply Hfull. lia. }
    split; [cbn [length]; now rewrite Hlen|].
    intros k Hk. destruct (Z.eq_dec k 0) as [->|Hnz].
    + rewrite Z.add_0_r. exact (eq_sym Hinfo).
    + replace (Z.to_nat k) with (S (Z.to_nat (k - 1))) by lia.
      etrans; [exact (Hnth (k - 1) ltac:(lia))|].
      f_equal; [f_equal|f_equal]; lia.
Qed.

(** What [DumpBlockRange] returns for a file, after [ReadBlockRange]. *)
Lemma DumpBlockRange_infos (content : list byte) (blockRange : option Segment.BlockRange)
    (infos : list Segment.BlockInfo) :
  SegmentIO.DumpBlockRange (Some content) blockRange = inr infos ->
  let total := len content / PageSize in
  let first := SegmentIO.firstBlock blockRange in
  let last := SegmentIO.lastBlock blockRange total in
  0 <= first <= last /\ last < total
  /\ len infos = last - first + 1
  /\ forall k, 0 <= k <= last - first ->
       infos !! Z.to_nat k
       = Segment.ParseBlockInfo (SegmentIO.pageAt content (first + k))
                                (SegmentIO.wrap32 (first + k)).
Proof.
  intros Hdump total first last. unfold SegmentIO.DumpBlockRange in Hdump.
  pose proof (ReadBlockRange_cases content blockRange) as Hcases.
  cbv zeta in Hcases. fold total first last in Hcases. rewrite Hcases in Hdump.
  assert (Hfirst : 0 <= first).
  { unfold first, SegmentIO.firstBlock. destruct blockRange as [br|]; [|lia].
    destruct (Z.leb_spec 0 (Segment.Start br)); lia. }
  assert (Hlast : last < total \/ total <= 0).
  { unfold last, SegmentIO.lastBlock. destruct blockRange as [br|]; [|lia].
    destruct (Z.leb_spec 0 (Segment.End_ br)), (Z.ltb_spec (Segment.End_ br) total);
      cbn [andb]; lia. }
  destruct (Z.leb_spec total first); [discriminate|].
  destruct (Z.ltb_spec last first); [discriminate|].
  injection Hdump as <-.
  change (match blockRange with
          | Some br => if 0 <=? Segment.Start br then Segment.Start br else 0
          | None => 0
          end) with first.
  set (data := take _ (drop _ content)).
  pose proof (Z.mul_div_le (len content) PageSize ltac:(unfold PageSize; lia)) as Hfit.
  fold total in Hfit.
  assert (Hlen : len data = (last - first + 1) * PageSize).
  { apply len_take_drop; unfold PageSize in *; lia. }
  assert (Hcount : Z.quot (len data) PageSize = last - first + 1).
  { rewrite Hlen. rewrite Z.quot_mul; unfold PageSize; lia. }
  rewrite Hcount.
  destruct (blockInfos_pages (Z.to_nat (last - first + 1)) data first 0 ltac:(lia))
    as [Hn Hnth].
  { intros k Hk. rewrite Z.add_0_l. unfold data. rewrite pageAt_slice by lia.
    rewrite pageAt_full; lia. }
  split; [lia|]. split; [lia|]. split; [unfold len; rewrite Hn; lia|].
  intros k Hk. rewrite Hnth by lia. rewrite !Z.add_0_l.
  unfold data. rewrite pageAt_slice by lia. reflexivity.
Qed.

(** [DumpBlockRange] reports every block read, in order and under its own
    number: the result has one entry per block from the first to the
    (clamped) last, and entry [k] is the block information of page
    [first + k] of the file, numbered [first + k] (as a [uint32]). *)
Theorem DumpBlockRange_blocks (content : list byte) (blockRange : option Segment.BlockRange)
    (infos : list Segment.BlockInfo) :
  SegmentIO.DumpBlockRange (Some content) blockRange = inr infos ->
  let first := SegmentIO.firstBlock blockRange in
  let last := SegmentIO.lastBlock blockRange (len content / PageSize) in
  len infos = last - first + 1
  /\ 1 <= len infos
  /\ forall k, 0 <= k <= last - first ->
       exists info,
         infos !! Z.to_nat k = Some info
         /\ Segment.ParseBlockInfo (SegmentIO.pageAt content (first + k))
                                   (SegmentIO.wrap32 (first + k)) = Some info
         /\ Segment.BlockNumber info = SegmentIO.wrap32 (first + k).
Proof.
  intros Hdump first last.
  destruct (DumpBlockRange_infos content blockRange infos Hdump) as (Hb & Hl & Hlen & Hnth).
  fold first last in Hb, Hl, Hlen, Hnth.
  split; [exact Hlen|]. split; [lia|].
  intros k Hk. rewrite (Hnth k Hk).
  destruct (ParseBlockInfo_full_page (SegmentIO.pageAt content (first + k))
              (SegmentIO.wrap32 (first + k))) as (info & Hinfo & Hnum & _).
  { rewrite pageAt_full; lia. }
  exists info. now rewrite Hinfo.
Qed.

Lemma DumpBlockRange_blocks_witness :
  exists infos,
    SegmentIO.DumpBlockRange (Some SegmentIO.threePages)
      (Some {| Segment.Start := 1; Segment.End_ := -1 |}) = inr infos
    /\ len infos = 2.
Proof.
  destruct (SegmentIO.DumpBlockRange (Some SegmentIO.threePages)
              (Some {| Segment.Start := 1; Segment.End_ := -1 |})) as [err|infos] eqn:Hdump;
    [vm_compute in Hdump; discriminate|].
  exists infos. split; [reflexivity|].
  destruct (DumpBlockRange_blocks _ _ _ Hdump) as (Hlen & _).
  rewrite Hlen. vm_compute. reflexivity.
Defined.

Lemma countBlocks_totals (blocks : list Segment.BlockInfo) (empty used items free totalUsed : Z) :
  Forall (fun b => 0 <= Segment.ItemCount b /\ 0 <= Segment.FreeSpace b) blocks ->
  let '(empty', used', items', free', _) :=
    SegmentIO.countBlocks blocks (empty, used, items, free, totalUsed) in
  empty' + used' = empty + used + len blocks
  /\ empty <= empty' /\ used <= used' /\ items <= items' /\ free <= free'.
Proof.
  intros Hall. revert empty used items free totalUsed.
  induction Hall as [|b blocks [Hi Hf] _ IH]; intros empty used items free totalUsed.
  - cbn. change (len (@nil Segment.BlockInfo)) with 0. lia.
  - cbn [SegmentIO.countBlocks]. rewrite len_cons.
    destruct (Segment.IsEmpty b).
    + specialize (IH (empty + 1) used items free totalUsed).
      destruct (SegmentIO.countBlocks blocks _) as [[[[e u] i] f] t]. lia.
    + match goal with
      | |- context [SegmentIO.countBlocks blocks (?e, ?u, ?i, ?f, ?t)] =>
          specialize (IH e u i f t);
          destruct (SegmentIO.countBlocks blocks (e, u, i, f, t)) as [[[[e' u'] i'] f'] t']
      end. lia.
Qed.

Lemma last_lookup_default {A} (l : list A) (d x : A) :
  l !! (length l - 1)%nat = Some x -> l <> [] -> List.last l d = x.
Proof.
  revert d. induction l as [|a l IH]; intros d Hx Hne; [congruence|].
  destruct l as [|b l]; [simpl in *; congruence|].
  change (List.last (a :: b :: l) d) with (List.last (b :: l) d).
  apply IH; [|discriminate].
  replace (length (a :: b :: l) - 1)%nat with (S (length l)) in Hx by (simpl; lia).
  replace (length (b :: l) - 1)%nat with (length l) by (simpl; lia).
  exact Hx.
Qed.

(** The statistics of a block range account for every block read: the
    number of blocks is the size of the range, every block is counted once as
    empty or as used, the first and last block numbers are those of the
    range, and the item and free-space totals are not negative. *)
Theorem GetBlockRangeStats_totals (path : string) (content : list byte)
    (blockRange : option Segment.BlockRange) (stats : SegmentIO.BlockRangeStats) :
  SegmentIO.GetBlockRangeStats path (Some content) blockRange = inr stats ->
  let first := SegmentIO.firstBlock blockRange in
  let last := SegmentIO.lastBlock blockRange (len content / PageSize) in
  SegmentIO.TotalBlocks stats = last - first + 1
  /\ SegmentIO.EmptyBlocks stats + SegmentIO.UsedBlocks stats = SegmentIO.TotalBlocks stats
  /\ 0 <= SegmentIO.EmptyBlocks stats /\ 0 <= SegmentIO.UsedBlocks stats
  /\ SegmentIO.StartBlock stats = SegmentIO.wrap32 first
  /\ SegmentIO.EndBlock stats = SegmentIO.wrap32 last
  /\ 0 <= SegmentIO.TotalItems stats
  /\ 0 <= SegmentIO.TotalFree stats.
Proof.
  intros Hstats first last. unfold SegmentIO.GetBlockRangeStats in Hstats.
  destruct (SegmentIO.DumpBlockRange (Some content) blockRange) as [|infos] eqn:Hdump;
    [discriminate|].
  injection Hstats as <-.
  destruct (DumpBlockRange_infos content blockRange infos Hdump) as (Hb & Hl & Hlen & Hnth).
  fold first last in Hb, Hl, Hlen, Hnth.
  assert (Hinfo : forall k, 0 <= k <= last - first ->
            exists info, infos !! Z.to_nat k = Some info
                         /\ Segment.BlockNumber info = SegmentIO.wrap32 (first + k)
                         /\ 0 <= Segment.ItemCount info /\ 0 <= Segment.FreeSpace info).
  { intros k Hk. rewrite (Hnth k Hk).
    destruct (ParseBlockInfo_full_page (SegmentIO.pageAt content (first + k))
                (SegmentIO.wrap32 (first + k))) as (info & -> & Hnum & Hic & Hfs).
    { rewrite pageAt_full; lia. }
    now exists info. }
  assert (Hall : Forall (fun b => 0 <= Segment.ItemCount b /\ 0 <= Segment.FreeSpace b) infos).
  { apply Forall_lookup. intros j b Hj.
    assert (Hjr : (j < length infos)%nat) by (apply lookup_lt_is_Some; eauto).
    destruct (Hinfo (Z.of_nat j)) as (info & Hlook & _ & Hic & Hfs);
      [unfold len in Hlen; lia|].
    rewrite Nat2Z.id in Hlook. rewrite Hlook in Hj. injection Hj as <-. auto. }
  pose proof (countBlocks_totals infos 0 0 0 0 0 Hall) as Htot.
  destruct (Hinfo 0 ltac:(lia)) as (info0 & Hlook0 & Hnum0 & _).
  destruct (Hinfo (last - first) ltac:(lia)) as (infoN & HlookN & HnumN & _).
  assert (Hlast : List.last infos info0 = infoN).
  { apply last_lookup_default.
    - replace (length infos - 1)%nat with (Z.to_nat (last - first));
        [exact HlookN|unfold len in Hlen; lia].
    - intros ->. discriminate Hlook0. }
  unfold SegmentIO.statsOf.
  destruct infos as [|b0 infos']; [discriminate Hlook0|].
  cbn in Hlook0. injection Hlook0 as ->.
  destruct (SegmentIO.countBlocks (info0 :: infos') (0, 0, 0, 0, 0)) as [[[[e u] i] f] t].
  cbn [SegmentIO.TotalBlocks SegmentIO.EmptyBlocks SegmentIO.UsedBlocks SegmentIO.StartBlock
       SegmentIO.EndBlock SegmentIO.TotalItems SegmentIO.TotalFree].
  rewrite Hlast, Hnum0, HnumN, Z.add_0_r.
  replace (first + (last - first)) with last by lia.
  repeat split; lia.
Qed.

Lemma GetBlockRangeStats_totals_witness :
  exists stats,
    SegmentIO.GetBlockRangeStats "16384" (Some SegmentIO.threePages) None = inr stats
    /\ SegmentIO.TotalBlocks stats = 3
    /\ SegmentIO.EmptyBlocks stats + SegmentIO.UsedBlocks stats = 3.
Proof.
  destruct (SegmentIO.GetBlockRangeStats "16384" (Some SegmentIO.threePages) None)
    as [err|stats] eqn:Hstats; [vm_compute in Hstats; discriminate|].
  exists stats. split; [reflexivity|].
  destruct (GetBlockRangeStats_totals _ _ _ _ Hstats) as (Htotal & Hsum & _).
  rewrite Hsum, Htotal. split; vm_compute; reflexivity.
Defined.

(** ** The relation map: layout and lookups *)

Lemma readMappings_lookup (data : list byte) (n offset i : nat) :
  Z.of_nat offset + 8 * Z.of_nat n <= len data ->
  (i < n)%nat ->
  RelMap.readMappings data n offset !! i
  = Some {| RelMap.OID := Uint32_at data (offset + 8 * i);
            RelMap.Filenode := Uint32_at data (offset + 8 * i + 4) |}.
Proof.
  revert offset i. induction n as [|n IH]; intros offset i Hfit Hi; [lia|].
  cbn [RelMap.readMappings].
  destruct (Z.ltb_spec (len data) (Z.of_nat offset + 8)) as [Hlt|_]; [lia|].
  destruct i as [|i].
  - cbn [lookup list_lookup]. now rewrite Nat.mul_0_r, Nat.add_0_r.
  - etrans; [exact (IH (offset + 8)%nat i ltac:(lia) ltac:(lia))|].
    do 2 f_equal; f_equal; lia.
Qed.

(** [ParseRelMapFile] accepts exactly the buffers of at least 512 bytes that
    start with the magic number 0x592717 and whose count (a signed 32-bit
    number at offset 4) lies between 0 and 62.  It then reads mapping [i] from
    the eight bytes at offset [8 + 8 i], the oid first, and the checksum from
    offset 504; the length check inside the loop never cuts the list short. *)
Theorem ParseRelMapFile_layout (data : list byte) :
  ((exists rm, RelMap.ParseRelMapFile data = inr rm)
   <-> 512 <= len data
       /\ Uint32_at data 0 = RelMap.RelMapMagic
       /\ 0 <= int32_of_uint32 (Uint32_at data 4) <= RelMap.RelMapMaxMappings)
  /\ (forall rm, RelMap.ParseRelMapFile data = inr rm ->
       512 <= len data
       /\ Uint32_at data 0 = RelMap.RelMapMagic
       /\ RelMap.Magic rm = 0x592717
       /\ RelMap.NumMappings rm = int32_of_uint32 (Uint32_at data 4)
       /\ 0 <= RelMap.NumMappings rm <= 62
       /\ RelMap.CRC rm = Uint32_at data 504
       /\ length (RelMap.Mappings rm) = Z.to_nat (RelMap.NumMappings rm)
       /\ forall i, (i < Z.to_nat (RelMap.NumMappings rm))%nat ->
            RelMap.Mappings rm !! i
            = Some {| RelMap.OID := Uint32_at data (8 + 8 * i);
                      RelMap.Filenode := Uint32_at data (8 + 8 * i + 4) |}).
Proof.
  unfold RelMap.ParseRelMapFile.
  destruct (Z.ltb_spec (len data) 512) as [Hshort|Hlen].
  { split; [split; [intros [rm Hrm]; discriminate|intros (? & _); lia]|discriminate]. }
  destruct (Z.eqb_spec (Uint32_at data 0) RelMap.RelMapMagic) as [Hmagic|Hmagic];
    cbn [negb]; cbv iota.
  2:{ split; [split; [intros [rm Hrm]; discriminate|intros (_ & ? & _); contradiction]|
              discriminate]. }
  set (num := int32_of_uint32 (Uint32_at data 4)).
  destruct (Z.ltb_spec num 0) as [Hneg|Hlo]; cbn [orb]; cbv iota.
  { split; [split; [intros [rm Hrm]; discriminate|intros (_ & _ & ? & _); lia]|discriminate]. }
  destruct (Z.ltb_spec RelMap.RelMapMaxMappings num) as [Hmany|Hhi]; cbv iota.
  { split; [split; [intros [rm Hrm]; discriminate|intros (_ & _ & _ & ?); lia]|discriminate]. }
  split; [split; [intros _; auto|intros _; eexists; reflexivity]|].
  intros rm [= <-].
  cbn [RelMap.Magic RelMap.NumMappings RelMap.CRC RelMap.Mappings].
  unfold RelMap.RelMapMaxMappings in *.
  split; [exact Hlen|]. split; [exact Hmagic|]. split; [exact Hmagic|].
  split; [reflexivity|]. split; [lia|].
  change (8 + 62 * 8 + 4) with 508. change (Z.to_nat (8 + 62 * 8)) with 504%nat.
  destruct (Z.leb_spec 508 (len data)); [|lia]. split; [reflexivity|].
  split; [apply readMappings_length; lia|].
  intros i Hi. apply readMappings_lookup; lia.
Qed.

Lemma ParseRelMapFile_layout_witness :
  exists rm,
    RelMap.ParseRelMapFile (RelMap.mapFile 2 RelMap.testPairs) = inr rm
    /\ RelMap.Mappings rm !! 1%nat = Some {| RelMap.OID := 1259; RelMap.Filenode := 16384 |}.
Proof.
  destruct (ParseRelMapFile_layout (RelMap.mapFile 2 RelMap.testPairs)) as [Haccept Hread].
  destruct (proj2 Haccept) as [rm Hrm].
  { split; [vm_compute; discriminate|]. split; [vm_compute; reflexivity|].
    split; vm_compute; discriminate. }
  exists rm. split; [exact Hrm|].
  destruct (Hread rm Hrm) as (_ & _ & _ & Hnum & _ & _ & _ & Hnth).
  rewrite (Hnth 1%nat); [vm_compute; reflexivity|].
  rewrite Hnum. vm_compute. lia.
Defined.

Lemma lookup_In {A} (l : list A) (i : nat) (x : A) : l !! i = Some x -> In x l.
Proof.
  revert i. induction l as [|a l IH]; intros [|i] H; try discriminate.
  - injection H as ->. now left.
  - right. exact (IH i H).
Qed.

(** The first mapping with a given oid, when there is one. *)
Lemma lookupFilenode_found (ms : list RelMap.RelMapping) (oid : Z) :
  (exists i m,
      ms !! i = Some m /\ RelMap.OID m = oid
      /\ RelMap.lookupFilenode ms oid = RelMap.Filenode m
      /\ forall j m', (j < i)%nat -> ms !! j = Some m' -> RelMap.OID m' <> oid)
  \/ (RelMap.lookupFilenode ms oid = 0
      /\ forall m, In m ms -> RelMap.OID m <> oid).
Proof.
  induction ms as [|m0 ms IH].
  - right. split; [reflexivity|]. intros m [].
  - cbn [RelMap.lookupFilenode].
    destruct (Z.eqb_spec (RelMap.OID m0) oid) as [Heq|Hne].
    + left. exists 0%nat, m0. repeat split; auto. intros j m' Hj. lia.
    + destruct IH as [(i & m & Hi & Hoid & Hres & Hfirst)|[Hres Hnone]].
      * left. exists (S i), m. repeat split; auto.
        intros [|j] m' Hj Hm'.
        -- injection Hm' as <-. exact Hne.
        -- apply (Hfirst j m'); [lia|exact Hm'].
      * right. split; [exact Hres|]. intros m [<-|Hin]; auto.
Qed.

Lemma lookupOID_found (ms : list RelMap.RelMapping) (filenode : Z) :
  (exists i m,
      ms !! i = Some m /\ RelMap.Filenode m = filenode
      /\ RelMap.lookupOID ms filenode = RelMap.OID m
      /\ forall j m', (j < i)%nat -> ms !! j = Some m' -> RelMap.Filenode m' <> filenode)
  \/ (RelMap.lookupOID ms filenode = 0
      /\ forall m, In m ms -> RelMap.Filenode m <> filenode).
Proof.
  induction ms as [|m0 ms IH].
  - right. split; [reflexivity|]. intros m [].
  - cbn [RelMap.lookupOID].
    destruct (Z.eqb_spec (RelMap.Filenode m0) filenode) as [Heq|Hne].
    + left. exists 0%nat, m0. repeat split; auto. intros j m' Hj. lia.
    + destruct IH as [(i & m & Hi & Hfn & Hres & Hfirst)|[Hres Hnone]].
      * left. exists (S i), m. repeat split; auto.
        intros [|j] m' Hj Hm'.
        -- injection Hm' as <-. exact Hne.
        -- apply (Hfirst j m'); [lia|exact Hm'].
      * right. split; [exact Hres|]. intros m [<-|Hin]; auto.
Qed.

(** The lookups invent nothing: a non-zero answer of [GetFilenode] is the
    filenode of a mapping of the file with the oid asked for, a non-zero
    answer of [GetOID] the oid of a mapping with the filenode asked for, and
    when no mapping has the key the answer is 0. *)
Theorem relmap_lookup_sound (rm : RelMap.RelMapFile) (key : Z) :
  (RelMap.GetFilenode rm key <> 0 ->
   In {| RelMap.OID := key; RelMap.Filenode := RelMap.GetFilenode rm key |}
      (RelMap.Mappings rm))
  /\ (RelMap.GetOID rm key <> 0 ->
      In {| RelMap.OID := RelMap.GetOID rm key; RelMap.Filenode := key |}
         (RelMap.Mappings rm))
  /\ ((forall m, In m (RelMap.Mappings rm) -> RelMap.OID m <> key) ->
      RelMap.GetFilenode rm key = 0)
  /\ ((forall m, In m (RelMap.Mappings rm) -> RelMap.Filenode m <> key) ->
      RelMap.GetOID rm key = 0).
Proof.
  unfold RelMap.GetFilenode, RelMap.GetOID. repeat split.
  - intros Hnz.
    destruct (lookupFilenode_found (RelMap.Mappings rm) key)
      as [(i & m & Hi & Hoid & Hres & _)|[Hres _]]; [|congruence].
    rewrite Hres, <- Hoid. destruct m as [o f]. exact (lookup_In _ _ _ Hi).
  - intros Hnz.
    destruct (lookupOID_found (RelMap.Mappings rm) key)
      as [(i & m & Hi & Hfn & Hres & _)|[Hres _]]; [|congruence].
    rewrite Hres, <- Hfn. destruct m as [o f]. exact (lookup_In _ _ _ Hi).
  - intros Hno.
    destruct (lookupFilenode_found (RelMap.Mappings rm) key)
      as [(i & m & Hi & Hoid & _)|[Hres _]]; [|exact Hres].
    exfalso. exact (Hno m (lookup_In _ _ _ Hi) Hoid).
  - intros Hno.
    destruct (lookupOID_found (RelMap.Mappings rm) key)
      as [(i & m & Hi & Hfn & _)|[Hres _]]; [|exact Hres].
    exfalso. exact (Hno m (lookup_In _ _ _ Hi) Hfn).
Qed.

Lemma relmap_lookup_sound_witness :
  In {| RelMap.OID := 1259; RelMap.Filenode := 16384 |}
     (RelMap.Mappings (RelMap.parsedMap RelMap.testPairs))
  /\ RelMap.GetFilenode (RelMap.parsedMap RelMap.testPairs) 9999 = 0.
Proof.
  destruct (relmap_lookup_sound (RelMap.parsedMap RelMap.testPairs) 1259) as (Hf & _).
  destruct (relmap_lookup_sound (RelMap.parsedMap RelMap.testPairs) 9999) as (_ & _ & Hmiss & _).
  split.
  - apply Hf. vm_compute. discriminate.
  - apply Hmiss. intros m Hin. cbn in Hin.
    destruct Hin as [<-|[<-|[]]]; cbn; lia.
Defined.

(** Looking a filenode up again gives the oid back: when no two mappings of
    the file share a filenode and the oid [oid] has a mapping, [GetOID]
    applied to [GetFilenode oid] is [oid]. *)
Theorem relmap_round_trip (rm : RelMap.RelMapFile) (oid : Z) :
  NoDup (map RelMap.Filenode (RelMap.Mappings rm)) ->
  In oid (map RelMap.OID (RelMap.Mappings rm)) ->
  RelMap.GetOID rm (RelMap.GetFilenode rm oid) = oid.
Proof.
  intros Hnodup Hin. unfold RelMap.GetFilenode, RelMap.GetOID.
  destruct (lookupFilenode_found (RelMap.Mappings rm) oid)
    as [(i & m & Hi & Hoid & Hres & _)|[_ Hnone]].
  - rewrite Hres, <- Hoid. apply (lookupOID_first _ i); [exact Hi|].
    intros j m' Hj Hm' Heq.
    assert (Hij : j = i); [|lia].
    apply (NoDup_lookup _ j i (RelMap.Filenode m) Hnodup).
    + change (map RelMap.Filenode (RelMap.Mappings rm)) with (RelMap.Filenode <$> RelMap.Mappings rm).
      rewrite list_lookup_fmap, Hm'. cbn. now rewrite Heq.
    + change (map RelMap.Filenode (RelMap.Mappings rm)) with (RelMap.Filenode <$> RelMap.Mappings rm).
      now rewrite list_lookup_fmap, Hi.
  - exfalso. apply List.in_map_iff in Hin as (m & Hoid & Hm). exact (Hnone m Hm Hoid).
Qed.

Lemma relmap_round_trip_witness :
  RelMap.GetOID (RelMap.parsedMap RelMap.testPairs)
    (RelMap.GetFilenode (RelMap.parsedMap RelMap.testPairs) 1259) = 1259.
Proof.
  apply relmap_round_trip.
  - cbn. constructor.
    + intros H. apply list_elem_of_singleton in H. discriminate.
    + constructor; [intros H; inversion H|constructor].
  - cbn. right. left. reflexivity.
Defined.

(** ** Block references of a WAL record *)

Lemma byteAt_range (data : list byte) (i : Z) : 0 <= byteAt data i <= 255.
Proof.
  unfold byteAt. destruct (data !! Z.to_nat i) as [b|]; [|lia].
  pose proof (byteZ_range b). lia.
Qed.

Lemma Uint16_at_nonneg (data : list byte) (a : nat) : 0 <= Uint16_at data a.
Proof. apply le_decode_nonneg. Qed.

Lemma Uint32_at_nonneg (data : list byte) (a : nat) : 0 <= Uint32_at data a.
Proof. apply le_decode_nonneg. Qed.

Lemma land_15 (x : Z) : 0 <= x -> Z.land x 15 = x mod 16.
Proof. intros Hx. change 15 with (Z.ones 4). now rewrite Z.land_ones by lia. Qed.

(** Every iteration of the loop of [parseBlockRefs] that yields a reference
    advances by at least two bytes, and the references it yields carry a
    block id of at most 32 and a fork number below 16. *)
Lemma blockRefsLoop_bounds (fuel : nat) (data : list byte) (pos : Z) :
  0 <= pos ->
  2 * len (Wal.blockRefsLoop fuel data pos) <= Z.max 0 (len data - pos)
  /\ Forall (fun b => 0 <= Wal.ID b <= 32
                      /\ 0 <= Wal.Flags b <= 255
                      /\ Wal.ForkNum b = Wal.Flags b mod 16
                      /\ (Wal.RelFileNode_ b <> None -> Z.land (Wal.Flags b) 0x40 = 0))
            (Wal.blockRefsLoop fuel data pos).
Proof.
  assert (Hnil : forall p, 2 * len (@nil Wal.WALBlockRef) <= Z.max 0 (len data - p)).
  { intros p. change (len (@nil Wal.WALBlockRef)) with 0. lia. }
  revert pos. induction fuel as [|fuel IH]; intros pos Hpos.
  - cbn. split; [apply Hnil|constructor].
  - cbn [Wal.blockRefsLoop].
    destruct (Z.ltb_spec pos (len data)) as [Hin|]; cbn [negb];
      [|split; [apply Hnil|constructor]].
    destruct (Z.ltb_spec (len data) (pos + 1)); [split; [apply Hnil|constructor]|].
    destruct ((byteAt data pos =? 255) || (byteAt data pos =? 254));
      [split; [apply Hnil|constructor]|].
    destruct (Z.ltb_spec 32 (byteAt data pos)) as [|Hid]; [split; [apply Hnil|constructor]|].
    destruct (Z.ltb_spec (len data) (pos + 1 + 1)) as [|Hff]; [split; [apply Hnil|constructor]|].
    match goal with |- context [Wal.blockRefsLoop fuel data ?p] => set (p' := p) end.
    assert (Hp : pos + 2 <= p').
    { subst p'.
      repeat match goal with
             | |- context [Uint16_at data ?a] =>
                 let H := fresh "Hu" in
                 pose proof (Uint16_at_nonneg data a) as H;
                 generalize dependent (Uint16_at data a); intros
             end.
      repeat match goal with
             | |- context [if ?c then _ else _] => destruct c
             end; lia. }
    clearbody p'.
    destruct (IH p' ltac:(lia)) as [Hcount Hall].
    split; [rewrite len_cons; lia|].
    constructor; [|exact Hall].
    cbn [Wal.ID Wal.Flags Wal.ForkNum Wal.RelFileNode_].
    pose proof (byteAt_range data pos). pose proof (byteAt_range data (pos + 1)) as Hflags.
    split; [lia|]. split; [lia|]. split; [apply land_15; lia|].
    destruct (Z.eqb_spec (Z.land (byteAt data (pos + 1)) 64) 0) as [Hz|_]; [intros _; exact Hz|].
    cbn [negb andb]. intros Hrel. congruence.
Qed.

(** The block references [parseBlockRefs] finds in the body of a record are
    at most one for every two bytes of the body; each has a block id between
    0 and 32 (the markers 0xFE and 0xFF end the list), a fork number that is
    the low four bits of its flag byte, and a relation only when the
    same-relation flag 0x40 is clear. *)
Theorem parseBlockRefs_bounds (data : list byte) :
  2 * len (Wal.parseBlockRefs data) <= len data
  /\ Forall (fun b => 0 <= Wal.ID b <= 32
                      /\ 0 <= Wal.ForkNum b <= 15
                      /\ Wal.ForkNum b = Wal.Flags b mod 16
                      /\ (Wal.RelFileNode_ b <> None -> Z.land (Wal.Flags b) 0x40 = 0))
            (Wal.parseBlockRefs data).
Proof.
  unfold Wal.parseBlockRefs.
  destruct (blockRefsLoop_bounds (length data) data 0 ltac:(lia)) as [Hcount Hall].
  split; [pose proof (len_nonneg data); lia|].
  eapply Forall_impl; [exact Hall|].
  intros b (Hid & Hflags & Hfork & Hrel).
  split; [exact Hid|]. split; [|split; [exact Hfork|exact Hrel]].
  rewrite Hfork. pose proof (Z.mod_pos_bound (Wal.Flags b) 16 ltac:(lia)). lia.
Qed.

(** ** Records of a WAL page and of a WAL file *)

Lemma wrap64_small (x : Z) : 0 <= x < 2 ^ 64 -> wrap64 x = x.
Proof. intros H. unfold wrap64. now apply Z.mod_small. Qed.

(** A little-endian read inside a slice is a read of the whole buffer. *)
Lemma le_at_slice (data : list byte) (start size a n : nat) :
  (a + n <= size)%nat ->
  le_at (take size (drop start data)) a n = le_at data (start + a) n.
Proof.
  intros Hfit. unfold le_at. rewrite take_drop_take by lia. now rewrite drop_drop.
Qed.

Lemma le_at_drop (data : list byte) (start a n : nat) :
  le_at (drop start data) a n = le_at data (start + a) n.
Proof. unfold le_at. now rewrite drop_drop. Qed.

Lemma parseXLogRecord_some (data : list byte) (lsn consumed : Z) (r : Wal.WALRecord) :
  Wal.parseXLogRecord data lsn = (Some r, consumed) ->
  consumed = Wal.TotalLen r
  /\ 24 <= Wal.TotalLen r <= 16384
  /\ Wal.TotalLen r = Uint32_at data 0
  /\ Wal.LSN r = lsn
  /\ 24 <= len data.
Proof.
  unfold Wal.parseXLogRecord.
  destruct (Z.ltb_spec (len data) Wal.XLogRecordSize); [discriminate|].
  destruct (Z.ltb_spec (Uint32_at data 0) Wal.XLogRecordSize); [discriminate|].
  destruct (Z.ltb_spec (Wal.WALPageSize * 2) (Uint32_at data 0)); [discriminate|].
  cbn [orb]. cbv iota. intros [= <- <-]. cbn [Wal.TotalLen Wal.LSN].
  unfold Wal.XLogRecordSize, Wal.WALPageSize in *. repeat split; lia.
Qed.

(** The records of the loop of [parseWALPage] entered at an aligned position:
    each starts at an aligned position with its 24-byte header inside the
    page, and each starts after the end of the one before. *)
Lemma recordsLoop_spans (fuel : nat) (data : list byte) (baseOffset pos : Z)
    (records : list Wal.WALRecord) :
  0 <= pos -> pos mod 8 = 0 -> 0 <= baseOffset -> baseOffset + len data < 2 ^ 64 ->
  Wal.recordsLoop fuel data baseOffset pos = Ret records ->
  Forall (fun r => 24 <= Wal.TotalLen r <= 16384
                   /\ baseOffset + pos <= Wal.LSN r
                   /\ (Wal.LSN r - baseOffset) mod 8 = 0
                   /\ Wal.LSN r - baseOffset + 24 <= len data
                   /\ Wal.TotalLen r = Uint32_at data (Z.to_nat (Wal.LSN r - baseOffset)))
         records
  /\ StronglySorted (fun r r' => Wal.LSN r + Wal.TotalLen r <= Wal.LSN r') records.
Proof.
  revert pos records. induction fuel as [|fuel IH]; intros pos records Hpos Hal Hbase Hfit;
    [discriminate|].
  cbn [Wal.recordsLoop].
  destruct (Z.ltb_spec (len data) (pos + Wal.XLogRecordSize)) as [|Hin];
    [intros [= <-]; split; constructor|].
  destruct (Wal.isZeroPadding _); [intros [= <-]; split; constructor|].
  destruct (Wal.parseXLogRecord (drop (Z.to_nat pos) data) (wrap64 (baseOffset + pos)))
    as [rec consumed] eqn:Hparse.
  destruct rec as [r|].
  - apply parseXLogRecord_some in Hparse as (-> & Hlen & Htotal & Hlsn & _).
    unfold Wal.XLogRecordSize in Hin.
    rewrite wrap64_small in Hlsn by lia.
    destruct (Z.eqb_spec (Wal.TotalLen r) 0); [lia|].
    pose proof (align8_bounds (pos + Wal.TotalLen r)) as [Hnext Hnal].
    destruct (Wal.recordsLoop fuel data baseOffset (Wal.align8 (pos + Wal.TotalLen r)))
      as [rest| |] eqn:Hrest; try discriminate.
    rewrite bind_Ret. intros [= <-].
    destruct (IH (Wal.align8 (pos + Wal.TotalLen r)) rest ltac:(lia) Hnal Hbase Hfit Hrest)
      as [Hall Hsorted].
    split.
    + constructor.
      * rewrite Hlsn. replace (baseOffset + pos - baseOffset) with pos by lia.
        repeat split; try lia.
        rewrite Htotal. unfold Uint32_at. rewrite le_at_drop. f_equal. lia.
      * eapply Forall_impl; [exact Hall|]. cbv beta. intros r' H. lia.
    + constructor; [exact Hsorted|].
      eapply Forall_impl; [exact Hall|]. cbv beta. intros r' H. lia.
  - destruct (parseXLogRecord_consumed (drop (Z.to_nat pos) data) (wrap64 (baseOffset + pos)))
      as [Hnone|(r & Hsome & _)]; [|congruence].
    rewrite Hparse in Hnone. injection Hnone as ->. cbn [Z.eqb].
    intros [= <-]. split; constructor.
Qed.

Lemma headerSizeOf_values (header : Wal.WALPageHeader) :
  Wal.headerSizeOf header = 24 \/ Wal.headerSizeOf header = 40.
Proof.
  unfold Wal.headerSizeOf. destruct (negb _); [right|left]; reflexivity.
Qed.

Lemma firstRecordPos_aligned (data : list byte) :
  let pos := Wal.firstRecordPos (Wal.parsePageHeader data) in
  24 <= pos /\ pos mod 8 = 0.
Proof.
  cbv zeta. unfold Wal.firstRecordPos.
  destruct (headerSizeOf_values (Wal.parsePageHeader data)) as [Hh|Hh]; rewrite Hh.
  all: pose proof (Uint32_at_nonneg data 16) as Hrem.
  all: change (Wal.RemLen (Wal.parsePageHeader data)) with (Uint32_at data 16).
  all: destruct (andb _ _); [|split; [lia|reflexivity]].
  all: match goal with |- context [Wal.align8 ?n] => pose proof (align8_bounds n) as [Hb Hm] end.
  all: split; [lia|exact Hm].
Qed.

(** [parseWALPage] always returns: with an error for a page under 24 bytes or
    with an unknown magic number, with the records of the page otherwise. *)
Lemma parseWALPage_outcome (data : list byte) (baseOffset pageNum : Z) :
  (Wal.parseWALPage data baseOffset pageNum = Ret (inl Wal.PageTooSmall)
   /\ len data < 24)
  \/ (Wal.parseWALPage data baseOffset pageNum
      = Ret (inl (Wal.InvalidMagic (Uint16_at data 0)))
      /\ 24 <= len data /\ Wal.isValidMagic (Uint16_at data 0) = false)
  \/ (exists records,
        Wal.parseWALPage data baseOffset pageNum = Ret (inr records)
        /\ Wal.recordsLoop (S (length data)) data baseOffset
             (Wal.firstRecordPos (Wal.parsePageHeader data)) = Ret records
        /\ 24 <= len data /\ Wal.isValidMagic (Uint16_at data 0) = true).
Proof.
  unfold Wal.parseWALPage.
  destruct (Z.ltb_spec (len data) Wal.ShortHeaderSize) as [Hshort|Hlen];
    [left; split; [reflexivity|exact Hshort]|].
  unfold Wal.ShortHeaderSize in Hlen.
  change (Wal.Magic (Wal.parsePageHeader data)) with (Uint16_at data 0).
  destruct (Wal.isValidMagic (Uint16_at data 0)) eqn:Hmagic; cbn [negb].
  - right. right.
    pose proof (firstRecordPos_aligned data) as [Hpos _].
    destruct (recordsLoop_terminates data baseOffset (length data)
                (Wal.firstRecordPos (Wal.parsePageHeader data))) as [records Hrec].
    { unfold len. lia. }
    exists records. rewrite Hrec. repeat split; auto.
  - right. left. repeat split; auto.
Qed.

(** The records [parseWALPage] returns for a page lie inside the page and do
    not overlap: the page offset of each ([LSN] minus the base offset of the
    page) is a multiple of 8 at or after the 24-byte page header, the 24-byte
    record header fits before the end of the page, the total length is the
    32-bit number stored at that offset and lies between 24 and 16384, and
    each record starts at or after the end of the one before it.  The
    function returns for every page. *)
Theorem parseWALPage_records (data : list byte) (baseOffset pageNum : Z) :
  0 <= baseOffset -> baseOffset + len data < 2 ^ 64 ->
  exists outcome,
    Wal.parseWALPage data baseOffset pageNum = Ret outcome
    /\ forall records, outcome = inr records ->
         Forall (fun r => 24 <= Wal.TotalLen r <= 16384
                          /\ baseOffset + 24 <= Wal.LSN r
                          /\ (Wal.LSN r - baseOffset) mod 8 = 0
                          /\ Wal.LSN r - baseOffset + 24 <= len data
                          /\ Wal.TotalLen r
                             = Uint32_at data (Z.to_nat (Wal.LSN r - baseOffset)))
                records
         /\ StronglySorted (fun r r' => Wal.LSN r + Wal.TotalLen r <= Wal.LSN r') records.
Proof.
  intros Hbase Hfit.
  destruct (parseWALPage_outcome data baseOffset pageNum)
    as [[-> _]|[[-> _]|(records & -> & Hloop & _)]].
  - eexists. split; [reflexivity|]. discriminate.
  - eexists. split; [reflexivity|]. discriminate.
  - eexists. split; [reflexivity|]. intros ? [= <-].
    pose proof (firstRecordPos_aligned data) as [Hpos Hal].
    destruct (recordsLoop_spans _ data baseOffset (Wal.firstRecordPos (Wal.parsePageHeader data))
                records ltac:(lia) Hal Hbase Hfit Hloop) as [Hall Hsorted].
    split; [|exact Hsorted].
    eapply Forall_impl; [exact Hall|]. cbv beta. intros r H. repeat split; lia.
Qed.

Lemma parseWALPage_records_witness :
  exists outcome,
    Wal.parseWALPage Wal.contPage 8192 1 = Ret outcome
    /\ outcome = inr [Wal.contRecord].
Proof.
  destruct (parseWALPage_records Wal.contPage 8192 1) as (outcome & Hrun & _);
    [lia|vm_compute; reflexivity|].
  exists outcome. split; [exact Hrun|].
  assert (Heval : Wal.parseWALPage Wal.contPage 8192 1 = Ret (inr [Wal.contRecord]))
    by (vm_compute; reflexivity).
  congruence.
Defined.

(** [parseWALPage] accepts a page exactly when it has at least 24 bytes and
    its magic number is one [pgVersionFromMagic] knows a version for. *)
Theorem parseWALPage_accepts (data : list byte) (baseOffset pageNum : Z) :
  (exists records, Wal.parseWALPage data baseOffset pageNum = Ret (inr records))
  <-> 24 <= len data
      /\ WalDir.pgVersionFromMagic (Uint16_at data 0) <> "unknown"%string.
Proof.
  assert (Hversion : forall magic,
            Wal.isValidMagic magic = true
            <-> WalDir.pgVersionFromMagic magic <> "unknown"%string).
  { intros magic. unfold Wal.isValidMagic, WalDir.pgVersionFromMagic.
    destruct (magic =? Wal.WAL_MAGIC_16); [split; [discriminate|reflexivity]|].
    destruct (magic =? Wal.WAL_MAGIC_15); [split; [discriminate|reflexivity]|].
    destruct (magic =? Wal.WAL_MAGIC_14); [split; [discriminate|reflexivity]|].
    destruct (magic =? Wal.WAL_MAGIC_13); [split; [discriminate|reflexivity]|].
    destruct (magic =? Wal.WAL_MAGIC_12); [split; [discriminate|reflexivity]|].
    cbn. split; [discriminate|congruence]. }
  destruct (parseWALPage_outcome data baseOffset pageNum)
    as [[Hrun Hlen]|[(Hrun & Hlen & Hmagic)|(records & Hrun & _ & Hlen & Hmagic)]].
  - split; [intros [records Hr]; congruence|intros [H _]; lia].
  - split; [intros [records Hr]; congruence|].
    intros [_ Hv]. apply Hversion in Hv. congruence.
  - split; [intros _|intros _; now exists records].
    split; [exact Hlen|]. now apply Hversion.
Qed.

Lemma StronglySorted_app {A} (R : A -> A -> Prop) (l1 l2 : list A) :
  StronglySorted R l1 -> StronglySorted R l2 ->
  (forall x y, In x l1 -> In y l2 -> R x y) ->
  StronglySorted R (l1 ++ l2).
Proof.
  intros H1 H2 Hcross. induction H1 as [|a l1 Hs IH Hall]; [exact H2|].
  cbn. constructor.
  - apply IH. intros x y Hx Hy. apply Hcross; [now right|exact Hy].
  - apply List.Forall_forall. intros y Hy. apply List.in_app_or in Hy as [Hy|Hy].
    + rewrite List.Forall_forall in Hall. now apply Hall.
    + apply Hcross; [now left|exact Hy].
Qed.

Lemma StronglySorted_weaken {A} (R R' : A -> A -> Prop) (P : A -> Prop) (l : list A) :
  StronglySorted R l -> Forall P l ->
  (forall x y, P x -> R x y -> R' x y) ->
  StronglySorted R' l.
Proof.
  intros Hs Hall Himp. induction Hs as [|a l Hs IH Ha]; [constructor|].
  apply Forall_cons_1 in Hall as [Hpa Hall].
  constructor; [now apply IH|].
  eapply Forall_impl; [exact Ha|]. intros y Hy. now apply Himp.
Qed.

(** The page loop of [ParseWALFile] over [n] whole pages from [offset]. *)
Lemma pagesLoop_spans (n : nat) (data : list byte) (offset pageNum : Z) :
  0 <= offset -> offset mod 8 = 0 ->
  offset + Z.of_nat n * 8192 <= len data -> len data < 2 ^ 63 ->
  exists records,
    Wal.pagesLoop n data offset pageNum = Ret records
    /\ Forall (fun r => 24 <= Wal.TotalLen r <= 16384
                        /\ offset + 24 <= Wal.LSN r
                        /\ Wal.LSN r mod 8 = 0
                        /\ Wal.LSN r + 24 <= len data
                        /\ Wal.TotalLen r = Uint32_at data (Z.to_nat (Wal.LSN r)))
              records
    /\ StronglySorted (fun r r' => Wal.LSN r < Wal.LSN r') records.
Proof.
  revert offset pageNum. induction n as [|n IH]; intros offset pageNum Hoff Hal Hfit Hmax.
  - exists []. split; [reflexivity|]. split; constructor.
  - cbn [Wal.pagesLoop]. unfold Wal.WALPageSize.
    set (pageData := take (Z.to_nat 8192) (drop (Z.to_nat offset) data)).
    assert (Hpage : len pageData = 8192) by (apply len_take_drop; lia).
    rewrite wrap64_small by lia.
    assert (Hnext : (offset + 8192) mod 8 = 0).
    { rewrite <- Z.add_mod_idemp_l, Hal by lia. reflexivity. }
    destruct (parseWALPage_outcome pageData offset pageNum)
      as [[-> _]|[[-> _]|(pageRecords & -> & Hloop & _)]]; rewrite bind_Ret.
    1,2: destruct (IH (offset + 8192) pageNum ltac:(lia) Hnext ltac:(lia) Hmax)
           as (records & -> & Hall & Hsorted);
         exists records; split; [reflexivity|]; split; [|exact Hsorted];
         eapply Forall_impl; [exact Hall|]; cbv beta; intros r H; repeat split; lia.
    destruct (IH (offset + 8192) (pageNum + 1) ltac:(lia) Hnext ltac:(lia) Hmax)
      as (rest & -> & Hall & Hsorted).
    rewrite bind_Ret. exists (pageRecords ++ rest). split; [reflexivity|].
    pose proof (firstRecordPos_aligned pageData) as [Hpos Hposal].
    destruct (recordsLoop_spans _ pageData offset (Wal.firstRecordPos (Wal.parsePageHeader pageData))
                pageRecords ltac:(lia) Hposal Hoff ltac:(lia) Hloop)
      as [Hpall Hpsorted].
    rewrite Hpage in Hpall.
    assert (Hpall' : Forall (fun r => (24 <= Wal.TotalLen r <= 16384
                        /\ offset + 24 <= Wal.LSN r
                        /\ Wal.LSN r mod 8 = 0
                        /\ Wal.LSN r + 24 <= len data
                        /\ Wal.TotalLen r = Uint32_at data (Z.to_nat (Wal.LSN r)))
                        /\ Wal.LSN r + 24 <= offset + 8192) pageRecords).
    { eapply Forall_impl; [exact Hpall|]. cbv beta.
      intros r (Hlen & Hlo & Hmod & Hhi & Htotal).
      assert (Hlsnal : Wal.LSN r mod 8 = 0).
      { replace (Wal.LSN r) with ((Wal.LSN r - offset) + offset) by lia.
        rewrite Z.add_mod, Hmod, Hal by lia. reflexivity. }
      repeat split; try lia.
      rewrite Htotal. unfold Uint32_at, pageData. rewrite le_at_slice by lia.
      f_equal. lia. }
    split.
    + apply Forall_app. split.
      * eapply Forall_impl; [exact Hpall'|]. cbv beta. intros r [H _]. exact H.
      * eapply Forall_impl; [exact Hall|]. cbv beta. intros r H. repeat split; lia.
    + apply StronglySorted_app; [| exact Hsorted |].
      * apply (StronglySorted_weaken _ _ _ _ Hpsorted Hpall').
        cbv beta. intros x y Hx Hxy. lia.
      * intros x y Hx Hy.
        rewrite List.Forall_forall in Hpall', Hall.
        specialize (Hpall' x Hx). specialize (Hall y Hy). lia.
Qed.


(** [ParseWALFile] fails only on a file under 40 bytes.  Otherwise it returns
    the records of the whole pages of the file, in strictly increasing order
    of [LSN]; the [LSN] of a record is the file offset of its header, a
    multiple of 8 with the 24 header bytes inside the file, and its total
    length is the 32-bit number stored there, between 24 and 16384.  A file
    of less than one page has no records. *)
Theorem ParseWALFile_records (data : list byte) :
  len data < 2 ^ 63 ->
  (len data < 40 -> Wal.ParseWALFile data = Ret (inl Wal.FileTooSmall))
  /\ (40 <= len data ->
      exists records,
        Wal.ParseWALFile data = Ret (inr records)
        /\ (len data < 8192 -> records = [])
        /\ Forall (fun r => 24 <= Wal.LSN r
                            /\ Wal.LSN r mod 8 = 0
                            /\ Wal.LSN r + 24 <= len data
                            /\ Wal.TotalLen r = Uint32_at data (Z.to_nat (Wal.LSN r))
                            /\ 24 <= Wal.TotalLen r <= 16384)
                  records
        /\ StronglySorted (fun r r' => Wal.LSN r < Wal.LSN r') records).
Proof.
  intros Hmax. unfold Wal.ParseWALFile, Wal.LongHeaderSize, Wal.WALPageSize. split.
  - intros Hshort. destruct (Z.ltb_spec (len data) 40); [reflexivity|lia].
  - intros Hlen. destruct (Z.ltb_spec (len data) 40); [lia|].
    pose proof (Z.mul_div_le (len data) 8192 ltac:(lia)) as Hpages.
    pose proof (Z.div_pos (len data) 8192 ltac:(lia) ltac:(lia)) as Hnonneg.
    destruct (pagesLoop_spans (Z.to_nat (len data / 8192)) data 0 0
                ltac:(lia) eq_refl ltac:(lia) Hmax) as (records & Hrun & Hall & Hsorted).
    exists records. rewrite Hrun, bind_Ret. split; [reflexivity|]. split; [|split].
    + intros Hsmall. rewrite Z.div_small in Hrun by lia.
      change (Z.to_nat 0) with 0%nat in Hrun. cbn [Wal.pagesLoop] in Hrun.
      injection Hrun as <-. reflexivity.
    + eapply Forall_impl; [exact Hall|]. cbv beta. intros r Hr. repeat split; lia.
    + exact Hsorted.
Qed.

Lemma ParseWALFile_records_witness :
  exists records,
    Wal.ParseWALFile WalDir.twoPages = Ret (inr records)
    /\ StronglySorted (fun r r' => Wal.LSN r < Wal.LSN r') records.
Proof.
  destruct (ParseWALFile_records WalDir.twoPages) as [_ Hok]; [vm_compute; reflexivity|].
  destruct Hok as (records & Hrun & _ & _ & Hsorted); [vm_compute; discriminate|].
  exists records. split; [exact Hrun|exact Hsorted].
Defined.

(** ** The most recent WAL records *)

Lemma pagesLoop_total (n : nat) (data : list byte) (offset pageNum : Z) :
  exists records, Wal.pagesLoop n data offset pageNum = Ret records.
Proof.
  revert offset pageNum. induction n as [|n IH]; intros offset pageNum; [now exists []|].
  cbn [Wal.pagesLoop].
  match goal with |- context [Wal.parseWALPage ?page ?base pageNum] =>
    destruct (parseWALPage_outcome page base pageNum)
      as [[-> _]|[[-> _]|(pageRecords & -> & _)]]
  end; rewrite bind_Ret.
  - apply IH.
  - apply IH.
  - destruct (IH (offset + Wal.WALPageSize) (pageNum + 1)) as [rest ->].
    rewrite bind_Ret. now eexists.
Qed.

Lemma ParseWALFile_total (data : list byte) :
  exists outcome, Wal.ParseWALFile data = Ret outcome.
Proof.
  unfold Wal.ParseWALFile. destruct (len data <? Wal.LongHeaderSize); [now eexists|].
  destruct (pagesLoop_total (Z.to_nat (len data / Wal.WALPageSize)) data 0 0) as [records ->].
  rewrite bind_Ret. now eexists.
Qed.

(** One visit of the loop of [GetRecentWALRecords] puts the records of the
    file in front of those collected so far. *)
Lemma recentLoop_step (file : option (list byte)) (older : list (option (list byte)))
    (limit : Z) (allRecords : list Wal.WALRecord) :
  len allRecords < limit ->
  WalDir.recentLoop (file :: older) limit allRecords
  = WalDir.recentLoop older limit (WalDir.fileRecords file ++ allRecords).
Proof.
  intros Hlt. cbn [WalDir.recentLoop].
  destruct (Z.ltb_spec (len allRecords) limit); [|lia].
  destruct file as [data|]; [|reflexivity].
  unfold WalDir.fileRecords.
  destruct (ParseWALFile_total data) as [[err|records] ->]; reflexivity.
Qed.

(** What the loop has collected when it stops: a suffix of the records of all
    the files it was given, in front of the records it started with; either
    the whole of them, or enough to reach the limit. *)
Lemma recentLoop_suffix (newestFirst : list (option (list byte))) (limit : Z)
    (allRecords : list Wal.WALRecord) :
  let every := concat (map WalDir.fileRecords (rev newestFirst)) in
  exists k,
    (k <= length every)%nat
    /\ WalDir.recentLoop newestFirst limit allRecords = Ret (drop k every ++ allRecords)
    /\ (k = 0%nat \/ limit <= len (drop k every ++ allRecords)).
Proof.
  cbv zeta. revert allRecords. induction newestFirst as [|file older IH]; intros allRecords.
  - exists 0%nat. cbn. auto.
  - cbn [rev]. rewrite map_app, concat_app. cbn [map concat]. rewrite app_nil_r.
    set (before := concat (map WalDir.fileRecords (rev older))) in *.
    destruct (Z.ltb_spec (len allRecords) limit) as [Hlt|Hge].
    + rewrite recentLoop_step by exact Hlt.
      destruct (IH (WalDir.fileRecords file ++ allRecords)) as (k & Hk & -> & Hstop).
      exists k. split; [rewrite length_app; lia|].
      rewrite drop_app_le by exact Hk. rewrite <- app_assoc. auto.
    + exists (length (before ++ WalDir.fileRecords file)). split; [lia|].
      rewrite drop_all. cbn [app WalDir.recentLoop].
      destruct (Z.ltb_spec (len allRecords) limit); [lia|]. auto.
Qed.

(** [GetRecentWALRecords] with a limit of at least 0 returns the last [limit]
    records of the records of all segment files taken in the order of the
    file names (all of them when there are at most [limit]); files that
    cannot be read or parsed contribute nothing.  With a negative limit it
    stops with a slice-bounds panic. *)
Theorem GetRecentWALRecords_newest (walFiles : list (option (list byte))) (limit : Z) :
  let every := concat (map WalDir.fileRecords walFiles) in
  (0 <= limit ->
   WalDir.GetRecentWALRecords walFiles limit
   = Ret (inr (drop (Z.to_nat (len every - limit)) every)))
  /\ (limit < 0 ->
      WalDir.GetRecentWALRecords walFiles limit = Ret (inl SegmentIO.SliceBoundsOutOfRange)).
Proof.
  cbv zeta. unfold WalDir.GetRecentWALRecords.
  destruct (recentLoop_suffix (rev walFiles) limit []) as (k & Hk & Hrun & Hstop).
  cbv zeta in Hk, Hrun, Hstop. rewrite rev_involutive in Hk, Hrun, Hstop.
  rewrite app_nil_r in Hrun, Hstop. rewrite Hrun, bind_Ret.
  set (every := concat (map WalDir.fileRecords walFiles)) in *.
  assert (Hlen : len (drop k every) = len every - Z.of_nat k).
  { unfold len. rewrite length_drop. lia. }
  split.
  - intros Hlimit.
    destruct (Z.ltb_spec limit (len (drop k every))) as [Hmore|Hfew].
    + destruct (Z.ltb_spec (len (drop k every)) (len (drop k every) - limit)); [lia|].
      rewrite drop_drop. do 3 f_equal. lia.
    + do 2 f_equal. f_equal. destruct Hstop as [->|Hreach]; lia.
  - intros Hneg.
    assert (Hempty : drop k every = []).
    { destruct walFiles as [|file rest] using rev_ind.
      - cbn in every. subst every. now destruct k.
      - rewrite rev_app_distr in Hrun. cbn [rev app WalDir.recentLoop] in Hrun.
        change (len (@nil Wal.WALRecord)) with 0 in Hrun.
        destruct (Z.ltb_spec 0 limit); [lia|]. now injection Hrun as <-. }
    rewrite Hempty. change (len (@nil Wal.WALRecord)) with 0.
    destruct (Z.ltb_spec limit 0); [|lia].
    destruct (Z.ltb_spec 0 (0 - limit)); [reflexivity|lia].
Qed.

Lemma GetRecentWALRecords_newest_witness :
  exists records,
    WalDir.GetRecentWALRecords [Some WalDir.twoPages; None; Some WalDir.twoPages] 3
    = Ret (inr records)
    /\ len records = 3.
Proof.
  destruct (GetRecentWALRecords_newest [Some WalDir.twoPages; None; Some WalDir.twoPages] 3)
    as [Hok _].
  eexists. split; [apply Hok; lia|]. vm_compute. reflexivity.
Defined.

(** ** Large-object pointers *)

Lemma le_decode_bound (bs : list byte) : le_decode bs < 256 ^ len bs.
Proof.
  induction bs as [|b bs IH]; [reflexivity|].
  cbn [le_decode]. rewrite len_cons.
  rewrite Z.pow_add_r by (pose proof (len_nonneg bs); lia).
  pose proof (byteZ_range b). change (256 ^ 1) with 256. lia.
Qed.

Lemma Uint32_at_range (data : list byte) (a : nat) : 0 <= Uint32_at data a < 2 ^ 32.
Proof.
  split; [apply Uint32_at_nonneg|].
  unfold Uint32_at, le_at.
  pose proof (le_decode_bound (take 4 (drop a data))) as Hb.
  assert (Hlen : 0 <= len (take 4 (drop a data)) <= 4).
  { unfold len. rewrite length_take. lia. }
  assert (Hpow : 256 ^ len (take 4 (drop a data)) <= 256 ^ 4)
    by (apply Z.pow_le_mono_r; lia).
  change (256 ^ 4) with (2 ^ 32) in Hpow. lia.
Qed.

Lemma rawSizeField_split (x : Z) :
  0 <= x < 2 ^ 32 ->
  0 <= Z.land x 0x3FFFFFFF < 2 ^ 30
  /\ 0 <= Z.shiftr x 30 <= 3
  /\ Z.land x 0x3FFFFFFF + 2 ^ 30 * Z.shiftr x 30 = x.
Proof.
  intros Hx. change 1073741823 with (Z.ones 30).
  rewrite Z.land_ones, Z.shiftr_div_pow2 by lia.
  pose proof (Z.mod_pos_bound x (2 ^ 30) ltac:(lia)) as Hmod.
  pose proof (Z.div_mod x (2 ^ 30) ltac:(lia)) as Hdm.
  assert (Hdiv : 0 <= x / 2 ^ 30 < 4).
  { split; [apply Z.div_pos; lia|].
    apply Z.div_lt_upper_bound; [lia|]. change (2 ^ 30 * 4) with (2 ^ 32). lia. }
  lia.
Qed.

(** [ParseTOASTPointer] finds a pointer exactly in the buffers of at least 18
    bytes that [IsTOASTPointer] accepts (those starting with 0x01, 0x02 or
    0x12).  The raw size is the low 30 bits and the compression method the
    high 2 bits of the 32-bit field at offset 1, so the raw size is below
    2^30 and never negative, and the method is between 0 and 3; the pointer
    counts as compressed unless the tag is 0x01. *)
Theorem ParseTOASTPointer_fields (data : list byte) :
  (is_Some (ToastRead.ParseTOASTPointer data)
   <-> 18 <= len data /\ ToastRead.IsTOASTPointer data = true)
  /\ forall ptr, ToastRead.ParseTOASTPointer data = Some ptr ->
       0 <= Toast.RawSize ptr < 2 ^ 30
       /\ 0 <= Toast.CompressionMethod ptr <= 3
       /\ Toast.RawSize ptr + 2 ^ 30 * Toast.CompressionMethod ptr = Uint32_at data 1
       /\ Toast.ExtSize ptr = Uint32_at data 5
       /\ Toast.ValueID ptr = Uint32_at data 9
       /\ Toast.ToastRelID ptr = Uint32_at data 13
       /\ (Toast.IsCompressed ptr = false <-> byteAt data 0 = 1).
Proof.
  unfold ToastRead.ParseTOASTPointer, ToastRead.IsTOASTPointer.
  destruct (Z.ltb_spec (len data) 18) as [Hshort|Hlen].
  { split; [|discriminate]. split; [intros [ptr Hptr]; discriminate|lia]. }
  destruct (Z.ltb_spec (len data) 2); [lia|].
  destruct (Z.ltb_spec (len data) (1 + 16)); [lia|].
  pose proof (Uint32_at_range data 1) as Hfield.
  destruct (rawSizeField_split _ Hfield) as (Hraw & Hmethod & Hsum).
  destruct (Z.eqb_spec (byteAt data 0) 1) as [Ht1|Ht1];
    destruct (Z.eqb_spec (byteAt data 0) 2) as [Ht2|Ht2];
    destruct (Z.eqb_spec (byteAt data 0) 18) as [Ht3|Ht3];
    cbn [negb andb orb]; try lia.
  1-3: split;
    [ split; [intros _; split; [lia|reflexivity]|intros _; eexists; reflexivity]
    | intros ptr [= <-];
      cbn [Toast.RawSize Toast.CompressionMethod Toast.ExtSize Toast.ValueID Toast.ToastRelID
           Toast.IsCompressed];
      repeat split; try lia; try congruence ].
  split; [|discriminate].
  split; [intros [ptr Hptr]; discriminate|intros [_ Hno]; discriminate].
Qed.

Lemma ParseTOASTPointer_fields_witness :
  exists ptr,
    ToastRead.ParseTOASTPointer ToastRead.helloPointerBytes = Some ptr
    /\ 0 <= Toast.RawSize ptr < 2 ^ 30.
Proof.
  destruct (ParseTOASTPointer_fields ToastRead.helloPointerBytes) as [Hsome Hfields].
  destruct (proj2 Hsome) as [ptr Hptr]; [split; [vm_compute; discriminate|reflexivity]|].
  exists ptr. split; [exact Hptr|]. exact (proj1 (Hfields ptr Hptr)).
Defined.

(** ** The LZ4 decoder *)

(** The LZ4 loop entered with at most [rawSize] bytes of output: it returns;
    it never reports a short input; and its output is bounded by [rawSize]
    plus the input length (a literal run is copied without looking at
    [rawSize]). *)
Lemma lz4Loop_bounded (data : list byte) (rawSize : Z) (fuel : nat) (pos : Z)
    (result : list byte) :
  len data < pos + Z.of_nat fuel + 1 -> 0 <= pos -> len result <= rawSize ->
  exists r, Toast.lz4Loop (S fuel) data rawSize pos result = Ret r
            /\ r <> inl Toast.DataTooShort
            /\ forall out, r = inr out -> len out <= rawSize + len data.
Proof.
  assert (Hdone : forall out : list byte, len out <= rawSize + len data ->
            exists r, Ret (inr out) = Ret r
                      /\ r <> @inl Toast.CodecError (list byte) Toast.DataTooShort
                      /\ forall out', r = inr out' -> len out' <= rawSize + len data).
  { intros out Hout. eexists. split; [reflexivity|]. split; [discriminate|].
    intros out' [= <-]. exact Hout. }
  assert (Hfail : forall e, e <> Toast.DataTooShort ->
            exists r, Ret (@inl Toast.CodecError (list byte) e) = Ret r
                      /\ r <> inl Toast.DataTooShort
                      /\ forall out', r = inr out' -> len out' <= rawSize + len data).
  { intros e He. eexists. split; [reflexivity|]. split; [congruence|]. discriminate. }
  pose proof (len_nonneg data) as Hdata.
  revert pos result. induction fuel as [|fuel IH]; intros pos result Hfuel Hpos Hres.
  - cbn [Toast.lz4Loop]. destruct (Z.ltb_spec pos (len data)); [lia|]. apply Hdone. lia.
  - remember (S fuel) as fuel' eqn:Hf. cbn [Toast.lz4Loop].
    destruct (Z.ltb_spec pos (len data)) as [Hin|]; [|apply Hdone; lia].
    destruct (Z.ltb_spec (len result) rawSize) as [Hroom|]; [|apply Hdone; lia].
    cbn [andb].
    destruct (index_in_range data pos ltac:(lia)) as [token ->]. rewrite bind_Ret.
    set (lit0 := Z.shiftr (byteZ token) 4).
    assert (Hlit0 : 0 <= lit0) by (apply Z.shiftr_nonneg, byteZ_range).
    set (ext1 := if lit0 =? 15
                 then Toast.lz4Extend (drop (Z.to_nat (pos + 1)) data) (pos + 1) lit0
                 else (pos + 1, lit0)).
    assert (Hext1 : pos + 1 <= fst ext1 <= len data /\ 0 <= snd ext1).
    { unfold ext1. destruct (lit0 =? 15); cbn [fst snd]; [|lia].
      pose proof (lz4Extend_bounds (drop (Z.to_nat (pos + 1)) data) (pos + 1) lit0) as Hb.
      rewrite len_drop in Hb by lia. lia. }
    destruct ext1 as [pos1 lit1]. cbn [fst snd] in Hext1.
    set (lit2 := if len data <? pos1 + lit1 then len data - pos1 else lit1).
    assert (Hlit2 : 0 <= lit2 /\ pos1 + lit2 <= len data).
    { unfold lit2. destruct (Z.ltb_spec (len data) (pos1 + lit1)); lia. }
    clearbody lit2.
    set (result1 := result ++ take (Z.to_nat lit2) (drop (Z.to_nat pos1) data)).
    assert (Hres1 : len result1 <= rawSize + len data).
    { unfold result1. rewrite len_app. unfold len at 2. rewrite length_take. lia. }
    clearbody result1.
    destruct (Z.leb_spec (len data) (pos1 + lit2)) as [|Hmore]; [apply Hdone; exact Hres1|].
    destruct (Z.leb_spec rawSize (len result1)) as [|Hroom1]; [apply Hdone; exact Hres1|].
    cbn [orb].
    destruct (Z.ltb_spec (len data) (pos1 + lit2 + 2)) as [|Htwo]; [apply Hdone; exact Hres1|].
    destruct (index_in_range data (pos1 + lit2) ltac:(lia)) as [lo ->].
    destruct (index_in_range data (pos1 + lit2 + 1) ltac:(lia)) as [hi ->].
    rewrite !bind_Ret.
    set (offset := Z.lor (byteZ lo) (Z.shiftl (byteZ hi) 8)).
    assert (Hoff : 0 <= offset).
    { apply Z.lor_nonneg. split; [apply byteZ_range|]. apply Z.shiftl_nonneg, byteZ_range. }
    clearbody offset.
    destruct (Z.eqb_spec offset 0); [apply Hfail; discriminate|].
    set (ml0 := Z.land (byteZ token) 15 + 4).
    set (ext2 := if ml0 =? 19
                 then Toast.lz4Extend (drop (Z.to_nat (pos1 + lit2 + 2)) data)
                                      (pos1 + lit2 + 2) ml0
                 else (pos1 + lit2 + 2, ml0)).
    assert (Hext2 : pos1 + lit2 + 2 <= fst ext2 <= len data).
    { unfold ext2. destruct (ml0 =? 19); cbn [fst]; [|lia].
      pose proof (lz4Extend_bounds (drop (Z.to_nat (pos1 + lit2 + 2)) data)
                    (pos1 + lit2 + 2) ml0) as Hb.
      rewrite len_drop in Hb by lia. lia. }
    destruct ext2 as [pos2 ml]. cbn [fst] in Hext2.
    destruct (Z.ltb_spec (len result1) offset); [apply Hfail; discriminate|].
    destruct (copyBack_ok (Z.to_nat ml) 0 (len result1 - offset) offset rawSize result1)
      as (r1 & -> & Hr1); try lia.
    rewrite bind_Ret. subst fuel'. apply IH; lia.
Qed.

(** [decompressLZ4] with a raw size of at least 0 always returns.  It reports
    a short input exactly for the empty input; when it succeeds, the output
    has at most [rawSize] bytes more than there are input bytes, and for raw
    size 0 it is empty.  With a negative raw size and a non-empty input the
    allocation of the result panics. *)
Theorem decompressLZ4_bounded (data : list byte) (rawSize : Z) :
  (0 <= rawSize ->
   exists r,
     Toast.decompressLZ4 data rawSize = Ret r
     /\ (r = inl Toast.DataTooShort <-> len data = 0)
     /\ forall out, r = inr out ->
          len out <= rawSize + len data /\ (rawSize = 0 -> out = []))
  /\ (rawSize < 0 -> 1 <= len data ->
      Toast.decompressLZ4 data rawSize = Crash MakesliceCapOutOfRange).
Proof.
  unfold Toast.decompressLZ4, Toast.makeResult. split.
  - intros Hraw. pose proof (len_nonneg data) as Hdata.
    destruct (Z.ltb_spec (len data) 1) as [Hempty|Hlen].
    { eexists. split; [reflexivity|].
      split; [split; [intros _; lia|reflexivity]|discriminate]. }
    destruct (Z.ltb_spec rawSize 0); [lia|]. rewrite bind_Ret.
    destruct (lz4Loop_bounded data rawSize (length data) 0 [])
      as (r & Hrun & Hshort & Hbound);
      [unfold len; lia|lia|change (len (@nil byte)) with 0; lia|].
    exists r. split; [exact Hrun|]. split; [split; [intros ->; contradiction|lia]|].
    intros out ->. split; [now apply Hbound|].
    intros ->. cbn [Toast.lz4Loop] in Hrun.
    change (len (@nil byte)) with 0 in Hrun. cbn [Z.ltb Z.compare] in Hrun.
    rewrite andb_false_r in Hrun. now injection Hrun as <-.
  - intros Hneg Hlen.
    destruct (Z.ltb_spec (len data) 1); [lia|].
    destruct (Z.ltb_spec rawSize 0); [reflexivity|lia].
Qed.

Lemma decompressLZ4_bounded_witness :
  exists r, Toast.decompressLZ4 (mkbytes [0x10; 97]) 5 = Ret r
            /\ r = inr (mkbytes [97]).
Proof.
  destruct (decompressLZ4_bounded (mkbytes [0x10; 97]) 5) as [Hok _].
  destruct (Hok ltac:(lia)) as (r & Hrun & _).
  exists r. split; [exact Hrun|].
  assert (Heval : Toast.decompressLZ4 (mkbytes [0x10; 97]) 5 = Ret (inr (mkbytes [97])))
    by (vm_compute; reflexivity).
  congruence.
Defined.

(** ** The large-object reader *)

(** With a raw size of at least 0 the reassembly of a value returns. *)
Lemma ReassembleTOAST_returns
    (sortSlice : list Toast.TOASTChunk -> list Toast.TOASTChunk)
    (zlibReadAll : list byte -> option (list byte))
    (chunks : list Toast.TOASTChunk) (valueID : Z) (p : Toast.TOASTPointer) :
  0 <= Toast.RawSize p ->
  exists value, Toast.ReassembleTOAST sortSlice zlibReadAll chunks valueID (Some p) = Ret value.
Proof.
  intros Hraw. unfold Toast.ReassembleTOAST.
  destruct (len (filter (fun c => Toast.ChunkID c = valueID) chunks) =? 0); [now eexists|].
  destruct (Toast.IsCompressed p && _); [|now eexists].
  assert (Hpglz : forall d, exists value, Toast.tryPGLZ zlibReadAll d (Toast.RawSize p)
                                          = Ret value).
  { intros d. unfold Toast.tryPGLZ.
    destruct (Z.lt_ge_cases (len d) 4) as [Hshort|Hlong].
    - rewrite (proj1 (decompressPGLZ_short d (Toast.RawSize p) Hshort)), bind_Ret.
      now eexists.
    - destruct (pglz_long_input d (Toast.RawSize p) Hraw Hlong) as (out & -> & _).
      rewrite bind_Ret. destruct (0 <? len out); now eexists. }
  destruct (Toast.CompressionMethod p =? Toast.ToastCompressionLZ4); [|apply Hpglz].
  destruct (decompressLZ4_total (Toast.concatChunks
              (sortSlice (filter (fun c => Toast.ChunkID c = valueID) chunks)))
              (Toast.RawSize p) Hraw) as [r ->].
  rewrite bind_Ret. destruct r; [apply Hpglz|now eexists].
Qed.

Lemma ParseTOASTPointer_rawSize (data : list byte) (ptr : Toast.TOASTPointer) :
  ToastRead.ParseTOASTPointer data = Some ptr -> 0 <= Toast.RawSize ptr.
Proof.
  unfold ToastRead.ParseTOASTPointer.
  destruct (len data <? 18); [discriminate|].
  destruct (negb _ && negb _ && negb _); [discriminate|].
  destruct (len data <? 1 + 16); [discriminate|].
  intros [= <-]. cbn [Toast.RawSize].
  exact (proj1 (proj1 (rawSizeField_split _ (Uint32_at_range data 1)))).
Qed.

(** [ReadValue] on a value whose table is loaded already. *)
Lemma ReadValue_loaded `{C : Heap.Collaborators} `{E : Dump.Environment}
    (sortSlice : list Toast.TOASTChunk -> list Toast.TOASTChunk)
    (zlibReadAll : list byte -> option (list byte))
    (r : ToastRead.TOASTReader) (data : list byte) (ptr : Toast.TOASTPointer)
    (loaded : list Toast.TOASTChunk) :
  ToastRead.ParseTOASTPointer data = Some ptr ->
  ToastRead.chunks r !! Toast.ToastRelID ptr = Some loaded ->
  ToastRead.ReadValue sortSlice zlibReadAll r data
  = (r, Toast.ReassembleTOAST sortSlice zlibReadAll loaded (Toast.ValueID ptr) (Some ptr)).
Proof.
  intros Hptr Hloaded. unfold ToastRead.ReadValue. now rewrite Hptr, Hloaded, Hloaded.
Qed.

(** [ReadValue] on a value whose table is neither loaded nor loadable. *)
Lemma ReadValue_missing `{C : Heap.Collaborators} `{E : Dump.Environment}
    (sortSlice : list Toast.TOASTChunk -> list Toast.TOASTChunk)
    (zlibReadAll : list byte -> option (list byte))
    (r r' : ToastRead.TOASTReader) (data : list byte) (ptr : Toast.TOASTPointer) :
  ToastRead.ParseTOASTPointer data = Some ptr ->
  ToastRead.chunks r !! Toast.ToastRelID ptr = None ->
  (if negb (String.eqb (ToastRead.dataDir r) "")
   then fst (ToastRead.LoadTOASTTableFromFile r (Toast.ToastRelID ptr)) else r) = r ->
  ToastRead.ReadValue sortSlice zlibReadAll r data = (r, Ret []).
Proof.
  intros Hptr Hnone Hsame. unfold ToastRead.ReadValue. now rewrite Hptr, Hnone, Hsame, Hnone.
Qed.

(** [ReadValue] hands back a value that is not a pointer as it is and leaves
    the reader alone.  For a pointer it always returns (the raw size of a
    parsed pointer is not negative); when the table of the pointer is loaded
    it reassembles the value from the loaded chunks without touching the
    reader; otherwise it loads the table at most once: no table that was
    loaded is dropped or replaced, the directory and the database of the
    reader stay, and reading the same bytes again with the reader it leaves
    returns the same value and leaves the reader as it is. *)
Theorem ReadValue_reader `{C : Heap.Collaborators} `{E : Dump.Environment}
    (sortSlice : list Toast.TOASTChunk -> list Toast.TOASTChunk)
    (zlibReadAll : list byte -> option (list byte))
    (r : ToastRead.TOASTReader) (data : list byte) :
  let r' := fst (ToastRead.ReadValue sortSlice zlibReadAll r data) in
  let result := snd (ToastRead.ReadValue sortSlice zlibReadAll r data) in
  (ToastRead.ParseTOASTPointer data = None -> r' = r /\ result = Ret data)
  /\ (forall ptr loaded,
        ToastRead.ParseTOASTPointer data = Some ptr ->
        ToastRead.chunks r !! Toast.ToastRelID ptr = Some loaded ->
        r' = r
        /\ result = Toast.ReassembleTOAST sortSlice zlibReadAll loaded
                      (Toast.ValueID ptr) (Some ptr))
  /\ (exists value, result = Ret value)
  /\ (forall rel loaded,
        ToastRead.chunks r !! rel = Some loaded -> ToastRead.chunks r' !! rel = Some loaded)
  /\ ToastRead.dataDir r' = ToastRead.dataDir r
  /\ ToastRead.dbOID r' = ToastRead.dbOID r
  /\ ToastRead.ReadValue sortSlice zlibReadAll r' data = (r', result).
Proof.
  cbv zeta.
  destruct (ToastRead.ParseTOASTPointer data) as [ptr|] eqn:Hptr.
  2: { assert (Hrun : ToastRead.ReadValue sortSlice zlibReadAll r data = (r, Ret data))
         by (unfold ToastRead.ReadValue; now rewrite Hptr).
       rewrite Hrun. cbn [fst snd]. repeat split; auto; try discriminate. now eexists. }
  pose proof (ParseTOASTPointer_rawSize data ptr Hptr) as Hraw.
  destruct (ToastRead.chunks r !! Toast.ToastRelID ptr) as [loaded|] eqn:Hloaded.
  { rewrite (ReadValue_loaded sortSlice zlibReadAll r data ptr loaded Hptr Hloaded).
    cbn [fst snd]. split; [discriminate|].
    split; [intros ptr0 loaded0 [= <-] Hl0; rewrite Hloaded in Hl0; injection Hl0 as <-; auto|].
    split; [now apply ReassembleTOAST_returns|]. repeat split; auto.
    now apply ReadValue_loaded. }
  assert (Hgone : forall same,
            (if negb (String.eqb (ToastRead.dataDir r) "")
             then fst (ToastRead.LoadTOASTTableFromFile r (Toast.ToastRelID ptr)) else r) = same ->
            same = r ->
            (Some ptr = None ->
             fst (ToastRead.ReadValue sortSlice zlibReadAll r data) = r
             /\ snd (ToastRead.ReadValue sortSlice zlibReadAll r data) = Ret data)
            /\ (forall ptr0 loaded,
                  Some ptr = Some ptr0 ->
                  ToastRead.chunks r !! Toast.ToastRelID ptr0 = Some loaded ->
                  fst (ToastRead.ReadValue sortSlice zlibReadAll r data) = r
                  /\ snd (ToastRead.ReadValue sortSlice zlibReadAll r data)
                     = Toast.ReassembleTOAST sortSlice zlibReadAll loaded
                         (Toast.ValueID ptr0) (Some ptr0))
            /\ (exists value, snd (ToastRead.ReadValue sortSlice zlibReadAll r data) = Ret value)
            /\ (forall rel loaded,
                  ToastRead.chunks r !! rel = Some loaded ->
                  ToastRead.chunks (fst (ToastRead.ReadValue sortSlice zlibReadAll r data)) !! rel
                  = Some loaded)
            /\ ToastRead.dataDir (fst (ToastRead.ReadValue sortSlice zlibReadAll r data))
               = ToastRead.dataDir r
            /\ ToastRead.dbOID (fst (ToastRead.ReadValue sortSlice zlibReadAll r data))
               = ToastRead.dbOID r
            /\ ToastRead.ReadValue sortSlice zlibReadAll
                 (fst (ToastRead.ReadValue sortSlice zlibReadAll r data)) data
               = (fst (ToastRead.ReadValue sortSlice zlibReadAll r data),
                  snd (ToastRead.ReadValue sortSlice zlibReadAll r data))).
  { intros same Hsame ->.
    pose proof (ReadValue_missing sortSlice zlibReadAll r r data ptr Hptr Hloaded Hsame) as Hrun.
    rewrite Hrun. cbn [fst snd].
    split; [discriminate|]. split; [intros ptr0 loaded0 [= <-] Hl0; congruence|].
    split; [now eexists|]. repeat split; auto. }
  destruct (String.eqb (ToastRead.dataDir r) "") eqn:Hdir.
  { apply (Hgone r); reflexivity. }
  destruct (Dump.ReadFile [ToastRead.dataDir r; "base"%string;
                           Dump.FormatUint (ToastRead.dbOID r);
                           Dump.FormatUint (Toast.ToastRelID ptr)]) as [err|bytes] eqn:Hfile.
  { apply (Hgone r); [|reflexivity].
    cbn [negb]. unfold ToastRead.LoadTOASTTableFromFile. now rewrite Hdir, Hfile. }
  clear Hgone.
  assert (Hrun : ToastRead.ReadValue sortSlice zlibReadAll r data
                 = (ToastRead.LoadTOASTTable r (Toast.ToastRelID ptr) bytes,
                    Toast.ReassembleTOAST sortSlice zlibReadAll (ToastRead.ReadTOASTTable bytes)
                      (Toast.ValueID ptr) (Some ptr))).
  { unfold ToastRead.ReadValue, ToastRead.LoadTOASTTableFromFile.
    rewrite Hptr, Hloaded, Hdir. cbn [negb]. rewrite Hfile.
    cbn [fst ToastRead.LoadTOASTTable ToastRead.chunks]. now rewrite lookup_insert_eq. }
  rewrite Hrun. cbn [fst snd].
  split; [discriminate|]. split; [intros ptr0 loaded0 [= <-] Hl0; congruence|].
  split; [now apply ReassembleTOAST_returns|].
  split; [|split; [reflexivity|split; [reflexivity|]]].
  - intros rel loaded Hrel. cbn [ToastRead.LoadTOASTTable ToastRead.chunks].
    rewrite lookup_insert_ne; [exact Hrel|]. intros <-. congruence.
  - apply ReadValue_loaded; [exact Hptr|].
    cbn [ToastRead.LoadTOASTTable ToastRead.chunks]. apply lookup_insert_eq.
Qed.

Lemma ReadValue_reader_witness :
  ToastRead.ReadValue (C := Heap.sampleCollaborators) (E := Dump.sampleEnvironment [])
    Toast.sortBySeq Toast.noZlib ToastRead.helloReader ToastRead.helloPointerBytes
  = (ToastRead.helloReader, Ret (Toast.asciiBytes "Hello, World!")).
Proof.
  destruct (@ReadValue_reader Heap.sampleCollaborators (Dump.sampleEnvironment [])
              Toast.sortBySeq Toast.noZlib ToastRead.helloReader ToastRead.helloPointerBytes)
    as (_ & Hloaded & _).
  destruct (Hloaded Toast.helloPtr Toast.helloChunks) as [Hreader Hvalue];
    [vm_compute; reflexivity|vm_compute; reflexivity|].
  rewrite (surjective_pairing (ToastRead.ReadValue _ _ _ _)), Hreader, Hvalue.
  vm_compute. reflexivity.
Defined.

(** ** Chunks of a large-object table *)

Lemma length_omap_le {A B} (f : A -> option B) (l : list A) :
  (length (omap f l) <= length l)%nat.
Proof.
  induction l as [|a l IH]; [reflexivity|].
  cbn [omap list_omap]. destruct (f a); cbn [length]; lia.
Qed.

Lemma chunkOfTuple_data `{C : Heap.Collaborators} (tuple : Heap.HeapTupleData)
    (c : Toast.TOASTChunk) :
  ToastRead.chunkOfTuple tuple = Some c ->
  0 < len (Toast.Data c)
  /\ 8 < len (Heap.Data tuple)
  /\ Toast.ChunkID c = ToastRead.u32 (Heap.Data tuple) 0
  /\ Toast.ChunkSeq c = ToastRead.i32 (Heap.Data tuple) 4.
Proof.
  unfold ToastRead.chunkOfTuple.
  destruct (len (Heap.Data tuple) <? 8); [discriminate|].
  change (align 8 4) with 8.
  destruct (Z.ltb_spec 8 (len (Heap.Data tuple))) as [Hlong|_].
  - destruct (Z.ltb_spec 0 (len (default [] (Heap.ReadVarlena
                (drop (Z.to_nat 8) (Heap.Data tuple))).1))) as [Hdata|]; [|discriminate].
    intros [= <-]. cbn. auto.
  - change (len (@nil byte)) with 0. cbn. discriminate.
Qed.

Lemma concatChunks_covers (c : Toast.TOASTChunk) (l : list Toast.TOASTChunk) :
  In c l -> len (Toast.Data c) <= len (Toast.concatChunks l).
Proof.
  unfold Toast.concatChunks. induction l as [|d l IH]; intros Hin; [destruct Hin|].
  cbn [map concat]. rewrite len_app.
  pose proof (len_nonneg (Toast.Data d)). pose proof (len_nonneg (concat (map Toast.Data l))).
  destruct Hin as [->|Hin]; [lia|]. specialize (IH Hin). lia.
Qed.

(** [ReadTOASTTable] keeps only chunks that carry data, at most one per
    visible tuple; so with any sort that orders by sequence number, reading a
    value of the table without a pointer gives the empty slice exactly when
    the table has no chunk of that value. *)
Theorem ReadTOASTTable_values `{C : Heap.Collaborators}
    (sortSlice : list Toast.TOASTChunk -> list Toast.TOASTChunk)
    (zlibReadAll : list byte -> option (list byte)) (data : list byte) (valueID : Z) :
  Toast.SortsBySeq sortSlice ->
  Forall (fun c => 0 < len (Toast.Data c)) (ToastRead.ReadTOASTTable data)
  /\ len (ToastRead.ReadTOASTTable data) <= len (Heap.ReadTuples data true)
  /\ (Toast.ReassembleTOAST sortSlice zlibReadAll (ToastRead.ReadTOASTTable data) valueID None
      = Ret []
      <-> forall c, In c (ToastRead.ReadTOASTTable data) -> Toast.ChunkID c <> valueID).
Proof.
  intros Hsort.
  assert (Hall : Forall (fun c => 0 < len (Toast.Data c)) (ToastRead.ReadTOASTTable data)).
  { apply List.Forall_forall. intros c Hc. apply list_elem_of_In in Hc.
    unfold ToastRead.ReadTOASTTable in Hc.
    apply list_elem_of_omap in Hc as (entry & _ & Hentry).
    destruct (Heap.Tuple entry) as [tuple|]; [|discriminate].
    cbn in Hentry. exact (proj1 (chunkOfTuple_data tuple c Hentry)). }
  split; [exact Hall|]. split.
  { unfold len, ToastRead.ReadTOASTTable. pose proof (length_omap_le
      (fun entry => tuple ← Heap.Tuple entry; ToastRead.chunkOfTuple tuple)
      (Heap.ReadTuples data true)). lia. }
  set (table := ToastRead.ReadTOASTTable data) in *.
  unfold Toast.ReassembleTOAST.
  set (valueChunks := filter (fun c => Toast.ChunkID c = valueID) table).
  assert (Hmember : forall c, In c valueChunks <-> Toast.ChunkID c = valueID /\ In c table).
  { intros c. unfold valueChunks. rewrite <- !list_elem_of_In.
    now rewrite list_elem_of_filter. }
  clearbody valueChunks.
  destruct (Z.eqb_spec (len valueChunks) 0) as [Hnone|Hsome].
  - split; [|reflexivity]. intros _ c Hc Hid.
    assert (Hin : In c valueChunks) by (apply Hmember; auto).
    destruct valueChunks; [destruct Hin|]. rewrite len_cons in Hnone.
    pose proof (len_nonneg valueChunks). lia.
  - destruct valueChunks as [|c rest]; [now contradiction Hsome|].
    assert (Hc : In c (c :: rest)) by now left.
    destruct (Hsort (c :: rest)) as [Hperm _].
    pose proof (concatChunks_covers c (sortSlice (c :: rest))
                  (Permutation_in _ (Permutation_sym Hperm) Hc)) as Hcover.
    apply Hmember in Hc as [Hid Hc]. rewrite List.Forall_forall in Hall.
    specialize (Hall c Hc).
    split.
    + intros [= Hempty]. rewrite Hempty in Hcover.
      change (len (@nil byte)) with 0 in Hcover. lia.
    + intros Hno. exfalso. exact (Hno c Hc Hid).
Qed.

Lemma ReadTOASTTable_values_witness :
  Forall (fun c => 0 < len (Toast.Data c))
         (ToastRead.ReadTOASTTable (C := ToastInfo.chunkCollaborators) Heap.onePage).
Proof.
  exact (proj1 (@ReadTOASTTable_values ToastInfo.chunkCollaborators Toast.sortBySeq Toast.noZlib
                  Heap.onePage 0 sortBySeq_sorts)).
Defined.

(** ** Reading tuples and rows page by page *)

Section ReaderFacts.

Context `{C : Heap.Collaborators}.

Lemma entryVisible_relocated (off : Z) (e : Heap.TupleEntry) :
  Heap.entryVisible {| Heap.PageOffset := off; Heap.ItemOffset := Heap.ItemOffset e;
                       Heap.Tuple := Heap.Tuple e |}
  = Heap.entryVisible e.
Proof. reflexivity. Qed.

Lemma readPages_visible (n : nat) (data : list byte) (off : Z) :
  Heap.readPages n data off true
  = List.filter Heap.entryVisible (Heap.readPages n data off false).
Proof.
  revert off. induction n as [|n IH]; intros off; [reflexivity|].
  cbn [Heap.readPages]. rewrite List.filter_app, <- IH. f_equal.
  cbn [negb orb].
  induction (Heap.ParsePage _) as [|e l IHl]; [reflexivity|].
  cbn [List.filter map]. rewrite entryVisible_relocated.
  destruct (Heap.entryVisible e); cbn [map]; now rewrite IHl.
Qed.

Lemma readPages_entries (n : nat) (data : list byte) (off : Z) (visibleOnly : bool)
    (e : Heap.TupleEntry) :
  0 <= off -> off mod PageSize = 0 -> off + Z.of_nat n * PageSize <= len data ->
  In e (Heap.readPages n data off visibleOnly) ->
  off <= Heap.PageOffset e
  /\ Heap.PageOffset e mod PageSize = 0
  /\ Heap.PageOffset e + PageSize <= len data
  /\ (visibleOnly = true -> Heap.entryVisible e = true)
  /\ exists e0,
       In e0 (Heap.ParsePage (take (Z.to_nat PageSize)
                                   (drop (Z.to_nat (Heap.PageOffset e)) data)))
       /\ Heap.ItemOffset e = Heap.ItemOffset e0
       /\ Heap.Tuple e = Heap.Tuple e0.
Proof.
  revert off. induction n as [|n IH]; intros off Hoff Hal Hfit; [intros []|].
  cbn [Heap.readPages]. intros Hin. apply List.in_app_or in Hin as [Hin|Hin].
  - apply List.in_map_iff in Hin as (e0 & <- & Hin).
    apply List.filter_In in Hin as [Hin Hkeep].
    cbn [Heap.PageOffset Heap.ItemOffset Heap.Tuple]. unfold PageSize in *.
    split; [lia|]. split; [exact Hal|]. split; [lia|]. split.
    + intros ->. cbn [negb orb] in Hkeep. now rewrite entryVisible_relocated.
    + now exists e0.
  - assert (Hnext : (off + PageSize) mod PageSize = 0).
    { rewrite <- Z.add_mod_idemp_l, Hal by (unfold PageSize; lia). reflexivity. }
    destruct (IH (off + PageSize) ltac:(unfold PageSize; lia) Hnext
                ltac:(unfold PageSize in *; lia) Hin) as (Hlo & Hrest).
    split; [unfold PageSize in *; lia|exact Hrest].
Qed.

(** [ReadTuples] goes through the whole pages of the buffer and nothing
    else: every entry carries the offset of a whole page of the buffer (a
    multiple of 8192) and is an entry of [ParsePage] for that page; a buffer
    under one page has no entries; and with [visibleOnly] the result is the
    sub-list of visible entries of the result without it, in the same
    order. *)
Theorem ReadTuples_pages (data : list byte) (visibleOnly : bool) :
  Heap.ReadTuples data true = List.filter Heap.entryVisible (Heap.ReadTuples data false)
  /\ (len data < PageSize -> Heap.ReadTuples data visibleOnly = [])
  /\ forall e, In e (Heap.ReadTuples data visibleOnly) ->
       0 <= Heap.PageOffset e
       /\ Heap.PageOffset e mod PageSize = 0
       /\ Heap.PageOffset e + PageSize <= len data
       /\ (visibleOnly = true -> Heap.entryVisible e = true)
       /\ exists e0,
            In e0 (Heap.ParsePage (take (Z.to_nat PageSize)
                                        (drop (Z.to_nat (Heap.PageOffset e)) data)))
            /\ Heap.ItemOffset e = Heap.ItemOffset e0
            /\ Heap.Tuple e = Heap.Tuple e0.
Proof.
  unfold Heap.ReadTuples. split; [apply readPages_visible|]. split.
  - intros Hsmall. pose proof (len_nonneg data).
    rewrite Z.div_small by lia. reflexivity.
  - intros e Hin.
    pose proof (Z.mul_div_le (len data) PageSize ltac:(unfold PageSize; lia)) as Hfit.
    pose proof (Z.div_pos (len data) PageSize (len_nonneg data) ltac:(unfold PageSize; lia)).
    apply readPages_entries in Hin; [|lia|reflexivity|unfold PageSize in *; lia].
    destruct Hin as (Hlo & Hrest). split; [exact Hlo|exact Hrest].
Qed.

Lemma splitRows_visible (entries : list Heap.TupleEntry) (columns : list Heap.Column) :
  omap (fun t => Heap.DecodeTuple (Heap.Tuple t) columns)
       (List.filter Heap.entryVisible entries)
  = fst (Heap.splitRows entries columns).
Proof.
  induction entries as [|entry entries IH]; [reflexivity|].
  cbn [List.filter Heap.splitRows]. unfold Heap.entryVisible at 1.
  destruct (Heap.splitRows entries columns) as [visible deleted]. cbn [fst] in IH.
  destruct (Heap.Tuple entry) as [tuple|] eqn:Htuple; [|exact IH].
  destruct (Heap.IsVisible tuple) eqn:Hvis.
  - cbn [omap list_omap]. rewrite Htuple.
    destruct (Heap.DecodeTuple (Some tuple) columns) as [row|]; [|exact IH].
    cbn [fst]. f_equal. exact IH.
  - destruct (Heap.DecodeTuple (Some tuple) columns) as [row|]; [|exact IH].
    destruct (Heap.isDeleted tuple); exact IH.
Qed.

Lemma omap_filter_length {A B} (f : A -> option B) (p : A -> bool) (l : list A) :
  (length (omap f (List.filter p l)) <= length (omap f l))%nat.
Proof.
  induction l as [|a l IH]; [reflexivity|].
  cbn [List.filter omap list_omap].
  destruct (p a); cbn [omap list_omap]; destruct (f a); cbn [length]; lia.
Qed.

(** The two row readers agree: the rows [ReadRows] returns for the visible
    tuples are the visible rows of [ReadRowsWithDeleted], in the same order;
    and asking [ReadRows] for visible rows only never gives more rows than
    asking for all. *)
Theorem ReadRows_visible (data : list byte) (columns : list Heap.Column) :
  Heap.ReadRows data columns true = fst (Heap.ReadRowsWithDeleted data columns)
  /\ len (Heap.ReadRows data columns true) <= len (Heap.ReadRows data columns false).
Proof.
  unfold Heap.ReadRows, Heap.ReadRowsWithDeleted, Heap.ReadTuples.
  rewrite readPages_visible. split; [apply splitRows_visible|].
  unfold len. apply Nat2Z.inj_le, omap_filter_length.
Qed.

(** ** The row a tuple decodes to *)

Lemma decodeColumns_names (tuple : Heap.HeapTupleData) (columns : list Heap.Column)
    (idx offset : Z) :
  map (fun cs => Heap.Name (fst cs)) (Heap.decodeColumns tuple idx columns offset)
  = map Heap.Name columns.
Proof.
  revert idx offset. induction columns as [|c columns IH]; intros idx offset; [reflexivity|].
  cbn [Heap.decodeColumns map fst]. f_equal. apply IH.
Qed.

Lemma rowOf_from (steps : list (Heap.Column * Heap.ColumnStep))
    (m : gmap string (Heap.value Heap.Typed)) (name : string) :
  (~ In name (map (fun cs => Heap.Name (fst cs)) steps) ->
   foldl (fun result cs => <[Heap.Name (fst cs) := Heap.stepValue (snd cs)]> result) m steps
     !! name = m !! name)
  /\ (In name (map (fun cs => Heap.Name (fst cs)) steps) ->
      exists col st,
        In (col, st) steps /\ Heap.Name col = name
        /\ foldl (fun result cs => <[Heap.Name (fst cs) := Heap.stepValue (snd cs)]> result)
                 m steps !! name = Some (Heap.stepValue st)).
Proof.
  revert m. induction steps as [|[c s] steps IH]; intros m.
  - split; [reflexivity|intros []].
  - cbn [foldl map fst snd].
    destruct (IH (<[Heap.Name c := Heap.stepValue s]> m)) as [IHout IHin].
    destruct (in_dec string_dec name (map (fun cs => Heap.Name (fst cs)) steps)) as [Hin|Hout].
    + split; [intros Hno; exfalso; apply Hno; now right|].
      intros _. destruct (IHin Hin) as (col & st & Hcs & Hname & Hlook).
      exists col, st. split; [now right|]. auto.
    + split.
      * intros Hno. rewrite (IHout Hout). apply lookup_insert_ne.
        intros Heq. apply Hno. now left.
      * intros [Heq|Hin]; [|contradiction].
        exists c, s. split; [now left|]. split; [exact Heq|].
        rewrite (IHout Hout), Heq. apply lookup_insert_eq.
Qed.

(** The row of a tuple has exactly the column names of the schema as keys.
    The value under a name is the value decoded for a column of that name
    (for the only one, when the names of the schema are distinct), and a
    column that the bitmap reports as null is stored as [nil]. *)
Theorem DecodeTuple_keys (tuple : Heap.HeapTupleData) (columns : list Heap.Column)
    (row : gmap string (Heap.value Heap.Typed)) :
  Heap.DecodeTuple (Some tuple) columns = Some row ->
  (forall name, is_Some (row !! name) <-> In name (map Heap.Name columns))
  /\ (forall name, In name (map Heap.Name columns) ->
        exists col st,
          In (col, st) (Heap.decodeColumns tuple 0 columns 0)
          /\ Heap.Name col = name
          /\ row !! name = Some (Heap.stepValue st)
          /\ (Heap.stepNull st = true -> row !! name = Some Heap.VNil))
  /\ (NoDup (map Heap.Name columns) ->
      forall col st, In (col, st) (Heap.decodeColumns tuple 0 columns 0) ->
        row !! Heap.Name col = Some (Heap.stepValue st)).
Proof.
  unfold Heap.DecodeTuple. destruct (len (Heap.Data tuple) =? 0); [discriminate|].
  intros [= <-]. unfold Heap.rowOf.
  set (steps := Heap.decodeColumns tuple 0 columns 0).
  pose proof (decodeColumns_names tuple columns 0 0) as Hnames. fold steps in Hnames.
  assert (Hfound : forall name, In name (map Heap.Name columns) ->
            exists col st,
              In (col, st) steps /\ Heap.Name col = name
              /\ foldl (fun result cs => <[Heap.Name (fst cs) := Heap.stepValue (snd cs)]> result)
                       (∅ : gmap string (Heap.value Heap.Typed)) steps !! name
                 = Some (Heap.stepValue st)).
  { intros name Hin. apply (proj2 (rowOf_from steps (∅ : gmap string (Heap.value Heap.Typed)) name)). now rewrite Hnames. }
  split; [|split].
  - intros name. split.
    + intros Hsome.
      destruct (in_dec string_dec name (map Heap.Name columns)) as [Hin|Hout]; [exact Hin|].
      rewrite (proj1 (rowOf_from steps (∅ : gmap string (Heap.value Heap.Typed)) name)) in Hsome by now rewrite Hnames.
      rewrite lookup_empty in Hsome. now destruct Hsome.
    + intros Hin. destruct (Hfound name Hin) as (col & st & _ & _ & ->). now eexists.
  - intros name Hin. destruct (Hfound name Hin) as (col & st & Hcs & Hname & Hlook).
    exists col, st. repeat split; auto.
    intros Hnull. rewrite Hlook. f_equal.
    destruct (decodeColumns_steps _ _ _ _ _ _ Hcs) as (idx' & offset' & -> & _).
    unfold Heap.decodeColumn in *.
    destruct (Heap.IsNull tuple _); [reflexivity|].
    destruct (Heap.readValue _ _ _ _). cbn in Hnull. discriminate.
  - intros Hnodup col st Hcs.
    assert (Hin : In (Heap.Name col) (map Heap.Name columns)).
    { rewrite <- Hnames. apply (List.in_map (fun cs => Heap.Name (fst cs)) _ _ Hcs). }
    destruct (Hfound _ Hin) as (col' & st' & Hcs' & Hname & ->). f_equal.
    rewrite <- Hnames in Hnodup. clear -Hnodup Hcs Hcs' Hname.
    induction steps as [|[c s] steps IH]; [destruct Hcs|].
    cbn [map fst] in Hnodup. apply NoDup_cons in Hnodup as [Hfresh Hnodup].
    destruct Hcs as [[= -> ->]|Hcs], Hcs' as [[= -> ->]|Hcs'].
    + reflexivity.
    + exfalso. apply Hfresh. rewrite <- Hname. apply list_elem_of_In.
      apply (List.in_map (fun cs => Heap.Name (fst cs)) _ _ Hcs').
    + exfalso. apply Hfresh. rewrite Hname. apply list_elem_of_In.
      apply (List.in_map (fun cs => Heap.Name (fst cs)) _ _ Hcs).
    + now apply IH.
Qed.

End ReaderFacts.

Lemma ReadTuples_pages_witness :
  Heap.ReadTuples (C := Heap.sampleCollaborators) (repeat Byte.x00 100) true = [].
Proof.
  destruct (@ReadTuples_pages Heap.sampleCollaborators (repeat Byte.x00 100) true)
    as (_ & Hsmall & _).
  apply Hsmall. vm_compute. reflexivity.
Defined.

Lemma DecodeTuple_keys_witness :
  exists row,
    Heap.DecodeTuple (C := Heap.sampleCollaborators) (Some Heap.liveTuple) Heap.sampleColumns
    = Some row
    /\ is_Some (row !! "name"%string).
Proof.
  destruct (Heap.DecodeTuple (C := Heap.sampleCollaborators) (Some Heap.liveTuple)
              Heap.sampleColumns) as [row|] eqn:Hrow; [|vm_compute in Hrow; discriminate].
  exists row. split; [reflexivity|].
  apply (proj1 (@DecodeTuple_keys Heap.sampleCollaborators _ _ _ Hrow)).
  cbn. right. left. reflexivity.
Defined.

(** ** Columns beyond the end of the tuple data *)

Section TruncatedTuples.

Context `{C : Heap.Collaborators}.

Lemma decodeColumn_past_end (tuple : Heap.HeapTupleData) (idx : Z) (col : Heap.Column)
    (offset : Z) :
  len (Heap.Data tuple) <= offset ->
  let st := Heap.decodeColumn tuple idx col offset in
  Heap.stepValue st = Heap.VNil
  /\ len (Heap.Data tuple) <= Heap.stepOffset st
  /\ Heap.stepNext st = Heap.stepOffset st.
Proof.
  intros Hend. cbv zeta.
  assert (Hal : offset <= align offset (Heap.columnAlign col (Heap.Data tuple) offset)).
  { apply align_rounds_up. unfold Heap.columnAlign.
    destruct (Heap.shortVarlenaAhead _ _ _); [lia|].
    destruct (declaredAlign_values col) as [->|[->|[->| ->]]]; lia. }
  unfold Heap.decodeColumn. destruct (Heap.IsNull tuple _); [cbn; split; [reflexivity|lia]|].
  unfold Heap.readValue.
  destruct (Z.leb_spec (len (Heap.Data tuple))
              (align offset (Heap.columnAlign col (Heap.Data tuple) offset))); [|lia].
  cbn. split; [reflexivity|lia].
Qed.

Lemma decodeColumns_past_end (tuple : Heap.HeapTupleData) (columns : list Heap.Column)
    (idx offset : Z) :
  len (Heap.Data tuple) <= offset ->
  Forall (fun cs => Heap.stepValue (snd cs) = Heap.VNil
                    /\ len (Heap.Data tuple) <= Heap.stepOffset (snd cs)
                    /\ Heap.stepNext (snd cs) = Heap.stepOffset (snd cs))
         (Heap.decodeColumns tuple idx columns offset).
Proof.
  revert idx offset. induction columns as [|c columns IH]; intros idx offset Hend;
    [constructor|].
  cbn [Heap.decodeColumns].
  destruct (decodeColumn_past_end tuple idx c offset Hend) as (Hnil & Hoff & Hnext).
  constructor; [cbn [snd]; auto|]. apply IH. lia.
Qed.

Lemma decodeColumns_tail (tuple : Heap.HeapTupleData) (columns : list Heap.Column)
    (idx offset : Z) (before after : list (Heap.Column * Heap.ColumnStep))
    (col : Heap.Column) (st : Heap.ColumnStep) :
  Heap.decodeColumns tuple idx columns offset = before ++ (col, st) :: after ->
  exists idx' columns',
    (col, st) :: after = Heap.decodeColumns tuple idx' columns' (Heap.stepBefore st).
Proof.
  revert idx offset columns. induction before as [|x before IH]; intros idx offset columns.
  - destruct columns as [|c columns]; [discriminate|].
    cbn [Heap.decodeColumns app]. intros [= <- <- <-].
    exists idx, (c :: columns). cbn [Heap.decodeColumns].
    now rewrite (proj1 (decodeColumn_aligned tuple idx c offset)).
  - destruct columns as [|c columns]; [discriminate|].
    cbn [Heap.decodeColumns app]. intros [= _ Hrest]. exact (IH _ _ _ Hrest).
Qed.

(** A tuple that ends early loses its trailing columns quietly: once the
    column loop of [DecodeTuple] enters a column with its running offset at
    or beyond the end of the tuple data, that column and every later column
    decodes to [nil], and the offset moves on by alignment only. *)
Theorem DecodeTuple_past_end (tuple : Heap.HeapTupleData) (columns : list Heap.Column)
    (before after : list (Heap.Column * Heap.ColumnStep))
    (col : Heap.Column) (st : Heap.ColumnStep) :
  Heap.decodeColumns tuple 0 columns 0 = before ++ (col, st) :: after ->
  len (Heap.Data tuple) <= Heap.stepBefore st ->
  Forall (fun cs => Heap.stepValue (snd cs) = Heap.VNil
                    /\ len (Heap.Data tuple) <= Heap.stepOffset (snd cs)
                    /\ Heap.stepNext (snd cs) = Heap.stepOffset (snd cs))
         ((col, st) :: after)
  /\ forall row, Heap.DecodeTuple (Some tuple) columns = Some row ->
       NoDup (map Heap.Name columns) ->
       Forall (fun cs => row !! Heap.Name (fst cs) = Some Heap.VNil) ((col, st) :: after).
Proof.
  intros Hsplit Hend.
  destruct (decodeColumns_tail _ _ _ _ _ _ _ _ Hsplit) as (idx' & columns' & Htail).
  assert (Hall : Forall (fun cs => Heap.stepValue (snd cs) = Heap.VNil
                    /\ len (Heap.Data tuple) <= Heap.stepOffset (snd cs)
                    /\ Heap.stepNext (snd cs) = Heap.stepOffset (snd cs))
                   ((col, st) :: after)).
  { rewrite Htail. now apply decodeColumns_past_end. }
  split; [exact Hall|].
  intros row Hrow Hnodup.
  destruct (DecodeTuple_keys tuple columns row Hrow) as (_ & _ & Hvalue).
  rewrite List.Forall_forall in Hall. apply List.Forall_forall. intros [c s] Hcs.
  cbn [fst]. rewrite (Hvalue Hnodup c s).
  - f_equal. exact (proj1 (Hall _ Hcs)).
  - rewrite Hsplit. apply List.in_or_app. now right.
Qed.

End TruncatedTuples.

Lemma DecodeTuple_past_end_witness :
  exists st,
    In (HeapExamples.colB, st)
       (Heap.decodeColumns (C := Heap.sampleCollaborators) HeapExamples.shortTuple 0
          HeapExamples.twoInts 0)
    /\ Heap.stepBefore st = 4
    /\ Heap.stepValue st = Heap.VNil.
Proof.
  eexists. split; [right; left; reflexivity|]. split; [reflexivity|].
  refine (proj1 (Forall_inv (proj1 (@DecodeTuple_past_end Heap.sampleCollaborators
            HeapExamples.shortTuple HeapExamples.twoInts [_] [] HeapExamples.colB _ _ _)))).
  - reflexivity.
  - vm_compute. discriminate.
Defined.

(** ** What a dump contains *)

Section DumpFacts.

Context `{C : Heap.Collaborators} `{E : Dump.Environment}.

Lemma dumpTableFromReader_fields (filenode : Z) (tableInfo : Dump.TableInfo)
    (attributes : gmap Z (list Dump.AttrInfo))
    (tableReader : Z -> Dump.IOError + list byte) (opts : Dump.Options) :
  let table := Dump.dumpTableFromReader filenode tableInfo attributes tableReader opts in
  Dump.tdOID table = Dump.tiOID tableInfo
  /\ Dump.tdName table = Dump.tiName tableInfo
  /\ Dump.tdKind table = Dump.tiKind tableInfo
  /\ Dump.tdFilenode table = filenode
  /\ Dump.tdRowCount table = len (Dump.tdRows table)
  /\ (Dump.ListOnly opts = true -> Dump.tdRows table = [])
  /\ map Dump.ciName (Dump.tdColumns table)
     = map Dump.atName (default [] (attributes !! Dump.tiOID tableInfo)).
Proof.
  cbv zeta. unfold Dump.dumpTableFromReader.
  assert (Hnames : forall attrs : list Dump.AttrInfo,
            map Dump.ciName
              (map (fun attr => {| Dump.ciName := Dump.atName attr;
                                   Dump.ciType := Dump.TypeName (Dump.atTypID attr);
                                   Dump.ciTypID := Dump.atTypID attr |}) attrs)
            = map Dump.atName attrs).
  { intros attrs. rewrite List.map_map. reflexivity. }
  destruct (Dump.ListOnly opts).
  - cbn. repeat split; auto.
  - destruct (tableReader filenode) as [err|tableData]; cbn; repeat split; auto;
      discriminate.
Qed.

Lemma survives_spec (opts : Dump.Options) (tableInfo : Dump.TableInfo) :
  Dump.survives opts tableInfo = true ->
  (Dump.tiKind tableInfo = "r"%string \/ Dump.tiKind tableInfo = ""%string)
  /\ (Dump.SkipSystemTables opts = true -> Dump.HasPrefix (Dump.tiName tableInfo) "pg_" = false)
  /\ (Dump.TableFilter opts <> ""%string ->
      Dump.Contains (Dump.ToLower (Dump.tiName tableInfo))
                    (Dump.ToLower (Dump.TableFilter opts)) = true).
Proof.
  unfold Dump.survives. intros H.
  apply andb_prop in H as [H Hfilter]. apply andb_prop in H as [Hkind Hsys].
  split; [|split].
  - destruct (String.eqb_spec (Dump.tiKind tableInfo) "r") as [->|_]; [now left|].
    destruct (String.eqb_spec (Dump.tiKind tableInfo) "") as [->|_]; [now right|].
    discriminate.
  - intros Hskip. rewrite Hskip in Hsys. now destruct (Dump.HasPrefix _ _).
  - intros Hset.
    destruct (String.eqb_spec (Dump.TableFilter opts) "") as [|_]; [contradiction|].
    now destruct (Dump.Contains _ _).
Qed.

(** Everything in the result of [DumpDataDir] has passed the filters: a
    database in it is a database of the catalog [global/1262] whose name does
    not start with "template" and equals the database filter when one is
    set; a table in it is a regular relation (kind "r" or empty), not a
    [pg_] table when system tables are skipped, matches the table filter when
    one is set, reports as [RowCount] the number of its rows, and has no rows
    in list-only mode. *)
Theorem DumpDataDir_filtered (dataDir : string) (opts : option Dump.Options)
    (result : Dump.DumpResult (gmap string (Heap.value Heap.Typed))) :
  Dump.DumpDataDir dataDir opts = inr result ->
  let o := default Dump.defaultOptions opts in
  forall dump, In dump (Dump.Databases result) ->
    Dump.HasPrefix (Dump.ddName dump) "template" = false
    /\ (Dump.DatabaseFilter o <> ""%string -> Dump.ddName dump = Dump.DatabaseFilter o)
    /\ (exists dbData db,
          Dump.ReadFile [dataDir; "global"; "1262"]%string = inr dbData
          /\ In db (Dump.ParsePGDatabase dbData)
          /\ Dump.ddOID dump = Dump.dbOID db /\ Dump.ddName dump = Dump.dbName db)
    /\ forall table, In table (Dump.ddTables dump) ->
         (Dump.tdKind table = "r"%string \/ Dump.tdKind table = ""%string)
         /\ (Dump.SkipSystemTables o = true -> Dump.HasPrefix (Dump.tdName table) "pg_" = false)
         /\ (Dump.TableFilter o <> ""%string ->
             Dump.Contains (Dump.ToLower (Dump.tdName table))
                           (Dump.ToLower (Dump.TableFilter o)) = true)
         /\ Dump.tdRowCount table = len (Dump.tdRows table)
         /\ (Dump.ListOnly o = true -> Dump.tdRows table = []).
Proof.
  unfold Dump.DumpDataDir. cbv zeta.
  destruct (Dump.ReadFile [dataDir; "global"; "1262"]%string) as [err|dbData] eqn:Hfile;
    [discriminate|].
  intros [= <-] dump Hdump. cbn [Dump.Databases] in Hdump.
  set (o := default Dump.defaultOptions opts) in *.
  apply list_elem_of_In, list_elem_of_omap in Hdump as (db & Hdb & Hrun).
  apply list_elem_of_In, List.filter_In in Hdb as [Hdb Hsel].
  unfold Dump.selected in Hsel. apply andb_prop in Hsel as [Htemplate Hfilter].
  unfold Dump.dumpDatabase in Hrun.
  repeat match type of Hrun with
         | context [match ?x with inl _ => _ | inr _ => _ end] =>
             destruct x as [?|?]; [discriminate|]
         end.
  injection Hrun as <-. cbn [Dump.ddName Dump.ddOID Dump.ddTables].
  split; [now destruct (Dump.HasPrefix _ _)|]. split; [|split].
  - intros Hset.
    destruct (String.eqb_spec (Dump.DatabaseFilter o) "") as [|_]; [contradiction|].
    destruct (String.eqb_spec (Dump.dbName db) (Dump.DatabaseFilter o)); [auto|discriminate].
  - exists dbData, db. auto.
  - intros table Htable. unfold Dump.DumpDatabaseFromFiles in Htable.
    cbn [Dump.ddTables default] in Htable.
    apply List.in_map_iff in Htable as ([filenode tableInfo] & <- & Hft).
    apply List.filter_In in Hft as [_ Hsurv]. cbn [fst snd] in *.
    destruct (survives_spec o tableInfo Hsurv) as (Hkind & Hsys & Hmatch).
    match goal with
    | |- context [Dump.dumpTableFromReader filenode tableInfo ?attrs ?reader o] =>
        destruct (dumpTableFromReader_fields filenode tableInfo attrs reader o)
          as (_ & Hname & Hk & _ & Hcount & Hlist & _)
    end.
    rewrite Hname, Hk. auto.
Qed.

Lemma find_first {A} (p : A -> bool) (l : list A) :
  match List.find p l with
  | Some x => In x l /\ p x = true
  | None => forall x, In x l -> p x = false
  end.
Proof.
  induction l as [|a l IH]; cbn [List.find]; [intros x []|].
  destruct (p a) eqn:Ha; [split; [now left|exact Ha]|].
  destruct (List.find p l) as [x|].
  - destruct IH. split; [now right|assumption].
  - intros x [<-|Hx]; auto.
Qed.

Lemma find_after {A} (p : A -> bool) (before : list A) (x : A) (after : list A) :
  (forall y, In y before -> p y = false) -> p x = true ->
  List.find p (before ++ x :: after) = Some x.
Proof.
  intros Hbefore Hx. induction before as [|y before IH]; cbn [app List.find].
  - now rewrite Hx.
  - rewrite (Hbefore y) by now left. apply IH. intros z Hz. apply Hbefore. now right.
Qed.

Lemma dumpDatabase_ignores_filter (dataDir : string) (db : Dump.DatabaseInfo)
    (filter : string) (o : Dump.Options) :
  Dump.dumpDatabase dataDir db (DumpOne.withDatabaseFilter filter o)
  = Dump.dumpDatabase dataDir db o.
Proof.
  unfold Dump.dumpDatabase.
  destruct (Dump.ReadFile _) as [|classData]; [reflexivity|].
  destruct (Dump.ReadFile _) as [|attrData]; [reflexivity|].
  destruct o. reflexivity.
Qed.

(** [DumpDatabase] dumps the first database of the catalog with the given
    identifier, whatever its name: it fails only when [global/1262] cannot be
    read, returns no dump and no error when no database has the identifier,
    and otherwise returns what [dumpDatabase] gives for the first entry of
    the catalog with that identifier, a dump carrying the identifier asked
    for.  The database filter of the options
    has no effect on it. *)
Theorem DumpDatabase_by_oid (dataDir : string) (dbOID : Z) (opts : option Dump.Options) :
  (forall err, Dump.ReadFile [dataDir; "global"; "1262"]%string = inl err ->
               DumpOne.DumpDatabase dataDir dbOID opts = inl err)
  /\ (forall dbData, Dump.ReadFile [dataDir; "global"; "1262"]%string = inr dbData ->
        ((forall db, In db (Dump.ParsePGDatabase dbData) -> Dump.dbOID db <> dbOID) ->
         DumpOne.DumpDatabase dataDir dbOID opts = inr None)
        /\ (forall before db after,
              Dump.ParsePGDatabase dbData = before ++ db :: after ->
              (forall earlier, In earlier before -> Dump.dbOID earlier <> dbOID) ->
              Dump.dbOID db = dbOID ->
              DumpOne.DumpDatabase dataDir dbOID opts
              = inr (Dump.dumpDatabase dataDir db (default Dump.defaultOptions opts)))
        /\ exists outcome,
             DumpOne.DumpDatabase dataDir dbOID opts = inr outcome
             /\ forall dump, outcome = Some dump ->
                  Dump.ddOID dump = dbOID
                  /\ exists db, In db (Dump.ParsePGDatabase dbData)
                                /\ Dump.dbOID db = dbOID
                                /\ Dump.ddName dump = Dump.dbName db)
  /\ (forall filter o,
        DumpOne.DumpDatabase dataDir dbOID (Some (DumpOne.withDatabaseFilter filter o))
        = DumpOne.DumpDatabase dataDir dbOID (Some o)).
Proof.
  unfold DumpOne.DumpDatabase. split; [|split].
  - intros err ->. reflexivity.
  - intros dbData ->.
    pose proof (find_first (fun db => Dump.dbOID db =? dbOID) (Dump.ParsePGDatabase dbData))
      as Hfind.
    split; [|split].
    + intros Hnone. destruct (List.find _ _) as [db|]; [|reflexivity].
      destruct Hfind as [Hin Hoid]. apply Z.eqb_eq in Hoid. now destruct (Hnone db Hin).
    + intros before db after -> Hbefore Hoid.
      rewrite (find_after (fun db => Dump.dbOID db =? dbOID) before db after);
        [reflexivity| |now apply Z.eqb_eq].
      intros earlier Hin. apply Z.eqb_neq. now apply Hbefore.
    + destruct (List.find _ _) as [db|]; [|eexists; split; [reflexivity|discriminate]].
      destruct Hfind as [Hin Hoid]. apply Z.eqb_eq in Hoid.
      eexists. split; [reflexivity|]. intros dump Hdump. unfold Dump.dumpDatabase in Hdump.
      repeat match type of Hdump with
             | context [match ?x with inl _ => _ | inr _ => _ end] =>
                 destruct x as [?|?]; [discriminate|]
             end.
      injection Hdump as <-. cbn [Dump.ddOID Dump.ddName]. split; [exact Hoid|].
      now exists db.
  - intros filter o. unfold default. cbn [from_option id].
    destruct (Dump.ReadFile _) as [|dbData]; [reflexivity|].
    destruct (List.find _ _) as [db|]; [|reflexivity].
    now rewrite dumpDatabase_ignores_filter.
Qed.

End DumpFacts.

Lemma DumpDataDir_filtered_witness :
  exists result,
    Dump.DumpDataDir (C := Heap.sampleCollaborators)
      (E := Dump.sampleEnvironment [Dump.globalCatalog; Dump.classCatalog; Dump.attrCatalog;
                                    Dump.usersHeap])
      "/data" None = inr result
    /\ forall dump, In dump (Dump.Databases result) ->
         Dump.HasPrefix (Dump.ddName dump) "template" = false.
Proof.
  destruct (Dump.DumpDataDir (C := Heap.sampleCollaborators)
      (E := Dump.sampleEnvironment [Dump.globalCatalog; Dump.classCatalog; Dump.attrCatalog;
                                    Dump.usersHeap])
      "/data" None) as [err|result] eqn:Hrun; [vm_compute in Hrun; discriminate|].
  exists result. split; [reflexivity|]. intros dump Hdump.
  exact (proj1 (@DumpDataDir_filtered Heap.sampleCollaborators _ _ _ _ Hrun dump Hdump)).
Defined.

Lemma DumpDatabase_by_oid_witness :
  DumpOne.DumpDatabase (C := Heap.sampleCollaborators)
    (E := Dump.sampleEnvironment [Dump.globalCatalog]) "/data" 1 None
  = inr (Dump.dumpDatabase (C := Heap.sampleCollaborators)
           (E := Dump.sampleEnvironment [Dump.globalCatalog]) "/data"
           {| Dump.dbOID := 1; Dump.dbName := "template1" |} Dump.defaultOptions).
Proof.
  destruct (@DumpDatabase_by_oid Heap.sampleCollaborators
              (Dump.sampleEnvironment [Dump.globalCatalog]) "/data" 1 None) as (_ & Hread & _).
  destruct (Hread Heap.onePage) as (_ & Hfound & _); [reflexivity|].
  apply (Hfound [ {| Dump.dbOID := 16384; Dump.dbName := "testdb" |} ]
                {| Dump.dbOID := 1; Dump.dbName := "template1" |} []).
  - reflexivity.
  - intros earlier [<-|[]]. cbn. lia.
  - reflexivity.
Defined.

(** ** Sequence files *)

Lemma checked_bind_inr {A B} (a : A) (k : A -> Sequence.checked B) :
  mbind k (inr a : Sequence.checked A) = k a.
Proof. reflexivity. Qed.

Lemma slice_ok (data : list byte) (a b : Z) :
  0 <= a <= b -> b <= len data ->
  Sequence.slice data a b = inr (take (Z.to_nat (b - a)) (drop (Z.to_nat a) data)).
Proof.
  intros Hab Hb. unfold Sequence.slice.
  destruct (Z.ltb_spec a 0); [lia|]. destruct (Z.ltb_spec b a); [lia|].
  destruct (Z.ltb_spec (len data) b); [lia|]. reflexivity.
Qed.

Lemma sliceFrom_ok (data : list byte) (a : Z) :
  0 <= a <= len data -> Sequence.sliceFrom data a = inr (drop (Z.to_nat a) data).
Proof.
  intros Ha. unfold Sequence.sliceFrom.
  destruct (Z.ltb_spec a 0); [lia|]. destruct (Z.ltb_spec (len data) a); [lia|]. reflexivity.
Qed.

Lemma at_ok (data : list byte) (i : Z) :
  0 <= i < len data -> Sequence.at_ data i = inr (byteAt data i).
Proof.
  intros Hi. unfold Sequence.at_.
  destruct (Z.ltb_spec i 0); [lia|]. destruct (Z.leb_spec (len data) i); [lia|]. reflexivity.
Qed.

Lemma uintN_slice (n : nat) (data : list byte) (a b : Z) :
  0 <= a -> Z.of_nat n <= b - a -> b <= len data ->
  Sequence.uintN n (take (Z.to_nat (b - a)) (drop (Z.to_nat a) data))
  = inr (le_at data (Z.to_nat a) n).
Proof.
  intros Ha Hn Hb. unfold Sequence.uintN. rewrite len_take_drop by lia.
  destruct (Z.ltb_spec (b - a) (Z.of_nat n)); [lia|].
  unfold le_at. rewrite take_take. rewrite Nat.min_l by lia. reflexivity.
Qed.

Lemma uintN_from (n : nat) (data : list byte) (a : Z) :
  0 <= a -> a + Z.of_nat n <= len data ->
  Sequence.uintN n (drop (Z.to_nat a) data) = inr (le_at data (Z.to_nat a) n).
Proof.
  intros Ha Hn. unfold Sequence.uintN. rewrite len_drop by lia.
  destruct (Z.ltb_spec (len data - a) (Z.of_nat n)); [lia|]. reflexivity.
Qed.

Lemma int64From_ok (data : list byte) (offset : Z) :
  0 <= offset -> offset + 8 <= len data ->
  Sequence.int64From data offset
  = inr (Sequence.int64_of_uint64 (Uint64_at data (Z.to_nat offset))).
Proof.
  intros Ho Hfit. unfold Sequence.int64From, Sequence.uint64.
  rewrite sliceFrom_ok by lia. rewrite checked_bind_inr; cbv beta.
  rewrite uintN_from by lia. reflexivity.
Qed.

Lemma byteAt_slice (data : list byte) (a n i : Z) :
  0 <= a -> 0 <= i < n ->
  byteAt (take (Z.to_nat n) (drop (Z.to_nat a) data)) i = byteAt data (a + i).
Proof.
  intros Ha Hi. unfold byteAt.
  rewrite lookup_take_lt by lia. rewrite lookup_drop.
  replace (Z.to_nat a + Z.to_nat i)%nat with (Z.to_nat (a + i)) by lia. reflexivity.
Qed.

Lemma int64_of_uint64_range (u : Z) :
  0 <= u < 2 ^ 64 -> - 2 ^ 63 <= Sequence.int64_of_uint64 u < 2 ^ 63.
Proof.
  intros Hu. unfold Sequence.int64_of_uint64. destruct (Z.ltb_spec u (2 ^ 63)); lia.
Qed.

Lemma Uint64_at_range (data : list byte) (a : nat) : 0 <= Uint64_at data a < 2 ^ 64.
Proof.
  split; [apply le_decode_nonneg|].
  unfold Uint64_at, le_at.
  pose proof (le_decode_bound (take 8 (drop a data))) as Hb.
  assert (Hlen : 0 <= len (take 8 (drop a data)) <= 8).
  { unfold len. rewrite length_take. lia. }
  assert (Hpow : 256 ^ len (take 8 (drop a data)) <= 256 ^ 8)
    by (apply Z.pow_le_mono_r; lia).
  change (256 ^ 8) with (2 ^ 64) in Hpow. lia.
Qed.

Ltac read64 off :=
  rewrite (int64From_ok _ off) by lia; rewrite checked_bind_inr; cbv beta.

(** What [parseSequenceTuple] returns, by the length of the data and the
    layout marker. *)
Lemma parseSequenceTuple_cases (data : list byte) :
  exists r,
    Sequence.parseSequenceTuple data = inr r
    /\ ((exists e, r = inl e)
        <-> len data < 8 \/ (Sequence.modernMarker data = true /\ len data < 52))
    /\ forall seq, r = inr seq ->
         (Sequence.modernMarker data = true ->
          Sequence.StartValue seq = Sequence.int64_of_uint64 (Uint64_at data 4)
          /\ Sequence.IncrementBy seq = Sequence.int64_of_uint64 (Uint64_at data 12)
          /\ Sequence.MaxValue seq = Sequence.int64_of_uint64 (Uint64_at data 20)
          /\ Sequence.MinValue seq = Sequence.int64_of_uint64 (Uint64_at data 28)
          /\ Sequence.CacheValue seq = Sequence.int64_of_uint64 (Uint64_at data 36)
          /\ Sequence.IsCycled seq = negb (byteAt data 44 =? 0)
          /\ Sequence.LastValue seq
             = (if 57 <=? len data then Sequence.int64_of_uint64 (Uint64_at data 48) else 0)
          /\ Sequence.IsCalled seq = (57 <=? len data) && negb (byteAt data 56 =? 0))
         /\ (Sequence.modernMarker data = false ->
             Sequence.LastValue seq = Sequence.int64_of_uint64 (Uint64_at data 0)
             /\ Sequence.StartValue seq
                = (if 57 <=? len data then Sequence.int64_of_uint64 (Uint64_at data 8) else 0)
             /\ Sequence.IncrementBy seq
                = (if 57 <=? len data then Sequence.int64_of_uint64 (Uint64_at data 16) else 0)
             /\ Sequence.MaxValue seq
                = (if 57 <=? len data then Sequence.int64_of_uint64 (Uint64_at data 24) else 0)
             /\ Sequence.MinValue seq
                = (if 57 <=? len data then Sequence.int64_of_uint64 (Uint64_at data 32) else 0)
             /\ Sequence.CacheValue seq
                = (if 57 <=? len data then Sequence.int64_of_uint64 (Uint64_at data 40) else 0)
             /\ Sequence.IsCycled seq = (57 <=? len data) && negb (byteAt data 56 =? 0)
             /\ Sequence.IsCalled seq = (58 <=? len data) && negb (byteAt data 57 =? 0)).
Proof.
  unfold Sequence.parseSequenceTuple.
  destruct (Z.ltb_spec (len data) 8) as [Hshort|Hlen].
  { eexists. split; [reflexivity|]. split; [|discriminate].
    split; [intros _; now left|intros _; now eexists]. }
  rewrite (slice_ok data 0 4) by lia. rewrite checked_bind_inr; cbv beta.
  unfold Sequence.uint32. rewrite (uintN_slice 4 data 0 4) by lia.
  rewrite checked_bind_inr; cbv beta.
  change (le_at data (Z.to_nat 0) 4) with (Uint32_at data 0).
  change ((Uint32_at data 0 =? 20) || (Uint32_at data 0 =? 21) || (Uint32_at data 0 =? 23))
    with (Sequence.modernMarker data).
  destruct (Sequence.modernMarker data) eqn:Hmarker.
  - cbv zeta. destruct (Z.ltb_spec (len data) (4 + 48)) as [Hsmall|Hbig].
    { eexists. split; [reflexivity|]. split; [|discriminate].
      split; [intros _; right; split; [reflexivity|lia]|intros _; now eexists]. }
    read64 4. read64 (4 + 8). read64 (4 + 8 + 8). read64 (4 + 8 + 8 + 8).
    read64 (4 + 8 + 8 + 8 + 8).
    rewrite (at_ok data (4 + 8 + 8 + 8 + 8 + 8)) by lia. rewrite checked_bind_inr; cbv beta.
    assert (Hal : Wal.align8 (4 + 8 + 8 + 8 + 8 + 8 + 1) = 48) by (vm_compute; reflexivity).
    rewrite Hal.
    destruct (Z.leb_spec (48 + 9) (len data)) as [Hlast|Hnolast].
    + read64 48.
      destruct (Z.ltb_spec (48 + 8) (len data)); [|lia].
      rewrite (at_ok data (48 + 8)) by lia. rewrite checked_bind_inr; cbv beta.
      eexists. split; [reflexivity|].
      split; [split; [intros [e He]; discriminate|intros [?|[_ ?]]; lia]|].
      intros seq [= <-]. split; [|discriminate]. intros _. cbn.
      destruct (Z.leb_spec 57 (len data)); [|lia]. repeat split; reflexivity.
    + eexists. split; [reflexivity|].
      split; [split; [intros [e He]; discriminate|intros [?|[_ ?]]; lia]|].
      intros seq [= <-]. split; [|discriminate]. intros _. cbn.
      destruct (Z.leb_spec 57 (len data)); [lia|]. repeat split; reflexivity.
  - cbv zeta. destruct (Z.ltb_spec (len data) 57) as [Hsmall|Hbig].
    + destruct (Z.leb_spec 8 (len data)); [|lia].
      rewrite (slice_ok data 0 8) by lia. rewrite checked_bind_inr; cbv beta.
      unfold Sequence.uint64. rewrite (uintN_slice 8 data 0 8) by lia.
      rewrite checked_bind_inr; cbv beta.
      eexists. split; [reflexivity|].
      split; [split; [intros [e He]; discriminate|intros [?|[? _]]; [lia|discriminate]]|].
      intros seq [= <-]. split; [discriminate|]. intros _. cbn.
      destruct (Z.leb_spec 57 (len data)); [lia|].
      destruct (Z.leb_spec 58 (len data)); [lia|]. repeat split; reflexivity.
    + read64 0. read64 (0 + 8). read64 (0 + 8 + 8). read64 (0 + 8 + 8 + 8).
      read64 (0 + 8 + 8 + 8 + 8). read64 (0 + 8 + 8 + 8 + 8 + 8).
      destruct (Z.ltb_spec (0 + 8 + 8 + 8 + 8 + 8 + 8 + 8) (len data)); [|lia].
      rewrite (at_ok data (0 + 8 + 8 + 8 + 8 + 8 + 8 + 8)) by lia.
      rewrite checked_bind_inr; cbv beta.
      destruct (Z.ltb_spec (0 + 8 + 8 + 8 + 8 + 8 + 8 + 8 + 1) (len data)) as [Hcalled|Hnone].
      * rewrite (at_ok data (0 + 8 + 8 + 8 + 8 + 8 + 8 + 8 + 1)) by lia.
        rewrite checked_bind_inr; cbv beta.
        eexists. split; [reflexivity|].
        split; [split; [intros [e He]; discriminate|intros [?|[? _]]; [lia|discriminate]]|].
        intros seq [= <-]. split; [discriminate|]. intros _. cbn.
        destruct (Z.leb_spec 57 (len data)); [|lia].
        destruct (Z.leb_spec 58 (len data)); [|lia]. repeat split; reflexivity.
      * eexists. split; [reflexivity|].
        split; [split; [intros [e He]; discriminate|intros [?|[? _]]; [lia|discriminate]]|].
        intros seq [= <-]. split; [discriminate|]. intros _. cbn.
        destruct (Z.leb_spec 57 (len data)); [|lia].
        destruct (Z.leb_spec 58 (len data)); [lia|]. repeat split; reflexivity.
Qed.

(** [parseSequenceTuple] never goes out of bounds: every read it makes is
    covered by a length test.  It reports an error exactly for data under 8
    bytes, or under 52 bytes when the first four bytes are the type
    identifier 20, 21 or 23 (the layout with the type in front); otherwise it
    returns a sequence whose [LastValue] is the signed 64-bit number at
    offset 48 of that layout when at least 57 bytes are there (0 when not),
    and at offset 0 of the other layout; data of the other layout under 57
    bytes sets no field but [LastValue]. *)
Theorem parseSequenceTuple_safe (data : list byte) :
  exists r,
    Sequence.parseSequenceTuple data = inr r
    /\ ((exists e, r = inl e)
        <-> len data < 8 \/ (Sequence.modernMarker data = true /\ len data < 52))
    /\ forall seq, r = inr seq ->
         - 2 ^ 63 <= Sequence.LastValue seq < 2 ^ 63
         /\ Sequence.LastValue seq
            = (if Sequence.modernMarker data
               then if 57 <=? len data
                    then Sequence.int64_of_uint64 (Uint64_at data 48) else 0
               else Sequence.int64_of_uint64 (Uint64_at data 0))
         /\ (Sequence.modernMarker data = false -> len data < 57 ->
             Sequence.StartValue seq = 0 /\ Sequence.IncrementBy seq = 0
             /\ Sequence.MaxValue seq = 0 /\ Sequence.MinValue seq = 0
             /\ Sequence.CacheValue seq = 0
             /\ Sequence.IsCycled seq = false /\ Sequence.IsCalled seq = false).
Proof.
  destruct (parseSequenceTuple_cases data) as (r & Hrun & Herr & Hseq).
  exists r. split; [exact Hrun|]. split; [exact Herr|].
  intros seq Hr. destruct (Hseq seq Hr) as [Hmodern Hold].
  assert (Hlast : Sequence.LastValue seq
            = (if Sequence.modernMarker data
               then if 57 <=? len data
                    then Sequence.int64_of_uint64 (Uint64_at data 48) else 0
               else Sequence.int64_of_uint64 (Uint64_at data 0))).
  { destruct (Sequence.modernMarker data).
    - now destruct (Hmodern eq_refl) as (_ & _ & _ & _ & _ & _ & Hl & _).
    - now destruct (Hold eq_refl) as (Hl & _). }
  split; [|split; [exact Hlast|]].
  - rewrite Hlast.
    pose proof (int64_of_uint64_range _ (Uint64_at_range data 48)).
    pose proof (int64_of_uint64_range _ (Uint64_at_range data 0)).
    destruct (Sequence.modernMarker data); [destruct (57 <=? len data)|]; lia.
  - intros Hmarker Hsmall.
    destruct (Hold Hmarker) as (_ & Hs & Hi & Hmax & Hmin & Hcache & Hc & Hd).
    destruct (Z.leb_spec 57 (len data)); [lia|].
    destruct (Z.leb_spec 58 (len data)); [lia|]. repeat split; assumption.
Qed.

Lemma parseSequenceTuple_safe_witness :
  exists r, Sequence.parseSequenceTuple (mkbytes [5; 0; 0; 0; 0; 0; 0; 0]) = inr r
            /\ exists seq, r = inr seq /\ Sequence.LastValue seq = 5.
Proof.
  destruct (parseSequenceTuple_safe (mkbytes [5; 0; 0; 0; 0; 0; 0; 0]))
    as (r & Hrun & Herr & Hseq).
  exists r. split; [exact Hrun|].
  destruct r as [e|seq].
  - exfalso. destruct (proj1 Herr (ex_intro _ e eq_refl)) as [H|[_ H]];
      vm_compute in H; discriminate.
  - exists seq. split; [reflexivity|].
    destruct (Hseq seq eq_refl) as (_ & Hlast & _). rewrite Hlast. vm_compute. reflexivity.
Defined.

Lemma Uint16_at_range (data : list byte) (a : nat) : 0 <= Uint16_at data a < 2 ^ 16.
Proof.
  split; [apply le_decode_nonneg|].
  unfold Uint16_at, le_at.
  pose proof (le_decode_bound (take 2 (drop a data))) as Hb.
  assert (Hlen : 0 <= len (take 2 (drop a data)) <= 2).
  { unfold len. rewrite length_take. lia. }
  assert (Hpow : 256 ^ len (take 2 (drop a data)) <= 256 ^ 2)
    by (apply Z.pow_le_mono_r; lia).
  change (256 ^ 2) with (2 ^ 16) in Hpow. lia.
Qed.

(** [ParseSequenceFile] and [IsSequenceFile] agree, and the parser has one
    way to panic.  [IsSequenceFile] always answers; a file the parser returns
    a sequence for is one [IsSequenceFile] accepts, and a file
    [IsSequenceFile] rejects gets an error from the parser.  The parser stops
    with a slice-bounds panic exactly for an accepted page with a lower bound
    of at least 28 whose first item has a non-zero offset, lies inside the
    page, is 23 bytes long and does not have 23 in its header-length byte:
    the header length is then replaced by 24, beyond the end of the item. *)
Theorem ParseSequenceFile_outcome (data : list byte) :
  let itemPtr := Uint32_at data 24 in
  let itemOffset := Z.land itemPtr 0x7FFF in
  let itemLen := Z.land (Z.shiftr itemPtr 17) 0x7FFF in
  (exists answer, Sequence.IsSequenceFile data = inr answer)
  /\ (forall seq, Sequence.ParseSequenceFile data = inr (inr seq) ->
                  Sequence.IsSequenceFile data = inr true)
  /\ (Sequence.IsSequenceFile data = inr false ->
      exists e, Sequence.ParseSequenceFile data = inr (inl e))
  /\ (forall f, Sequence.ParseSequenceFile data = inl f ->
        f = SegmentIO.SliceBoundsOutOfRange
        /\ Sequence.IsSequenceFile data = inr true
        /\ 28 <= Uint16_at data 12
        /\ itemOffset <> 0
        /\ itemLen = 23
        /\ itemOffset + 23 <= PageSize
        /\ byteAt data (itemOffset + 22) <> 23)
  /\ (Sequence.IsSequenceFile data = inr true ->
      28 <= Uint16_at data 12 ->
      itemOffset <> 0 -> itemLen = 23 -> itemOffset + 23 <= PageSize ->
      byteAt data (itemOffset + 22) <> 23 ->
      Sequence.ParseSequenceFile data = inl SegmentIO.SliceBoundsOutOfRange).
Proof.
  cbv zeta. unfold Sequence.ParseSequenceFile, Sequence.IsSequenceFile.
  destruct (Z.ltb_spec (len data) PageSize) as [Hsmall|Hpage].
  { split; [eexists; reflexivity|]. split; [discriminate|].
    split; [intros _; eexists; reflexivity|]. split; [discriminate|].
    intros H. discriminate H. }
  unfold PageSize in Hpage. unfold PageSize, headerSize, itemIDSize, Sequence.uint16,
    Sequence.uint32.
  rewrite (slice_ok data 16 18) by lia. rewrite !checked_bind_inr; cbv beta.
  rewrite (uintN_slice 2 data 16 18) by lia. rewrite !checked_bind_inr; cbv beta.
  change (le_at data (Z.to_nat 16) 2) with (Uint16_at data 16).
  pose proof (Uint16_at_range data 16) as Hspecial.
  set (special := Uint16_at data 16) in *.
  destruct (Z.eqb_spec special 0) as [Hzero|Hnz]; cbn [orb].
  { split; [eexists; reflexivity|]. split; [discriminate|].
    split; [intros _; eexists; reflexivity|]. split; [discriminate|].
    intros H. discriminate H. }
  destruct (Z.leb_spec (8192 - 2) special) as [Hbig|Hin].
  { split; [eexists; reflexivity|]. split; [discriminate|].
    split; [intros _; eexists; reflexivity|]. split; [discriminate|].
    intros H. discriminate H. }
  rewrite (sliceFrom_ok data special) by lia. rewrite !checked_bind_inr; cbv beta.
  rewrite (uintN_from 2 data special) by lia. rewrite !checked_bind_inr; cbv beta.
  set (magic := le_at data (Z.to_nat special) 2).
  change (mret (magic =? Sequence.SequenceMagic))
    with (@inr SegmentIO.fault bool (magic =? Sequence.SequenceMagic)).
  destruct (Z.eqb_spec magic Sequence.SequenceMagic) as [Hmagic|Hmagic]; cbn [negb].
  2: { split; [eexists; reflexivity|]. split; [discriminate|].
       split; [intros _; eexists; reflexivity|]. split; [discriminate|].
       intros H. discriminate H. }
  split; [eexists; reflexivity|].
  rewrite (slice_ok data 12 14) by lia. rewrite !checked_bind_inr; cbv beta.
  rewrite (uintN_slice 2 data 12 14) by lia. rewrite !checked_bind_inr; cbv beta.
  change (le_at data (Z.to_nat 12) 2) with (Uint16_at data 12).
  destruct (Z.ltb_spec (Uint16_at data 12) (24 + 4)) as [Hlower|Hlower].
  { split; [discriminate|]. split; [discriminate|]. split; [discriminate|]. intros; lia. }
  rewrite (slice_ok data 24 (24 + 4)) by lia. rewrite !checked_bind_inr; cbv beta.
  rewrite (uintN_slice 4 data 24 (24 + 4)) by lia. rewrite !checked_bind_inr; cbv beta.
  change (le_at data (Z.to_nat 24) 4) with (Uint32_at data 24).
  pose proof (Uint32_at_range data 24) as Hptr.
  set (itemPtr := Uint32_at data 24) in *.
  assert (Hoff : 0 <= Z.land itemPtr 32767) by (apply Z.land_nonneg; lia).
  assert (Hlen : 0 <= Z.land (Z.shiftr itemPtr 17) 32767) by (apply Z.land_nonneg; lia).
  set (itemOffset := Z.land itemPtr 32767) in *.
  set (itemLen := Z.land (Z.shiftr itemPtr 17) 32767) in *.
  clearbody itemOffset itemLen.
  destruct (Z.eqb_spec itemOffset 0) as [Hoz|Honz]; cbn [orb].
  { split; [discriminate|]. split; [discriminate|]. split; [discriminate|]. intros; lia. }
  destruct (Z.eqb_spec itemLen 0) as [Hlz|Hlnz]; cbn [orb].
  { split; [discriminate|]. split; [discriminate|]. split; [discriminate|]. intros; lia. }
  destruct (Z.ltb_spec 8192 (itemOffset + itemLen)) as [Hout|Hfit].
  { split; [discriminate|]. split; [discriminate|]. split; [discriminate|]. intros; lia. }
  rewrite (slice_ok data itemOffset (itemOffset + itemLen)) by lia.
  rewrite !checked_bind_inr; cbv beta.
  replace (itemOffset + itemLen - itemOffset) with itemLen by lia.
  assert (Htuple : len (take (Z.to_nat itemLen) (drop (Z.to_nat itemOffset) data)) = itemLen)
    by (apply len_take_drop; lia).
  rewrite Htuple.
  destruct (Z.ltb_spec itemLen 23) as [Htiny|Hheader].
  { split; [discriminate|]. split; [discriminate|]. split; [discriminate|]. intros; lia. }
  rewrite at_ok by lia. rewrite !checked_bind_inr; cbv beta.
  rewrite byteAt_slice by lia.
  pose proof (byteAt_range data (itemOffset + 22)) as Hhoff.
  set (hoff := byteAt data (itemOffset + 22)) in *. clearbody hoff.
  assert (Hparsed : forall seqData,
            (forall seq, Sequence.parseSequenceTuple seqData = inr (inr seq) ->
                         @inr SegmentIO.fault bool true = inr true)
            /\ (@inr SegmentIO.fault bool true = inr false ->
                exists e, Sequence.parseSequenceTuple seqData = inr (inl e))
            /\ (forall f, Sequence.parseSequenceTuple seqData = inl f ->
                  f = SegmentIO.SliceBoundsOutOfRange
                  /\ @inr SegmentIO.fault bool true = inr true
                  /\ 24 + 4 <= Uint16_at data 12
                  /\ itemOffset <> 0
                  /\ itemLen = 23 /\ itemOffset + 23 <= 8192 /\ hoff <> 23)).
  { intros seqData. destruct (parseSequenceTuple_cases seqData) as (r & -> & _).
    split; [reflexivity|]. split; [discriminate|discriminate]. }
  destruct (Z.ltb_spec hoff 23) as [Hlow|Hhigh]; cbn [orb].
  - destruct (Z.eq_dec itemLen 23) as [H23|Hlong].
    + unfold Sequence.sliceFrom. rewrite Htuple.
      destruct (Z.ltb_spec 24 0); [lia|]. destruct (Z.ltb_spec itemLen 24); [|lia].
      cbn [orb]. split; [discriminate|]. split; [discriminate|].
      split; [intros f [= <-]; repeat split; auto; lia|reflexivity].
    + rewrite sliceFrom_ok by lia. rewrite !checked_bind_inr; cbv beta.
      destruct (Hparsed (drop (Z.to_nat 24)
                  (take (Z.to_nat itemLen) (drop (Z.to_nat itemOffset) data))))
        as (H1 & H2 & H3).
      split; [exact H1|]. split; [exact H2|]. split; [exact H3|]. intros; lia.
  - destruct (Z.ltb_spec itemLen hoff) as [Hbeyond|Hinside].
    + destruct (Z.eq_dec itemLen 23) as [H23|Hlong].
      * unfold Sequence.sliceFrom. rewrite Htuple.
        destruct (Z.ltb_spec 24 0); [lia|]. destruct (Z.ltb_spec itemLen 24); [|lia].
        cbn [orb]. split; [discriminate|]. split; [discriminate|].
        split; [intros f [= <-]; repeat split; auto; lia|reflexivity].
      * rewrite sliceFrom_ok by lia. rewrite !checked_bind_inr; cbv beta.
        destruct (Hparsed (drop (Z.to_nat 24)
                    (take (Z.to_nat itemLen) (drop (Z.to_nat itemOffset) data))))
          as (H1 & H2 & H3).
        split; [exact H1|]. split; [exact H2|]. split; [exact H3|]. intros; lia.
    + rewrite sliceFrom_ok by lia. rewrite !checked_bind_inr; cbv beta.
      destruct (Hparsed (drop (Z.to_nat hoff)
                  (take (Z.to_nat itemLen) (drop (Z.to_nat itemOffset) data))))
        as (H1 & H2 & H3).
      split; [exact H1|]. split; [exact H2|]. split; [exact H3|]. intros; lia.
Qed.

Lemma ParseSequenceFile_outcome_witness :
  Sequence.ParseSequenceFile Sequence.shortItemPage = inl SegmentIO.SliceBoundsOutOfRange.
Proof.
  destruct (ParseSequenceFile_outcome Sequence.shortItemPage) as (_ & _ & _ & _ & Hpanic).
  apply Hpanic.
  - vm_compute. reflexivity.
  - vm_compute. discriminate.
  - vm_compute. discriminate.
  - vm_compute. reflexivity.
  - vm_compute. discriminate.
  - vm_compute. discriminate.
Defined.

(** ** Searching a dump *)

Lemma loop_app {A R} (body : A -> R -> R + R) (l1 l2 : list A) (acc : R) :
  Search.loop body (l1 ++ l2) acc
  = match Search.loop body l1 acc with
    | inl returned => inl returned
    | inr acc' => Search.loop body l2 acc'
    end.
Proof.
  revert acc. induction l1 as [|a l1 IH]; intros acc; [reflexivity|].
  cbn [app Search.loop]. destruct (body a acc); [reflexivity|apply IH].
Qed.

(** A loop whose body collects the matches of its element collects the
    matches of all elements. *)
Lemma loop_collect {A R} (limit : Z) (f : A -> list R) (body : A -> list R -> list R + list R)
    (l : list A) (acc : list R) :
  (forall a acc, body a acc = Search.collect limit (f a) acc) ->
  Search.loop body l acc = Search.collect limit (concat (map f l)) acc.
Proof.
  intros Hbody. revert acc. induction l as [|a l IH]; intros acc; [reflexivity|].
  cbn [map concat Search.loop]. unfold Search.collect at 1. rewrite loop_app.
  fold (Search.collect limit (f a) acc). rewrite Hbody.
  destruct (Search.collect limit (f a) acc); [reflexivity|]. apply IH.
Qed.

Lemma collect_cons {R} (limit : Z) (x : R) (found acc : list R) :
  Search.collect limit (x :: found) acc
  = if (0 <? limit) && (limit <=? len (acc ++ [x])) then inl (acc ++ [x])
    else Search.collect limit found (acc ++ [x]).
Proof.
  unfold Search.collect. cbn [Search.loop].
  now destruct ((0 <? limit) && (limit <=? len (acc ++ [x]))).
Qed.

(** What collecting under a limit amounts to: the first [limit] elements
    when the limit is positive, all of them otherwise. *)
Lemma collect_take {R} (limit : Z) (found acc : list R) :
  limit <= 0 \/ len acc < limit ->
  match Search.collect limit found acc with
  | inl matches | inr matches =>
      matches = acc ++ (if 0 <? limit then take (Z.to_nat (limit - len acc)) found else found)
  end.
Proof.
  revert acc. induction found as [|x found IH]; intros acc Hroom.
  - cbn. destruct (0 <? limit); [rewrite take_nil|]; now rewrite app_nil_r.
  - rewrite collect_cons.
    assert (Hlen : len (acc ++ [x]) = len acc + 1) by (rewrite len_app; reflexivity).
    destruct (Z.ltb_spec 0 limit) as [Hpos|Hnone]; cbn [andb].
    + destruct Hroom as [|Hroom]; [lia|].
      destruct (Z.leb_spec limit (len (acc ++ [x]))) as [Hfull|Hmore].
      * replace (Z.to_nat (limit - len acc)) with 1%nat by lia. reflexivity.
      * specialize (IH (acc ++ [x]) ltac:(right; lia)).
        destruct (Z.ltb_spec 0 limit); [|lia].
        replace (Z.to_nat (limit - len acc))
          with (S (Z.to_nat (limit - len (acc ++ [x])))) by lia.
        cbn [take]. rewrite <- app_assoc in IH. exact IH.
    + specialize (IH (acc ++ [x]) ltac:(left; lia)).
      destruct (Z.ltb_spec 0 limit); [lia|].
      rewrite <- app_assoc in IH. exact IH.
Qed.

Section SearchFacts.

Context `{C : Heap.Collaborators}.
Variable Regexp : Type.
Variable Compile : string -> option Regexp.
Variable MatchString : Regexp -> list byte -> bool.
Variable matchTyped : Heap.Typed -> Regexp -> bool.
Variable rangeRow : gmap string (Heap.value Heap.Typed)
                    -> list (string * Heap.value Heap.Typed).

Lemma columns_collect (opts : Search.SearchOptions) (re : Regexp) (db table : string)
    (numbered : Z * gmap string (Heap.value Heap.Typed))
    (acc : list Search.SearchResult) :
  Search.loop (Search.columnBody Regexp MatchString matchTyped opts re db table
                 (fst numbered) (snd numbered))
              (rangeRow (snd numbered)) acc
  = Search.collect (Search.MaxResults opts)
      (Search.matchesOfRow Regexp MatchString matchTyped rangeRow opts re db table numbered)
      acc.
Proof.
  unfold Search.matchesOfRow. revert acc.
  induction (rangeRow (snd numbered)) as [|[colName value] entries IH]; intros acc;
    [reflexivity|].
  cbn [Search.loop omap list_omap snd fst]. unfold Search.columnBody at 1.
  destruct (Search.matchValue Regexp MatchString matchTyped value re).
  - unfold Search.collect. cbn [Search.loop].
    destruct ((0 <? Search.MaxResults opts) && _); [reflexivity|].
    apply IH.
  - apply IH.
Qed.

Lemma searchLoops_take (opts : Search.SearchOptions) (re : Regexp)
    (result : Dump.DumpResult (gmap string (Heap.value Heap.Typed))) :
  Search.searchLoops Regexp MatchString matchTyped rangeRow opts re result
  = (if 0 <? Search.MaxResults opts
     then take (Z.to_nat (Search.MaxResults opts))
               (Search.allMatches Regexp MatchString matchTyped rangeRow opts re result)
     else Search.allMatches Regexp MatchString matchTyped rangeRow opts re result).
Proof.
  unfold Search.searchLoops.
  rewrite (loop_collect (Search.MaxResults opts)
             (fun db => concat (map (fun table =>
                concat (map (Search.matchesOfRow Regexp MatchString matchTyped rangeRow opts re
                               (Dump.ddName db) (Dump.tdName table))
                            (Search.indexed (Dump.tdRows table))))
                (Dump.ddTables db)))).
  - fold (Search.allMatches Regexp MatchString matchTyped rangeRow opts re result).
    pose proof (collect_take (Search.MaxResults opts)
                  (Search.allMatches Regexp MatchString matchTyped rangeRow opts re result) [])
      as Htake.
    change (len (@nil Search.SearchResult)) with 0 in Htake.
    rewrite Z.sub_0_r in Htake. cbn [app] in Htake.
    destruct (Search.collect _ _ _); apply Htake; lia.
  - intros db acc. apply loop_collect. intros table acc'. apply loop_collect.
    intros numbered acc''. apply columns_collect.
Qed.

Lemma indexed_In {A} (l : list A) (i : Z) (a : A) :
  In (i, a) (Search.indexed l) <-> 0 <= i /\ l !! Z.to_nat i = Some a.
Proof.
  unfold Search.indexed. rewrite <- list_elem_of_In, elem_of_lookup_imap. split.
  - intros (j & x & [= -> ->] & Hj). split; [lia|]. now rewrite Nat2Z.id.
  - intros [Hi Hl]. exists (Z.to_nat i), a. split; [f_equal; lia|exact Hl].
Qed.

(** [SearchInDump] needs options and a pattern that compiles.  It then
    returns the matches of the dump in the order of the loops (databases,
    tables, rows, entries of the row), all of them when [MaxResults] is 0 or
    less and the first [MaxResults] of them otherwise.  When the [range] over
    a row meets exactly the entries of the row, the matches are exactly the
    entries whose value [matchValue] accepts, each with the names of its
    database, table and column, the index of its row, and the row itself
    when [IncludeRow] is set.  [Search] is [SearchInDump] on the dump of the
    data directory with system tables skipped. *)
Theorem SearchInDump_matches `{E : Dump.Environment}
    (result : Dump.DumpResult (gmap string (Heap.value Heap.Typed)))
    (opts : Search.SearchOptions) (re : Regexp) :
  Compile (Search.patternOf opts) = Some re ->
  let every := Search.allMatches Regexp MatchString matchTyped rangeRow opts re result in
  Search.SearchInDump Regexp Compile MatchString matchTyped rangeRow result (Some opts)
  = inr (if 0 <? Search.MaxResults opts
         then take (Z.to_nat (Search.MaxResults opts)) every else every)
  /\ ((forall row k v, In (k, v) (rangeRow row) <-> row !! k = Some v) ->
      forall m, In m every <->
        exists db table row,
          In db (Dump.Databases result) /\ In table (Dump.ddTables db)
          /\ 0 <= Search.RowNum m
          /\ Dump.tdRows table !! Z.to_nat (Search.RowNum m) = Some row
          /\ row !! Search.Column m = Some (Search.Value_ m)
          /\ Search.matchValue Regexp MatchString matchTyped (Search.Value_ m) re = true
          /\ Search.Database m = Dump.ddName db
          /\ Search.Table m = Dump.tdName table
          /\ Search.Row_ m = (if Search.IncludeRow opts then Some row else None))
  /\ (forall dataDir,
        Search.Search Regexp Compile MatchString matchTyped rangeRow dataDir (Some opts)
        = match Dump.DumpDataDir dataDir (Some Search.dumpOptions) with
          | inl err => inl (Search.DumpFailed err)
          | inr dump =>
              Search.SearchInDump Regexp Compile MatchString matchTyped rangeRow dump (Some opts)
          end).
Proof.
  intros Hre every. split; [|split].
  - unfold Search.SearchInDump. rewrite Hre. f_equal. apply searchLoops_take.
  - intros Hrange m. unfold every, Search.allMatches. split.
    + intros Hm.
      apply List.in_concat in Hm as (ms & Hms & Hm).
      apply List.in_map_iff in Hms as (db & <- & Hdb).
      apply List.in_concat in Hm as (ms & Hms & Hm).
      apply List.in_map_iff in Hms as (table & <- & Htable).
      apply List.in_concat in Hm as (ms & Hms & Hm).
      apply List.in_map_iff in Hms as ([i row] & <- & Hrow).
      apply indexed_In in Hrow as [Hi Hrow].
      unfold Search.matchesOfRow in Hm.
      apply list_elem_of_In, list_elem_of_omap in Hm as ([k v] & Hentry & Hmatch).
      apply list_elem_of_In, Hrange in Hentry. cbn [fst snd] in *.
      destruct (Search.matchValue Regexp MatchString matchTyped v re) eqn:Hv; [|discriminate].
      injection Hmatch as <-. cbn.
      exists db, table, row. repeat split; auto.
    + intros (db & table & row & Hdb & Htable & Hi & Hrow & Hentry & Hv & Hd & Ht & Hr).
      apply List.in_concat. eexists. split; [apply List.in_map; exact Hdb|].
      apply List.in_concat. eexists. split; [apply List.in_map; exact Htable|].
      apply List.in_concat. eexists.
      split; [apply List.in_map, (proj2 (indexed_In _ (Search.RowNum m) row)); auto|].
      unfold Search.matchesOfRow. cbn [fst snd].
      apply list_elem_of_In, list_elem_of_omap.
      exists (Search.Column m, Search.Value_ m).
      split; [apply list_elem_of_In, Hrange; exact Hentry|].
      cbn [fst snd]. rewrite Hv. f_equal. destruct m. cbn in *. congruence.
  - intros dataDir. unfold Search.Search, Search.SearchInDump. rewrite Hre.
    destruct (Dump.DumpDataDir dataDir _); reflexivity.
Qed.

End SearchFacts.

Lemma SearchInDump_matches_witness :
  exists matches,
    Search.SearchInDump (C := Heap.sampleCollaborators) (list byte)
      (fun s => Some (Toast.asciiBytes s)) Search.prefixMatch (fun _ _ => false) map_to_list
      Search.sampleDump (Some (Search.sampleOptions 3)) = inr matches
    /\ len matches = 3.
Proof.
  destruct (@SearchInDump_matches Heap.sampleCollaborators (list byte)
              (fun s => Some (Toast.asciiBytes s)) Search.prefixMatch (fun _ _ => false)
              map_to_list (Dump.sampleEnvironment []) Search.sampleDump
              (Search.sampleOptions 3) (Toast.asciiBytes "al") eq_refl) as (Hrun & _).
  eexists. split; [exact Hrun|]. vm_compute. reflexivity.
Defined.

(** ** Statistics of a large-object table *)

Lemma sum_perm (l l' : list Z) : Permutation l l' -> ToastInfo.sum l = ToastInfo.sum l'.
Proof. unfold ToastInfo.sum. induction 1; cbn [foldr]; lia. Qed.

Lemma sum_lower (b : Z) (l : list Z) :
  Forall (fun x => b <= x) l -> b * len l <= ToastInfo.sum l.
Proof.
  unfold ToastInfo.sum. induction 1 as [|x l Hx _ IH]; [unfold len; cbn [length foldr]; lia|].
  rewrite len_cons. cbn [foldr]. lia.
Qed.

Lemma sizeOf_snoc (l : list Toast.TOASTChunk) (c : Toast.TOASTChunk) :
  ToastInfo.sizeOf (l ++ [c]) = ToastInfo.sizeOf l + len (Toast.Data c).
Proof. unfold ToastInfo.sizeOf. now rewrite foldl_snoc. Qed.

Lemma sizeOf_lower (l : list Toast.TOASTChunk) :
  Forall (fun c => 0 < len (Toast.Data c)) l -> len l <= ToastInfo.sizeOf l.
Proof.
  induction l as [|c l IH] using rev_ind; intros Hall; [reflexivity|].
  apply Forall_app in Hall as [Hl Hc]. apply Forall_inv in Hc.
  rewrite sizeOf_snoc, len_app. change (len [c]) with 1. specialize (IH Hl). lia.
Qed.

(** The sum of a measure over the groups of a map, and what replacing one
    group does to it. *)
Lemma groups_insert (f : list Toast.TOASTChunk -> Z)
    (m : gmap Z (list Toast.TOASTChunk)) (k : Z) (g : list Toast.TOASTChunk) :
  ToastInfo.sum (map (fun kg => f (snd kg)) (map_to_list (<[k := g]> m)))
  = ToastInfo.sum (map (fun kg => f (snd kg)) (map_to_list m))
    - from_option f 0 (m !! k) + f g.
Proof.
  assert (Hnew : Permutation (map_to_list (<[k := g]> m))
                             ((k, g) :: map_to_list (delete k m))).
  { rewrite <- insert_delete_eq. apply map_to_list_insert, lookup_delete_eq. }
  rewrite (sum_perm _ _ (Permutation_map _ Hnew)).
  destruct (m !! k) as [g0|] eqn:Hk; cbn [from_option].
  - assert (Hold : Permutation (map_to_list m) ((k, g0) :: map_to_list (delete k m))).
    { rewrite <- (insert_delete_id m k g0 Hk) at 1.
      apply map_to_list_insert, lookup_delete_eq. }
    rewrite (sum_perm _ _ (Permutation_map _ Hold)).
    unfold ToastInfo.sum. cbn [map foldr snd]. lia.
  - rewrite (delete_id m k Hk). unfold ToastInfo.sum. cbn [map foldr snd]. lia.
Qed.

(** The grouping loop keeps every chunk once, under its own value. *)
Lemma groupChunks_groups (chunks : list Toast.TOASTChunk) :
  let m := fst (ToastInfo.groupChunks chunks) in
  snd (ToastInfo.groupChunks chunks) = ToastInfo.sizeOf chunks
  /\ ToastInfo.sum (map (fun kg => len (snd kg)) (map_to_list m)) = len chunks
  /\ ToastInfo.sum (map (fun kg => ToastInfo.sizeOf (snd kg)) (map_to_list m))
     = ToastInfo.sizeOf chunks
  /\ forall k g, m !! k = Some g ->
       1 <= len g /\ forall c, In c g -> Toast.ChunkID c = k /\ In c chunks.
Proof.
  cbv zeta. unfold ToastInfo.groupChunks.
  induction chunks as [|c chunks IH] using rev_ind.
  - cbn [foldl fst snd]. rewrite map_to_list_empty.
    repeat split; try reflexivity; rewrite lookup_empty in H; discriminate.
  - rewrite foldl_snoc.
    destruct (foldl ToastInfo.groupStep (∅, 0) chunks) as [m size].
    cbn [fst snd] in IH. destruct IH as (Hsize & Hcount & Hbytes & Hgroups).
    unfold ToastInfo.groupStep. cbn [fst snd].
    rewrite !groups_insert, sizeOf_snoc, len_app, Hcount, Hbytes, Hsize.
    change (len [c]) with 1.
    split; [reflexivity|]. split; [|split].
    + destruct (m !! Toast.ChunkID c) as [g|]; unfold default; cbn [from_option id];
        rewrite len_app; change (len [c]) with 1; [lia|].
      change (len (@nil Toast.TOASTChunk)) with 0. lia.
    + destruct (m !! Toast.ChunkID c) as [g|]; unfold default; cbn [from_option id];
        rewrite sizeOf_snoc; [lia|]. change (ToastInfo.sizeOf []) with 0. lia.
    + intros k g Hg. destruct (Z.eq_dec (Toast.ChunkID c) k) as [<-|Hne].
      * rewrite lookup_insert_eq in Hg. injection Hg as <-.
        rewrite len_app. change (len [c]) with 1.
        split; [pose proof (len_nonneg (default [] (m !! Toast.ChunkID c))); lia|].
        intros c' Hc'. apply List.in_app_or in Hc' as [Hc'|[<-|[]]].
        -- destruct (m !! Toast.ChunkID c) as [g|] eqn:Hm; unfold default in Hc';
             cbn [from_option id] in Hc'; [|destruct Hc'].
           destruct (Hgroups _ _ Hm) as [_ Hin]. destruct (Hin c' Hc') as [Hid Hc].
           split; [exact Hid|]. apply List.in_or_app. now left.
        -- split; [reflexivity|]. apply List.in_or_app. right. now left.
      * rewrite lookup_insert_ne in Hg by exact Hne.
        destruct (Hgroups _ _ Hg) as [Hlen Hin]. split; [exact Hlen|].
        intros c' Hc'. destruct (Hin c' Hc') as [Hid Hc].
        split; [exact Hid|]. apply List.in_or_app. now left.
Qed.

(** The second loop: one entry per group in the order of the [range], and
    the largest group size. *)
Lemma analyse_fold (entries : list (Z * list Toast.TOASTChunk))
    (maxChunks : Z) (distribution : gmap Z Z) (values : list ToastInfo.TOASTValueInfo) :
  exists maxChunks' distribution',
    foldl ToastInfo.analyseStep (maxChunks, distribution, values) entries
    = (maxChunks', distribution', values ++ map ToastInfo.valueInfo entries)
    /\ maxChunks <= maxChunks'
    /\ Forall (fun e => len (snd e) <= maxChunks') entries.
Proof.
  revert maxChunks distribution values.
  induction entries as [|e entries IH]; intros maxChunks distribution values.
  - exists maxChunks, distribution. cbn. rewrite app_nil_r. repeat split; [lia|constructor].
  - cbn [foldl ToastInfo.analyseStep].
    destruct (IH (if maxChunks <? len (snd e) then len (snd e) else maxChunks)
                 (<[len (snd e) := default 0 (distribution !! len (snd e)) + 1]> distribution)
                 (values ++ [ToastInfo.valueInfo e]))
      as (maxChunks' & distribution' & -> & Hmax & Hall).
    exists maxChunks', distribution'. cbn [map]. rewrite <- app_assoc.
    split; [reflexivity|].
    destruct (Z.ltb_spec maxChunks (len (snd e))); (split; [lia|]);
      (constructor; [lia|exact Hall]).
Qed.

(** [GetTOASTVerboseInfo] gives nothing exactly for a table without chunks.
    Otherwise its figures add up, whatever the order in which the [range]
    loop meets the groups: there is one entry per distinct value id; the
    chunk counts of the entries add up to the number of chunks and their
    sizes to the total size; every entry has at least one chunk and at most
    [MaxChunksPerValue]; and there are at least one value, at least as many
    chunks as values, and at least as many bytes as chunks. *)
Theorem GetTOASTVerboseInfo_totals `{C : Heap.Collaborators}
    (rangeValues : gmap Z (list Toast.TOASTChunk) -> list (Z * list Toast.TOASTChunk))
    (toastRelID : Z) (data : list byte) :
  (forall m, Permutation (rangeValues m) (map_to_list m)) ->
  (ToastInfo.GetTOASTVerboseInfo rangeValues toastRelID data = None
   <-> ToastRead.ReadTOASTTable data = [])
  /\ forall info, ToastInfo.GetTOASTVerboseInfo rangeValues toastRelID data = Some info ->
       ToastInfo.TotalChunks info = len (ToastRead.ReadTOASTTable data)
       /\ ToastInfo.TotalSize_ info = ToastInfo.sizeOf (ToastRead.ReadTOASTTable data)
       /\ 1 <= ToastInfo.UniqueValues info <= ToastInfo.TotalChunks info
       /\ ToastInfo.TotalChunks info <= ToastInfo.TotalSize_ info
       /\ len (ToastInfo.Values info) = ToastInfo.UniqueValues info
       /\ NoDup (map ToastInfo.ChunkID (ToastInfo.Values info))
       /\ ToastInfo.sum (map ToastInfo.NumChunks (ToastInfo.Values info))
          = ToastInfo.TotalChunks info
       /\ ToastInfo.sum (map ToastInfo.TotalSize (ToastInfo.Values info))
          = ToastInfo.TotalSize_ info
       /\ Forall (fun v => 1 <= ToastInfo.NumChunks v <= ToastInfo.MaxChunksPerValue info
                           /\ exists c, In c (ToastRead.ReadTOASTTable data)
                                        /\ Toast.ChunkID c = ToastInfo.ChunkID v)
                 (ToastInfo.Values info).
Proof.
  intros Hrange. unfold ToastInfo.GetTOASTVerboseInfo.
  set (chunks := ToastRead.ReadTOASTTable data).
  assert (Hdata : Forall (fun c => 0 < len (Toast.Data c)) chunks).
  { apply List.Forall_forall. intros c Hc. apply list_elem_of_In in Hc.
    unfold chunks, ToastRead.ReadTOASTTable in Hc.
    apply list_elem_of_omap in Hc as (entry & _ & Hentry).
    destruct (Heap.Tuple entry) as [tuple|]; [|discriminate].
    cbn in Hentry. exact (proj1 (chunkOfTuple_data tuple c Hentry)). }
  destruct (Z.eqb_spec (len chunks) 0) as [Hnone|Hsome].
  { split; [|discriminate]. split; [intros _|reflexivity].
    destruct chunks; [reflexivity|]. rewrite len_cons in Hnone.
    pose proof (len_nonneg chunks). lia. }
  split.
  { destruct (ToastInfo.groupChunks chunks) as [m total].
    destruct (foldl ToastInfo.analyseStep _ _) as [[? ?] ?].
    split; [discriminate|]. intros Hnil. rewrite Hnil in Hsome. now contradiction Hsome. }
  pose proof (groupChunks_groups chunks) as Hgroups. cbv zeta in Hgroups.
  destruct (ToastInfo.groupChunks chunks) as [m total]. cbn [fst snd] in Hgroups.
  destruct Hgroups as (Hsize & Hcount & Hbytes & Hgroup).
  destruct (analyse_fold (rangeValues m) 0 ∅ []) as (maxChunks & distribution & -> & _ & Hmax).
  cbn [app]. intros info [= <-].
  cbn [ToastInfo.TotalChunks ToastInfo.TotalSize_ ToastInfo.UniqueValues ToastInfo.Values
       ToastInfo.MaxChunksPerValue].
  pose proof (Hrange m) as Hperm.
  assert (Hgroup' : forall e, In e (rangeValues m) ->
            1 <= len (snd e)
            /\ forall c, In c (snd e) -> Toast.ChunkID c = fst e /\ In c chunks).
  { intros [k g] He. apply (Permutation_in _ Hperm) in He.
    apply list_elem_of_In, elem_of_map_to_list in He. exact (Hgroup k g He). }
  assert (Hvalues : len (map ToastInfo.valueInfo (rangeValues m)) = Z.of_nat (size m)).
  { unfold len. rewrite length_map, (Permutation_length Hperm), length_map_to_list.
    reflexivity. }
  assert (Hnum : ToastInfo.sum (map ToastInfo.NumChunks
                                    (map ToastInfo.valueInfo (rangeValues m)))
                 = len chunks).
  { rewrite List.map_map. cbn [ToastInfo.valueInfo ToastInfo.NumChunks].
    rewrite (sum_perm _ _ (Permutation_map _ Hperm)). exact Hcount. }
  assert (Hones : Forall (fun x => 1 <= x)
                    (map ToastInfo.NumChunks (map ToastInfo.valueInfo (rangeValues m)))).
  { rewrite List.map_map. apply List.Forall_forall. intros x Hx.
    apply List.in_map_iff in Hx as (e & <- & He). exact (proj1 (Hgroup' e He)). }
  pose proof (sum_lower 1 _ Hones) as Hlower.
  rewrite Hnum in Hlower. unfold len in Hlower at 1. rewrite !length_map in Hlower.
  rewrite (Permutation_length Hperm), length_map_to_list in Hlower.
  assert (Hnonempty : 1 <= Z.of_nat (size m)).
  { destruct (size m) eqn:Hzero; [|lia]. exfalso.
    apply map_size_empty_iff in Hzero. subst m.
    rewrite map_to_list_empty in Hcount. cbn in Hcount. lia. }
  split; [reflexivity|]. split; [exact Hsize|]. split; [lia|].
  split; [rewrite Hsize; now apply sizeOf_lower|].
  split; [exact Hvalues|]. split; [|split; [exact Hnum|split]].
  - rewrite List.map_map. cbn [ToastInfo.valueInfo ToastInfo.ChunkID].
    change (map (fun x : Z * list Toast.TOASTChunk => fst x) (rangeValues m))
      with ((rangeValues m).*1).
    rewrite Hperm. apply NoDup_fst_map_to_list.
  - rewrite List.map_map. cbn [ToastInfo.valueInfo ToastInfo.TotalSize].
    rewrite (sum_perm _ _ (Permutation_map _ Hperm)), Hsize. exact Hbytes.
  - apply List.Forall_forall. intros v Hv.
    apply List.in_map_iff in Hv as (e & <- & He).
    cbn [ToastInfo.valueInfo ToastInfo.NumChunks ToastInfo.ChunkID].
    destruct (Hgroup' e He) as [Hlen Hin].
    rewrite List.Forall_forall in Hmax. split; [split; [exact Hlen|exact (Hmax e He)]|].
    destruct (snd e) as [|c g] eqn:Hg; [change (len (@nil Toast.TOASTChunk)) with 0 in Hlen; lia|].
    exists c. destruct (Hin c ltac:(now left)) as [Hid Hc]. auto.
Qed.

Lemma GetTOASTVerboseInfo_totals_witness :
  exists info,
    ToastInfo.GetTOASTVerboseInfo (C := ToastInfo.chunkCollaborators) map_to_list 16500
      Heap.onePage = Some info
    /\ ToastInfo.TotalChunks info = 3
    /\ ToastInfo.UniqueValues info = 2
    /\ ToastInfo.sum (map ToastInfo.NumChunks (ToastInfo.Values info))
       = ToastInfo.TotalChunks info.
Proof.
  destruct (@GetTOASTVerboseInfo_totals ToastInfo.chunkCollaborators map_to_list 16500
              Heap.onePage ltac:(reflexivity)) as [_ Hsome].
  eexists. split; [reflexivity|]. split; [reflexivity|]. split; [reflexivity|].
  refine (proj1 (proj2 (proj2 (proj2 (proj2 (proj2 (proj2 (Hsome _ eq_refl)))))))).
Defined.

(** ** Relations stored in several segment files *)

Lemma int64_small (x : Z) : - 2 ^ 63 <= x < 2 ^ 63 -> MultiSegment.int64 x = x.
Proof.
  intros Hx. unfold MultiSegment.int64, Sequence.int64_of_uint64, wrap64.
  destruct (Z.ltb_spec (x mod 2 ^ 64) (2 ^ 63)) as [Hlow|Hhigh].
  - destruct (Z.neg_nonneg_cases x) as [Hneg|Hpos].
    + rewrite <- (Z.mod_add x 1) in Hlow by lia. rewrite Z.mod_small in Hlow by lia. lia.
    + rewrite Z.mod_small by lia. reflexivity.
  - destruct (Z.neg_nonneg_cases x) as [Hneg|Hpos].
    + rewrite <- (Z.mod_add x 1) by lia. rewrite Z.mod_small by lia. lia.
    + rewrite Z.mod_small in Hhigh by lia. lia.
Qed.

Lemma pageAt_app_head (block rest : list byte) :
  len block = PageSize -> SegmentIO.pageAt (block ++ rest) 0 = block.
Proof.
  intros Hlen. unfold SegmentIO.pageAt, len, PageSize in *.
  change (Z.to_nat (0 * 8192)) with 0%nat. cbn [drop].
  apply take_app_length'. lia.
Qed.

Lemma pageAt_app_tail (block rest : list byte) (j : Z) :
  len block = PageSize -> 0 <= j ->
  SegmentIO.pageAt (block ++ rest) (j + 1) = SegmentIO.pageAt rest j.
Proof.
  intros Hlen Hj. unfold SegmentIO.pageAt, len, PageSize in *.
  replace (Z.to_nat ((j + 1) * 8192)) with (length block + Z.to_nat (j * 8192))%nat by lia.
  now rewrite drop_app_add.
Qed.

(** The loop stops at the block [b] without a page. *)
Ltac stop_at b :=
  exists 0, (@nil byte); rewrite app_nil_r;
  split; [reflexivity|]; split; [lia|]; split; [reflexivity|];
  split; [intros ? ?; lia|]; intros _; replace (b + 0) with b by lia.

Section SegmentFacts.

Variable files : string -> option (list byte).

(** The sizes of files are 64-bit numbers. *)
Hypothesis sizes : forall path content, files path = Some content -> len content < 2 ^ 63.

(** What [ReadSegmentBlock] gives for a block number that is not negative:
    the whole page of that number, when the file has it. *)
Lemma ReadSegmentBlock_page (path : string) (blockNum : Z)
    (opts : option MultiSegment.SegmentOptions) :
  0 <= blockNum ->
  match files path with
  | None => MultiSegment.ReadSegmentBlock files path blockNum opts = inl MultiSegment.StatError
  | Some content =>
      if Z.quot (len content) PageSize <=? blockNum
      then exists e, MultiSegment.ReadSegmentBlock files path blockNum opts = inl e
      else MultiSegment.ReadSegmentBlock files path blockNum opts
           = inr (SegmentIO.pageAt content blockNum)
           /\ len (SegmentIO.pageAt content blockNum) = PageSize
  end.
Proof.
  intros Hblock. unfold MultiSegment.ReadSegmentBlock, MultiSegment.GetSegmentInfo.
  destruct (files path) as [content|] eqn:Hfile; [|reflexivity].
  cbn [mbind option_bind MultiSegment.infoOf MultiSegment.TotalBlocks].
  pose proof (sizes path content Hfile) as Hsize. pose proof (len_nonneg content) as Hlen.
  destruct (Z.leb_spec (Z.quot (len content) PageSize) blockNum) as [Hout|Hin];
    [eexists; reflexivity|].
  rewrite Z.quot_div_nonneg in Hin by (unfold PageSize; lia).
  pose proof (Z.mul_div_le (len content) PageSize ltac:(unfold PageSize; lia)) as Hle.
  assert (Hfull : len (SegmentIO.pageAt content blockNum) = PageSize)
    by (apply pageAt_full; lia).
  rewrite int64_small by (unfold PageSize in *; lia).
  destruct (Z.ltb_spec (blockNum * PageSize) 0) as [Hneg|_]; [unfold PageSize in *; lia|].
  fold (SegmentIO.pageAt content blockNum). rewrite Hfull.
  split; reflexivity.
Qed.



(** The loop of [ReadMultiSegmentFile] from a block number that is not
    negative: whole pages, each the page of its block number in the file of
    the segment entry its number selects, up to the first block that is not
    there. *)
Lemma blocksLoop_pages (segments : list MultiSegment.SegmentInfo) (perSegment : Z)
    (opts : option MultiSegment.SegmentOptions) (n : nat) :
  1 <= perSegment ->
  forall (blockNum : Z) (result : list byte), 0 <= blockNum ->
    exists (k : Z) (data : list byte),
      MultiSegment.blocksLoop files n segments perSegment opts blockNum result
      = inr (result ++ data)
      /\ 0 <= k <= Z.of_nat n
      /\ len data = k * PageSize
      /\ (forall j, 0 <= j < k ->
            exists seg content,
              segments !! Z.to_nat (Z.quot (blockNum + j) perSegment) = Some seg
              /\ files (MultiSegment.BasePath seg) = Some content
              /\ Z.rem (blockNum + j) perSegment < Z.quot (len content) PageSize
              /\ SegmentIO.pageAt data j
                 = SegmentIO.pageAt content (Z.rem (blockNum + j) perSegment))
      /\ (k < Z.of_nat n ->
          forall seg content,
            segments !! Z.to_nat (Z.quot (blockNum + k) perSegment) = Some seg ->
            files (MultiSegment.BasePath seg) = Some content ->
            Z.quot (len content) PageSize <= Z.rem (blockNum + k) perSegment).
Proof.
  intros Hper. induction n as [|n IH]; intros blockNum result Hblock.
  { exists 0, []. cbn [MultiSegment.blocksLoop]. rewrite app_nil_r.
    repeat split; try reflexivity; lia. }
  cbn [MultiSegment.blocksLoop].
  destruct (Z.eqb_spec perSegment 0) as [|_]; [lia|].
  pose proof (Z.quot_pos blockNum perSegment Hblock ltac:(lia)) as Hidx.
  pose proof (Z.rem_nonneg blockNum perSegment ltac:(lia) Hblock) as Hlocal.
  destruct (Z.leb_spec (len segments) (Z.quot blockNum perSegment)) as [Hpast|Hlisted].
  { stop_at blockNum. intros seg content Hseg.
    apply lookup_lt_Some in Hseg. unfold len in Hpast. lia. }
  destruct (Z.ltb_spec (Z.quot blockNum perSegment) 0) as [|_]; [lia|].
  destruct (segments !! Z.to_nat (Z.quot blockNum perSegment)) as [seg|] eqn:Hseg.
  2:{ apply lookup_ge_None in Hseg. unfold len in Hlisted. lia. }
  pose proof (ReadSegmentBlock_page (MultiSegment.BasePath seg)
                (Z.rem blockNum perSegment) opts Hlocal) as Hread.
  destruct (files (MultiSegment.BasePath seg)) as [content|] eqn:Hfile.
  2:{ rewrite Hread. stop_at blockNum. intros seg' content' Hseg' Hfile'.
      rewrite Hseg in Hseg'. injection Hseg' as <-. congruence. }
  destruct (Z.leb_spec (Z.quot (len content) PageSize) (Z.rem blockNum perSegment))
    as [Hout|Hin].
  { destruct Hread as [e ->]. stop_at blockNum.
    intros seg' content' Hseg' Hfile'. rewrite Hseg in Hseg'. injection Hseg' as <-.
    rewrite Hfile in Hfile'. injection Hfile' as <-. exact Hout. }
  destruct Hread as [-> Hfull].
  destruct (IH (blockNum + 1) (result ++ SegmentIO.pageAt content (Z.rem blockNum perSegment))
              ltac:(lia)) as (k & data & -> & Hk & Hlen & Hpages & Hstop).
  exists (k + 1), (SegmentIO.pageAt content (Z.rem blockNum perSegment) ++ data).
  rewrite <- app_assoc. split; [reflexivity|]. split; [lia|].
  split; [rewrite len_app, Hfull, Hlen; lia|]. split.
  - intros j Hj. destruct (Z.eq_dec j 0) as [->|Hpos].
    + exists seg, content. replace (blockNum + 0) with blockNum by lia.
      rewrite (pageAt_app_head _ _ Hfull). auto.
    + destruct (Hpages (j - 1) ltac:(lia)) as (seg' & content' & Hseg' & Hfile' & Hin' & Hpage).
      replace (blockNum + 1 + (j - 1)) with (blockNum + j) in * by lia.
      pose proof (pageAt_app_tail (SegmentIO.pageAt content (Z.rem blockNum perSegment)) data
                    (j - 1) Hfull ltac:(lia)) as Htail.
      replace (j - 1 + 1) with j in Htail by lia.
      exists seg', content'. rewrite Htail. auto.
  - intros Hmore seg' content'.
    replace (blockNum + (k + 1)) with (blockNum + 1 + k) by lia. apply Hstop. lia.
Qed.

End SegmentFacts.



(** [ReadMultiSegmentFile] from a block number that is not negative, with at
    least one block per segment: it fails exactly when [ListSegments] finds
    nothing, and otherwise returns whole pages, one for each of the block
    numbers [start], [start + 1], ... up to the first block that is not
    there or to [end].  The page for the block number [b] is the page
    [b % blocksPerSegment] of the file of the list entry at index
    [b / blocksPerSegment]. *)
Theorem ReadMultiSegmentFile_pages (files : string -> option (list byte))
    (basePath : string) (globalBlockStart globalBlockEnd : Z)
    (opts : option MultiSegment.SegmentOptions) :
  (forall path content, files path = Some content -> len content < 2 ^ 63) ->
  0 <= globalBlockStart ->
  1 <= MultiSegment.blocksPerSegment opts ->
  let segments := MultiSegment.ListSegments files basePath in
  let perSegment := MultiSegment.blocksPerSegment opts in
  (segments = [] ->
   MultiSegment.ReadMultiSegmentFile files basePath globalBlockStart globalBlockEnd opts
   = inr (inl (MultiSegment.NoSegments basePath)))
  /\ (segments <> [] ->
      exists (k : Z) (data : list byte),
        MultiSegment.ReadMultiSegmentFile files basePath globalBlockStart globalBlockEnd opts
        = inr (inr data)
        /\ 0 <= k /\ (k = 0 \/ k <= globalBlockEnd - globalBlockStart + 1)
        /\ len data = k * PageSize
        /\ (forall j, 0 <= j < k ->
              exists seg content,
                segments !! Z.to_nat (Z.quot (globalBlockStart + j) perSegment) = Some seg
                /\ files (MultiSegment.BasePath seg) = Some content
                /\ Z.rem (globalBlockStart + j) perSegment < Z.quot (len content) PageSize
                /\ SegmentIO.pageAt data j
                   = SegmentIO.pageAt content (Z.rem (globalBlockStart + j) perSegment))
        /\ (k < globalBlockEnd - globalBlockStart + 1 ->
            forall seg content,
              segments !! Z.to_nat (Z.quot (globalBlockStart + k) perSegment) = Some seg ->
              files (MultiSegment.BasePath seg) = Some content ->
              Z.quot (len content) PageSize <= Z.rem (globalBlockStart + k) perSegment)).
Proof.
  intros Hsizes Hstart Hper. cbv zeta. unfold MultiSegment.ReadMultiSegmentFile. split.
  - intros ->. reflexivity.
  - intros Hsome.
    destruct (Z.eqb_spec (len (MultiSegment.ListSegments files basePath)) 0) as [Hzero|_].
    { destruct (MultiSegment.ListSegments files basePath) as [|seg l]; [congruence|].
      rewrite len_cons in Hzero. pose proof (len_nonneg l). lia. }
    destruct (blocksLoop_pages files Hsizes (MultiSegment.ListSegments files basePath)
                (MultiSegment.blocksPerSegment opts) opts
                (Z.to_nat (globalBlockEnd - globalBlockStart + 1)) Hper
                globalBlockStart [] Hstart)
      as (k & data & -> & Hk & Hlen & Hpages & Hstop).
    exists k, data. cbn [app]. split; [reflexivity|]. split; [lia|]. split; [lia|].
    split; [exact Hlen|]. split; [exact Hpages|]. intros Hmore. apply Hstop. lia.
Qed.

Lemma ReadMultiSegmentFile_pages_witness :
  exists (k : Z) (data : list byte),
    MultiSegment.ReadMultiSegmentFile MultiSegment.threePagesInTwoFiles "16384" 1 5
      MultiSegment.twoPageSegments = inr (inr data)
    /\ len data = k * PageSize
    /\ (k < 5 - 1 + 1 ->
        forall seg content,
          MultiSegment.ListSegments MultiSegment.threePagesInTwoFiles "16384"
            !! Z.to_nat (Z.quot (1 + k) (MultiSegment.blocksPerSegment MultiSegment.twoPageSegments))
          = Some seg ->
          MultiSegment.threePagesInTwoFiles (MultiSegment.BasePath seg) = Some content ->
          Z.quot (len content) PageSize
          <= Z.rem (1 + k) (MultiSegment.blocksPerSegment MultiSegment.twoPageSegments)).
Proof.
  assert (Hsizes : forall path content,
            MultiSegment.threePagesInTwoFiles path = Some content -> len content < 2 ^ 63).
  { intros path content. unfold MultiSegment.threePagesInTwoFiles.
    destruct (String.eqb path "16384"); [intros [= <-]; vm_compute; reflexivity|].
    destruct (String.eqb path "16384.1"); [intros [= <-]; vm_compute; reflexivity|].
    discriminate. }
  destruct (proj2 (@ReadMultiSegmentFile_pages MultiSegment.threePagesInTwoFiles "16384" 1 5
                     MultiSegment.twoPageSegments Hsizes ltac:(lia)
                     ltac:(vm_compute; discriminate)) ltac:(vm_compute; discriminate))
    as (k & data & Hrun & _ & _ & Hlen & _ & Hstop).
  exists k, data. split; [exact Hrun|]. split; [exact Hlen|exact Hstop].
Defined.

(** The ways [ReadMultiSegmentFile] goes wrong once there is a segment and
    the range is not empty: a segment size between 1 and 8191 bytes gives no
    block per segment and the first division panics; a start block at or
    below [- blocksPerSegment] gives a negative index into the list of
    segments, which panics; a start block between [- blocksPerSegment] and 0
    is refused by the seek, so that the loop stops at once and the result is
    empty, without an error. *)
Theorem ReadMultiSegmentFile_faults (files : string -> option (list byte))
    (basePath : string) (globalBlockStart globalBlockEnd : Z)
    (opts : option MultiSegment.SegmentOptions) :
  MultiSegment.ListSegments files basePath <> [] ->
  globalBlockStart <= globalBlockEnd ->
  MultiSegment.segmentSizeOf opts < 2 ^ 63 ->
  let perSegment := MultiSegment.blocksPerSegment opts in
  (perSegment = 0 <-> 0 < MultiSegment.segmentSizeOf opts < PageSize)
  /\ (perSegment = 0 ->
      MultiSegment.ReadMultiSegmentFile files basePath globalBlockStart globalBlockEnd opts
      = inl SegmentIO.IntegerDivideByZero)
  /\ (1 <= perSegment -> globalBlockStart <= - perSegment ->
      MultiSegment.ReadMultiSegmentFile files basePath globalBlockStart globalBlockEnd opts
      = inl SegmentIO.IndexOutOfRange)
  /\ (1 <= perSegment -> - perSegment < globalBlockStart < 0 ->
      MultiSegment.ReadMultiSegmentFile files basePath globalBlockStart globalBlockEnd opts
      = inr (inr [])).
Proof.
  intros Hsome Hrange Hsize. cbv zeta.
  assert (Hpos : 0 < MultiSegment.segmentSizeOf opts).
  { unfold MultiSegment.segmentSizeOf, SegmentIO.DefaultSegmentSize.
    destruct opts as [o|]; [|lia]. destruct (Z.ltb_spec 0 (MultiSegment.OptSegmentSize o)); lia. }
  assert (Hlen : (len (MultiSegment.ListSegments files basePath) =? 0) = false).
  { destruct (MultiSegment.ListSegments files basePath) as [|seg l]; [congruence|].
    rewrite len_cons. pose proof (len_nonneg l). lia. }
  assert (Hfuel : exists n, Z.to_nat (globalBlockEnd - globalBlockStart + 1) = S n).
  { exists (Z.to_nat (globalBlockEnd - globalBlockStart)). lia. }
  destruct Hfuel as [n Hfuel].
  unfold MultiSegment.ReadMultiSegmentFile. rewrite Hlen, Hfuel.
  cbn [MultiSegment.blocksLoop].
  set (perSegment := MultiSegment.blocksPerSegment opts).
  assert (Hquot : perSegment = MultiSegment.segmentSizeOf opts / PageSize).
  { unfold perSegment, MultiSegment.blocksPerSegment.
    apply Z.quot_div_nonneg; unfold PageSize; lia. }
  assert (Hbound : 0 <= perSegment < 2 ^ 50).
  { rewrite Hquot. unfold PageSize. split; [apply Z.div_pos; lia|].
    apply Z.div_lt_upper_bound; lia. }
  split; [|split; [|split]].
  - rewrite Hquot. unfold PageSize. split.
    + intros Hzero. apply Z.div_small_iff in Hzero; lia.
    + intros Hsmall. apply Z.div_small. lia.
  - intros ->. reflexivity.
  - intros Hper Hlow. destruct (Z.eqb_spec perSegment 0) as [|_]; [lia|].
    assert (Hidx : Z.quot globalBlockStart perSegment < 0).
    { rewrite <- (Z.opp_involutive globalBlockStart), Z.quot_opp_l by lia.
      pose proof (Z.quot_le_mono perSegment (- globalBlockStart) perSegment ltac:(lia) ltac:(lia)).
      rewrite Z.quot_same in H by lia. lia. }
    pose proof (len_nonneg (MultiSegment.ListSegments files basePath)).
    destruct (Z.leb_spec (len (MultiSegment.ListSegments files basePath))
                (Z.quot globalBlockStart perSegment)); [lia|].
    destruct (Z.ltb_spec (Z.quot globalBlockStart perSegment) 0); [reflexivity|lia].
  - intros Hper Hneg. destruct (Z.eqb_spec perSegment 0) as [|_]; [lia|].
    assert (Hidx : Z.quot globalBlockStart perSegment = 0).
    { rewrite <- (Z.opp_involutive globalBlockStart), Z.quot_opp_l by lia.
      rewrite Z.quot_small by lia. reflexivity. }
    assert (Hlocal : Z.rem globalBlockStart perSegment = globalBlockStart).
    { rewrite <- (Z.opp_involutive globalBlockStart), Z.rem_opp_l by lia.
      rewrite Z.rem_small by lia. reflexivity. }
    rewrite Hidx, Hlocal.
    destruct (MultiSegment.ListSegments files basePath) as [|seg l]; [congruence|].
    rewrite len_cons. pose proof (len_nonneg l).
    destruct (Z.leb_spec (1 + len l) 0); [lia|].
    cbn [Z.ltb Z.compare]. change ((seg :: l) !! Z.to_nat 0) with (Some seg). cbv iota.
    unfold MultiSegment.ReadSegmentBlock, MultiSegment.GetSegmentInfo.
    destruct (files (MultiSegment.BasePath seg)) as [content|];
      cbn [mbind option_bind MultiSegment.infoOf MultiSegment.TotalBlocks]; [|reflexivity].
    pose proof (len_nonneg content) as Hcontent.
    pose proof (Z.quot_pos (len content) PageSize Hcontent ltac:(unfold PageSize; lia)).
    destruct (Z.leb_spec (Z.quot (len content) PageSize) globalBlockStart); [lia|].
    rewrite int64_small by (unfold PageSize; lia).
    destruct (Z.ltb_spec (globalBlockStart * PageSize) 0); [reflexivity|].
    unfold PageSize in *. lia.
Qed.

Lemma ReadMultiSegmentFile_faults_witness :
  MultiSegment.ReadMultiSegmentFile MultiSegment.threePagesInTwoFiles "16384" (-2) 5
    MultiSegment.twoPageSegments = inl SegmentIO.IndexOutOfRange
  /\ MultiSegment.ReadMultiSegmentFile MultiSegment.threePagesInTwoFiles "16384" (-1) 5
       MultiSegment.twoPageSegments = inr (inr []).
Proof.
  pose proof (@ReadMultiSegmentFile_faults MultiSegment.threePagesInTwoFiles "16384" (-2) 5
                MultiSegment.twoPageSegments ltac:(vm_compute; discriminate) ltac:(lia)
                ltac:(vm_compute; reflexivity)) as Hlow.
  pose proof (@ReadMultiSegmentFile_faults MultiSegment.threePagesInTwoFiles "16384" (-1) 5
                MultiSegment.twoPageSegments ltac:(vm_compute; discriminate) ltac:(lia)
                ltac:(vm_compute; reflexivity)) as Hnear.
  cbv zeta in Hlow, Hnear. split.
  - apply (proj1 (proj2 (proj2 Hlow))); vm_compute; [discriminate|discriminate].
  - apply (proj2 (proj2 (proj2 Hnear))); vm_compute; [discriminate|split; reflexivity].
Defined.

(** ** The offsets at which the columns are read *)

Section AlignedReads.

Context `{C : Heap.Collaborators}.







End AlignedReads.

